(** * TreeBillboardsApp: frame-resource ring, update stage and draw stage

    A shallow embedding of [Week7-2-TreeBillboardsApp.cpp] and the
    properties of its per-frame pipeline.

    Conventions of the embedding.
    - [int] and [UINT] values are integers of [Z]; the places where the
      source does arithmetic on them go through [wrap_int] / [wrap_UINT].
    - [float] values are rationals of [Q].  The scroll of the water
      texture, whose result depends on it, rounds every operation to
      binary32 ([fl32]); elsewhere a float operation is the exact one.
    - A pointer into a container is the key or the position of the
      element it points to: [Material*] is the name under which the
      material sits in [mMaterials], [MeshGeometry*] the name in
      [mGeometries], [RenderItem*] the position in [mAllRitems],
      [FrameResource*] the position in [mFrameResources].
    - Dereferencing a null or dangling pointer and writing outside a
      buffer are faults: the operation returns [None].
    - Objects of classes that are not part of the translation unit
      ([Camera], [Waves], the command list and the command queue) are
      represented by the sequence of calls made on them. *)

From Stdlib Require Import ZArith QArith Qround Qabs Qpower Lia Lqa.
From stdpp Require Import gmap strings list fin_maps option.

Open Scope Z_scope.

(* ================================================================== *)
(** ** Machine integers *)

(** A value stored into an [int] (32 bits, two's complement). *)
Definition wrap_int (z : Z) : Z := (z + 2 ^ 31) mod 2 ^ 32 - 2 ^ 31.

(** A value stored into a [UINT] (32 bits, unsigned). *)
Definition wrap_UINT (z : Z) : Z := z mod 2 ^ 32.

(** A value stored into a [std::uint16_t]. *)
Definition wrap_uint16 (z : Z) : Z := z mod 2 ^ 16.

(** [const int gNumFrameResources = 3;] *)
Definition gNumFrameResources : Z := 3.

(** [SwapChainBufferCount] of [D3DApp]. *)
Definition SwapChainBufferCount : Z := 2.

(* ================================================================== *)
(** ** DirectXMath values *)

Definition XMFLOAT2 : Type := Q * Q.
Definition XMFLOAT3 : Type := Q * Q * Q.
Definition XMFLOAT4 : Type := Q * Q * Q * Q.

(** [XMFLOAT4X4]: sixteen floats, [mRC] is row [R], column [C]
    (the members [_11] .. [_44] of the struct, counted from 0). *)
Record XMFLOAT4X4 := Mat4 {
  m00 : Q; m01 : Q; m02 : Q; m03 : Q;
  m10 : Q; m11 : Q; m12 : Q; m13 : Q;
  m20 : Q; m21 : Q; m22 : Q; m23 : Q;
  m30 : Q; m31 : Q; m32 : Q; m33 : Q
}.

(** [M(Row, Column)], the element access operator of [XMFLOAT4X4]. *)
Definition mat_get (M : XMFLOAT4X4) (r c : nat) : Q :=
  match r, c with
  | 0, 0 => m00 M | 0, 1 => m01 M | 0, 2 => m02 M | 0, 3 => m03 M
  | 1, 0 => m10 M | 1, 1 => m11 M | 1, 2 => m12 M | 1, 3 => m13 M
  | 2, 0 => m20 M | 2, 1 => m21 M | 2, 2 => m22 M | 2, 3 => m23 M
  | 3, 0 => m30 M | 3, 1 => m31 M | 3, 2 => m32 M | 3, 3 => m33 M
  | _, _ => 0%Q
  end%nat.

Definition mat_of (f : nat -> nat -> Q) : XMFLOAT4X4 :=
  (Mat4 (f 0 0) (f 0 1) (f 0 2) (f 0 3)
        (f 1 0) (f 1 1) (f 1 2) (f 1 3)
        (f 2 0) (f 2 1) (f 2 2) (f 2 3)
        (f 3 0) (f 3 1) (f 3 2) (f 3 3))%nat.

(** Assignment through the reference [M(Row, Column)]. *)
Definition mat_set (M : XMFLOAT4X4) (r c : nat) (v : Q) : XMFLOAT4X4 :=
  mat_of (fun i j => if (Nat.eqb i r && Nat.eqb j c)%bool then v else mat_get M i j).

(** [MathHelper::Identity4x4()]. *)
Definition Identity4x4 : XMFLOAT4X4 :=
  mat_of (fun i j => if Nat.eqb i j then 1%Q else 0%Q).

Definition XMMatrixScaling (sx sy sz : Q) : XMFLOAT4X4 :=
  Mat4 sx 0 0 0
       0 sy 0 0
       0 0 sz 0
       0 0 0 1.

Definition XMMatrixTranslation (x y z : Q) : XMFLOAT4X4 :=
  Mat4 1 0 0 0
       0 1 0 0
       0 0 1 0
       x y z 1.

Definition XMMatrixMultiply (A B : XMFLOAT4X4) : XMFLOAT4X4 :=
  mat_of (fun i j =>
    Qred (mat_get A i 0%nat * mat_get B 0%nat j + mat_get A i 1%nat * mat_get B 1%nat j
        + mat_get A i 2%nat * mat_get B 2%nat j + mat_get A i 3%nat * mat_get B 3%nat j)%Q).

Definition XMMatrixTranspose (M : XMFLOAT4X4) : XMFLOAT4X4 :=
  mat_of (fun i j => mat_get M j i).

(** [XM_PI] is the float constant [3.141592654f]. *)
Definition XM_PI : Q := (3141592654 # 1000000000)%Q.

(** [XMConvertToRadians(fDegrees) = fDegrees * (XM_PI / 180.0f)]. *)
Definition XMConvertToRadians (fDegrees : Q) : Q := (fDegrees * (XM_PI / 180))%Q.

(* ================================================================== *)
(** ** Data model *)

(** [enum class RenderLayer : int]; [Count] is the number of layers and
    names no layer. *)
Inductive RenderLayer := Opaque | Transparent | AlphaTested | AlphaTestedTreeSprites.

#[global] Instance RenderLayer_eq_dec : EqDecision RenderLayer.
Proof. solve_decision. Defined.

Inductive D3D12_PRIMITIVE_TOPOLOGY :=
  D3D_PRIMITIVE_TOPOLOGY_TRIANGLELIST | D3D_PRIMITIVE_TOPOLOGY_POINTLIST.

(** Modelled from the spec: [Material] is declared in d3dUtil.h, which
    is not among the sources. The fields are the ones the translation
    unit reads and writes; a material "holds albedo, Fresnel term,
    roughness, a texture-array slot index, a 2D transform and its own
    DirtyCount", the latter "initialized to N on creation". *)
Module Material.
Record t := mk {
  Name : string;
  MatCBIndex : Z;
  DiffuseSrvHeapIndex : Z;
  NumFramesDirty : Z;
  DiffuseAlbedo : XMFLOAT4;
  FresnelR0 : XMFLOAT3;
  Roughness : Q;
  MatTransform : XMFLOAT4X4
}.

Definition default : t :=
  mk "" (-1) (-1) gNumFrameResources (1, 1, 1, 1)%Q (1 # 100, 1 # 100, 1 # 100)%Q
     (1 # 4)%Q Identity4x4.

Definition set_NumFramesDirty (n : Z) (m : t) : t :=
  mk (Name m) (MatCBIndex m) (DiffuseSrvHeapIndex m) n (DiffuseAlbedo m)
     (FresnelR0 m) (Roughness m) (MatTransform m).

Definition set_MatTransform (M : XMFLOAT4X4) (m : t) : t :=
  mk (Name m) (MatCBIndex m) (DiffuseSrvHeapIndex m) (NumFramesDirty m)
     (DiffuseAlbedo m) (FresnelR0 m) (Roughness m) M.
End Material.

(** [struct RenderItem]. [Mat] and [Geo] are [None] for [nullptr]. *)
Module RenderItem.
Record t := mk {
  World : XMFLOAT4X4;
  TexTransform : XMFLOAT4X4;
  NumFramesDirty : Z;
  ObjCBIndex : Z;
  Mat : option string;
  Geo : option string;
  PrimitiveType : D3D12_PRIMITIVE_TOPOLOGY;
  IndexCount : Z;
  StartIndexLocation : Z;
  BaseVertexLocation : Z
}.

(** [RenderItem() = default] with the member initialisers;
    [UINT ObjCBIndex = -1] is [0xFFFFFFFF]. *)
Definition default : t :=
  mk Identity4x4 Identity4x4 gNumFrameResources (wrap_UINT (-1)) None None
     D3D_PRIMITIVE_TOPOLOGY_TRIANGLELIST 0 0 0.

Definition set_NumFramesDirty (n : Z) (e : t) : t :=
  mk (World e) (TexTransform e) n (ObjCBIndex e) (Mat e) (Geo e)
     (PrimitiveType e) (IndexCount e) (StartIndexLocation e) (BaseVertexLocation e).
End RenderItem.

(** Modelled from the spec: [SubmeshGeometry] and [MeshGeometry] are declared
    in d3dUtil.h, which is not among the sources: a mesh owns its buffers
    "plus a mapping from sub-mesh name to (index count, start index, base
    vertex)". *)
Record SubmeshGeometry := {
  sub_IndexCount : Z;
  sub_StartIndexLocation : Z;
  sub_BaseVertexLocation : Z
}.

(** A GPU buffer a vertex-buffer view can point to. *)
Inductive GpuResource :=
| NullResource
| DefaultBuffer (name : string)
| WavesVBResource (frame : nat).

Record MeshGeometry := {
  geo_Name : string;
  IndexBufferCPU : list Z;
  VertexBufferGPU : GpuResource;
  DrawArgs : gmap string SubmeshGeometry
}.

Definition set_VertexBufferGPU (r : GpuResource) (g : MeshGeometry) : MeshGeometry :=
  {| geo_Name := geo_Name g; IndexBufferCPU := IndexBufferCPU g;
     VertexBufferGPU := r; DrawArgs := DrawArgs g |}.

(** [geo->DrawArgs[name]]: [operator[]] of the map yields a
    value-initialised submesh for a name that is absent. *)
Definition DrawArgs_at (g : MeshGeometry) (name : string) : SubmeshGeometry :=
  default {| sub_IndexCount := 0; sub_StartIndexLocation := 0; sub_BaseVertexLocation := 0 |}
          (DrawArgs g !! name).

Record Vertex := { Pos : XMFLOAT3; Normal : XMFLOAT3; TexC : XMFLOAT2 }.

Record ObjectConstants := { oc_World : XMFLOAT4X4; oc_TexTransform : XMFLOAT4X4 }.

Record MaterialConstants := {
  mc_DiffuseAlbedo : XMFLOAT4;
  mc_FresnelR0 : XMFLOAT3;
  mc_Roughness : Q;
  mc_MatTransform : XMFLOAT4X4
}.

(** The members of [PassConstants] that [UpdateMainPassCB] computes
    without the camera; the camera matrices and the light table are
    not represented. *)
Record PassConstants := {
  NearZ : Q; FarZ : Q; pc_TotalTime : Q; pc_DeltaTime : Q;
  AmbientLight : XMFLOAT4; FogColor : XMFLOAT4
}.

(** Modelled from the spec: [UploadBuffer<T>] is declared in
    UploadBuffer.h, which is not among the sources: a CPU-writable array
    of [ElementCount] elements ("capacity"); [CopyData(i, x)] stores [x]
    into element [i]. A store outside the array is a fault. *)
Record UploadBuffer (T : Type) := {
  ElementCount : Z;
  Elements : gmap Z T
}.
Arguments ElementCount {T} _.
Arguments Elements {T} _.

Definition new_UploadBuffer {T} (elementCount : Z) : UploadBuffer T :=
  {| ElementCount := elementCount; Elements := ∅ |}.

Definition CopyData {T} (elementIndex : Z) (data : T) (b : UploadBuffer T)
  : option (UploadBuffer T) :=
  if decide (0 <= elementIndex < ElementCount b)
  then Some {| ElementCount := ElementCount b;
               Elements := <[elementIndex := data]> (Elements b) |}
  else None.

(** Modelled from the spec: [FrameResource] is declared in
    FrameResource.h, which is not among the sources: it "owns an
    object-constant buffer array, a material-constant buffer array, a
    single pass-constant buffer, a dynamic vertex buffer sized to the
    wave mesh's vertex count" and "stores the GPU fence value that must
    be reached before this slot may be reused". The fence value is "a
    monotonically increasing counter": an unbounded integer, starting
    at 0. *)
Record FrameResource := {
  PassCB : UploadBuffer PassConstants;
  ObjectCB : UploadBuffer ObjectConstants;
  MaterialCB : UploadBuffer MaterialConstants;
  WavesVB : UploadBuffer Vertex;
  Fence : Z
}.

Definition new_FrameResource (passCount objectCount materialCount waveVertCount : Z)
  : FrameResource :=
  {| PassCB := new_UploadBuffer passCount;
     ObjectCB := new_UploadBuffer objectCount;
     MaterialCB := new_UploadBuffer materialCount;
     WavesVB := new_UploadBuffer waveVertCount;
     Fence := 0 |}.

Definition set_PassCB b (fr : FrameResource) : FrameResource :=
  {| PassCB := b; ObjectCB := ObjectCB fr; MaterialCB := MaterialCB fr;
     WavesVB := WavesVB fr; Fence := Fence fr |}.
Definition set_ObjectCB b (fr : FrameResource) : FrameResource :=
  {| PassCB := PassCB fr; ObjectCB := b; MaterialCB := MaterialCB fr;
     WavesVB := WavesVB fr; Fence := Fence fr |}.
Definition set_MaterialCB b (fr : FrameResource) : FrameResource :=
  {| PassCB := PassCB fr; ObjectCB := ObjectCB fr; MaterialCB := b;
     WavesVB := WavesVB fr; Fence := Fence fr |}.
Definition set_WavesVB b (fr : FrameResource) : FrameResource :=
  {| PassCB := PassCB fr; ObjectCB := ObjectCB fr; MaterialCB := MaterialCB fr;
     WavesVB := b; Fence := Fence fr |}.
Definition set_Fence v (fr : FrameResource) : FrameResource :=
  {| PassCB := PassCB fr; ObjectCB := ObjectCB fr; MaterialCB := MaterialCB fr;
     WavesVB := WavesVB fr; Fence := v |}.

(* ================================================================== *)
(** ** Collaborators outside the translation unit *)

(** Modelled from the spec: [Waves] is declared in Waves.h, which is not
    among the sources: "a wave-field simulator: Step(dt), Disturb(row,
    col, magnitude), and position/normal accessors by vertex index, plus
    grid dimensions". The simulator is a black box: its state is the
    grid it was constructed with and the calls it has received. *)
Inductive WavesCall :=
| Waves_Disturb (i j : Z) (magnitude : Q)
| Waves_Update (dt : Q).

Record Waves := {
  RowCount : Z;
  ColumnCount : Z;
  SpatialStep : Q;
  waves_calls : list WavesCall
}.

Definition VertexCount (w : Waves) : Z := wrap_int (RowCount w * ColumnCount w).
Definition TriangleCount (w : Waves) : Z :=
  wrap_int ((RowCount w - 1) * (ColumnCount w - 1) * 2).
Definition Width (w : Waves) : Q := (inject_Z (ColumnCount w) * SpatialStep w)%Q.
Definition Depth (w : Waves) : Q := (inject_Z (RowCount w) * SpatialStep w)%Q.

Definition waves_call (c : WavesCall) (w : Waves) : Waves :=
  {| RowCount := RowCount w; ColumnCount := ColumnCount w;
     SpatialStep := SpatialStep w; waves_calls := waves_calls w ++ [c] |}.

(** [mWaves = std::make_unique<Waves>(128, 128, 1.0f, 0.03f, 4.0f, 0.2f)]
    in [Initialize]. *)
Definition initial_Waves : Waves :=
  {| RowCount := 128; ColumnCount := 128; SpatialStep := 1; waves_calls := [] |}.

(** The calls [mCamera] receives ([Camera] is declared in Camera.h). *)
Inductive CameraCall :=
| Walk (d : Q)
| Strafe (d : Q)
| Pitch (angle : Q)
| RotateY (angle : Q)
| UpdateViewMatrix.

Inductive GpuAddress :=
| PassCBAddress (frame : nat)
| ObjectCBAddress (frame : nat) (byteOffset : Z)
| MaterialCBAddress (frame : nat) (byteOffset : Z).

Inductive ResourceState := D3D12_RESOURCE_STATE_PRESENT | D3D12_RESOURCE_STATE_RENDER_TARGET.

(** The commands recorded into [mCommandList]. [CmdReset pso] stands for
    [mCommandList->Reset(allocator, pso)], which starts the recording
    with [pso] as the pipeline state. *)
Inductive Cmd :=
| CmdReset (pso : string)
| RSSetViewports
| RSSetScissorRects
| ResourceBarrier (before after : ResourceState)
| ClearRenderTargetView (color : XMFLOAT4)
| ClearDepthStencilView
| OMSetRenderTargets
| SetDescriptorHeaps
| SetGraphicsRootSignature
| SetGraphicsRootConstantBufferView (rootParameter : Z) (address : GpuAddress)
| SetGraphicsRootDescriptorTable (rootParameter : Z) (heapIndex : Z)
| SetPipelineState (pso : string)
| IASetVertexBuffers (vertexBuffer : GpuResource)
| IASetIndexBuffer (geo : string)
| IASetPrimitiveTopology (t : D3D12_PRIMITIVE_TOPOLOGY)
| DrawIndexedInstanced (indexCountPerInstance instanceCount startIndexLocation
                        baseVertexLocation startInstanceLocation : Z)
| CmdClose.

(** The calls the command queue and the swap chain receive. *)
Inductive QueueCall :=
| ExecuteCommandLists (cmds : list Cmd)
| Present
| Signal (value : Z).

(* ================================================================== *)
(** ** The application object *)

(** The data members of [TreeBillboardsApp] (and the members of
    [D3DApp] it uses: [mCurrentFence], [mCurrBackBuffer], the command
    queue), and the function-local static [t_base] of [UpdateWaves]. *)
Record App := {
  mFrameResources : list FrameResource;
  mCurrFrameResource : option nat;
  mCurrFrameResourceIndex : Z;
  mCurrentFence : Z;
  mCurrBackBuffer : Z;
  mGeometries : gmap string MeshGeometry;
  mMaterials : gmap string Material.t;
  mWavesRitem : option nat;
  mAllRitems : list RenderItem.t;
  mRitemLayer : RenderLayer -> list nat;
  mWaves : Waves;
  mMainPassCB : PassConstants;
  mCamera : list CameraCall;
  mLastMousePos : Z * Z;
  bNoClip : bool;
  t_base : Q;
  mCommandQueue : list QueueCall
}.

Definition set_mFrameResources (v : list FrameResource) (st : App) : App :=
  {| mFrameResources := v; mCurrFrameResource := mCurrFrameResource st;
     mCurrFrameResourceIndex := mCurrFrameResourceIndex st;
     mCurrentFence := mCurrentFence st; mCurrBackBuffer := mCurrBackBuffer st;
     mGeometries := mGeometries st; mMaterials := mMaterials st;
     mWavesRitem := mWavesRitem st; mAllRitems := mAllRitems st;
     mRitemLayer := mRitemLayer st; mWaves := mWaves st;
     mMainPassCB := mMainPassCB st; mCamera := mCamera st;
     mLastMousePos := mLastMousePos st; bNoClip := bNoClip st;
     t_base := t_base st; mCommandQueue := mCommandQueue st |}.
Definition set_mCurrFrameResource (v : option nat) (st : App) : App :=
  {| mFrameResources := mFrameResources st; mCurrFrameResource := v;
     mCurrFrameResourceIndex := mCurrFrameResourceIndex st;
     mCurrentFence := mCurrentFence st; mCurrBackBuffer := mCurrBackBuffer st;
     mGeometries := mGeometries st; mMaterials := mMaterials st;
     mWavesRitem := mWavesRitem st; mAllRitems := mAllRitems st;
     mRitemLayer := mRitemLayer st; mWaves := mWaves st;
     mMainPassCB := mMainPassCB st; mCamera := mCamera st;
     mLastMousePos := mLastMousePos st; bNoClip := bNoClip st;
     t_base := t_base st; mCommandQueue := mCommandQueue st |}.
Definition set_mCurrFrameResourceIndex (v : Z) (st : App) : App :=
  {| mFrameResources := mFrameResources st;
     mCurrFrameResource := mCurrFrameResource st; mCurrFrameResourceIndex := v;
     mCurrentFence := mCurrentFence st; mCurrBackBuffer := mCurrBackBuffer st;
     mGeometries := mGeometries st; mMaterials := mMaterials st;
     mWavesRitem := mWavesRitem st; mAllRitems := mAllRitems st;
     mRitemLayer := mRitemLayer st; mWaves := mWaves st;
     mMainPassCB := mMainPassCB st; mCamera := mCamera st;
     mLastMousePos := mLastMousePos st; bNoClip := bNoClip st;
     t_base := t_base st; mCommandQueue := mCommandQueue st |}.
Definition set_mCurrentFence (v : Z) (st : App) : App :=
  {| mFrameResources := mFrameResources st;
     mCurrFrameResource := mCurrFrameResource st;
     mCurrFrameResourceIndex := mCurrFrameResourceIndex st; mCurrentFence := v;
     mCurrBackBuffer := mCurrBackBuffer st; mGeometries := mGeometries st;
     mMaterials := mMaterials st; mWavesRitem := mWavesRitem st;
     mAllRitems := mAllRitems st; mRitemLayer := mRitemLayer st;
     mWaves := mWaves st; mMainPassCB := mMainPassCB st; mCamera := mCamera st;
     mLastMousePos := mLastMousePos st; bNoClip := bNoClip st;
     t_base := t_base st; mCommandQueue := mCommandQueue st |}.
Definition set_mCurrBackBuffer (v : Z) (st : App) : App :=
  {| mFrameResources := mFrameResources st;
     mCurrFrameResource := mCurrFrameResource st;
     mCurrFrameResourceIndex := mCurrFrameResourceIndex st;
     mCurrentFence := mCurrentFence st; mCurrBackBuffer := v;
     mGeometries := mGeometries st; mMaterials := mMaterials st;
     mWavesRitem := mWavesRitem st; mAllRitems := mAllRitems st;
     mRitemLayer := mRitemLayer st; mWaves := mWaves st;
     mMainPassCB := mMainPassCB st; mCamera := mCamera st;
     mLastMousePos := mLastMousePos st; bNoClip := bNoClip st;
     t_base := t_base st; mCommandQueue := mCommandQueue st |}.
Definition set_mGeometries (v : gmap string MeshGeometry) (st : App) : App :=
  {| mFrameResources := mFrameResources st;
     mCurrFrameResource := mCurrFrameResource st;
     mCurrFrameResourceIndex := mCurrFrameResourceIndex st;
     mCurrentFence := mCurrentFence st; mCurrBackBuffer := mCurrBackBuffer st;
     mGeometries := v; mMaterials := mMaterials st;
     mWavesRitem := mWavesRitem st; mAllRitems := mAllRitems st;
     mRitemLayer := mRitemLayer st; mWaves := mWaves st;
     mMainPassCB := mMainPassCB st; mCamera := mCamera st;
     mLastMousePos := mLastMousePos st; bNoClip := bNoClip st;
     t_base := t_base st; mCommandQueue := mCommandQueue st |}.
Definition set_mMaterials (v : gmap string Material.t) (st : App) : App :=
  {| mFrameResources := mFrameResources st;
     mCurrFrameResource := mCurrFrameResource st;
     mCurrFrameResourceIndex := mCurrFrameResourceIndex st;
     mCurrentFence := mCurrentFence st; mCurrBackBuffer := mCurrBackBuffer st;
     mGeometries := mGeometries st; mMaterials := v;
     mWavesRitem := mWavesRitem st; mAllRitems := mAllRitems st;
     mRitemLayer := mRitemLayer st; mWaves := mWaves st;
     mMainPassCB := mMainPassCB st; mCamera := mCamera st;
     mLastMousePos := mLastMousePos st; bNoClip := bNoClip st;
     t_base := t_base st; mCommandQueue := mCommandQueue st |}.
Definition set_mWavesRitem (v : option nat) (st : App) : App :=
  {| mFrameResources := mFrameResources st;
     mCurrFrameResource := mCurrFrameResource st;
     mCurrFrameResourceIndex := mCurrFrameResourceIndex st;
     mCurrentFence := mCurrentFence st; mCurrBackBuffer := mCurrBackBuffer st;
     mGeometries := mGeometries st; mMaterials := mMaterials st;
     mWavesRitem := v; mAllRitems := mAllRitems st;
     mRitemLayer := mRitemLayer st; mWaves := mWaves st;
     mMainPassCB := mMainPassCB st; mCamera := mCamera st;
     mLastMousePos := mLastMousePos st; bNoClip := bNoClip st;
     t_base := t_base st; mCommandQueue := mCommandQueue st |}.
Definition set_mAllRitems (v : list RenderItem.t) (st : App) : App :=
  {| mFrameResources := mFrameResources st;
     mCurrFrameResource := mCurrFrameResource st;
     mCurrFrameResourceIndex := mCurrFrameResourceIndex st;
     mCurrentFence := mCurrentFence st; mCurrBackBuffer := mCurrBackBuffer st;
     mGeometries := mGeometries st; mMaterials := mMaterials st;
     mWavesRitem := mWavesRitem st; mAllRitems := v;
     mRitemLayer := mRitemLayer st; mWaves := mWaves st;
     mMainPassCB := mMainPassCB st; mCamera := mCamera st;
     mLastMousePos := mLastMousePos st; bNoClip := bNoClip st;
     t_base := t_base st; mCommandQueue := mCommandQueue st |}.
Definition set_mRitemLayer (v : RenderLayer -> list nat) (st : App) : App :=
  {| mFrameResources := mFrameResources st;
     mCurrFrameResource := mCurrFrameResource st;
     mCurrFrameResourceIndex := mCurrFrameResourceIndex st;
     mCurrentFence := mCurrentFence st; mCurrBackBuffer := mCurrBackBuffer st;
     mGeometries := mGeometries st; mMaterials := mMaterials st;
     mWavesRitem := mWavesRitem st; mAllRitems := mAllRitems st;
     mRitemLayer := v; mWaves := mWaves st; mMainPassCB := mMainPassCB st;
     mCamera := mCamera st; mLastMousePos := mLastMousePos st;
     bNoClip := bNoClip st; t_base := t_base st;
     mCommandQueue := mCommandQueue st |}.
Definition set_mWaves (v : Waves) (st : App) : App :=
  {| mFrameResources := mFrameResources st;
     mCurrFrameResource := mCurrFrameResource st;
     mCurrFrameResourceIndex := mCurrFrameResourceIndex st;
     mCurrentFence := mCurrentFence st; mCurrBackBuffer := mCurrBackBuffer st;
     mGeometries := mGeometries st; mMaterials := mMaterials st;
     mWavesRitem := mWavesRitem st; mAllRitems := mAllRitems st;
     mRitemLayer := mRitemLayer st; mWaves := v; mMainPassCB := mMainPassCB st;
     mCamera := mCamera st; mLastMousePos := mLastMousePos st;
     bNoClip := bNoClip st; t_base := t_base st;
     mCommandQueue := mCommandQueue st |}.
Definition set_mMainPassCB (v : PassConstants) (st : App) : App :=
  {| mFrameResources := mFrameResources st;
     mCurrFrameResource := mCurrFrameResource st;
     mCurrFrameResourceIndex := mCurrFrameResourceIndex st;
     mCurrentFence := mCurrentFence st; mCurrBackBuffer := mCurrBackBuffer st;
     mGeometries := mGeometries st; mMaterials := mMaterials st;
     mWavesRitem := mWavesRitem st; mAllRitems := mAllRitems st;
     mRitemLayer := mRitemLayer st; mWaves := mWaves st; mMainPassCB := v;
     mCamera := mCamera st; mLastMousePos := mLastMousePos st;
     bNoClip := bNoClip st; t_base := t_base st;
     mCommandQueue := mCommandQueue st |}.
Definition set_mCamera (v : list CameraCall) (st : App) : App :=
  {| mFrameResources := mFrameResources st;
     mCurrFrameResource := mCurrFrameResource st;
     mCurrFrameResourceIndex := mCurrFrameResourceIndex st;
     mCurrentFence := mCurrentFence st; mCurrBackBuffer := mCurrBackBuffer st;
     mGeometries := mGeometries st; mMaterials := mMaterials st;
     mWavesRitem := mWavesRitem st; mAllRitems := mAllRitems st;
     mRitemLayer := mRitemLayer st; mWaves := mWaves st;
     mMainPassCB := mMainPassCB st; mCamera := v;
     mLastMousePos := mLastMousePos st; bNoClip := bNoClip st;
     t_base := t_base st; mCommandQueue := mCommandQueue st |}.
Definition set_mLastMousePos (v : Z * Z) (st : App) : App :=
  {| mFrameResources := mFrameResources st;
     mCurrFrameResource := mCurrFrameResource st;
     mCurrFrameResourceIndex := mCurrFrameResourceIndex st;
     mCurrentFence := mCurrentFence st; mCurrBackBuffer := mCurrBackBuffer st;
     mGeometries := mGeometries st; mMaterials := mMaterials st;
     mWavesRitem := mWavesRitem st; mAllRitems := mAllRitems st;
     mRitemLayer := mRitemLayer st; mWaves := mWaves st;
     mMainPassCB := mMainPassCB st; mCamera := mCamera st; mLastMousePos := v;
     bNoClip := bNoClip st; t_base := t_base st;
     mCommandQueue := mCommandQueue st |}.
Definition set_bNoClip (v : bool) (st : App) : App :=
  {| mFrameResources := mFrameResources st;
     mCurrFrameResource := mCurrFrameResource st;
     mCurrFrameResourceIndex := mCurrFrameResourceIndex st;
     mCurrentFence := mCurrentFence st; mCurrBackBuffer := mCurrBackBuffer st;
     mGeometries := mGeometries st; mMaterials := mMaterials st;
     mWavesRitem := mWavesRitem st; mAllRitems := mAllRitems st;
     mRitemLayer := mRitemLayer st; mWaves := mWaves st;
     mMainPassCB := mMainPassCB st; mCamera := mCamera st;
     mLastMousePos := mLastMousePos st; bNoClip := v; t_base := t_base st;
     mCommandQueue := mCommandQueue st |}.
Definition set_t_base (v : Q) (st : App) : App :=
  {| mFrameResources := mFrameResources st;
     mCurrFrameResource := mCurrFrameResource st;
     mCurrFrameResourceIndex := mCurrFrameResourceIndex st;
     mCurrentFence := mCurrentFence st; mCurrBackBuffer := mCurrBackBuffer st;
     mGeometries := mGeometries st; mMaterials := mMaterials st;
     mWavesRitem := mWavesRitem st; mAllRitems := mAllRitems st;
     mRitemLayer := mRitemLayer st; mWaves := mWaves st;
     mMainPassCB := mMainPassCB st; mCamera := mCamera st;
     mLastMousePos := mLastMousePos st; bNoClip := bNoClip st; t_base := v;
     mCommandQueue := mCommandQueue st |}.
Definition set_mCommandQueue (v : list QueueCall) (st : App) : App :=
  {| mFrameResources := mFrameResources st;
     mCurrFrameResource := mCurrFrameResource st;
     mCurrFrameResourceIndex := mCurrFrameResourceIndex st;
     mCurrentFence := mCurrentFence st; mCurrBackBuffer := mCurrBackBuffer st;
     mGeometries := mGeometries st; mMaterials := mMaterials st;
     mWavesRitem := mWavesRitem st; mAllRitems := mAllRitems st;
     mRitemLayer := mRitemLayer st; mWaves := mWaves st;
     mMainPassCB := mMainPassCB st; mCamera := mCamera st;
     mLastMousePos := mLastMousePos st; bNoClip := bNoClip st;
     t_base := t_base st; mCommandQueue := v |}.

(* ================================================================== *)
(** ** What a frame reads from its environment *)

(** [GameTimer]: [DeltaTime()] and [TotalTime()] of the frame. *)
Record GameTimer := { DeltaTime : Q; TotalTime : Q }.

(** Everything one [Update] call reads from outside the application
    object: the timer, the keys [GetAsyncKeyState] reports as pressed,
    the value [mFence->GetCompletedValue()] returns, the two results of
    [rand()] and the result of [MathHelper::RandF(0.2f, 0.5f)] used for a
    disturbance, and the wave solution [mWaves->Position(i)],
    [mWaves->Normal(i)] after the simulation step of the frame. *)
Record FrameInput := {
  gt : GameTimer;
  keyW : bool; keyS : bool; keyA : bool; keyD : bool; key1 : bool; key2 : bool;
  CompletedValue : Z;
  rand_row : Z;
  rand_col : Z;
  rand_magnitude : Q;
  WavesPosition : Z -> XMFLOAT3;
  WavesNormal : Z -> XMFLOAT3
}.

(** [for (int x = 0; x < bound; ++x)]: the values [x] takes. *)
Fixpoint int_range_from (x : Z) (count : nat) : list Z :=
  match count with
  | O => []
  | S count' => x :: int_range_from (x + 1) count'
  end.

Definition int_range (bound : Z) : list Z := int_range_from 0 (Z.to_nat bound).

(** A fold in the fault monad. *)
Fixpoint foldlM {A B} (f : A -> B -> option A) (a : A) (l : list B) : option A :=
  match l with
  | [] => Some a
  | b :: l' => a' ← f a b; foldlM f a' l'
  end.

(* ================================================================== *)
(** ** Mouse and keyboard *)

(** [MK_LBUTTON]. *)
Definition MK_LBUTTON : Z := 1.

Definition OnMouseDown (btnState x y : Z) (st : App) : App :=
  set_mLastMousePos (x, y) st.

Definition OnMouseMove (btnState x y : Z) (st : App) : App :=
  let st :=
    if negb (Z.land btnState MK_LBUTTON =? 0) then
      (* Make each pixel correspond to a quarter of a degree. *)
      let dx := XMConvertToRadians ((1 # 4) * inject_Z (wrap_int (x - fst (mLastMousePos st))))%Q in
      let dy := XMConvertToRadians ((1 # 4) * inject_Z (wrap_int (y - snd (mLastMousePos st))))%Q in
      let cam := mCamera st in
      let cam := if bNoClip st then cam ++ [Pitch dy] else cam in
      let cam := cam ++ [RotateY dx] in
      set_mCamera cam st
    else st in
  set_mLastMousePos (x, y) st.

(** [prevCamPos = mCamera.GetPosition3f()] is not represented: the
    member is read only by code that is commented out. *)
Definition OnKeyboardInput (inp : FrameInput) (st : App) : App :=
  let dt := DeltaTime (gt inp) in
  let camSpeed : Q := 50%Q in
  let cam := mCamera st in
  let cam := if keyW inp then cam ++ [Walk (camSpeed * dt)%Q] else cam in
  let cam := if keyS inp then cam ++ [Walk (- camSpeed * dt)%Q] else cam in
  let cam := if keyA inp then cam ++ [Strafe (- camSpeed * dt)%Q] else cam in
  let cam := if keyD inp then cam ++ [Strafe (camSpeed * dt)%Q] else cam in
  let noclip := bNoClip st in
  let noclip := if key1 inp then true else noclip in
  let noclip := if key2 inp then false else noclip in
  set_mCamera (cam ++ [UpdateViewMatrix]) (set_bNoClip noclip st).

(** The body of [UpdateCamera] is commented out. *)
Definition UpdateCamera (inp : FrameInput) (st : App) : App := st.

(* ================================================================== *)
(** ** Single-precision rounding *)

(** The nearest integer, ties to the even one. *)
Definition Qrne (x : Q) : Z :=
  let f := Qfloor x in
  match (x - inject_Z f ?= 1 # 2)%Q with
  | Lt => f
  | Gt => f + 1
  | Eq => if Z.even f then f else f + 1
  end.

(** [floor (log2 x)] of a positive rational. *)
Definition Qlog2 (x : Q) : Z :=
  let e := Z.log2 (Qnum x) - Z.log2 (Z.pos (Qden x)) in
  if Qle_bool (2 ^ e) x then e else e - 1.

(** The exponent of the last place of the binary32 numbers around [x]:
    24 significant bits, and [2 ^ -149] for the subnormal numbers. *)
Definition fl32_exponent (x : Q) : Z := Z.max (Qlog2 (Qabs x) - 23) (-149).

(** The [float] a real result is rounded to: the nearest binary32
    number, ties to even (the rounding of the SSE instructions the
    compiler emits for [float] arithmetic).  Overflow to infinity is
    not represented. *)
Definition fl32 (x : Q) : Q :=
  let q := fl32_exponent x in
  (inject_Z (Qrne (x / 2 ^ q)) * 2 ^ q)%Q.

(** [x] is a value of type [float]. *)
Definition binary32 (x : Q) : Prop := (fl32 x == x)%Q.

(* ================================================================== *)
(** ** Update stage *)

(** [mCurrFrameResource->...]: the frame resource the pointer refers to. *)
Definition CurrFrameResource (st : App) : option (nat * FrameResource) :=
  p ← mCurrFrameResource st;
  fr ← mFrameResources st !! p;
  Some (p, fr).

Definition store_FrameResource (p : nat) (fr : FrameResource) (st : App) : App :=
  set_mFrameResources (<[p := fr]> (mFrameResources st)) st.

(** One step of the scroll, [t += rate * dt; if (t >= 1.0f) t -= 1.0f;]
    in [float] arithmetic: the literal [rate] is a [float] constant,
    and the product, the sum and the difference are each rounded. *)
Definition scroll (rate dt t : Q) : Q :=
  let t := fl32 (t + fl32 (fl32 rate * dt)) in
  if Qle_bool 1 t then fl32 (t - 1) else t.

Definition AnimateMaterials (inp : FrameInput) (st : App) : option App :=
  (* Scroll the water material texture coordinates. *)
  waterMat ← mMaterials st !! "water";
  let tu := mat_get (Material.MatTransform waterMat) 3 0 in
  let tv := mat_get (Material.MatTransform waterMat) 3 1 in
  let tu := scroll (1 # 10) (DeltaTime (gt inp)) tu in
  let tv := scroll (2 # 100) (DeltaTime (gt inp)) tv in
  let M := mat_set (Material.MatTransform waterMat) 3 0 tu in
  let M := mat_set M 3 1 tv in
  (* Material has changed, so need to update cbuffer. *)
  let waterMat := Material.set_NumFramesDirty gNumFrameResources
                    (Material.set_MatTransform M waterMat) in
  Some (set_mMaterials (<["water" := waterMat]> (mMaterials st)) st).

Definition UpdateObjectCB_item (currObjectCB : UploadBuffer ObjectConstants)
    (e : RenderItem.t) : option (UploadBuffer ObjectConstants * RenderItem.t) :=
  if 0 <? RenderItem.NumFramesDirty e then
    let objConstants :=
      {| oc_World := XMMatrixTranspose (RenderItem.World e);
         oc_TexTransform := XMMatrixTranspose (RenderItem.TexTransform e) |} in
    cb ← CopyData (RenderItem.ObjCBIndex e) objConstants currObjectCB;
    (* Next FrameResource need to be updated too. *)
    Some (cb, RenderItem.set_NumFramesDirty (wrap_int (RenderItem.NumFramesDirty e - 1)) e)
  else Some (currObjectCB, e).

(** [for (auto& e : mAllRitems)] *)
Fixpoint UpdateObjectCBs_loop (currObjectCB : UploadBuffer ObjectConstants)
    (items : list RenderItem.t)
  : option (UploadBuffer ObjectConstants * list RenderItem.t) :=
  match items with
  | [] => Some (currObjectCB, [])
  | e :: rest =>
      '(cb, e') ← UpdateObjectCB_item currObjectCB e;
      '(cb', rest') ← UpdateObjectCBs_loop cb rest;
      Some (cb', e' :: rest')
  end.

Definition UpdateObjectCBs (inp : FrameInput) (st : App) : option App :=
  '(p, fr) ← CurrFrameResource st;
  '(cb, items) ← UpdateObjectCBs_loop (ObjectCB fr) (mAllRitems st);
  Some (set_mAllRitems items (store_FrameResource p (set_ObjectCB cb fr) st)).

Definition UpdateMaterialCB_entry
    (acc : UploadBuffer MaterialConstants * gmap string Material.t)
    (e : string * Material.t)
  : option (UploadBuffer MaterialConstants * gmap string Material.t) :=
  let mat := e.2 in
  if 0 <? Material.NumFramesDirty mat then
    let matConstants :=
      {| mc_DiffuseAlbedo := Material.DiffuseAlbedo mat;
         mc_FresnelR0 := Material.FresnelR0 mat;
         mc_Roughness := Material.Roughness mat;
         mc_MatTransform := XMMatrixTranspose (Material.MatTransform mat) |} in
    cb ← CopyData (Material.MatCBIndex mat) matConstants acc.1;
    (* Next FrameResource need to be updated too. *)
    Some (cb, <[e.1 := Material.set_NumFramesDirty
                         (wrap_int (Material.NumFramesDirty mat - 1)) mat]> acc.2)
  else Some acc.

(** [for (auto& e : mMaterials)]: the entries of the unordered map, in
    the order [map_to_list] lists them. *)
Definition UpdateMaterialCBs_loop (currMaterialCB : UploadBuffer MaterialConstants)
    (mats : gmap string Material.t)
  : option (UploadBuffer MaterialConstants * gmap string Material.t) :=
  foldlM UpdateMaterialCB_entry (currMaterialCB, mats) (map_to_list mats).

Definition UpdateMaterialCBs (inp : FrameInput) (st : App) : option App :=
  '(p, fr) ← CurrFrameResource st;
  '(cb, mats) ← UpdateMaterialCBs_loop (MaterialCB fr) (mMaterials st);
  Some (set_mMaterials mats (store_FrameResource p (set_MaterialCB cb fr) st)).

Definition UpdateMainPassCB (inp : FrameInput) (st : App) : option App :=
  let pc :=
    {| NearZ := 1; FarZ := 1000;
       pc_TotalTime := TotalTime (gt inp); pc_DeltaTime := DeltaTime (gt inp);
       AmbientLight := (125 # 100, 1 # 2, 35 # 100, 1)%Q;
       FogColor := FogColor (mMainPassCB st) |} in
  let st := set_mMainPassCB pc st in
  '(p, fr) ← CurrFrameResource st;
  cb ← CopyData 0 pc (PassCB fr);
  Some (store_FrameResource p (set_PassCB cb fr) st).

(** Modelled from the spec: [MathHelper::Rand(a, b)] is declared in
    MathHelper.h, which is not among the sources: it yields "a random
    grid cell within a safety margin from the border", a value between
    [a] and [b] inclusive, computed from one result [r] of [rand()] as
    [a + r % ((b - a) + 1)]. A zero modulus is a fault. *)
Definition MathHelper_Rand (r a b : Z) : option Z :=
  let n := wrap_int (wrap_int (b - a) + 1) in
  if n =? 0 then None else Some (wrap_int (a + Z.rem r n)).

(** The first part of [UpdateWaves]: every quarter second, generate a
    random wave. Yields the new [t_base] and the simulator. *)
Definition UpdateWaves_disturb (inp : FrameInput) (st : App) : option (Q * Waves) :=
  if Qle_bool (1 # 4) (TotalTime (gt inp) - t_base st) then
    let tb := (t_base st + (1 # 4))%Q in
    i ← MathHelper_Rand (rand_row inp) 4 (wrap_int (RowCount (mWaves st) - 5));
    j ← MathHelper_Rand (rand_col inp) 4 (wrap_int (ColumnCount (mWaves st) - 5));
    let r := rand_magnitude inp in
    Some (tb, waves_call (Waves_Disturb i j r) (mWaves st))
  else Some (t_base st, mWaves st).

Definition wave_vertex (inp : FrameInput) (w : Waves) (i : Z) : Vertex :=
  let pos := WavesPosition inp i in
  let '(x, _, z) := pos in
  (* Derive tex-coords from position by mapping [-w/2,w/2] --> [0,1] *)
  {| Pos := pos; Normal := WavesNormal inp i;
     TexC := ((1 # 2) + x / Width w, (1 # 2) - z / Depth w)%Q |}.

Definition UpdateWaves (inp : FrameInput) (st : App) : option App :=
  '(tb, waves) ← UpdateWaves_disturb inp st;
  let st := set_t_base tb st in
  (* Update the wave simulation. *)
  let waves := waves_call (Waves_Update (DeltaTime (gt inp))) waves in
  let st := set_mWaves waves st in
  (* Update the wave vertex buffer with the new solution. *)
  '(p, fr) ← CurrFrameResource st;
  vb ← foldlM (fun vb i => CopyData i (wave_vertex inp waves i) vb) (WavesVB fr)
        (int_range (VertexCount waves));
  let st := store_FrameResource p (set_WavesVB vb fr) st in
  (* Set the dynamic VB of the wave renderitem to the current frame VB. *)
  w ← mWavesRitem st;
  ritem ← mAllRitems st !! w;
  g ← RenderItem.Geo ritem;
  geo ← mGeometries st !! g;
  Some (set_mGeometries (<[g := set_VertexBufferGPU (WavesVBResource p) geo]> (mGeometries st)) st).

(** The test that guards the fence wait of [Update]. *)
Definition must_wait (fr : FrameResource) (completed : Z) : bool :=
  negb (Fence fr =? 0) && (completed <? Fence fr).

(** [mFrameResources[mCurrFrameResourceIndex].get()]: an index outside
    the vector is a fault. *)
Definition frame_slot (st : App) (i : Z) : option nat :=
  if decide (0 <= i < Z.of_nat (length (mFrameResources st)))
  then Some (Z.to_nat i) else None.

(** [Update]. Besides the new state the result tells whether the call
    blocked: [Some f] when it waited for the fence to reach [f]
    ([SetEventOnCompletion(f, event)], then [WaitForSingleObject(event,
    INFINITE)]), [None] when it did not wait. *)
Definition Update (inp : FrameInput) (st : App) : option (App * option Z) :=
  let st := OnKeyboardInput inp st in
  let st := UpdateCamera inp st in
  (* Cycle through the circular frame resource array. *)
  let st := set_mCurrFrameResourceIndex
              (Z.rem (wrap_int (mCurrFrameResourceIndex st + 1)) gNumFrameResources) st in
  p ← frame_slot st (mCurrFrameResourceIndex st);
  let st := set_mCurrFrameResource (Some p) st in
  fr ← mFrameResources st !! p;
  (* Has the GPU finished processing the commands of the current frame
     resource?  If not, wait until the GPU has completed commands up to
     this fence point. *)
  let waited := if must_wait fr (CompletedValue inp) then Some (Fence fr) else None in
  st ← AnimateMaterials inp st;
  st ← UpdateObjectCBs inp st;
  st ← UpdateMaterialCBs inp st;
  st ← UpdateMainPassCB inp st;
  st ← UpdateWaves inp st;
  Some (st, waited).

(** [Update] up to the test of the fence: the keyboard is read, the
    ring index is advanced and the frame resource of the new index is
    made the current one. *)
Definition Update_select (inp : FrameInput) (st : App) : option App :=
  let st := OnKeyboardInput inp st in
  let st := UpdateCamera inp st in
  (* Cycle through the circular frame resource array. *)
  let st := set_mCurrFrameResourceIndex
              (Z.rem (wrap_int (mCurrFrameResourceIndex st + 1)) gNumFrameResources) st in
  p ← frame_slot st (mCurrFrameResourceIndex st);
  Some (set_mCurrFrameResource (Some p) st).

(** The calls of [Update] that follow the wait, in their order: each
    writes into the buffers of the current frame resource. *)
Definition Update_stages : list (FrameInput -> App -> option App) :=
  [AnimateMaterials; UpdateObjectCBs; UpdateMaterialCBs; UpdateMainPassCB; UpdateWaves].

(* ================================================================== *)
(** ** Draw stage *)

(** [d3dUtil::CalcConstantBufferByteSize(sizeof(ObjectConstants))] and
    [... (sizeof(MaterialConstants))]: the size of the struct (two
    matrices, 128 bytes; a float4, a float3, a float and a matrix, 96
    bytes) rounded up to a multiple of 256. *)
Definition CalcConstantBufferByteSize (byteSize : Z) : Z :=
  Z.land (wrap_UINT (byteSize + 255)) (wrap_UINT (Z.lnot 255)).
Definition objCBByteSize : Z := CalcConstantBufferByteSize 128.
Definition matCBByteSize : Z := CalcConstantBufferByteSize 96.

(** The body of the loop of [DrawRenderItems] for the item [ritems[i]]. *)
Definition DrawRenderItem (st : App) (p : nat) (h : nat) : option (list Cmd) :=
  ri ← mAllRitems st !! h;
  g ← RenderItem.Geo ri;
  geo ← mGeometries st !! g;
  m ← RenderItem.Mat ri;
  mat ← mMaterials st !! m;
  let objCBAddress :=
    ObjectCBAddress p (wrap_UINT (RenderItem.ObjCBIndex ri * objCBByteSize)) in
  let matCBAddress :=
    MaterialCBAddress p (wrap_UINT (Material.MatCBIndex mat * matCBByteSize)) in
  Some [ IASetVertexBuffers (VertexBufferGPU geo);
         IASetIndexBuffer g;
         IASetPrimitiveTopology (RenderItem.PrimitiveType ri);
         SetGraphicsRootDescriptorTable 0 (Material.DiffuseSrvHeapIndex mat);
         SetGraphicsRootConstantBufferView 1 objCBAddress;
         SetGraphicsRootConstantBufferView 3 matCBAddress;
         DrawIndexedInstanced (RenderItem.IndexCount ri) 1
           (RenderItem.StartIndexLocation ri) (RenderItem.BaseVertexLocation ri) 0 ].

(** [DrawRenderItems(cmdList, ritems)]: the commands it appends. *)
Fixpoint DrawRenderItems (st : App) (p : nat) (ritems : list nat) : option (list Cmd) :=
  match ritems with
  | [] => Some []
  | h :: rest =>
      c ← DrawRenderItem st p h;
      cs ← DrawRenderItems st p rest;
      Some (c ++ cs)
  end.

(** The command list [Draw] records between [Reset] and [Close]. *)
Definition Draw_commands (st : App) : option (list Cmd) :=
  '(p, fr) ← CurrFrameResource st;
  opaque ← DrawRenderItems st p (mRitemLayer st Opaque);
  alphaTested ← DrawRenderItems st p (mRitemLayer st AlphaTested);
  treeSprites ← DrawRenderItems st p (mRitemLayer st AlphaTestedTreeSprites);
  transparent ← DrawRenderItems st p (mRitemLayer st Transparent);
  Some ([ CmdReset "opaque";
          RSSetViewports;
          RSSetScissorRects;
          ResourceBarrier D3D12_RESOURCE_STATE_PRESENT D3D12_RESOURCE_STATE_RENDER_TARGET;
          ClearRenderTargetView (FogColor (mMainPassCB st));
          ClearDepthStencilView;
          OMSetRenderTargets;
          SetDescriptorHeaps;
          SetGraphicsRootSignature;
          SetGraphicsRootConstantBufferView 2 (PassCBAddress p) ]
        ++ opaque
        ++ [ SetPipelineState "alphaTested" ] ++ alphaTested
        ++ [ SetPipelineState "treeSprites" ] ++ treeSprites
        ++ [ SetPipelineState "transparent" ] ++ transparent
        ++ [ ResourceBarrier D3D12_RESOURCE_STATE_RENDER_TARGET D3D12_RESOURCE_STATE_PRESENT;
             CmdClose ]).

Definition Draw (inp : FrameInput) (st : App) : option App :=
  cmds ← Draw_commands st;
  (* Add the command list to the queue for execution. *)
  let st := set_mCommandQueue (mCommandQueue st ++ [ExecuteCommandLists cmds]) st in
  (* Swap the back and front buffers *)
  let st := set_mCommandQueue (mCommandQueue st ++ [Present]) st in
  let st := set_mCurrBackBuffer
              (Z.rem (wrap_int (mCurrBackBuffer st + 1)) SwapChainBufferCount) st in
  (* Advance the fence value to mark commands up to this fence point. *)
  let st := set_mCurrentFence (mCurrentFence st + 1) st in
  '(p, fr) ← CurrFrameResource st;
  let st := store_FrameResource p (set_Fence (mCurrentFence st) fr) st in
  (* Add an instruction to the command queue to set a new fence point. *)
  Some (set_mCommandQueue (mCommandQueue st ++ [Signal (mCurrentFence st)]) st).

(** The draw calls a command list issues, each with the pipeline state
    that is bound when it is issued. *)
Record DrawCall := {
  dc_IndexCount : Z; dc_StartIndexLocation : Z; dc_BaseVertexLocation : Z
}.

Fixpoint draws_from (pso : string) (cmds : list Cmd) : list (string * DrawCall) :=
  match cmds with
  | [] => []
  | CmdReset pso' :: rest => draws_from pso' rest
  | SetPipelineState pso' :: rest => draws_from pso' rest
  | DrawIndexedInstanced n _ s b _ :: rest =>
      (pso, {| dc_IndexCount := n; dc_StartIndexLocation := s;
               dc_BaseVertexLocation := b |}) :: draws_from pso rest
  | _ :: rest => draws_from pso rest
  end.

Definition draws (cmds : list Cmd) : list (string * DrawCall) := draws_from "" cmds.

(** The draw call of one render item. *)
Definition draw_of (ri : RenderItem.t) : DrawCall :=
  {| dc_IndexCount := RenderItem.IndexCount ri;
     dc_StartIndexLocation := RenderItem.StartIndexLocation ri;
     dc_BaseVertexLocation := RenderItem.BaseVertexLocation ri |}.

(** The draw calls of the items of a layer, in the order of the
    layer's list, tagged with a pipeline state. *)
Definition layer_draws (st : App) (pso : string) (layer : RenderLayer)
  : list (string * DrawCall) :=
  omap (fun h => ri ← mAllRitems st !! h; Some (pso, draw_of ri)) (mRitemLayer st layer).

(* ================================================================== *)
(** ** Scene construction *)

(** [indices[k] = x] on a [std::vector<std::uint16_t>]; a position
    outside the vector is a fault. *)
Definition vector_store (indices : list Z) (k x : Z) : option (list Z) :=
  if decide (0 <= k < Z.of_nat (length indices))
  then Some (<[Z.to_nat k := wrap_uint16 x]> indices) else None.

(** The body of the loops of [BuildWavesGeometry] for the quad [(i, j)]
    of a grid with [n] columns; the state is the vector and [k]. *)
Definition waves_quad (n i : Z) (s : list Z * Z) (j : Z) : option (list Z * Z) :=
  let '(indices, k) := s in
  indices ← vector_store indices k (wrap_int (i * n + j));
  indices ← vector_store indices (wrap_int (k + 1)) (wrap_int (i * n + j + 1));
  indices ← vector_store indices (wrap_int (k + 2)) (wrap_int ((i + 1) * n + j));
  indices ← vector_store indices (wrap_int (k + 3)) (wrap_int ((i + 1) * n + j));
  indices ← vector_store indices (wrap_int (k + 4)) (wrap_int (i * n + j + 1));
  indices ← vector_store indices (wrap_int (k + 5)) (wrap_int ((i + 1) * n + j + 1));
  Some (indices, wrap_int (k + 6)). (* next quad *)


Definition waves_row (m n : Z) (s : list Z * Z) (i : Z) : option (list Z * Z) :=
  foldlM (waves_quad n i) s (int_range (n - 1)).

(** The index-generation loops of [BuildWavesGeometry], run on the
    vector [indices] with [k = 0]. *)
Definition waves_index_loop (m n : Z) (indices : list Z) : option (list Z * Z) :=
  foldlM (waves_row m n) (indices, 0) (int_range (m - 1)).

(** [assert(mWaves->VertexCount() < 0x0000ffff)] is a debug-only check
    and does not constrain the code. *)
Definition BuildWavesGeometry (st : App) : option App :=
  (* 3 indices per face *)
  let indices := replicate (Z.to_nat (wrap_int (3 * TriangleCount (mWaves st)))) 0 in
  (* Iterate over each quad. *)
  let m := RowCount (mWaves st) in
  let n := ColumnCount (mWaves st) in
  '(indices, _) ← waves_index_loop m n indices;
  let submesh :=
    {| sub_IndexCount := wrap_UINT (Z.of_nat (length indices));
       sub_StartIndexLocation := 0; sub_BaseVertexLocation := 0 |} in
  let geo :=
    {| geo_Name := "waterGeo"; IndexBufferCPU := indices;
       VertexBufferGPU := NullResource; (* Set dynamically. *)
       DrawArgs := {[ "grid" := submesh ]} |} in
  Some (set_mGeometries (<["waterGeo" := geo]> (mGeometries st)) st).

Definition BuildMaterials (st : App) : App :=
  let grass := Material.mk "grass" 0 0 gNumFrameResources (1, 1, 1, 1)%Q
                 (1 # 100, 1 # 100, 1 # 100)%Q (125 # 1000)%Q Identity4x4 in
  let water := Material.mk "water" 1 1 gNumFrameResources (1, 1, 1, 1 # 2)%Q
                 (1 # 10, 1 # 10, 1 # 10)%Q 0%Q Identity4x4 in
  let brick := Material.mk "brick" 2 2 gNumFrameResources (1, 1, 1, 1)%Q
                 (2 # 100, 2 # 100, 2 # 100)%Q (1 # 4)%Q Identity4x4 in
  let marble := Material.mk "marble" 3 3 gNumFrameResources (1, 1, 1, 1)%Q
                 (2 # 100, 2 # 100, 2 # 100)%Q (1 # 4)%Q Identity4x4 in
  let wood := Material.mk "wood" 4 4 gNumFrameResources (1, 1, 1, 1)%Q
                 (2 # 100, 2 # 100, 2 # 100)%Q (1 # 4)%Q Identity4x4 in
  let crystal := Material.mk "crystal" 5 5 gNumFrameResources (1, 1, 1, 1)%Q
                 (2 # 100, 2 # 100, 2 # 100)%Q (1 # 4)%Q Identity4x4 in
  let treeSprites := Material.mk "treeSprites" 6 6 gNumFrameResources (1, 1, 1, 1)%Q
                 (1 # 100, 1 # 100, 1 # 100)%Q (125 # 1000)%Q Identity4x4 in
  set_mMaterials
    (<["treeSprites" := treeSprites]> (<["crystal" := crystal]> (<["wood" := wood]>
     (<["marble" := marble]> (<["brick" := brick]> (<["water" := water]>
     (<["grass" := grass]> (mMaterials st)))))))) st.

(** [mMaterials[name].get()]: null when no material has that name. *)
Definition material_ptr (st : App) (name : string) : option string :=
  _ ← mMaterials st !! name; Some name.

(** A render item as the blocks of [BuildRenderItems] fill it in:
    [std::make_unique<RenderItem>()], then the assignments to [World],
    [TexTransform], [ObjCBIndex] (when [index] is given), [Mat], [Geo],
    [PrimitiveType] and the three draw arguments read through
    [Geo->DrawArgs[submesh]]. *)
Definition new_RenderItem (st : App) (world texTransform : XMFLOAT4X4)
    (index : option Z) (mat geo submesh : string)
    (primitiveType : D3D12_PRIMITIVE_TOPOLOGY) : option RenderItem.t :=
  g ← mGeometries st !! geo;
  let args := DrawArgs_at g submesh in
  Some (RenderItem.mk world texTransform gNumFrameResources
          (from_option wrap_UINT (RenderItem.ObjCBIndex RenderItem.default) index)
          (material_ptr st mat) (Some geo) primitiveType
          (sub_IndexCount args) (sub_StartIndexLocation args)
          (wrap_int (sub_BaseVertexLocation args))).

(** [mRitemLayer[(int)layer].push_back(ritem.get());
     mAllRitems.push_back(std::move(ritem));] *)
Definition push_ritem (layer : RenderLayer) (ritem : RenderItem.t) (st : App) : App :=
  let h := length (mAllRitems st) in
  set_mRitemLayer
    (fun l => if decide (l = layer) then mRitemLayer st l ++ [h] else mRitemLayer st l)
    (set_mAllRitems (mAllRitems st ++ [ritem]) st).

(** One block of [BuildRenderItems]: a new item that takes
    [funcCBIndex++] as its [ObjCBIndex] and goes into [layer] and into
    [mAllRitems]. The state is [funcCBIndex] and the application. *)
Definition add_ritem (world texTransform : XMFLOAT4X4) (mat geo submesh : string)
    (primitiveType : D3D12_PRIMITIVE_TOPOLOGY) (layer : RenderLayer)
    (s : Z * App) : option (Z * App) :=
  let '(funcCBIndex, st) := s in
  ritem ← new_RenderItem st world texTransform (Some funcCBIndex) mat geo submesh primitiveType;
  Some (wrap_int (funcCBIndex + 1), push_ritem layer ritem st).

Definition BuildMazePart (sX sZ pX pZ : Q) (index : Z) (st : App) : option App :=
  (* Build the individual wall of the maze *)
  tempRitem ← new_RenderItem st
    (XMMatrixMultiply (XMMatrixScaling sX 30 sZ) (XMMatrixTranslation pX 25 pZ))
    (XMMatrixScaling 6 4 4)
    (Some index) "grass" "wallGeo" "wall" D3D_PRIMITIVE_TOPOLOGY_TRIANGLELIST;
  Some (push_ritem AlphaTested tempRitem st).

(** [BuildMazePart(sX, sZ, pX, pZ, funcCBIndex++);] *)
Definition maze_call (s : Z * App) (a : Q * Q * Q * Q) : option (Z * App) :=
  let '(funcCBIndex, st) := s in
  let '(sX, sZ, pX, pZ) := a in
  st ← BuildMazePart sX sZ pX pZ funcCBIndex st;
  Some (wrap_int (funcCBIndex + 1), st).

(** The arguments [(sX, sZ, pX, pZ)] of the calls of [BuildMazePart] in
    [BuildRenderItems], in the order of the calls. *)
Definition maze_parts : list (Q * Q * Q * Q) :=
  [
    (54, (3 # 2), 40, (-90));
    (54, (3 # 2), (-40), (-90));
    (54, (3 # 2), 40, 90);
    (54, (3 # 2), (-40), 90);
    ((3 # 2), 180, 67, 0);
    ((3 # 2), 180, (-67), 0);
    (20, (3 # 2), 21, (-80));
    (22, (3 # 2), 56, (-80));
    (42, (3 # 2), (-34), (-80));
    ((3 # 2), (63 # 2), 45, (-65));
    ((3 # 2), (83 # 2), 31, (-60));
    ((3 # 2), (63 # 2), (-13), (-65));
    ((3 # 2), (63 # 2), (-55), (-65));
    ((3 # 2), (53 # 2), (-16), (-103));
    ((3 # 2), (53 # 2), 16, (-103));
    (30, (3 # 2), (-40), (-60));
    (10, (3 # 2), 50, (-65));
    ((85 # 2), (3 # 2), (-46), (-30));
    ((135 # 2), (3 # 2), 20, (-30));
    ((3 # 2), (63 # 2), (-25), (-45));
    ((3 # 2), (71 # 2), 12, (-48));
    (20, (3 # 2), (43 # 2), (-55));
    ((85 # 2), (3 # 2), (-46), 0);
    ((85 # 2), (3 # 2), (-34), (-15));
    ((3 # 2), (63 # 2), (-13), (-15));
    ((3 # 2), (83 # 2), 31, 5);
    (24, (3 # 2), 55, (-15));
    (24, (3 # 2), 43, 0);
    (24, (3 # 2), 19, (-15));
    (36, (3 # 2), 49, 25);
    ((3 # 2), 15, 49, (15 # 2));
    ((65 # 2), (3 # 2), (5 # 2), 0);
    ((3 # 2), 30, 0, 15);
    ((65 # 2), (3 # 2), (-41), 80);
    ((3 # 2), 20, (-41), 70);
    ((27 # 2), (3 # 2), (-47), 60);
    ((3 # 2), (23 # 2), (-53), 66);
    ((27 # 2), (3 # 2), (-27), 57);
    ((3 # 2), (23 # 2), (-33), 63);
    ((27 # 2), (3 # 2), (-27), 69);
    ((3 # 2), (23 # 2), (-21), 63);
    ((65 # 2), (3 # 2), (-41), 35);
    ((3 # 2), 20, (-41), 25);
    ((27 # 2), (3 # 2), (-47), 15);
    ((3 # 2), (23 # 2), (-53), 21);
    ((35 # 2), (3 # 2), (-20), 9);
    ((3 # 2), (23 # 2), (-28), 15);
    ((35 # 2), (3 # 2), (-20), 21);
    ((3 # 2), (23 # 2), (-12), 15);
    (35, (3 # 2), (-49), 47);
    ((3 # 2), (123 # 2), (-13), 60);
    ((27 # 2), (3 # 2), (-6), 30);
    ((3 # 2), (63 # 2), 13, 75);
    ((73 # 2), (3 # 2), 6, 45);
    ((33 # 2), (3 # 2), 23, 25);
    ((3 # 2), (43 # 2), 24, 55);
    ((3 # 2), 15, 24, (165 # 2));
    ((55 # 2), (3 # 2), 37, 65);
    ((3 # 2), 15, 39, (145 # 2));
    ((3 # 2), 25, 42, (75 # 2));
    ((25 # 2), (3 # 2), 48, 40)
  ]%Q.

Definition TRIANGLELIST := D3D_PRIMITIVE_TOPOLOGY_TRIANGLELIST.

Definition BuildRenderItems (st : App) : option App :=
  (* Create a single ObjCBIndex int to count each object being drawn *)
  let s := (0, st) in
  (* wavesRitem; mWavesRitem = wavesRitem.get() *)
  let mWavesRitem' := Some (length (mAllRitems st)) in
  s ← add_ritem (XMMatrixScaling 6 1 6) (XMMatrixScaling 30 30 1)
        "water" "waterGeo" "grid" TRIANGLELIST Transparent s;
  s ← Some (s.1, set_mWavesRitem mWavesRitem' s.2);
  (* gridRitem *)
  s ← add_ritem Identity4x4 (XMMatrixScaling 5 5 1)
        "grass" "landGeo" "grid" TRIANGLELIST Opaque s;
  (* boxRitem: filled in, neither numbered nor stored *)
  _ ← new_RenderItem s.2 (XMMatrixTranslation 3 30 (-9)) Identity4x4 None
        "brick" "boxGeo" "box" TRIANGLELIST;
  (* treeSpritesRitem *)
  s ← add_ritem Identity4x4 Identity4x4
        "treeSprites" "treeSpritesGeo" "points" D3D_PRIMITIVE_TOPOLOGY_POINTLIST
        AlphaTestedTreeSprites s;
  (* Build the base of the castle *)
  s ← add_ritem
        (XMMatrixMultiply (XMMatrixScaling 220 8 280) (XMMatrixTranslation 0 6 0))
        (XMMatrixScaling 11 11 11)
        "brick" "wallGeo" "wall" TRIANGLELIST AlphaTested s;
  (* Build the drawbridge *)
  s ← add_ritem
        (XMMatrixMultiply (XMMatrixScaling 30 6 45) (XMMatrixTranslation 0 9 (-275 # 2)))
        Identity4x4
        "wood" "wallGeo" "wall" TRIANGLELIST AlphaTested s;
  (* Build the pyramid inside the castle *)
  s ← add_ritem
        (XMMatrixMultiply (XMMatrixScaling 20 12 20) (XMMatrixTranslation 0 16 100))
        Identity4x4
        "crystal" "pyramidGeo" "pyramid" TRIANGLELIST AlphaTested s;
  (* This loop draws 3 of the 4 main castle walls *)
  s ← foldlM (fun s i =>
        let i2 := inject_Z (Z.rem i 2) in
        let i' := inject_Z i in
        add_ritem
          (XMMatrixMultiply
             (XMMatrixScaling (12 + 168 * i2) 40 (12 + 228 * (1 - i2)))
             (XMMatrixTranslation (-90 + i' * 90) 30 (120 - 120 * (1 - i2))))
          (XMMatrixScaling 10 2 1)
          "brick" "wallGeo" "wall" TRIANGLELIST AlphaTested s)%Q
        s (int_range 3);
  (* This loop draws the walls surrounding the castle's gate *)
  s ← foldlM (fun s i =>
        let i2 := inject_Z (Z.rem i 2) in
        let i' := inject_Z i in
        add_ritem
          (XMMatrixMultiply
             (XMMatrixScaling (80 - 50 * i2) (40 - 25 * (1 * i2)) 10)
             (XMMatrixTranslation (-55 + 55 * i') (30 + (25 # 2) * i2) (-120)))
          (XMMatrixScaling 6 2 1)
          "brick" "wallGeo" "wall" TRIANGLELIST AlphaTested s)%Q
        s (int_range 3);
  (* Build castle merlons *)
  s ← foldlM (fun s i =>
        let i' := inject_Z i in
        let merlon := XMMatrixScaling (1 # 2) (1 # 4) 1 in
        (* Left side *)
        s ← add_ritem
              (XMMatrixMultiply (XMMatrixScaling 12 5 15)
                 (XMMatrixTranslation (-90) (105 # 2) (80 - 40 * i')))
              merlon "brick" "wallGeo" "wall" TRIANGLELIST AlphaTested s;
        (* Right side *)
        s ← add_ritem
              (XMMatrixMultiply (XMMatrixScaling 12 5 15)
                 (XMMatrixTranslation 90 (105 # 2) (80 - 40 * i')))
              merlon "brick" "wallGeo" "wall" TRIANGLELIST AlphaTested s;
        (* Front *)
        s ← add_ritem
              (XMMatrixMultiply (XMMatrixScaling 15 5 10)
                 (XMMatrixTranslation (-60 + 30 * i') (105 # 2) (-120)))
              merlon "brick" "wallGeo" "wall" TRIANGLELIST AlphaTested s;
        (* Back *)
        add_ritem
              (XMMatrixMultiply (XMMatrixScaling 15 5 12)
                 (XMMatrixTranslation (-60 + 30 * i') (105 # 2) 120))
              merlon "brick" "wallGeo" "wall" TRIANGLELIST AlphaTested s)%Q
        s (int_range 5);
  (* Build the corners of the castle walls *)
  s ← foldlM (fun s i =>
        let i2 := inject_Z (Z.rem i 2) in
        let ih := inject_Z (Z.quot i 2) in
        add_ritem
          (XMMatrixMultiply (XMMatrixScaling 10 70 10)
             (XMMatrixTranslation (-90 + 180 * i2) 30 (120 - 240 * ih)))
          Identity4x4
          "marble" "cornerGeo" "corner" TRIANGLELIST AlphaTested s)%Q
        s (int_range 4);
  (* Build the tips of the wall's towers *)
  s ← foldlM (fun s i =>
        let i2 := inject_Z (Z.rem i 2) in
        let ih := inject_Z (Z.quot i 2) in
        add_ritem
          (XMMatrixMultiply (XMMatrixScaling 9 20 9)
             (XMMatrixTranslation (-90 + 180 * i2) 75 (120 - 240 * ih)))
          Identity4x4
          "marble" "coneGeo" "cone" TRIANGLELIST AlphaTested s)%Q
        s (int_range 4);
  (* Build the diamonds above the tips of the wall's towers *)
  s ← foldlM (fun s i =>
        let i2 := inject_Z (Z.rem i 2) in
        let ih := inject_Z (Z.quot i 2) in
        add_ritem
          (XMMatrixMultiply (XMMatrixScaling 5 8 5)
             (XMMatrixTranslation (-90 + 180 * i2) 100 (120 - 240 * ih)))
          Identity4x4
          "crystal" "diamondGeo" "diamond" TRIANGLELIST AlphaTested s)%Q
        s (int_range 4);
  (* Build the diamond above the pyramid *)
  s ← add_ritem
        (XMMatrixMultiply (XMMatrixScaling (15 # 2) 12 (15 # 2))
           (XMMatrixTranslation 0 30 100))
        Identity4x4
        "crystal" "diamondGeo" "diamond" TRIANGLELIST AlphaTested s;
  (* Build the maze, wall by wall *)
  s ← foldlM maze_call s maze_parts;
  Some s.2.

(** [BuildFrameResources]: [gNumFrameResources] frame resources, each
    made by [FrameResource(device, 1, (UINT)mAllRitems.size(),
    (UINT)mMaterials.size(), mWaves->VertexCount())]. *)
Definition BuildFrameResources (st : App) : App :=
  let fr := new_FrameResource 1
              (wrap_UINT (Z.of_nat (length (mAllRitems st))))
              (wrap_UINT (Z.of_nat (size (mMaterials st))))
              (wrap_UINT (VertexCount (mWaves st))) in
  set_mFrameResources
    (mFrameResources st ++ replicate (Z.to_nat gNumFrameResources) fr) st.

(* ================================================================== *)
(** ** Frames and runs *)

(** One frame of [D3DApp::Run]: [Update(mTimer); Draw(mTimer);]. *)
Definition frame (inp : FrameInput) (st : App) : option App :=
  '(st, _) ← Update inp st;
  Draw inp st.

(** The fence value stored in the current frame resource. *)
Definition stamped_fence (st : App) : option Z :=
  '(_, fr) ← CurrFrameResource st; Some (Fence fr).

(** Consecutive frames; the log has, for each frame, the ring index
    and the fence value stamped into the current frame resource. *)
Fixpoint run_frames (inps : list FrameInput) (st : App) : option (App * list (Z * Z)) :=
  match inps with
  | [] => Some (st, [])
  | inp :: rest =>
      st ← frame inp st;
      f ← stamped_fence st;
      '(st', log) ← run_frames rest st;
      Some (st', (mCurrFrameResourceIndex st, f) :: log)
  end.

(** Consecutive calls of [UpdateObjectCBs], each with some frame
    resource as the current one. *)
Fixpoint UpdateObjectCBs_cycles (cycles : list (FrameInput * nat)) (st : App) : option App :=
  match cycles with
  | [] => Some st
  | (inp, p) :: rest =>
      st ← UpdateObjectCBs inp (set_mCurrFrameResource (Some p) st);
      UpdateObjectCBs_cycles rest st
  end.

(** Consecutive calls of [UpdateMaterialCBs], likewise. *)
Fixpoint UpdateMaterialCBs_cycles (cycles : list (FrameInput * nat)) (st : App) : option App :=
  match cycles with
  | [] => Some st
  | (inp, p) :: rest =>
      st ← UpdateMaterialCBs inp (set_mCurrFrameResource (Some p) st);
      UpdateMaterialCBs_cycles rest st
  end.

(** Consecutive calls of [AnimateMaterials]. *)
Definition AnimateMaterials_run (inps : list FrameInput) (st : App) : option App :=
  foldlM (fun st inp => AnimateMaterials inp st) st inps.

(** The scroll offsets [MatTransform(3,0)], [MatTransform(3,1)] of the
    water material. *)
Definition water_offset (st : App) : option (Q * Q) :=
  waterMat ← mMaterials st !! "water";
  Some (mat_get (Material.MatTransform waterMat) 3 0,
        mat_get (Material.MatTransform waterMat) 3 1).

(** The sum of the [DeltaTime]s of a sequence of frames. *)
Definition elapsed (inps : list FrameInput) : Q :=
  foldr (fun inp T => (DeltaTime (gt inp) + T)%Q) 0%Q inps.

(** [x mod 1.0]: the fractional part. *)
Definition Qmod1 (x : Q) : Q := (x - inject_Z (Qfloor x))%Q.

(** The offset after consecutive steps of the scroll at one rate. *)
Definition scroll_run (rate : Q) (inps : list FrameInput) (t : Q) : Q :=
  foldl (fun t inp => scroll rate (DeltaTime (gt inp)) t) t inps.

(** The rounding error one step of the scroll can add: [2 ^ -22]. *)
Definition scroll_tolerance : Q := 1 # 4194304.

(** [x] and [y] differ by no more than the error of [n] steps. *)
Definition within_tolerance (n : nat) (x y : Q) : Prop :=
  (Qabs (x - y) <= inject_Z (Z.of_nat n) * scroll_tolerance)%Q.

(** Consecutive calls of [UpdateWaves]. *)
Definition UpdateWaves_run (inps : list FrameInput) (st : App) : option App :=
  foldlM (fun st inp => UpdateWaves inp st) st inps.

(** The disturbances a simulator has received, oldest first. *)
Definition disturbances (w : Waves) : list (Z * Z * Q) :=
  omap (fun c => match c with
                 | Waves_Disturb i j r => Some (i, j, r)
                 | Waves_Update _ => None
                 end) (waves_calls w).

(* ================================================================== *)
(** ** CPU and GPU timelines *)

(** Where the CPU thread is in the frame loop [Update(mTimer);
    Draw(mTimer);], statement by statement of [Update]:
    - [BetweenFrames]: before [Update];
    - [Selected]: the ring index is advanced and the frame resource
      selected, the test of its fence comes next;
    - [Waiting]: in [WaitForSingleObject(eventHandle, INFINITE)], the
      event being set by [SetEventOnCompletion] for the fence value of
      the frame resource;
    - [Writing inp n]: past the test or the wait, the first [n] of the
      five calls that write the buffers have returned;
    - [Updated]: [Update] has returned, [Draw] comes next. *)
Inductive CpuPhase :=
| BetweenFrames
| Selected (inp : FrameInput)
| Waiting (inp : FrameInput)
| Writing (inp : FrameInput) (n : nat)
| Updated.

(** The application together with the GPU: [gpuCompleted] is the
    completed value of [mFence], the last fence point the GPU has passed
    on the command queue. *)
Record Sys := { app : App; gpuCompleted : Z; cpu : CpuPhase }.

(** The commands recorded against the frame resource [fr] are still in
    flight: it carries a fence point the GPU has not reached. *)
Definition in_flight (fr : FrameResource) (completed : Z) : Prop :=
  Fence fr <> 0 /\ completed < Fence fr.

(** The CPU writes, or has written, the buffers of the current frame
    resource for the frame it is working on. *)
Definition writing (c : CpuPhase) : bool :=
  match c with
  | Writing _ _ | Updated => true
  | BetweenFrames | Selected _ | Waiting _ => false
  end.

(** The steps of the CPU thread.  [GetCompletedValue()] reads the
    completed value of the fence as it is at the test. *)
Inductive cpu_step : Sys -> Sys -> Prop :=
| step_select s inp a :
    cpu s = BetweenFrames ->
    Update_select inp (app s) = Some a ->
    cpu_step s {| app := a; gpuCompleted := gpuCompleted s; cpu := Selected inp |}
| step_pass s inp p fr :
    (* the test fails: no wait *)
    cpu s = Selected inp ->
    CurrFrameResource (app s) = Some (p, fr) ->
    must_wait fr (gpuCompleted s) = false ->
    cpu_step s {| app := app s; gpuCompleted := gpuCompleted s; cpu := Writing inp 0 |}
| step_block s inp p fr :
    (* the test succeeds: the thread blocks on the event *)
    cpu s = Selected inp ->
    CurrFrameResource (app s) = Some (p, fr) ->
    must_wait fr (gpuCompleted s) = true ->
    cpu_step s {| app := app s; gpuCompleted := gpuCompleted s; cpu := Waiting inp |}
| step_wake s inp p fr :
    (* the event is set once the fence has reached the value *)
    cpu s = Waiting inp ->
    CurrFrameResource (app s) = Some (p, fr) ->
    Fence fr <= gpuCompleted s ->
    cpu_step s {| app := app s; gpuCompleted := gpuCompleted s; cpu := Writing inp 0 |}
| step_stage s inp n stage a :
    cpu s = Writing inp n ->
    Update_stages !! n = Some stage ->
    stage inp (app s) = Some a ->
    cpu_step s {| app := a; gpuCompleted := gpuCompleted s; cpu := Writing inp (S n) |}
| step_return s inp :
    cpu s = Writing inp (length Update_stages) ->
    cpu_step s {| app := app s; gpuCompleted := gpuCompleted s; cpu := Updated |}
| step_Draw s inp a :
    cpu s = Updated ->
    Draw inp (app s) = Some a ->
    cpu_step s {| app := a; gpuCompleted := gpuCompleted s; cpu := BetweenFrames |}.

(** The GPU passes further fence points, among those signalled. *)
Inductive gpu_step : Sys -> Sys -> Prop :=
| step_gpu s c :
    gpuCompleted s < c <= mCurrentFence (app s) ->
    gpu_step s {| app := app s; gpuCompleted := c; cpu := cpu s |}.

(** The CPU thread and the GPU run concurrently. *)
Definition step (s s' : Sys) : Prop := cpu_step s s' \/ gpu_step s s'.

(** The state before the first frame: the member initialisers
    [mCurrFrameResource = nullptr], [mCurrFrameResourceIndex = 0], frame
    resources as [BuildFrameResources] leaves them (fence 0), and a GPU
    that has completed no more than was signalled. *)
Definition initial (s : Sys) : Prop :=
  cpu s = BetweenFrames /\
  mCurrFrameResource (app s) = None /\
  mCurrFrameResourceIndex (app s) = 0 /\
  Forall (fun fr => Fence fr = 0) (mFrameResources (app s)) /\
  0 <= gpuCompleted s <= mCurrentFence (app s).

Inductive reachable : Sys -> Prop :=
| reachable_initial s : initial s -> reachable s
| reachable_step s s' : reachable s -> step s s' -> reachable s'.

(* ================================================================== *)
(** ** A sample scene and sample inputs *)

(** The application object as its constructor leaves it (the member
    initialisers of the class), with the 128 x 128 wave grid that
    [Initialize] creates before anything else is built. *)
Definition new_App : App :=
  {| mFrameResources := [];
     mCurrFrameResource := None;
     mCurrFrameResourceIndex := 0;
     mCurrentFence := 0;
     mCurrBackBuffer := 0;
     mGeometries := ∅;
     mMaterials := ∅;
     mWavesRitem := None;
     mAllRitems := [];
     mRitemLayer := fun _ => [];
     mWaves := initial_Waves;
     mMainPassCB := {| NearZ := 0; FarZ := 0; pc_TotalTime := 0; pc_DeltaTime := 0;
                       AmbientLight := (0, 0, 0, 1)%Q;
                       FogColor := (7 # 10, 7 # 10, 7 # 10, 1)%Q |};
     mCamera := [];
     mLastMousePos := (0, 0);
     bNoClip := false;
     t_base := 0%Q;
     mCommandQueue := [] |}.

(** A stand-in for a mesh made by the geometry builders: one submesh
    with [indexCount] indices. *)
Definition sample_mesh (name submesh : string) (indexCount : Z) : MeshGeometry :=
  {| geo_Name := name; IndexBufferCPU := [];
     VertexBufferGPU := DefaultBuffer name;
     DrawArgs := {[ submesh := {| sub_IndexCount := indexCount;
                                  sub_StartIndexLocation := 0;
                                  sub_BaseVertexLocation := 0 |} ]} |}.

(** The nine geometries [Initialize] builds before [BuildRenderItems]. *)
Definition sample_geometries : gmap string MeshGeometry :=
  list_to_map
    [ ("wallGeo", sample_mesh "wallGeo" "wall" 36);
      ("cornerGeo", sample_mesh "wallGeo" "corner" 1080);
      ("coneGeo", sample_mesh "coneGeo" "cone" 990);
      ("pyramidGeo", sample_mesh "pyramidGeo" "pyramid" 18);
      ("diamondGeo", sample_mesh "diamondGeo" "diamond" 24);
      ("landGeo", sample_mesh "landGeo" "grid" 14406);
      ("waterGeo", sample_mesh "waterGeo" "grid" 96774);
      ("boxGeo", sample_mesh "boxGeo" "box" 36);
      ("treeSpritesGeo", sample_mesh "treeSpritesGeo" "points" 64) ].

(** The scene after [BuildMaterials], [BuildRenderItems] and
    [BuildFrameResources]. *)
Definition sample_scene : option App :=
  st ← BuildRenderItems (BuildMaterials (set_mGeometries sample_geometries new_App));
  Some (BuildFrameResources st).

(** A frame with time step [dt] at total time [total], no key pressed,
    a flat wave solution. *)
Definition sample_frame (dt total : Q) (completed : Z) : FrameInput :=
  {| gt := {| DeltaTime := dt; TotalTime := total |};
     keyW := false; keyS := false; keyA := false; keyD := false;
     key1 := false; key2 := false;
     CompletedValue := completed;
     rand_row := 41; rand_col := 18467; rand_magnitude := 3 # 10;
     WavesPosition := fun i => (inject_Z (Z.rem i 128), 0, inject_Z (Z.quot i 128))%Q;
     WavesNormal := fun _ => (0, 1, 0)%Q |}.

(** The fixed time step of the scenario, [dt = 1/60 s]. *)
Definition sample_input (total : Q) (completed : Z) : FrameInput :=
  sample_frame (1 # 60) total completed.

(** The end-to-end scenario of the specification: "3 frame resources
    sized for 2 render items and 1 material", with a 9 x 9 wave grid
    and a water surface and a land grid as the two items. *)
Definition scenario_Waves : Waves :=
  {| RowCount := 9; ColumnCount := 9; SpatialStep := 1; waves_calls := [] |}.

Definition scenario_water : Material.t :=
  Material.mk "water" 0 1 gNumFrameResources (1, 1, 1, 1 # 2)%Q
    (1 # 10, 1 # 10, 1 # 10)%Q 0%Q Identity4x4.

Definition scenario_items : list RenderItem.t :=
  [ RenderItem.mk (XMMatrixScaling 6 1 6) (XMMatrixScaling 30 30 1) gNumFrameResources 0
      (Some "water") (Some "waterGeo") TRIANGLELIST 384 0 0;
    RenderItem.mk Identity4x4 (XMMatrixScaling 5 5 1) gNumFrameResources 1
      (Some "water") (Some "landGeo") TRIANGLELIST 600 0 0 ].

Definition scenario_app : App :=
  BuildFrameResources
    (set_mRitemLayer (fun l => match l with
                               | Transparent => [0%nat]
                               | Opaque => [1%nat]
                               | _ => []
                               end)
    (set_mAllRitems scenario_items
    (set_mWavesRitem (Some 0%nat)
    (set_mMaterials {[ "water" := scenario_water ]}
    (set_mGeometries
       (list_to_map [ ("waterGeo", sample_mesh "waterGeo" "grid" 384);
                      ("landGeo", sample_mesh "landGeo" "grid" 600) ])
    (set_mWaves scenario_Waves new_App)))))).

(** The scenario after the [Update] of its first frame. *)
Definition scenario_updated : App :=
  default scenario_app (fst <$> Update (sample_input 0 0) scenario_app).

(** The scenario as a state of the step relation, the GPU having
    completed nothing: before its first frame; and in the fourth
    frame, after three frames with time step 1/60 s, when [Update] has
    come back to the frame resource of the first frame and waits for
    the fence point 1. *)
Definition scenario_sys : Sys :=
  {| app := scenario_app; gpuCompleted := 0; cpu := BetweenFrames |}.

Definition scenario_frames : list FrameInput :=
  [sample_input 0 0; sample_input (1 # 60) 0; sample_input (2 # 60) 0].

Definition scenario_after (inps : list FrameInput) : App :=
  foldl (fun st inp => default st (frame inp st)) scenario_app inps.

Definition scenario_waiting : App :=
  default scenario_app
    (Update_select (sample_input (3 # 60) 0) (scenario_after scenario_frames)).

Definition scenario_sys_waiting : Sys :=
  {| app := scenario_waiting; gpuCompleted := 0; cpu := Waiting (sample_input (3 # 60) 0) |}.

(* ================================================================== *)
(** ** Notions used to state the properties *)

(** The yaw and pitch deltas [OnMouseMove] computes for a move to
    [(x, y)]: a quarter of a degree per pixel, in radians. *)
Definition mouse_dx (st : App) (x : Z) : Q :=
  XMConvertToRadians ((1 # 4) * inject_Z (wrap_int (x - fst (mLastMousePos st)))).
Definition mouse_dy (st : App) (y : Z) : Q :=
  XMConvertToRadians ((1 # 4) * inject_Z (wrap_int (y - snd (mLastMousePos st)))).

(** The six indices of the two triangles of the quad [(i, j)] of a
    grid with [n] columns. *)
Definition quad_indices (n i j : Z) : list Z :=
  [ i * n + j; i * n + j + 1; (i + 1) * n + j;
    (i + 1) * n + j; i * n + j + 1; (i + 1) * n + j + 1 ].

(** The indices of the quads [(i, j0)], .., [(i, j0 + count - 1)]. *)
Definition quads_indices (n i j0 : Z) (count : nat) : list Z :=
  mjoin (quad_indices n i <$> int_range_from j0 count).

(** The indices of the rows [i0], .., [i0 + count - 1] of quads. *)
Definition rows_indices (n i0 : Z) (count : nat) : list Z :=
  mjoin ((fun i => quads_indices n i 0 (Z.to_nat (n - 1))) <$> int_range_from i0 count).

(** The index list of an [m] x [n] grid: quad after quad, row after row. *)
Definition grid_indices (m n : Z) : list Z := rows_indices n 0 (Z.to_nat (m - 1)).

(** What one pass of [UpdateObjectCBs] / [UpdateMaterialCBs] does to
    a dirty counter: one less when it is positive, nothing otherwise. *)
Definition countdown (n : Z) : Z := if 0 <? n then wrap_int (n - 1) else n.

Definition tick_ritem (e : RenderItem.t) : RenderItem.t :=
  if 0 <? RenderItem.NumFramesDirty e
  then RenderItem.set_NumFramesDirty (wrap_int (RenderItem.NumFramesDirty e - 1)) e
  else e.

Definition tick_material (m : Material.t) : Material.t :=
  if 0 <? Material.NumFramesDirty m
  then Material.set_NumFramesDirty (wrap_int (Material.NumFramesDirty m - 1)) m
  else m.

(** The water material after one call of [AnimateMaterials]: scrolled
    and marked dirty for every frame resource. *)
Definition animate_water (dt : Q) (waterMat : Material.t) : Material.t :=
  let tu := scroll (1 # 10) dt (mat_get (Material.MatTransform waterMat) 3 0) in
  let tv := scroll (2 # 100) dt (mat_get (Material.MatTransform waterMat) 3 1) in
  Material.set_NumFramesDirty gNumFrameResources
    (Material.set_MatTransform
       (mat_set (mat_set (Material.MatTransform waterMat) 3 0 tu) 3 1 tv) waterMat).

(** The fence values of the ring, slot by slot. *)
Definition fences (st : App) : list Z := Fence <$> mFrameResources st.

(** The capacities of the buffers of a frame resource. *)
Definition capacities (fr : FrameResource) : Z * Z * Z * Z :=
  (ElementCount (PassCB fr), ElementCount (ObjectCB fr),
   ElementCount (MaterialCB fr), ElementCount (WavesVB fr)).

(** The part of the state the frame scheduler works on: ring index,
    current frame resource, fence counter, and the fence and the
    capacities of every slot. *)
Definition ring_view (st : App)
  : Z * option nat * Z * list Z * list (Z * Z * Z * Z) :=
  (mCurrFrameResourceIndex st, mCurrFrameResource st, mCurrentFence st,
   fences st, capacities <$> mFrameResources st).

(** The part of the scene that is fixed once it is built: which slot,
    material and mesh each render item refers to, the layer lists, the
    constant-buffer slot of each material, the names of the meshes,
    the size of the wave grid. *)
Definition ritem_refs (e : RenderItem.t) : Z * option string * option string :=
  (RenderItem.ObjCBIndex e, RenderItem.Mat e, RenderItem.Geo e).

Definition scene_view (st : App)
  : list (Z * option string * option string) * (RenderLayer -> list nat) * option nat
    * gmap string Z * gset string * (Z * Z) :=
  (ritem_refs <$> mAllRitems st, mRitemLayer st, mWavesRitem st,
   Material.MatCBIndex <$> mMaterials st, dom (mGeometries st),
   (RowCount (mWaves st), ColumnCount (mWaves st))).

(** A state in which a frame runs without a fault: a ring of three
    frame resources whose buffers have room for the pass constants, for
    the slot of every render item and of every material and for the wave
    vertices; a water material; a wave render item with a mesh; layer
    lists that refer to stored items with a mesh and a material; a wave
    grid of at least 9 x 9 cells. *)
Definition slot_fits (refs : list (Z * option string * option string))
    (slots : gmap string Z) (vertexCount : Z) (c : Z * Z * Z * Z) : Prop :=
  let '(passCount, objectCount, materialCount, waveVertCount) := c in
  1 <= passCount /\
  Forall (fun r => 0 <= r.1.1 < objectCount) refs /\
  map_Forall (fun _ i => 0 <= i < materialCount) slots /\
  vertexCount <= waveVertCount.

Definition drawable (refs : list (Z * option string * option string))
    (slots : gmap string Z) (geos : gset string) (h : nat) : Prop :=
  exists i m g, refs !! h = Some (i, Some m, Some g) /\ is_Some (slots !! m) /\ g ∈ geos.

Definition well_formed (st : App) : Prop :=
  let '(refs, layers, waves, slots, geos, (rows, cols)) := scene_view st in
  length (mFrameResources st) = 3%nat /\
  Forall (slot_fits refs slots (rows * cols)) (capacities <$> mFrameResources st) /\
  is_Some (slots !! "water") /\
  (exists w i m g, waves = Some w /\ refs !! w = Some (i, m, Some g) /\ g ∈ geos) /\
  (forall layer h, h ∈ layers layer -> drawable refs slots geos h) /\
  9 <= rows /\ 9 <= cols /\ rows * cols < 2 ^ 31.

(** The slot [Update] selects: the successor of the current ring index. *)
Definition next_slot (st : App) : Z :=
  Z.rem (wrap_int (mCurrFrameResourceIndex st + 1)) gNumFrameResources.

(** The state in which [Update] has read the keyboard and selected the
    next slot [p], before it writes anything. *)
Definition Update_selected (inp : FrameInput) (p : nat) (st : App) : App :=
  set_mCurrFrameResource (Some p)
    (set_mCurrFrameResourceIndex (next_slot st)
       (UpdateCamera inp (OnKeyboardInput inp st))).

(** The five writing steps of [Update], in their order. *)
Definition Update_writes (inp : FrameInput) (st : App) : option App :=
  st ← AnimateMaterials inp st;
  st ← UpdateObjectCBs inp st;
  st ← UpdateMaterialCBs inp st;
  st ← UpdateMainPassCB inp st;
  UpdateWaves inp st.

(** Every dirty counter is between 0 and the number of frame resources. *)
Definition counters_in_range (st : App) : Prop :=
  Forall (fun e => 0 <= RenderItem.NumFramesDirty e <= gNumFrameResources) (mAllRitems st) /\
  map_Forall (fun _ m => 0 <= Material.NumFramesDirty m <= gNumFrameResources) (mMaterials st).

(** A disturbed cell keeps the margin of four cells from the border of
    the wave grid [w]. *)
Definition within_margin (w : Waves) (d : Z * Z * Q) : Prop :=
  4 <= d.1.1 <= RowCount w - 5 /\ 4 <= d.1.2 <= ColumnCount w - 5.

(** The disturbances the simulator has received after a run of
    [UpdateWaves] calls. *)
Definition disturbances_after (inps : list FrameInput) (st : App)
  : option (list (Z * Z * Q)) :=
  st' ← UpdateWaves_run inps st; Some (disturbances (mWaves st')).

(** The state of [BuildRenderItems] after [n] items: [funcCBIndex] is
    [n] and the stored items carry the indices 0, .., [n - 1] in the
    order in which they were stored. *)
Definition numbered (n : nat) (s : Z * App) : Prop :=
  s.1 = Z.of_nat n /\
  RenderItem.ObjCBIndex <$> mAllRitems s.2 = Z.of_nat <$> seq 0 n.

(** The names of the nine geometries [Initialize] builds before it
    builds the render items. *)
Definition scene_geometry_names : list string :=
  [ "wallGeo"; "cornerGeo"; "coneGeo"; "pyramidGeo"; "diamondGeo";
    "landGeo"; "waterGeo"; "boxGeo"; "treeSpritesGeo" ].

(** What [n] consecutive frames log when they start with ring index
    [idx] and fence counter [fence]: each frame moves the index to its
    successor in the ring and stamps the next fence value. *)
Fixpoint ring_log (n : nat) (idx fence : Z) : list (Z * Z) :=
  match n with
  | O => []
  | S n' =>
      let idx' := (idx + 1) mod gNumFrameResources in
      (idx', fence + 1) :: ring_log n' idx' (fence + 1)
  end.

(** The invariant of the frame scheduler: the ring index is a slot of
    the ring, the GPU has completed no more than was signalled, no slot
    carries a fence value beyond the fence counter, and from the
    selection on the current frame resource is the slot of the ring
    index; while the CPU writes it, it has no commands in flight. *)
Definition scheduler_invariant (s : Sys) : Prop :=
  0 <= mCurrFrameResourceIndex (app s) < 3 /\
  gpuCompleted s <= mCurrentFence (app s) /\
  Forall (fun f => f <= mCurrentFence (app s)) (fences (app s)) /\
  (cpu s <> BetweenFrames ->
     exists p fr, CurrFrameResource (app s) = Some (p, fr) /\
       Z.of_nat p = mCurrFrameResourceIndex (app s) /\
       (writing (cpu s) = true -> ~ in_flight fr (gpuCompleted s))).

(* ================================================================== *)
(** ** Further notions: input, buffers, command lists *)

(** The sums of the angles and of the distances the camera has been
    asked to turn and to move by. *)
Definition yaw_of (c : CameraCall) : Q := match c with RotateY a => a | _ => 0%Q end.
Definition pitch_of (c : CameraCall) : Q := match c with Pitch a => a | _ => 0%Q end.
Definition walk_of (c : CameraCall) : Q := match c with Walk d => d | _ => 0%Q end.
Definition strafe_of (c : CameraCall) : Q := match c with Strafe d => d | _ => 0%Q end.

Definition total (f : CameraCall -> Q) (cam : list CameraCall) : Q :=
  foldr (fun c s => (f c + s)%Q) 0%Q cam.

(** 1 for a pressed key, 0 for a released one. *)
Definition pressed (b : bool) : Q := if b then 1%Q else 0%Q.

(** The constants [UpdateObjectCBs] stores for a render item and
    [UpdateMaterialCBs] for a material: the transposed matrices. *)
Definition object_constants (e : RenderItem.t) : ObjectConstants :=
  {| oc_World := XMMatrixTranspose (RenderItem.World e);
     oc_TexTransform := XMMatrixTranspose (RenderItem.TexTransform e) |}.

Definition material_constants (mat : Material.t) : MaterialConstants :=
  {| mc_DiffuseAlbedo := Material.DiffuseAlbedo mat;
     mc_FresnelR0 := Material.FresnelR0 mat;
     mc_Roughness := Material.Roughness mat;
     mc_MatTransform := XMMatrixTranspose (Material.MatTransform mat) |}.

(** The elements of an object-constant buffer after one pass over the
    items: every dirty item has stored its constants in its slot, in
    the order of the list. *)
Definition object_writes (items : list RenderItem.t) (elements : gmap Z ObjectConstants)
  : gmap Z ObjectConstants :=
  foldl (fun m e => if 0 <? RenderItem.NumFramesDirty e
                    then <[RenderItem.ObjCBIndex e := object_constants e]> m else m)
        elements items.

(** Likewise for a material-constant buffer and a list of materials. *)
Definition material_writes (mats : list Material.t) (elements : gmap Z MaterialConstants)
  : gmap Z MaterialConstants :=
  foldl (fun m mat => if 0 <? Material.NumFramesDirty mat
                      then <[Material.MatCBIndex mat := material_constants mat]> m else m)
        elements mats.

(** The contents of the object-constant and of the material-constant
    buffer of every frame resource of the ring. *)
Definition ObjectCBs (st : App) : list (gmap Z ObjectConstants) :=
  (fun fr => Elements (ObjectCB fr)) <$> mFrameResources st.

Definition MaterialCBs (st : App) : list (gmap Z MaterialConstants) :=
  (fun fr => Elements (MaterialCB fr)) <$> mFrameResources st.

(** The slot of the ring that comes [k] frames after the current one. *)
Definition slot_ahead (st : App) (k : Z) : nat :=
  Z.to_nat ((mCurrFrameResourceIndex st + k) mod gNumFrameResources).

(** The dirty counters account for the ring: the constants of a render
    item are in its slot of every frame resource, except possibly the
    frame resources of the next [NumFramesDirty] frames; likewise for
    the materials. *)
Definition objects_synced (st : App) : Prop :=
  forall e k cb,
    e ∈ mAllRitems st ->
    RenderItem.NumFramesDirty e < k <= gNumFrameResources ->
    ObjectCBs st !! slot_ahead st k = Some cb ->
    cb !! RenderItem.ObjCBIndex e = Some (object_constants e).

Definition materials_synced (st : App) : Prop :=
  forall name mat k cb,
    mMaterials st !! name = Some mat ->
    Material.NumFramesDirty mat < k <= gNumFrameResources ->
    MaterialCBs st !! slot_ahead st k = Some cb ->
    cb !! Material.MatCBIndex mat = Some (material_constants mat).

(** The pass constants [UpdateMainPassCB] computes in a frame. *)
Definition pass_constants (inp : FrameInput) (st : App) : PassConstants :=
  {| NearZ := 1; FarZ := 1000;
     pc_TotalTime := TotalTime (gt inp); pc_DeltaTime := DeltaTime (gt inp);
     AmbientLight := (125 # 100, 1 # 2, 35 # 100, 1)%Q;
     FogColor := FogColor (mMainPassCB st) |}.

(** The elements of a wave vertex buffer after the copy loop of
    [UpdateWaves]. *)
Definition wave_writes (inp : FrameInput) (waves : Waves) (elements : gmap Z Vertex)
  : gmap Z Vertex :=
  foldl (fun m i => <[i := wave_vertex inp waves i]> m) elements
        (int_range (VertexCount waves)).

(** The materials after [AnimateMaterials]. *)
Definition animated (inp : FrameInput) (mats : gmap string Material.t)
  : gmap string Material.t :=
  match mats !! "water" with
  | Some waterMat => <["water" := animate_water (DeltaTime (gt inp)) waterMat]> mats
  | None => mats
  end.

(** The simulator after the calls of one [UpdateWaves]. *)
Definition waves_after (inp : FrameInput) (st : App) : option Waves :=
  '(_, waves) ← UpdateWaves_disturb inp st;
  Some (waves_call (Waves_Update (DeltaTime (gt inp))) waves).

(** Distinct materials have distinct slots of the material-constant
    buffer. *)
Definition slots_distinct (mats : gmap string Material.t) : Prop :=
  forall n1 n2 m1 m2, mats !! n1 = Some m1 -> mats !! n2 = Some m2 ->
    Material.MatCBIndex m1 = Material.MatCBIndex m2 -> n1 = n2.

(** Three frames of the scenario at [dt = 1/60 s]. *)
Definition three_frames : list FrameInput :=
  [sample_input (1 # 60) 0; sample_input (2 # 60) 0; sample_input (3 # 60) 0].

(** The fence values the command queue has been asked to signal,
    oldest first, and the number of [Present] calls. *)
Definition signals (q : list QueueCall) : list Z :=
  omap (fun c => match c with Signal v => Some v | _ => None end) q.

Definition presents (q : list QueueCall) : nat :=
  length (omap (fun c => match c with Present => Some tt | _ => None end) q).

#[global] Instance ResourceState_eq_dec : EqDecision ResourceState.
Proof. solve_decision. Defined.

(** The state of the back buffer along a command list that starts with
    the buffer in state [s]: a barrier must start from the state the
    buffer is in, and clearing the render target and drawing need the
    buffer to be a render target. [None] when the list breaks that. *)
Fixpoint replay (s : ResourceState) (cmds : list Cmd) : option ResourceState :=
  match cmds with
  | [] => Some s
  | ResourceBarrier before after :: rest =>
      if decide (before = s) then replay after rest else None
  | ClearRenderTargetView _ :: rest
  | DrawIndexedInstanced _ _ _ _ _ :: rest =>
      if decide (s = D3D12_RESOURCE_STATE_RENDER_TARGET) then replay s rest else None
  | _ :: rest => replay s rest
  end.

(** What is bound on the command list when a draw call is issued. *)
Record Bindings := {
  b_VertexBuffer : option GpuResource;
  b_IndexBuffer : option string;
  b_Topology : option D3D12_PRIMITIVE_TOPOLOGY;
  b_Table0 : option Z;
  b_ObjectCB : option GpuAddress;
  b_PassCB : option GpuAddress;
  b_MaterialCB : option GpuAddress
}.

Definition no_Bindings : Bindings :=
  {| b_VertexBuffer := None; b_IndexBuffer := None; b_Topology := None; b_Table0 := None;
     b_ObjectCB := None; b_PassCB := None; b_MaterialCB := None |}.

Definition bind (c : Cmd) (b : Bindings) : Bindings :=
  match c with
  | IASetVertexBuffers r =>
      {| b_VertexBuffer := Some r; b_IndexBuffer := b_IndexBuffer b;
         b_Topology := b_Topology b; b_Table0 := b_Table0 b; b_ObjectCB := b_ObjectCB b;
         b_PassCB := b_PassCB b; b_MaterialCB := b_MaterialCB b |}
  | IASetIndexBuffer g =>
      {| b_VertexBuffer := b_VertexBuffer b; b_IndexBuffer := Some g;
         b_Topology := b_Topology b; b_Table0 := b_Table0 b; b_ObjectCB := b_ObjectCB b;
         b_PassCB := b_PassCB b; b_MaterialCB := b_MaterialCB b |}
  | IASetPrimitiveTopology t =>
      {| b_VertexBuffer := b_VertexBuffer b; b_IndexBuffer := b_IndexBuffer b;
         b_Topology := Some t; b_Table0 := b_Table0 b; b_ObjectCB := b_ObjectCB b;
         b_PassCB := b_PassCB b; b_MaterialCB := b_MaterialCB b |}
  | SetGraphicsRootDescriptorTable 0 i =>
      {| b_VertexBuffer := b_VertexBuffer b; b_IndexBuffer := b_IndexBuffer b;
         b_Topology := b_Topology b; b_Table0 := Some i; b_ObjectCB := b_ObjectCB b;
         b_PassCB := b_PassCB b; b_MaterialCB := b_MaterialCB b |}
  | SetGraphicsRootConstantBufferView 1 a =>
      {| b_VertexBuffer := b_VertexBuffer b; b_IndexBuffer := b_IndexBuffer b;
         b_Topology := b_Topology b; b_Table0 := b_Table0 b; b_ObjectCB := Some a;
         b_PassCB := b_PassCB b; b_MaterialCB := b_MaterialCB b |}
  | SetGraphicsRootConstantBufferView 2 a =>
      {| b_VertexBuffer := b_VertexBuffer b; b_IndexBuffer := b_IndexBuffer b;
         b_Topology := b_Topology b; b_Table0 := b_Table0 b; b_ObjectCB := b_ObjectCB b;
         b_PassCB := Some a; b_MaterialCB := b_MaterialCB b |}
  | SetGraphicsRootConstantBufferView 3 a =>
      {| b_VertexBuffer := b_VertexBuffer b; b_IndexBuffer := b_IndexBuffer b;
         b_Topology := b_Topology b; b_Table0 := b_Table0 b; b_ObjectCB := b_ObjectCB b;
         b_PassCB := b_PassCB b; b_MaterialCB := Some a |}
  | _ => b
  end.

(** The bindings in force at each draw call of a command list. *)
Fixpoint bound_draws (b : Bindings) (cmds : list Cmd) : list Bindings :=
  match cmds with
  | [] => []
  | DrawIndexedInstanced _ _ _ _ _ :: rest => b :: bound_draws b rest
  | c :: rest => bound_draws (bind c b) rest
  end.

(** The bindings [DrawRenderItems] makes for the render item at
    position [h], recording against frame resource [p]. *)
Definition item_bindings (st : App) (p : nat) (h : nat) : option Bindings :=
  ri ← mAllRitems st !! h;
  g ← RenderItem.Geo ri;
  geo ← mGeometries st !! g;
  m ← RenderItem.Mat ri;
  mat ← mMaterials st !! m;
  Some {| b_VertexBuffer := Some (VertexBufferGPU geo);
          b_IndexBuffer := Some g;
          b_Topology := Some (RenderItem.PrimitiveType ri);
          b_Table0 := Some (Material.DiffuseSrvHeapIndex mat);
          b_ObjectCB := Some (ObjectCBAddress p (256 * RenderItem.ObjCBIndex ri));
          b_PassCB := Some (PassCBAddress p);
          b_MaterialCB := Some (MaterialCBAddress p (256 * Material.MatCBIndex mat)) |}.

(** The items [Draw] draws, in the order of the layers. *)
Definition drawn_items (st : App) : list nat :=
  mRitemLayer st Opaque ++ mRitemLayer st AlphaTested
  ++ mRitemLayer st AlphaTestedTreeSprites ++ mRitemLayer st Transparent.

(* ================================================================== *)
(** ** Scene construction: the meshes and [Initialize] *)

(** The part the mesh builders share: a mesh named [name] whose 16-bit
    [indices] (and vertices) go to default buffers, with one submesh
    [submesh] that covers all the indices from index 0 and vertex 0,
    stored as [mGeometries[key]]. The default buffer is identified by
    [key]. *)
Definition store_mesh (name submesh key : string) (indices : list Z) (st : App) : App :=
  let sm :=
    {| sub_IndexCount := wrap_UINT (Z.of_nat (length indices));
       sub_StartIndexLocation := 0; sub_BaseVertexLocation := 0 |} in
  let geo :=
    {| geo_Name := name; IndexBufferCPU := indices;
       VertexBufferGPU := DefaultBuffer key;
       DrawArgs := {[ submesh := sm ]} |} in
  set_mGeometries (<[key := geo]> (mGeometries st)) st.

(** What [GetIndices16()] yields for each mesh the geometry generator
    makes; the generator itself is an input of the builders. *)
Record GeneratedIndices := {
  gen_wall : list Z;     (* CreateBox(1, 1, 1, 3) *)
  gen_corner : list Z;   (* CreateCylinder(1, 1, 1, 15, 10) *)
  gen_cone : list Z;     (* CreateCone(1, 1, false, 15, 10) *)
  gen_pyramid : list Z;  (* CreatePyramid(1, 1, 1) *)
  gen_diamond : list Z;  (* CreateDiamond(1, 1, 1) *)
  gen_land : list Z;     (* CreateGrid(720, 720, 225, 225) *)
  gen_box : list Z       (* CreateBox(8, 8, 8, 3) *)
}.

Definition BuildCastleWalls (gen : GeneratedIndices) (st : App) : App :=
  store_mesh "wallGeo" "wall" "wallGeo" (gen_wall gen) st.

(** The mesh of the corners is named "wallGeo" as well, and stored as
    "cornerGeo". *)
Definition BuildCastleCorners (gen : GeneratedIndices) (st : App) : App :=
  store_mesh "wallGeo" "corner" "cornerGeo" (gen_corner gen) st.

Definition BuildCone (gen : GeneratedIndices) (st : App) : App :=
  store_mesh "coneGeo" "cone" "coneGeo" (gen_cone gen) st.

Definition BuildPyramid (gen : GeneratedIndices) (st : App) : App :=
  store_mesh "pyramidGeo" "pyramid" "pyramidGeo" (gen_pyramid gen) st.

Definition BuildDiamond (gen : GeneratedIndices) (st : App) : App :=
  store_mesh "diamondGeo" "diamond" "diamondGeo" (gen_diamond gen) st.

Definition BuildCastleGeometry (gen : GeneratedIndices) (st : App) : App :=
  BuildDiamond gen (BuildPyramid gen (BuildCone gen
    (BuildCastleCorners gen (BuildCastleWalls gen st)))).

Definition BuildLandGeometry (gen : GeneratedIndices) (st : App) : App :=
  store_mesh "landGeo" "grid" "landGeo" (gen_land gen) st.

Definition BuildBoxGeometry (gen : GeneratedIndices) (st : App) : App :=
  store_mesh "boxGeo" "box" "boxGeo" (gen_box gen) st.

(** The 64 tree sprites are points: the indices are 0, .., 63. *)
Definition BuildTreeSpritesGeometry (st : App) : App :=
  store_mesh "treeSpritesGeo" "points" "treeSpritesGeo" (Z.of_nat <$> seq 0 64) st.

(** The scene-building calls of [Initialize], in its order, from the
    creation of the wave simulator to [BuildFrameResources]. The calls
    that create textures, descriptors, shaders and pipeline states, and
    the placement of the camera, act on objects outside the model. *)
Definition Initialize_scene (gen : GeneratedIndices) (st : App) : option App :=
  let st := set_mWaves initial_Waves st in
  let st := BuildCastleGeometry gen st in
  let st := BuildLandGeometry gen st in
  st ← BuildWavesGeometry st;
  let st := BuildBoxGeometry gen st in
  let st := BuildTreeSpritesGeometry st in
  let st := BuildMaterials st in
  st ← BuildRenderItems st;
  Some (BuildFrameResources st).

(** The material, mesh, submesh, topology and layer of the render items
    [BuildRenderItems] stores after the wave item. *)
Definition scene_kinds
  : list (string * string * string * D3D12_PRIMITIVE_TOPOLOGY * RenderLayer) :=
  [ ("grass", "landGeo", "grid", TRIANGLELIST, Opaque);
    ("treeSprites", "treeSpritesGeo", "points", D3D_PRIMITIVE_TOPOLOGY_POINTLIST,
     AlphaTestedTreeSprites);
    ("brick", "wallGeo", "wall", TRIANGLELIST, AlphaTested);
    ("wood", "wallGeo", "wall", TRIANGLELIST, AlphaTested);
    ("grass", "wallGeo", "wall", TRIANGLELIST, AlphaTested);
    ("crystal", "pyramidGeo", "pyramid", TRIANGLELIST, AlphaTested);
    ("marble", "cornerGeo", "corner", TRIANGLELIST, AlphaTested);
    ("marble", "coneGeo", "cone", TRIANGLELIST, AlphaTested);
    ("crystal", "diamondGeo", "diamond", TRIANGLELIST, AlphaTested) ].

(** A mesh whose submesh [submesh] is its whole index buffer. *)
Definition whole_mesh (mesh : MeshGeometry) (submesh : string) : Prop :=
  DrawArgs mesh !! submesh
  = Some {| sub_IndexCount := wrap_UINT (Z.of_nat (length (IndexBufferCPU mesh)));
            sub_StartIndexLocation := 0; sub_BaseVertexLocation := 0 |}.

(** The wave item, which [BuildRenderItems] stores first. *)
Definition water_kind
  : string * string * string * D3D12_PRIMITIVE_TOPOLOGY * RenderLayer :=
  ("water", "waterGeo", "grid", TRIANGLELIST, Transparent).

(** A render item as a block of [BuildRenderItems] fills it in from
    the material [mat] and the submesh [submesh] of the mesh [geo]. *)
Definition made_as (st : App) (mat geo submesh : string)
    (primitiveType : D3D12_PRIMITIVE_TOPOLOGY) (e : RenderItem.t) : Prop :=
  exists mesh,
    mGeometries st !! geo = Some mesh /\
    RenderItem.Mat e = material_ptr st mat /\
    RenderItem.Geo e = Some geo /\
    RenderItem.PrimitiveType e = primitiveType /\
    RenderItem.NumFramesDirty e = gNumFrameResources /\
    RenderItem.IndexCount e = sub_IndexCount (DrawArgs_at mesh submesh) /\
    RenderItem.StartIndexLocation e = sub_StartIndexLocation (DrawArgs_at mesh submesh) /\
    RenderItem.BaseVertexLocation e
    = wrap_int (sub_BaseVertexLocation (DrawArgs_at mesh submesh)).

(** Where [BuildRenderItems], started on [st0] without render items,
    stands after a block: nothing but the items, the layer lists and
    the pointer to the wave item has changed; the wave item is item 0,
    alone in the transparent layer; the layer lists together hold every
    stored item once; and the items of a layer are made as the blocks
    for that layer make them. *)
Definition built_scene (st0 : App) (s : Z * App) : Prop :=
  mGeometries s.2 = mGeometries st0 /\
  mMaterials s.2 = mMaterials st0 /\
  mFrameResources s.2 = mFrameResources st0 /\
  mWaves s.2 = mWaves st0 /\
  mCurrFrameResourceIndex s.2 = mCurrFrameResourceIndex st0 /\
  mWavesRitem s.2 = Some 0%nat /\
  mRitemLayer s.2 Transparent = [0%nat] /\
  drawn_items s.2 ≡ₚ seq 0 (length (mAllRitems s.2)) /\
  forall layer h, h ∈ mRitemLayer s.2 layer ->
    exists e mat geo submesh primitiveType,
      mAllRitems s.2 !! h = Some e /\
      (mat, geo, submesh, primitiveType, layer) ∈ water_kind :: scene_kinds /\
      made_as st0 mat geo submesh primitiveType e.

(** A stand-in for what the geometry generator yields: one triangle
    for every mesh. *)
Definition sample_indices : GeneratedIndices :=
  {| gen_wall := [0; 1; 2]; gen_corner := [0; 1; 2]; gen_cone := [0; 1; 2];
     gen_pyramid := [0; 1; 2]; gen_diamond := [0; 1; 2]; gen_land := [0; 1; 2];
     gen_box := [0; 1; 2] |}.

(* ================================================================== *)
(** ** Pipeline objects: textures, descriptors, shaders, pipeline states *)

(** [LoadTextures]: the seven textures, each stored under its name. *)
Record Texture := { tex_Name : string; tex_Filename : string }.

Definition LoadTextures : gmap string Texture :=
  let grassTex := {| tex_Name := "grassTex"; tex_Filename := "../../Textures/greengrass.dds" |} in
  let waterTex := {| tex_Name := "waterTex"; tex_Filename := "../../Textures/water.dds" |} in
  let brickTex := {| tex_Name := "brickTex"; tex_Filename := "../../Textures/brick.dds" |} in
  let marbleTex := {| tex_Name := "marbleTex"; tex_Filename := "../../Textures/marble.dds" |} in
  let woodTex := {| tex_Name := "woodTex"; tex_Filename := "../../Textures/wood.dds" |} in
  let crystalTex :=
    {| tex_Name := "crystalTex"; tex_Filename := "../../Textures/crystal.dds" |} in
  let treeArrayTex :=
    {| tex_Name := "treeArrayTex"; tex_Filename := "../../Textures/treeArray.dds" |} in
  <[tex_Name treeArrayTex := treeArrayTex]> (<[tex_Name crystalTex := crystalTex]>
    (<[tex_Name woodTex := woodTex]> (<[tex_Name marbleTex := marbleTex]>
    (<[tex_Name brickTex := brickTex]> (<[tex_Name waterTex := waterTex]>
    (<[tex_Name grassTex := grassTex]> ∅)))))).

Inductive D3D12_SRV_DIMENSION :=
  D3D12_SRV_DIMENSION_TEXTURE2D | D3D12_SRV_DIMENSION_TEXTURE2DARRAY.

(** A shader resource view: the texture it views and how. *)
Record ShaderResourceView := {
  srv_Resource : string;
  srv_ViewDimension : D3D12_SRV_DIMENSION
}.

(** [BuildDescriptorHeaps]: a heap of 8 descriptors, filled from the
    start of the heap, one descriptor after the other. A texture that
    is not in [mTextures] is a fault. *)
Definition BuildDescriptorHeaps (mTextures : gmap string Texture)
  : option (list (option ShaderResourceView)) :=
  let heap := replicate 8 None in
  let hDescriptor := 0%nat in
  grassTex ← mTextures !! "grassTex";
  waterTex ← mTextures !! "waterTex";
  brickTex ← mTextures !! "brickTex";
  marbleTex ← mTextures !! "marbleTex";
  woodTex ← mTextures !! "woodTex";
  crystalTex ← mTextures !! "crystalTex";
  treeArrayTex ← mTextures !! "treeArrayTex";
  let view2D tex :=
    Some {| srv_Resource := tex_Name tex;
            srv_ViewDimension := D3D12_SRV_DIMENSION_TEXTURE2D |} in
  let heap := <[hDescriptor := view2D grassTex]> heap in
  (* next descriptor *)
  let hDescriptor := (hDescriptor + 1)%nat in
  let heap := <[hDescriptor := view2D waterTex]> heap in
  let hDescriptor := (hDescriptor + 1)%nat in
  let heap := <[hDescriptor := view2D brickTex]> heap in
  let hDescriptor := (hDescriptor + 1)%nat in
  let heap := <[hDescriptor := view2D marbleTex]> heap in
  let hDescriptor := (hDescriptor + 1)%nat in
  let heap := <[hDescriptor := view2D woodTex]> heap in
  let hDescriptor := (hDescriptor + 1)%nat in
  let heap := <[hDescriptor := view2D crystalTex]> heap in
  let hDescriptor := (hDescriptor + 1)%nat in
  let heap :=
    <[hDescriptor := Some {| srv_Resource := tex_Name treeArrayTex;
                             srv_ViewDimension := D3D12_SRV_DIMENSION_TEXTURE2DARRAY |}]>
      heap in
  Some heap.

(** [BuildRootSignature]: the four root parameters. *)
Inductive RootParameter :=
| DescriptorTable (numDescriptors baseShaderRegister : Z)
| ConstantBufferView (shaderRegister : Z).

Definition BuildRootSignature : list RootParameter :=
  [ DescriptorTable 1 0; ConstantBufferView 0; ConstantBufferView 1; ConstantBufferView 2 ].

(** A compiled shader: what [d3dUtil::CompileShader] was called with. *)
Record Shader := {
  sh_Filename : string;
  sh_Defines : list (string * string);
  sh_Entrypoint : string;
  sh_Target : string
}.

Inductive DXGI_FORMAT := DXGI_FORMAT_R32G32B32_FLOAT | DXGI_FORMAT_R32G32_FLOAT.

Record InputElement := {
  SemanticName : string;
  Format : DXGI_FORMAT;
  AlignedByteOffset : Z
}.

(** [BuildShadersAndInputLayouts]: the six shaders of [mShaders] and
    the two input layouts. *)
Definition defines : list (string * string) := [].
Definition alphaTestDefines : list (string * string) := [("ALPHA_TEST", "1")].

Definition BuildShadersAndInputLayouts : gmap string Shader :=
  <["treeSpritePS" := Build_Shader "Shaders\TreeSprite.hlsl" alphaTestDefines "PS" "ps_5_1"]>
  (<["treeSpriteGS" := Build_Shader "Shaders\TreeSprite.hlsl" [] "GS" "gs_5_1"]>
  (<["treeSpriteVS" := Build_Shader "Shaders\TreeSprite.hlsl" [] "VS" "vs_5_1"]>
  (<["alphaTestedPS" := Build_Shader "Shaders\Default.hlsl" alphaTestDefines "PS" "ps_5_1"]>
  (<["opaquePS" := Build_Shader "Shaders\Default.hlsl" defines "PS" "ps_5_1"]>
  (<["standardVS" := Build_Shader "Shaders\Default.hlsl" [] "VS" "vs_5_1"]> ∅))))).

Definition mStdInputLayout : list InputElement :=
  [ Build_InputElement "POSITION" DXGI_FORMAT_R32G32B32_FLOAT 0;
    Build_InputElement "NORMAL" DXGI_FORMAT_R32G32B32_FLOAT 12;
    Build_InputElement "TEXCOORD" DXGI_FORMAT_R32G32_FLOAT 24 ].

Definition mTreeSpriteInputLayout : list InputElement :=
  [ Build_InputElement "POSITION" DXGI_FORMAT_R32G32B32_FLOAT 0;
    Build_InputElement "SIZE" DXGI_FORMAT_R32G32_FLOAT 12 ].

Inductive D3D12_PRIMITIVE_TOPOLOGY_TYPE :=
  D3D12_PRIMITIVE_TOPOLOGY_TYPE_TRIANGLE | D3D12_PRIMITIVE_TOPOLOGY_TYPE_POINT.

(** The fields of a pipeline state description in which the four
    pipeline states differ; the others (root signature, depth-stencil
    state, sample mask and count, formats) are those of the opaque
    description in all of them. [pso_CullNone]: the cull mode is
    [D3D12_CULL_MODE_NONE] instead of the default; [pso_Transparency]:
    render target 0 blends with [transparencyBlendDesc]. *)
Record PsoDesc := {
  pso_InputLayout : list InputElement;
  pso_VS : Shader;
  pso_GS : option Shader;
  pso_PS : Shader;
  pso_CullNone : bool;
  pso_Transparency : bool;
  pso_PrimitiveTopologyType : D3D12_PRIMITIVE_TOPOLOGY_TYPE
}.

(** [BuildPSOs]: the four pipeline states. A shader that is not in
    [mShaders] is a fault. *)
Definition BuildPSOs (shaders : gmap string Shader) : option (gmap string PsoDesc) :=
  (* PSO for opaque objects. *)
  standardVS ← shaders !! "standardVS";
  opaquePS ← shaders !! "opaquePS";
  let opaquePsoDesc :=
    {| pso_InputLayout := mStdInputLayout; pso_VS := standardVS; pso_GS := None;
       pso_PS := opaquePS; pso_CullNone := false; pso_Transparency := false;
       pso_PrimitiveTopologyType := D3D12_PRIMITIVE_TOPOLOGY_TYPE_TRIANGLE |} in
  let mPSOs := <["opaque" := opaquePsoDesc]> ∅ in
  (* PSO for transparent objects *)
  let transparentPsoDesc :=
    {| pso_InputLayout := pso_InputLayout opaquePsoDesc; pso_VS := pso_VS opaquePsoDesc;
       pso_GS := pso_GS opaquePsoDesc; pso_PS := pso_PS opaquePsoDesc;
       pso_CullNone := pso_CullNone opaquePsoDesc; pso_Transparency := true;
       pso_PrimitiveTopologyType := pso_PrimitiveTopologyType opaquePsoDesc |} in
  let mPSOs := <["transparent" := transparentPsoDesc]> mPSOs in
  (* PSO for alpha tested objects *)
  alphaTestedPS ← shaders !! "alphaTestedPS";
  let alphaTestedPsoDesc :=
    {| pso_InputLayout := pso_InputLayout opaquePsoDesc; pso_VS := pso_VS opaquePsoDesc;
       pso_GS := pso_GS opaquePsoDesc; pso_PS := alphaTestedPS;
       pso_CullNone := true; pso_Transparency := pso_Transparency opaquePsoDesc;
       pso_PrimitiveTopologyType := pso_PrimitiveTopologyType opaquePsoDesc |} in
  let mPSOs := <["alphaTested" := alphaTestedPsoDesc]> mPSOs in
  (* PSO for tree sprites *)
  treeSpriteVS ← shaders !! "treeSpriteVS";
  treeSpriteGS ← shaders !! "treeSpriteGS";
  treeSpritePS ← shaders !! "treeSpritePS";
  let treeSpritePsoDesc :=
    {| pso_InputLayout := mTreeSpriteInputLayout; pso_VS := treeSpriteVS;
       pso_GS := Some treeSpriteGS; pso_PS := treeSpritePS;
       pso_CullNone := true; pso_Transparency := pso_Transparency opaquePsoDesc;
       pso_PrimitiveTopologyType := D3D12_PRIMITIVE_TOPOLOGY_TYPE_POINT |} in
  Some (<["treeSprites" := treeSpritePsoDesc]> mPSOs).

(** The pipeline state and the bindings in force at each draw call of
    a command list. *)
Fixpoint pso_draws (pso : string) (b : Bindings) (cmds : list Cmd)
  : list (string * Bindings) :=
  match cmds with
  | [] => []
  | CmdReset pso' :: rest => pso_draws pso' b rest
  | SetPipelineState pso' :: rest => pso_draws pso' b rest
  | DrawIndexedInstanced _ _ _ _ _ :: rest => (pso, b) :: pso_draws pso b rest
  | c :: rest => pso_draws pso (bind c b) rest
  end.

(** The topology type a pipeline state must have for a primitive
    topology. *)
Definition topology_type (t : D3D12_PRIMITIVE_TOPOLOGY) : D3D12_PRIMITIVE_TOPOLOGY_TYPE :=
  match t with
  | D3D_PRIMITIVE_TOPOLOGY_TRIANGLELIST => D3D12_PRIMITIVE_TOPOLOGY_TYPE_TRIANGLE
  | D3D_PRIMITIVE_TOPOLOGY_POINTLIST => D3D12_PRIMITIVE_TOPOLOGY_TYPE_POINT
  end.

(** A draw call that agrees with the pipeline objects: its pipeline
    state is one of [psos], with the topology type of the topology that
    is bound and with the tree-sprite input layout exactly when the
    mesh bound is the tree-sprite mesh; root parameter 0 is a
    descriptor table and is set to a descriptor of [heap] that is
    filled, the view of a texture array exactly under the pipeline
    state of the tree sprites; root parameters 1, 2 and 3 are constant
    buffer views and are set. *)
Definition root_table (root : list RootParameter) (k : nat) : Prop :=
  exists n r, root !! k = Some (DescriptorTable n r).
Definition root_cbv (root : list RootParameter) (k : nat) : Prop :=
  exists r, root !! k = Some (ConstantBufferView r).

Definition draw_agrees (root : list RootParameter) (psos : gmap string PsoDesc)
    (heap : list (option ShaderResourceView)) (d : string * Bindings) : Prop :=
  exists desc t g i srv,
    psos !! d.1 = Some desc /\
    b_Topology d.2 = Some t /\ pso_PrimitiveTopologyType desc = topology_type t /\
    b_IndexBuffer d.2 = Some g /\
    (pso_InputLayout desc = mTreeSpriteInputLayout <-> g = "treeSpritesGeo") /\
    root_table root 0 /\ b_Table0 d.2 = Some i /\
    0 <= i /\ heap !! Z.to_nat i = Some (Some srv) /\
    (srv_ViewDimension srv = D3D12_SRV_DIMENSION_TEXTURE2DARRAY <-> d.1 = "treeSprites") /\
    root_cbv root 1 /\ is_Some (b_ObjectCB d.2) /\
    root_cbv root 2 /\ is_Some (b_PassCB d.2) /\
    root_cbv root 3 /\ is_Some (b_MaterialCB d.2).

(** The layers agree with the pipeline states under which [Draw] draws
    them: every listed item has a mesh and a material; the mesh is the
    tree-sprite mesh, the topology a point list and the texture slot
    slot 6 exactly in the tree-sprite layer; the texture slot is one of
    0 to 6. *)
Definition layers_agree (st : App) : Prop :=
  forall layer h, h ∈ mRitemLayer st layer ->
    exists e g m mat,
      mAllRitems st !! h = Some e /\
      RenderItem.Geo e = Some g /\ RenderItem.Mat e = Some m /\
      mMaterials st !! m = Some mat /\
      (g = "treeSpritesGeo" <-> layer = AlphaTestedTreeSprites) /\
      (RenderItem.PrimitiveType e = D3D_PRIMITIVE_TOPOLOGY_POINTLIST
       <-> layer = AlphaTestedTreeSprites) /\
      0 <= Material.DiffuseSrvHeapIndex mat < 7 /\
      (Material.DiffuseSrvHeapIndex mat = 6 <-> layer = AlphaTestedTreeSprites).

(** The pipeline state under which [Draw] draws a layer. *)
Definition layer_pso (layer : RenderLayer) : string :=
  match layer with
  | Opaque => "opaque"
  | AlphaTested => "alphaTested"
  | AlphaTestedTreeSprites => "treeSprites"
  | Transparent => "transparent"
  end.

(* ================================================================== *)
(** * Properties *)

(** Comparisons between closed integer terms, by evaluation. *)
Ltac closed_arith :=
  vm_compute; repeat split; try reflexivity;
  try (let X := fresh in intro X; discriminate X).

(** A closed run that does not fault: [H] says it does. *)
Ltac no_fault H := vm_compute in H; discriminate H.

(** ** Machine integers, ranges and folds *)

Lemma wrap_int_small z : - 2 ^ 31 <= z < 2 ^ 31 -> wrap_int z = z.
Proof. intros H. unfold wrap_int. rewrite Z.mod_small; lia. Qed.

Lemma wrap_UINT_small z : 0 <= z < 2 ^ 32 -> wrap_UINT z = z.
Proof. intros H. unfold wrap_UINT. apply Z.mod_small; lia. Qed.

Lemma wrap_uint16_small z : 0 <= z < 2 ^ 16 -> wrap_uint16 z = z.
Proof. intros H. unfold wrap_uint16. apply Z.mod_small; lia. Qed.

Lemma int_range_from_length x n : length (int_range_from x n) = n.
Proof. revert x. induction n as [|n IH]; intros x; simpl; [done|]. by rewrite IH. Qed.

Lemma int_range_from_lookup x n (i : nat) :
  (i < n)%nat -> int_range_from x n !! i = Some (x + Z.of_nat i).
Proof.
  revert x i. induction n as [|n IH]; intros x [|i] Hi; simpl; try lia.
  - f_equal. lia.
  - rewrite IH by lia. f_equal. lia.
Qed.

Lemma int_range_from_snoc x n :
  int_range_from x (S n) = int_range_from x n ++ [x + Z.of_nat n].
Proof.
  revert x. induction n as [|n IH]; intros x.
  - simpl. f_equal. lia.
  - change (int_range_from x (S (S n))) with (x :: int_range_from (x + 1) (S n)).
    rewrite IH. simpl. do 3 f_equal. lia.
Qed.

Lemma elem_of_int_range_from x n y :
  y ∈ int_range_from x n <-> x <= y < x + Z.of_nat n.
Proof.
  revert x. induction n as [|n IH]; intros x; simpl.
  - rewrite elem_of_nil. lia.
  - rewrite elem_of_cons, IH. lia.
Qed.

Lemma foldlM_app {A B} (f : A -> B -> option A) a l1 l2 :
  foldlM f a (l1 ++ l2) = (a' ← foldlM f a l1; foldlM f a' l2).
Proof.
  revert a. induction l1 as [|b l1 IH]; intros a; simpl; [done|].
  destruct (f a b) as [a'|]; simpl; [apply IH|done].
Qed.

(** An invariant of the steps of a fold is an invariant of the fold. *)
Lemma foldlM_invariant {A B} (P : A -> Prop) (f : A -> B -> option A) l a a' :
  (forall a b a', b ∈ l -> P a -> f a b = Some a' -> P a') ->
  P a -> foldlM f a l = Some a' -> P a'.
Proof.
  revert a. induction l as [|b l IH]; intros a Hf Ha Hrun; simpl in Hrun.
  - by simplify_eq.
  - destruct (f a b) as [a1|] eqn:E; simpl in Hrun; [|done].
    apply (IH a1); [|eapply Hf; [by left|exact Ha|exact E]|exact Hrun].
    intros a2 b2 a3 Hb2. apply Hf. by right.
Qed.

(** A fold whose steps cannot fault under an invariant does not fault. *)
Lemma foldlM_is_Some {A B} (P : A -> Prop) (f : A -> B -> option A) l a :
  (forall a b, b ∈ l -> P a -> exists a', f a b = Some a' /\ P a') ->
  P a -> exists a', foldlM f a l = Some a' /\ P a'.
Proof.
  revert a. induction l as [|b l IH]; intros a Hf Ha; simpl.
  - by exists a.
  - destruct (Hf a b) as (a1 & -> & Ha1); [by left|done|]. simpl.
    apply IH; [|done]. intros ????. apply Hf; [by right|done].
Qed.

(** ** Matrices *)

Lemma mat_get_set_same M v (r c : nat) :
  (r < 4)%nat -> (c < 4)%nat -> mat_get (mat_set M r c v) r c = v.
Proof.
  intros Hr Hc.
  destruct r as [|[|[|[|r]]]]; try lia; destruct c as [|[|[|[|c]]]]; try lia; reflexivity.
Qed.

Lemma mat_get_set_other M v (r c r' c' : nat) :
  (r, c) <> (r', c') -> mat_get (mat_set M r c v) r' c' = mat_get M r' c'.
Proof.
  intros Hne.
  destruct r' as [|[|[|[|r']]]]; destruct c' as [|[|[|[|c']]]]; try reflexivity;
    unfold mat_set, mat_of, mat_get; cbn [m00 m01 m02 m03 m10 m11 m12 m13 m20 m21 m22 m23 m30 m31 m32 m33];
    (destruct r as [|[|[|[|r]]]]; destruct c as [|[|[|[|c]]]]; try reflexivity; congruence).
Qed.

(* ================================================================== *)
(** ** What the steps of the update stage change *)

Section Effects.

Lemma CopyData_ElementCount {T} i (x : T) b b' :
  CopyData i x b = Some b' -> ElementCount b' = ElementCount b.
Proof. unfold CopyData. case_decide; [|done]. by intros [= <-]. Qed.

Lemma CopyData_is_Some {T} i (x : T) b :
  0 <= i < ElementCount b -> is_Some (CopyData i x b).
Proof. intros H. unfold CopyData. rewrite decide_True by done. eauto. Qed.

Lemma CurrFrameResource_Some st p fr :
  CurrFrameResource st = Some (p, fr) <->
  mCurrFrameResource st = Some p /\ mFrameResources st !! p = Some fr.
Proof.
  unfold CurrFrameResource. split.
  - intros H. destruct (mCurrFrameResource st) as [q|]; [|done]. cbn in H.
    destruct (mFrameResources st !! q) as [fr'|] eqn:E; [|done]. cbn in H.
    by injection H as -> ->.
  - intros [-> H]. cbn. by rewrite H.
Qed.

(** Replacing a frame resource by one with the same fence and the
    same capacities changes neither of those for the ring. *)
Lemma fmap_insert_same {A B} (f : A -> B) (l : list A) (p : nat) (x y : A) :
  l !! p = Some x -> f y = f x -> f <$> <[p := y]> l = f <$> l.
Proof.
  intros Hp Hf. rewrite list_fmap_insert, Hf.
  apply list_insert_id. by rewrite list_lookup_fmap, Hp.
Qed.

(** *** The object constants *)

Lemma UpdateObjectCB_item_effect cb e cb1 e1 :
  UpdateObjectCB_item cb e = Some (cb1, e1) ->
  e1 = tick_ritem e /\ ElementCount cb1 = ElementCount cb.
Proof.
  unfold UpdateObjectCB_item, tick_ritem. intros He.
  destruct (0 <? RenderItem.NumFramesDirty e).
  - cbn zeta in He. destruct (CopyData _ _ cb) as [cb1'|] eqn:Hcopy; cbn in He; [|done].
    injection He as <- <-. split; [done|]. by eapply CopyData_ElementCount.
  - by injection He as <- <-.
Qed.

Lemma UpdateObjectCBs_loop_items cb items cb' items' :
  UpdateObjectCBs_loop cb items = Some (cb', items') ->
  items' = tick_ritem <$> items /\ ElementCount cb' = ElementCount cb.
Proof.
  revert cb cb' items'. induction items as [|e items IH]; intros cb cb' items' H.
  - cbn in H. by injection H as <- <-.
  - cbn [UpdateObjectCBs_loop] in H.
    destruct (UpdateObjectCB_item cb e) as [[cb1 e1]|] eqn:He; [|done]. cbn in H.
    destruct (UpdateObjectCBs_loop cb1 items) as [[cb2 rest]|] eqn:Hl; [|done]. cbn in H.
    injection H as <- <-. destruct (IH _ _ _ Hl) as [-> Hc].
    apply UpdateObjectCB_item_effect in He as [-> Hc1].
    split; [done|congruence].
Qed.

Lemma UpdateObjectCBs_loop_is_Some cb items :
  Forall (fun e => 0 <= RenderItem.ObjCBIndex e < ElementCount cb) items ->
  is_Some (UpdateObjectCBs_loop cb items).
Proof.
  revert cb. induction items as [|e items IH]; intros cb H; [by eexists|].
  apply Forall_cons_iff in H as [He H]. cbn [UpdateObjectCBs_loop].
  assert (exists cb1 e1, UpdateObjectCB_item cb e = Some (cb1, e1)
                         /\ ElementCount cb1 = ElementCount cb) as (cb1 & e1 & -> & Hc).
  { unfold UpdateObjectCB_item. destruct (0 <? RenderItem.NumFramesDirty e).
    - destruct (CopyData_is_Some (RenderItem.ObjCBIndex e)
        {| oc_World := XMMatrixTranspose (RenderItem.World e);
           oc_TexTransform := XMMatrixTranspose (RenderItem.TexTransform e) |} cb He)
        as [cb1 Hcb1].
      rewrite Hcb1. cbn. eexists _, _. split; [done|]. by eapply CopyData_ElementCount.
    - by eexists _, _. }
  cbn. destruct (IH cb1) as [[cb2 rest] ->]; [by rewrite Hc|]. by eexists.
Qed.

Lemma UpdateObjectCBs_effect inp st st' :
  UpdateObjectCBs inp st = Some st' ->
  exists p fr cb,
    CurrFrameResource st = Some (p, fr) /\
    ElementCount cb = ElementCount (ObjectCB fr) /\
    st' = set_mAllRitems (tick_ritem <$> mAllRitems st)
            (store_FrameResource p (set_ObjectCB cb fr) st).
Proof.
  unfold UpdateObjectCBs. intros H.
  destruct (CurrFrameResource st) as [[p fr]|] eqn:Hc; [|done]. cbn in H.
  destruct (UpdateObjectCBs_loop _ _) as [[cb items]|] eqn:Hl; [|done]. cbn in H.
  injection H as <-. apply UpdateObjectCBs_loop_items in Hl as [-> Hcount].
  by exists p, fr, cb.
Qed.

(** *** The material constants *)

Lemma UpdateMaterialCB_entry_effect cb mats k m cb1 mats1 :
  UpdateMaterialCB_entry (cb, mats) (k, m) = Some (cb1, mats1) ->
  mats !! k = Some m ->
  ElementCount cb1 = ElementCount cb /\ mats1 = <[k := tick_material m]> mats.
Proof.
  unfold UpdateMaterialCB_entry, tick_material. cbn [fst snd]. intros He Hk.
  destruct (0 <? Material.NumFramesDirty m) eqn:E.
  - cbn zeta in He. destruct (CopyData _ _ cb) as [cb1'|] eqn:Hcopy; cbn in He; [|done].
    injection He as <- <-. split; [by eapply CopyData_ElementCount|done].
  - injection He as <- <-. split; [done|]. by rewrite insert_id.
Qed.

(** The fold over entries with distinct names, each the entry the
    map has under that name, applies [tick_material] to them. *)
Lemma UpdateMaterialCB_entries l : forall cb mats cb' mats',
  NoDup l.*1 ->
  (forall k m, (k, m) ∈ l -> mats !! k = Some m) ->
  foldlM UpdateMaterialCB_entry (cb, mats) l = Some (cb', mats') ->
  ElementCount cb' = ElementCount cb /\
  forall name, mats' !! name =
    match list_to_map (M := gmap string Material.t) l !! name with
    | Some m => Some (tick_material m)
    | None => mats !! name
    end.
Proof.
  induction l as [|[k m] l IH]; intros cb mats cb' mats' Hnd Hin H.
  - cbn in H. injection H as <- <-. split; [done|]. intros name.
    change (list_to_map []) with (∅ : gmap string Material.t). by rewrite lookup_empty.
  - cbn [foldlM] in H. cbn in Hnd.
    pose proof (NoDup_cons_1_1 _ _ Hnd) as Hk. apply NoDup_cons_1_2 in Hnd.
    destruct (UpdateMaterialCB_entry (cb, mats) (k, m)) as [[cb1 mats1]|] eqn:He; [|done].
    cbn in H.
    apply UpdateMaterialCB_entry_effect in He as [Hc1 ->]; [|apply Hin; by left].
    assert (Hin1 : forall k' m', (k', m') ∈ l ->
              <[k := tick_material m]> mats !! k' = Some m').
    { intros k' m' Hin'. rewrite lookup_insert_ne; [apply Hin; by right|].
      intros ->. apply Hk. apply list_elem_of_fmap. by exists (k', m'). }
    destruct (IH _ _ _ _ Hnd Hin1 H) as [Hc Hl].
    split; [congruence|]. intros name. rewrite Hl. cbn [list_to_map foldr].
    assert (Hnone : list_to_map (M := gmap string Material.t) l !! k = None).
    { apply not_elem_of_list_to_map_1. exact Hk. }
    destruct (decide (name = k)) as [->|Hne].
    + by rewrite Hnone, !lookup_insert_eq.
    + rewrite !lookup_insert_ne by done. done.
Qed.

Lemma UpdateMaterialCBs_loop_mats cb mats cb' mats' :
  UpdateMaterialCBs_loop cb mats = Some (cb', mats') ->
  mats' = tick_material <$> mats /\ ElementCount cb' = ElementCount cb.
Proof.
  unfold UpdateMaterialCBs_loop. intros H.
  apply UpdateMaterialCB_entries in H as [Hc Hl].
  - split; [|done]. apply map_eq. intros name.
    rewrite Hl, list_to_map_to_list, lookup_fmap.
    by destruct (mats !! name).
  - apply NoDup_fst_map_to_list.
  - intros k m. apply elem_of_map_to_list.
Qed.

Lemma UpdateMaterialCBs_loop_is_Some cb (mats : gmap string Material.t) :
  map_Forall (fun _ m => 0 <= Material.MatCBIndex m < ElementCount cb) mats ->
  is_Some (UpdateMaterialCBs_loop cb mats).
Proof.
  intros Hall. unfold UpdateMaterialCBs_loop.
  destruct (foldlM_is_Some
    (fun acc : UploadBuffer MaterialConstants * gmap string Material.t =>
       ElementCount acc.1 = ElementCount cb)
    UpdateMaterialCB_entry (map_to_list mats) (cb, mats)) as (acc & -> & _); [|done|done].
  intros [cb1 mats1] [k m] Hin Hc. cbn in Hc.
  apply elem_of_map_to_list in Hin. specialize (Hall k m Hin). cbn in Hall.
  unfold UpdateMaterialCB_entry. cbn [fst snd].
  destruct (0 <? Material.NumFramesDirty m); [|by eexists].
  cbn zeta.
  match goal with |- context [CopyData ?i ?x cb1] =>
    destruct (CopyData_is_Some i x cb1) as [cb2 Hcb2]; [by rewrite Hc|] end.
  rewrite Hcb2. cbn. eexists. split; [done|]. cbn.
  apply CopyData_ElementCount in Hcb2. congruence.
Qed.

Lemma UpdateMaterialCBs_effect inp st st' :
  UpdateMaterialCBs inp st = Some st' ->
  exists p fr cb,
    CurrFrameResource st = Some (p, fr) /\
    ElementCount cb = ElementCount (MaterialCB fr) /\
    st' = set_mMaterials (tick_material <$> mMaterials st)
            (store_FrameResource p (set_MaterialCB cb fr) st).
Proof.
  unfold UpdateMaterialCBs. intros H.
  destruct (CurrFrameResource st) as [[p fr]|] eqn:Hc; [|done]. cbn in H.
  destruct (UpdateMaterialCBs_loop _ _) as [[cb mats]|] eqn:Hl; [|done]. cbn in H.
  injection H as <-. apply UpdateMaterialCBs_loop_mats in Hl as [-> Hcount].
  by exists p, fr, cb.
Qed.

(** *** The water material, the pass constants, the waves *)

Lemma AnimateMaterials_effect inp st st' :
  AnimateMaterials inp st = Some st' ->
  exists waterMat,
    mMaterials st !! "water" = Some waterMat /\
    st' = set_mMaterials
            (<["water" := animate_water (DeltaTime (gt inp)) waterMat]> (mMaterials st)) st.
Proof.
  unfold AnimateMaterials. intros H.
  destruct (mMaterials st !! "water") as [waterMat|]; [|done]. cbn in H.
  injection H as <-. by exists waterMat.
Qed.

Lemma UpdateMainPassCB_effect inp st st' :
  UpdateMainPassCB inp st = Some st' ->
  exists p fr cb pc,
    CurrFrameResource st = Some (p, fr) /\
    ElementCount cb = ElementCount (PassCB fr) /\
    FogColor pc = FogColor (mMainPassCB st) /\
    st' = store_FrameResource p (set_PassCB cb fr) (set_mMainPassCB pc st).
Proof.
  unfold UpdateMainPassCB. cbn zeta. intros H.
  match type of H with context [set_mMainPassCB ?pc st] => set (pc0 := pc) in * end.
  change (CurrFrameResource (set_mMainPassCB pc0 st)) with (CurrFrameResource st) in H.
  destruct (CurrFrameResource st) as [[p fr]|]; [|done]. cbn in H.
  destruct (CopyData 0 pc0 (PassCB fr)) as [cb|] eqn:Hcb; [|done]. cbn in H.
  injection H as <-. exists p, fr, cb, pc0.
  split; [done|]. split; [by eapply CopyData_ElementCount|]. by split.
Qed.

Lemma wave_vertices_ElementCount inp waves l : forall vb vb',
  foldlM (fun vb i => CopyData i (wave_vertex inp waves i) vb) vb l = Some vb' ->
  ElementCount vb' = ElementCount vb.
Proof.
  induction l as [|i l IH]; intros vb vb' H; cbn in H; [by injection H as <-|].
  destruct (CopyData i _ vb) as [vb1|] eqn:E; [|done]. cbn in H.
  rewrite (IH _ _ H). by eapply CopyData_ElementCount.
Qed.

Lemma wave_vertices_is_Some inp waves n vb :
  Z.of_nat n <= ElementCount vb ->
  is_Some (foldlM (fun vb i => CopyData i (wave_vertex inp waves i) vb) vb
                  (int_range_from 0 n)).
Proof.
  intros Hn.
  destruct (foldlM_is_Some (fun vb1 => ElementCount vb1 = ElementCount vb)
    (fun vb i => CopyData i (wave_vertex inp waves i) vb) (int_range_from 0 n) vb)
    as (vb' & -> & _); [|done|done].
  intros vb1 i Hi Hc. apply elem_of_int_range_from in Hi.
  destruct (CopyData_is_Some i (wave_vertex inp waves i) vb1) as [vb2 Hvb2]; [lia|].
  exists vb2. split; [done|]. apply CopyData_ElementCount in Hvb2. congruence.
Qed.

Lemma UpdateWaves_effect inp st st' :
  UpdateWaves inp st = Some st' ->
  exists tb waves p fr vb g geo w ritem,
    UpdateWaves_disturb inp st = Some (tb, waves) /\
    CurrFrameResource st = Some (p, fr) /\
    ElementCount vb = ElementCount (WavesVB fr) /\
    mWavesRitem st = Some w /\ mAllRitems st !! w = Some ritem /\
    RenderItem.Geo ritem = Some g /\ mGeometries st !! g = Some geo /\
    st' = set_mGeometries
            (<[g := set_VertexBufferGPU (WavesVBResource p) geo]> (mGeometries st))
            (store_FrameResource p (set_WavesVB vb fr)
               (set_mWaves (waves_call (Waves_Update (DeltaTime (gt inp))) waves)
                  (set_t_base tb st))).
Proof.
  unfold UpdateWaves. intros H.
  destruct (UpdateWaves_disturb inp st) as [[tb waves]|]; [|done]. cbn [mbind option_bind] in H.
  cbn zeta in H.
  match type of H with context [CurrFrameResource ?s] =>
    change (CurrFrameResource s) with (CurrFrameResource st) in H end.
  destruct (CurrFrameResource st) as [[p fr]|]; [|done]. cbn [mbind option_bind] in H.
  match type of H with context [foldlM ?f ?a ?l] =>
    destruct (foldlM f a l) as [vb|] eqn:Hvb; [|done] end.
  cbn [mbind option_bind] in H. cbn in H.
  destruct (mWavesRitem st) as [w|]; [|done]. cbn in H.
  destruct (mAllRitems st !! w) as [ritem|] eqn:Hw; [|done]. cbn in H.
  destruct (RenderItem.Geo ritem) as [g|] eqn:Hg; [|done]. cbn in H.
  destruct (mGeometries st !! g) as [geo|] eqn:Hgeo; [|done]. cbn in H.
  injection H as <-. exists tb, waves, p, fr, vb, g, geo, w, ritem.
  repeat split; try done. by eapply wave_vertices_ElementCount.
Qed.

Lemma UpdateWaves_disturb_grid inp st tb waves :
  UpdateWaves_disturb inp st = Some (tb, waves) ->
  RowCount waves = RowCount (mWaves st) /\ ColumnCount waves = ColumnCount (mWaves st).
Proof.
  unfold UpdateWaves_disturb. intros H.
  destruct (Qle_bool _ _); [|by injection H as <- <-].
  cbn zeta in H. destruct (MathHelper_Rand (rand_row inp) _ _) as [i|]; cbn in H; [|done].
  destruct (MathHelper_Rand (rand_col inp) _ _) as [j|]; cbn in H; [|done].
  by injection H as <- <-.
Qed.

(** *** The steps leave the ring and the scene as they are *)

Lemma ritem_refs_tick e : ritem_refs (tick_ritem e) = ritem_refs e.
Proof. unfold tick_ritem. by destruct (0 <? _). Qed.

Lemma ritem_refs_tick_list (items : list RenderItem.t) :
  ritem_refs <$> (tick_ritem <$> items) = ritem_refs <$> items.
Proof.
  rewrite <- list_fmap_compose. apply list_fmap_ext. intros _ e _. apply ritem_refs_tick.
Qed.

Lemma MatCBIndex_tick (mats : gmap string Material.t) :
  Material.MatCBIndex <$> (tick_material <$> mats) = Material.MatCBIndex <$> mats.
Proof.
  rewrite <- map_fmap_compose. apply map_fmap_ext. intros _ m _.
  cbn. unfold tick_material. by destruct (0 <? _).
Qed.

Lemma MatCBIndex_animate (mats : gmap string Material.t) waterMat dt :
  mats !! "water" = Some waterMat ->
  Material.MatCBIndex <$> <["water" := animate_water dt waterMat]> mats
  = Material.MatCBIndex <$> mats.
Proof.
  intros H. rewrite fmap_insert. apply insert_id. by rewrite lookup_fmap, H.
Qed.

Lemma store_FrameResource_ring p fr fr' st :
  mFrameResources st !! p = Some fr ->
  Fence fr' = Fence fr -> capacities fr' = capacities fr ->
  ring_view (store_FrameResource p fr' st) = ring_view st.
Proof.
  intros Hp Hf Hc. unfold ring_view, fences. cbn.
  by rewrite !(fmap_insert_same _ _ _ fr).
Qed.

Lemma AnimateMaterials_views inp st st' :
  AnimateMaterials inp st = Some st' ->
  ring_view st' = ring_view st /\ scene_view st' = scene_view st.
Proof.
  intros H. apply AnimateMaterials_effect in H as (w & Hw & ->).
  split; [reflexivity|]. unfold scene_view. cbn. by rewrite MatCBIndex_animate.
Qed.

Lemma UpdateObjectCBs_views inp st st' :
  UpdateObjectCBs inp st = Some st' ->
  ring_view st' = ring_view st /\ scene_view st' = scene_view st.
Proof.
  intros H. apply UpdateObjectCBs_effect in H as (p & fr & cb & Hc & Hn & ->).
  apply CurrFrameResource_Some in Hc as [Hp Hfr]. split.
  - apply (store_FrameResource_ring p fr); [done|done|].
    unfold capacities. cbn. by rewrite Hn.
  - unfold scene_view. cbn. by rewrite ritem_refs_tick_list.
Qed.

Lemma UpdateMaterialCBs_views inp st st' :
  UpdateMaterialCBs inp st = Some st' ->
  ring_view st' = ring_view st /\ scene_view st' = scene_view st.
Proof.
  intros H. apply UpdateMaterialCBs_effect in H as (p & fr & cb & Hc & Hn & ->).
  apply CurrFrameResource_Some in Hc as [Hp Hfr]. split.
  - apply (store_FrameResource_ring p fr); [done|done|].
    unfold capacities. cbn. by rewrite Hn.
  - unfold scene_view. cbn. by rewrite MatCBIndex_tick.
Qed.

Lemma UpdateMainPassCB_views inp st st' :
  UpdateMainPassCB inp st = Some st' ->
  ring_view st' = ring_view st /\ scene_view st' = scene_view st.
Proof.
  intros H. apply UpdateMainPassCB_effect in H as (p & fr & cb & pc & Hc & Hn & _ & ->).
  apply CurrFrameResource_Some in Hc as [Hp Hfr]. split; [|reflexivity].
  apply (store_FrameResource_ring p fr (set_PassCB cb fr) (set_mMainPassCB pc st));
    [done|done|].
  unfold capacities. cbn. by rewrite Hn.
Qed.

Lemma UpdateWaves_views inp st st' :
  UpdateWaves inp st = Some st' ->
  ring_view st' = ring_view st /\ scene_view st' = scene_view st.
Proof.
  intros H. apply UpdateWaves_effect in H
    as (tb & waves & p & fr & vb & g & geo & w & ritem
        & Hd & Hc & Hn & Hw & Hr & Hg & Hgeo & ->).
  apply CurrFrameResource_Some in Hc as [Hp Hfr].
  apply UpdateWaves_disturb_grid in Hd as [Hrows Hcols]. split.
  - match goal with |- ring_view (set_mGeometries _ ?s) = _ =>
      change (ring_view s = ring_view st) end.
    match goal with |- ring_view (store_FrameResource _ _ ?s) = _ =>
      change (ring_view st) with (ring_view s) end.
    apply (store_FrameResource_ring p fr); [done|done|].
    unfold capacities. cbn. by rewrite Hn.
  - unfold scene_view. cbn. rewrite Hrows, Hcols.
    rewrite dom_insert_lookup_L by (by eexists). done.
Qed.

End Effects.
Section Progress.

Lemma well_formed_views st st' :
  capacities <$> mFrameResources st' = capacities <$> mFrameResources st ->
  scene_view st' = scene_view st ->
  well_formed st -> well_formed st'.
Proof.
  unfold well_formed. intros Hcap Hs. rewrite Hs.
  destruct (scene_view st) as [[[[[refs layers] waves] slots] geos] [rows cols]].
  rewrite Hcap.
  intros (Hlen & H). split; [|exact H].
  rewrite <- Hlen, <- (length_fmap capacities), Hcap. apply length_fmap.
Qed.

Lemma well_formed_ring st st' :
  ring_view st' = ring_view st -> scene_view st' = scene_view st ->
  well_formed st -> well_formed st'.
Proof. intros Hr. injection Hr as _ _ _ _ Hcap. by apply well_formed_views. Qed.

(** In a well-formed state every slot of the ring has room for what
    a frame writes. *)
Lemma well_formed_slot st p fr :
  well_formed st -> mFrameResources st !! p = Some fr ->
  1 <= ElementCount (PassCB fr) /\
  Forall (fun e => 0 <= RenderItem.ObjCBIndex e < ElementCount (ObjectCB fr)) (mAllRitems st) /\
  map_Forall (fun _ m => 0 <= Material.MatCBIndex m < ElementCount (MaterialCB fr))
             (mMaterials st) /\
  RowCount (mWaves st) * ColumnCount (mWaves st) <= ElementCount (WavesVB fr).
Proof.
  unfold well_formed, scene_view. intros (_ & Hfit & _) Hp.
  rewrite Forall_fmap, Forall_lookup in Hfit. specialize (Hfit p fr Hp).
  cbn in Hfit. destruct Hfit as (H1 & H2 & H3 & H4).
  split; [done|]. split; [|split; [|done]].
  - rewrite Forall_fmap in H2. exact H2.
  - intros k m Hk. apply (H3 k). by rewrite lookup_fmap, Hk.
Qed.

Lemma AnimateMaterials_is_Some inp st :
  well_formed st -> is_Some (AnimateMaterials inp st).
Proof.
  unfold well_formed, scene_view. intros (_ & _ & Hw & _).
  rewrite lookup_fmap in Hw. apply fmap_is_Some in Hw as [w Hw].
  unfold AnimateMaterials. rewrite Hw. by eexists.
Qed.

Lemma UpdateObjectCBs_is_Some inp st p fr :
  well_formed st -> CurrFrameResource st = Some (p, fr) ->
  is_Some (UpdateObjectCBs inp st).
Proof.
  intros Hwf Hc. unfold UpdateObjectCBs. rewrite Hc. cbn.
  apply CurrFrameResource_Some in Hc as [_ Hp].
  destruct (well_formed_slot _ _ _ Hwf Hp) as (_ & Hobj & _).
  destruct (UpdateObjectCBs_loop_is_Some _ _ Hobj) as [[cb items] ->]. by eexists.
Qed.

Lemma UpdateMaterialCBs_is_Some inp st p fr :
  well_formed st -> CurrFrameResource st = Some (p, fr) ->
  is_Some (UpdateMaterialCBs inp st).
Proof.
  intros Hwf Hc. unfold UpdateMaterialCBs. rewrite Hc. cbn.
  apply CurrFrameResource_Some in Hc as [_ Hp].
  destruct (well_formed_slot _ _ _ Hwf Hp) as (_ & _ & Hmat & _).
  destruct (UpdateMaterialCBs_loop_is_Some _ _ Hmat) as [[cb mats] ->]. by eexists.
Qed.

Lemma UpdateMainPassCB_is_Some inp st p fr :
  well_formed st -> CurrFrameResource st = Some (p, fr) ->
  is_Some (UpdateMainPassCB inp st).
Proof.
  intros Hwf Hc. unfold UpdateMainPassCB. cbn zeta.
  match goal with |- context [set_mMainPassCB ?pc st] => set (pc0 := pc) end.
  change (CurrFrameResource (set_mMainPassCB pc0 st)) with (CurrFrameResource st).
  rewrite Hc. cbn.
  apply CurrFrameResource_Some in Hc as [_ Hp].
  destruct (well_formed_slot _ _ _ Hwf Hp) as (Hpass & _).
  destruct (CopyData_is_Some 0 pc0 (PassCB fr)) as [cb ->]; [lia|]. by eexists.
Qed.

Lemma MathHelper_Rand_is_Some r a b :
  - 2 ^ 31 <= b - a < 2 ^ 31 - 1 -> b - a + 1 <> 0 -> is_Some (MathHelper_Rand r a b).
Proof.
  intros Hr Hn. unfold MathHelper_Rand. rewrite !wrap_int_small by (rewrite ?wrap_int_small; lia).
  destruct (b - a + 1 =? 0) eqn:E; [apply Z.eqb_eq in E; lia|]. by eexists.
Qed.

Lemma UpdateWaves_disturb_is_Some inp st :
  well_formed st -> is_Some (UpdateWaves_disturb inp st).
Proof.
  unfold well_formed, scene_view. intros (_ & _ & _ & _ & _ & Hr & Hc & Hrc).
  assert (RowCount (mWaves st) < 2 ^ 31 /\ ColumnCount (mWaves st) < 2 ^ 31) as [??] by nia.
  unfold UpdateWaves_disturb. destruct (Qle_bool _ _); [|by eexists]. cbn zeta.
  rewrite !wrap_int_small by lia.
  destruct (MathHelper_Rand_is_Some (rand_row inp) 4 (RowCount (mWaves st) - 5))
    as [i ->]; [lia|lia|].
  destruct (MathHelper_Rand_is_Some (rand_col inp) 4 (ColumnCount (mWaves st) - 5))
    as [j ->]; [lia|lia|].
  by eexists.
Qed.

Lemma UpdateWaves_is_Some inp st p fr :
  well_formed st -> CurrFrameResource st = Some (p, fr) ->
  is_Some (UpdateWaves inp st).
Proof.
  intros Hwf Hc. unfold UpdateWaves.
  destruct (UpdateWaves_disturb_is_Some inp st Hwf) as [[tb waves] Hd]. rewrite Hd.
  cbn [mbind option_bind]. cbn zeta.
  match goal with |- context [CurrFrameResource ?s] =>
    change (CurrFrameResource s) with (CurrFrameResource st) end.
  rewrite Hc. cbn [mbind option_bind].
  apply CurrFrameResource_Some in Hc as [_ Hp].
  destruct (well_formed_slot _ _ _ Hwf Hp) as (_ & _ & _ & Hvb).
  apply UpdateWaves_disturb_grid in Hd as [Hrows Hcols].
  unfold well_formed, scene_view in Hwf.
  destruct Hwf as (_ & _ & _ & (w & i & m & g & Hw & Hrefs & Hg) & _ & Hr & Hcl & Hrc).
  unfold int_range, VertexCount. cbn [RowCount ColumnCount waves_call].
  rewrite Hrows, Hcols, wrap_int_small by nia.
  match goal with |- context [foldlM ?f ?a (int_range_from 0 ?n)] =>
    destruct (wave_vertices_is_Some inp
                (waves_call (Waves_Update (DeltaTime (gt inp))) waves) n a) as [vb Hvbs];
      [lia|] end.
  rewrite Hvbs. cbn [mbind option_bind]. cbn.
  rewrite Hw. cbn. rewrite list_lookup_fmap in Hrefs.
  destruct (mAllRitems st !! w) as [ritem|]; [|done]. cbn in Hrefs.
  injection Hrefs as _ _ Hgeo. cbn. rewrite Hgeo. cbn.
  apply elem_of_dom in Hg as [geo ->]. by eexists.
Qed.

End Progress.
Section Frames.

(** [Update], step by step: select the next slot, test its fence,
    run the five writing steps on it. *)
Lemma Update_unfold inp st :
  Update inp st =
  (if decide (0 <= next_slot st < Z.of_nat (length (mFrameResources st))) then
     fr ← mFrameResources st !! Z.to_nat (next_slot st);
     st' ← Update_writes inp (Update_selected inp (Z.to_nat (next_slot st)) st);
     Some (st', if must_wait fr (CompletedValue inp) then Some (Fence fr) else None)
   else None).
Proof.
  unfold Update, frame_slot, Update_writes, Update_selected, next_slot. cbn zeta.
  cbn [mFrameResources set_mCurrFrameResourceIndex UpdateCamera OnKeyboardInput
       set_mCamera set_bNoClip mCurrFrameResourceIndex set_mCurrFrameResource].
  case_decide; [|done]. cbn [mbind option_bind].
  destruct (mFrameResources st !! _) as [fr|]; [|done]. cbn [mbind option_bind].
  destruct (AnimateMaterials inp _) as [s1|]; [|done]. cbn [mbind option_bind].
  destruct (UpdateObjectCBs inp s1) as [s2|]; [|done]. cbn [mbind option_bind].
  destruct (UpdateMaterialCBs inp s2) as [s3|]; [|done]. cbn [mbind option_bind].
  destruct (UpdateMainPassCB inp s3) as [s4|]; [|done]. cbn [mbind option_bind].
  by destruct (UpdateWaves inp s4).
Qed.

Lemma Update_writes_views inp st st' :
  Update_writes inp st = Some st' ->
  ring_view st' = ring_view st /\ scene_view st' = scene_view st.
Proof.
  unfold Update_writes. intros H.
  destruct (AnimateMaterials inp st) as [s1|] eqn:H1; [|done]. cbn [mbind option_bind] in H.
  destruct (UpdateObjectCBs inp s1) as [s2|] eqn:H2; [|done]. cbn [mbind option_bind] in H.
  destruct (UpdateMaterialCBs inp s2) as [s3|] eqn:H3; [|done]. cbn [mbind option_bind] in H.
  destruct (UpdateMainPassCB inp s3) as [s4|] eqn:H4; [|done]. cbn [mbind option_bind] in H.
  apply AnimateMaterials_views in H1 as [R1 S1].
  apply UpdateObjectCBs_views in H2 as [R2 S2].
  apply UpdateMaterialCBs_views in H3 as [R3 S3].
  apply UpdateMainPassCB_views in H4 as [R4 S4].
  apply UpdateWaves_views in H as [R5 S5].
  split; congruence.
Qed.

Lemma CurrFrameResource_ring st st' p fr :
  ring_view st' = ring_view st -> CurrFrameResource st = Some (p, fr) ->
  exists fr', CurrFrameResource st' = Some (p, fr').
Proof.
  intros Hr Hc. apply CurrFrameResource_Some in Hc as [Hp Hfr].
  injection Hr as _ Hcur _ _ Hcap.
  assert (is_Some (mFrameResources st' !! p)) as [fr' Hfr'].
  { apply lookup_lt_is_Some. rewrite <- (length_fmap capacities), Hcap, length_fmap.
    by eapply lookup_lt_Some. }
  exists fr'. apply CurrFrameResource_Some. split; [congruence|done].
Qed.

Lemma Update_writes_is_Some inp st p fr :
  well_formed st -> CurrFrameResource st = Some (p, fr) ->
  is_Some (Update_writes inp st).
Proof.
  intros Hwf Hc. unfold Update_writes.
  destruct (AnimateMaterials_is_Some inp st Hwf) as [s1 H1]. rewrite H1. cbn [mbind option_bind].
  pose proof (AnimateMaterials_views _ _ _ H1) as [R1 S1].
  pose proof (well_formed_ring _ _ R1 S1 Hwf) as Hwf1.
  destruct (CurrFrameResource_ring _ _ _ _ R1 Hc) as [fr1 Hc1].
  destruct (UpdateObjectCBs_is_Some inp s1 p fr1 Hwf1 Hc1) as [s2 H2]. rewrite H2. cbn [mbind option_bind].
  pose proof (UpdateObjectCBs_views _ _ _ H2) as [R2 S2].
  pose proof (well_formed_ring _ _ R2 S2 Hwf1) as Hwf2.
  destruct (CurrFrameResource_ring _ _ _ _ R2 Hc1) as [fr2 Hc2].
  destruct (UpdateMaterialCBs_is_Some inp s2 p fr2 Hwf2 Hc2) as [s3 H3]. rewrite H3. cbn [mbind option_bind].
  pose proof (UpdateMaterialCBs_views _ _ _ H3) as [R3 S3].
  pose proof (well_formed_ring _ _ R3 S3 Hwf2) as Hwf3.
  destruct (CurrFrameResource_ring _ _ _ _ R3 Hc2) as [fr3 Hc3].
  destruct (UpdateMainPassCB_is_Some inp s3 p fr3 Hwf3 Hc3) as [s4 H4]. rewrite H4. cbn [mbind option_bind].
  pose proof (UpdateMainPassCB_views _ _ _ H4) as [R4 S4].
  pose proof (well_formed_ring _ _ R4 S4 Hwf3) as Hwf4.
  destruct (CurrFrameResource_ring _ _ _ _ R4 Hc3) as [fr4 Hc4].
  exact (UpdateWaves_is_Some inp s4 p fr4 Hwf4 Hc4).
Qed.

(** What [Update] does to the ring: it moves the index to the next
    slot, makes that slot the current frame resource, and reports a
    wait exactly when the slot's fence is non-zero and not yet
    completed; fences, capacities and the fence counter stay. *)
Lemma Update_spec inp st st' waited :
  Update inp st = Some (st', waited) ->
  0 <= next_slot st < Z.of_nat (length (mFrameResources st)) /\
  (exists fr, mFrameResources st !! Z.to_nat (next_slot st) = Some fr /\
     waited = if must_wait fr (CompletedValue inp) then Some (Fence fr) else None) /\
  ring_view st' = (next_slot st, Some (Z.to_nat (next_slot st)), mCurrentFence st,
                   fences st, capacities <$> mFrameResources st) /\
  scene_view st' = scene_view st.
Proof.
  rewrite Update_unfold. intros H. case_decide as Hslot; [|done]. split; [done|].
  destruct (mFrameResources st !! _) as [fr|] eqn:Hfr; [|done]. cbn [mbind option_bind] in H.
  destruct (Update_writes inp _) as [s|] eqn:Hw; [|done]. cbn [mbind option_bind] in H.
  injection H as <- <-. split; [by exists fr|].
  apply Update_writes_views in Hw as [-> ->]. done.
Qed.

Lemma Update_is_Some inp st :
  well_formed st -> 0 <= mCurrFrameResourceIndex st < 3 ->
  exists st' waited, Update inp st = Some (st', waited).
Proof.
  intros Hwf Hidx. rewrite Update_unfold.
  assert (Hlen : length (mFrameResources st) = 3%nat).
  { unfold well_formed in Hwf.
    destruct (scene_view st) as [[[[[refs layers] waves] slots] geos] [rows cols]].
    by destruct Hwf. }
  assert (Hnext : 0 <= next_slot st < 3).
  { unfold next_slot, gNumFrameResources. rewrite wrap_int_small by lia.
    pose proof (Z.rem_bound_pos (mCurrFrameResourceIndex st + 1) 3). lia. }
  rewrite decide_True by lia.
  destruct (lookup_lt_is_Some_2 (mFrameResources st) (Z.to_nat (next_slot st)))
    as [fr Hfr]; [lia|].
  rewrite Hfr. cbn [mbind option_bind].
  destruct (Update_writes_is_Some inp
              (Update_selected inp (Z.to_nat (next_slot st)) st)
              (Z.to_nat (next_slot st)) fr) as [s Hs].
  - by apply (well_formed_views st).
  - by apply CurrFrameResource_Some.
  - rewrite Hs. cbn [mbind option_bind]. by eexists _, _.
Qed.

(** What [Draw] does to the ring: it advances the fence counter by
    one and stamps the new value into the current frame resource. *)
Lemma Draw_spec inp st st' :
  Draw inp st = Some st' ->
  exists p fr,
    CurrFrameResource st = Some (p, fr) /\
    ring_view st' = (mCurrFrameResourceIndex st, mCurrFrameResource st,
                     mCurrentFence st + 1, <[p := mCurrentFence st + 1]> (fences st),
                     capacities <$> mFrameResources st) /\
    scene_view st' = scene_view st /\
    mAllRitems st' = mAllRitems st /\ mMaterials st' = mMaterials st.
Proof.
  unfold Draw. intros H.
  destruct (Draw_commands st) as [cmds|]; [|done]. cbn [mbind option_bind] in H.
  cbn zeta in H.
  match type of H with context [CurrFrameResource ?s] =>
    change (CurrFrameResource s) with (CurrFrameResource st) in H end.
  destruct (CurrFrameResource st) as [[p fr]|] eqn:Hc; [|done]. cbn [mbind option_bind] in H.
  injection H as <-. exists p, fr. split; [done|].
  apply CurrFrameResource_Some in Hc as [Hp Hfr].
  split; [|done]. unfold ring_view, fences. cbn.
  rewrite !list_fmap_insert. cbn.
  f_equal. apply list_insert_id. by rewrite list_lookup_fmap, Hfr.
Qed.

Lemma DrawRenderItems_is_Some st p ritems :
  (forall h, h ∈ ritems -> exists e g m,
      mAllRitems st !! h = Some e /\ RenderItem.Geo e = Some g /\
      is_Some (mGeometries st !! g) /\ RenderItem.Mat e = Some m /\
      is_Some (mMaterials st !! m)) ->
  is_Some (DrawRenderItems st p ritems).
Proof.
  induction ritems as [|h ritems IH]; intros H; [by eexists|].
  cbn [DrawRenderItems].
  destruct (H h) as (e & g & m & He & Hg & [geo Hgeo] & Hm & [mat Hmat]); [by left|].
  unfold DrawRenderItem. rewrite He. cbn. rewrite Hg. cbn. rewrite Hgeo. cbn.
  rewrite Hm. cbn. rewrite Hmat. cbn.
  destruct IH as [cs ->]; [intros h' Hh'; apply H; by right|]. by eexists.
Qed.

Lemma Draw_is_Some inp st p fr :
  well_formed st -> CurrFrameResource st = Some (p, fr) -> is_Some (Draw inp st).
Proof.
  intros Hwf Hc.
  assert (Hlayer : forall layer, is_Some (DrawRenderItems st p (mRitemLayer st layer))).
  { intros layer. apply DrawRenderItems_is_Some. intros h Hh.
    unfold well_formed, scene_view in Hwf.
    destruct Hwf as (_ & _ & _ & _ & Hdraw & _).
    destruct (Hdraw layer h Hh) as (i & m & g & Hrefs & Hm & Hg).
    rewrite list_lookup_fmap in Hrefs.
    destruct (mAllRitems st !! h) as [e|]; [|done]. cbn in Hrefs.
    injection Hrefs as _ HM HG. exists e, g, m. split; [done|]. split; [done|].
    split; [by apply elem_of_dom|]. split; [done|].
    rewrite lookup_fmap in Hm. by apply fmap_is_Some in Hm. }
  unfold Draw, Draw_commands. rewrite Hc. cbn [mbind option_bind].
  destruct (Hlayer Opaque) as [c1 ->]. cbn [mbind option_bind].
  destruct (Hlayer AlphaTested) as [c2 ->]. cbn [mbind option_bind].
  destruct (Hlayer AlphaTestedTreeSprites) as [c3 ->]. cbn [mbind option_bind].
  destruct (Hlayer Transparent) as [c4 ->]. cbn [mbind option_bind]. cbn zeta.
  match goal with |- context [CurrFrameResource ?s] =>
    change (CurrFrameResource s) with (CurrFrameResource st) end.
  rewrite Hc. cbn. by eexists.
Qed.

End Frames.

(* ================================================================== *)
(** ** Whole frames *)

Section WholeFrames.

Lemma next_slot_mod st :
  0 <= mCurrFrameResourceIndex st < 3 ->
  next_slot st = (mCurrFrameResourceIndex st + 1) mod gNumFrameResources
  /\ 0 <= next_slot st < 3.
Proof.
  intros H. unfold next_slot, gNumFrameResources. rewrite wrap_int_small by lia.
  rewrite Z.rem_mod_nonneg by lia.
  pose proof (Z.mod_pos_bound (mCurrFrameResourceIndex st + 1) 3). lia.
Qed.

Lemma well_formed_length st : well_formed st -> length (mFrameResources st) = 3%nat.
Proof.
  unfold well_formed.
  destruct (scene_view st) as [[[[[refs layers] waves] slots] geos] [rows cols]].
  by intros [H _].
Qed.

(** One frame from a well-formed state: it runs without a fault, moves
    the ring index to the next slot, advances the fence counter by one
    and stamps the new value into that slot; the state stays
    well-formed. *)
Lemma frame_spec inp st :
  well_formed st -> 0 <= mCurrFrameResourceIndex st < 3 ->
  exists st',
    frame inp st = Some st' /\
    ring_view st' = (next_slot st, Some (Z.to_nat (next_slot st)), mCurrentFence st + 1,
                     <[Z.to_nat (next_slot st) := mCurrentFence st + 1]> (fences st),
                     capacities <$> mFrameResources st) /\
    stamped_fence st' = Some (mCurrentFence st + 1) /\
    well_formed st'.
Proof.
  intros Hwf Hidx. destruct (next_slot_mod st Hidx) as [_ Hnext].
  pose proof (well_formed_length st Hwf) as Hlen.
  destruct (Update_is_Some inp st Hwf Hidx) as (s & waited & Hu).
  unfold frame. rewrite Hu. cbn [mbind option_bind].
  apply Update_spec in Hu as (_ & _ & Hr & Hs).
  assert (Hwf1 : well_formed s).
  { apply (well_formed_views st); [|done|done]. by injection Hr. }
  assert (Hcur : mCurrFrameResource s = Some (Z.to_nat (next_slot st))) by (by injection Hr).
  assert (is_Some (mFrameResources s !! Z.to_nat (next_slot st))) as [fr Hfr].
  { apply lookup_lt_is_Some. rewrite (well_formed_length s Hwf1). lia. }
  assert (Hc : CurrFrameResource s = Some (Z.to_nat (next_slot st), fr))
    by (by apply CurrFrameResource_Some).
  destruct (Draw_is_Some inp s _ _ Hwf1 Hc) as [st' Hd]. exists st'. split; [exact Hd|].
  apply Draw_spec in Hd as (p & fr' & Hc' & Hr' & Hs' & _).
  rewrite Hc in Hc'. injection Hc' as <- <-.
  injection Hr as Hr1 Hr2 Hr3 Hr4 Hr5.
  assert (Hring : ring_view st' =
    (next_slot st, Some (Z.to_nat (next_slot st)), mCurrentFence st + 1,
     <[Z.to_nat (next_slot st) := mCurrentFence st + 1]> (fences st),
     capacities <$> mFrameResources st)).
  { rewrite Hr'. by rewrite Hr1, Hr2, Hr3, Hr4, Hr5. }
  split; [exact Hring|]. split.
  - injection Hring as H1 H2 H3 H4 H5. unfold stamped_fence.
    assert (Hlook : fences st' !! Z.to_nat (next_slot st) = Some (mCurrentFence st + 1)).
    { rewrite H4. apply list_lookup_insert_eq. unfold fences. rewrite length_fmap. lia. }
    unfold fences in Hlook. rewrite list_lookup_fmap in Hlook.
    destruct (mFrameResources st' !! Z.to_nat (next_slot st)) as [fr2|] eqn:Hfr2; [|done].
    cbn in Hlook. injection Hlook as Hf.
    unfold CurrFrameResource. rewrite H2. cbn. rewrite Hfr2. cbn. by rewrite Hf.
  - apply (well_formed_views s); [|by rewrite Hs'|done].
    injection Hring as _ _ _ _ H5. rewrite H5. done.
Qed.

Lemma ring_view_index st' idx cur fence fs caps :
  ring_view st' = (idx, cur, fence, fs, caps) ->
  mCurrFrameResourceIndex st' = idx /\ mCurrentFence st' = fence /\ fences st' = fs.
Proof. intros H. by injection H. Qed.

(** Any number of frames from a well-formed state. *)
Lemma run_frames_spec inps : forall st,
  well_formed st -> 0 <= mCurrFrameResourceIndex st < 3 ->
  exists st',
    run_frames inps st
      = Some (st', ring_log (length inps) (mCurrFrameResourceIndex st) (mCurrentFence st))
    /\ well_formed st' /\ 0 <= mCurrFrameResourceIndex st' < 3
    /\ mCurrentFence st' = mCurrentFence st + Z.of_nat (length inps).
Proof.
  induction inps as [|inp inps IH]; intros st Hwf Hidx.
  - exists st. cbn. split; [done|]. split; [done|]. split; [done|]. lia.
  - destruct (frame_spec inp st Hwf Hidx) as (s & Hf & Hr & Hst & Hwf1).
    destruct (next_slot_mod st Hidx) as [Hnext Hrange].
    apply ring_view_index in Hr as (Hi & Hfence & _).
    destruct (IH s Hwf1) as (st' & Hrun & Hwf' & Hidx' & Hfence'); [by rewrite Hi|].
    exists st'. cbn [run_frames length ring_log]. rewrite Hf. cbn [mbind option_bind].
    rewrite Hst. cbn [mbind option_bind]. rewrite Hrun. cbn [mbind option_bind].
    rewrite Hi, Hfence, <- Hnext. split; [done|]. split; [done|]. split; [done|]. lia.
Qed.

(** The scenario is well-formed. *)
Lemma scenario_well_formed : well_formed scenario_app.
Proof.
  unfold well_formed, scene_view.
  assert (Hslots : Material.MatCBIndex <$> mMaterials scenario_app
                   = {[ "water" := 0 ]}) by apply map_fmap_singleton.
  assert (Hdom : forall g, g = "waterGeo" \/ g = "landGeo" ->
                   g ∈ dom (mGeometries scenario_app)).
  { intros g Hg. apply elem_of_dom. destruct Hg as [-> | ->]; eexists; vm_compute; reflexivity. }
  rewrite Hslots.
  split; [reflexivity|]. split.
  - change (capacities <$> mFrameResources scenario_app)
      with [(1, 2, 1, 81); (1, 2, 1, 81); (1, 2, 1, 81)].
    assert (Hfit : slot_fits (ritem_refs <$> mAllRitems scenario_app) {[ "water" := 0 ]}
                     (RowCount (mWaves scenario_app) * ColumnCount (mWaves scenario_app))
                     (1, 2, 1, 81)).
    { unfold slot_fits. split; [lia|]. split; [|split].
      - repeat constructor; closed_arith.
      - apply map_Forall_singleton. lia.
      - closed_arith. }
    do 3 (apply List.Forall_cons; [exact Hfit|]). apply List.Forall_nil.
  - split; [by rewrite lookup_singleton_eq|]. split.
    + exists 0%nat, 0, (Some "water"), "waterGeo". split; [reflexivity|].
      split; [reflexivity|]. apply Hdom. by left.
    + split; [|closed_arith].
      intros layer h Hh. unfold drawable.
      destruct layer; cbn in Hh.
      * apply list_elem_of_In in Hh as [<-|[]].
        exists 1, "water", "landGeo". split; [reflexivity|].
        split; [by rewrite lookup_singleton_eq|]. apply Hdom. by right.
      * apply list_elem_of_In in Hh as [<-|[]].
        exists 0, "water", "waterGeo". split; [reflexivity|].
        split; [by rewrite lookup_singleton_eq|]. apply Hdom. by left.
      * by apply elem_of_nil in Hh.
      * by apply elem_of_nil in Hh.
Qed.

End WholeFrames.
(* ================================================================== *)
(** ** Mouse look (C8) *)

Section MouseLook.

(** C8, as the code has it: with the left button held, a mouse move
    always yaws the camera by [dx]; it pitches the camera by [dy], with
    no clamping of the angle, exactly when [bNoClip] is set, and leaves
    the pitch alone otherwise. The mouse position is recorded. *)
Theorem OnMouseMove_left_button (st : App) (btnState x y : Z) :
  Z.land btnState MK_LBUTTON <> 0 ->
  mCamera (OnMouseMove btnState x y st)
    = mCamera st
      ++ (if bNoClip st then [Pitch (mouse_dy st y)] else [])
      ++ [RotateY (mouse_dx st x)]
  /\ mLastMousePos (OnMouseMove btnState x y st) = (x, y)
  /\ bNoClip (OnMouseMove btnState x y st) = bNoClip st.
Proof.
  intros Hbtn. unfold OnMouseMove.
  destruct (Z.land btnState MK_LBUTTON =? 0) eqn:E; [apply Z.eqb_eq in E; done|].
  cbn [negb]. unfold mouse_dx, mouse_dy.
  destruct (bNoClip st) eqn:Hclip; cbn; rewrite ?Hclip; [rewrite <- app_assoc|]; done.
Qed.

(** With the left button held and [bNoClip] set, the camera is pitched
    by a quarter of a degree per pixel. *)
Lemma OnMouseMove_left_button_witness :
  Z.land 1 MK_LBUTTON <> 0 /\
  mCamera (OnMouseMove 1 10 20 (set_bNoClip true new_App))
    = [Pitch (XMConvertToRadians ((1 # 4) * 20)); RotateY (XMConvertToRadians ((1 # 4) * 10))].
Proof.
  split; [done|].
  pose proof (OnMouseMove_left_button (set_bNoClip true new_App) 1 10 20) as H.
  destruct H as (H & _); [done|]. rewrite H. vm_compute. reflexivity.
Defined.

(** C8 as stated fails: in the state the constructor leaves
    ([bNoClip = false]) a move with the left button held pitches
    nothing. *)
Lemma OnMouseMove_pitch_not_unconditional :
  Z.land 1 MK_LBUTTON <> 0 /\
  forall angle, Pitch angle ∉ mCamera (OnMouseMove 1 10 20 new_App).
Proof.
  split; [done|]. intros angle. vm_compute.
  intros H. apply list_elem_of_In in H. destruct H as [H|[]]. discriminate H.
Qed.

End MouseLook.
(* ================================================================== *)
(** ** Layer order of the draw stage (C4) *)

Section LayerOrder.

Local Abbreviation item_draws st pso :=
  (omap (fun h => ri ← mAllRitems st !! h; Some (pso, draw_of ri))).

(** The commands of one item issue one draw call, under the pipeline
    state bound when they start. *)
Lemma draws_from_DrawRenderItem st p h c pso rest :
  DrawRenderItem st p h = Some c ->
  exists ri, mAllRitems st !! h = Some ri /\
    draws_from pso (c ++ rest) = (pso, draw_of ri) :: draws_from pso rest.
Proof.
  unfold DrawRenderItem. intros H.
  destruct (mAllRitems st !! h) as [ri|] eqn:Hri; [|done]. cbn in H.
  destruct (RenderItem.Geo ri) as [g|]; [|done]. cbn in H.
  destruct (mGeometries st !! g) as [geo|]; [|done]. cbn in H.
  destruct (RenderItem.Mat ri) as [m|]; [|done]. cbn in H.
  destruct (mMaterials st !! m) as [mat|]; [|done]. cbn in H.
  injection H as <-. exists ri. split; [done|]. reflexivity.
Qed.

Lemma draws_from_DrawRenderItems st p ritems cs pso rest :
  DrawRenderItems st p ritems = Some cs ->
  draws_from pso (cs ++ rest) = item_draws st pso ritems ++ draws_from pso rest
  /\ length (item_draws st pso ritems) = length ritems.
Proof.
  revert cs. induction ritems as [|h ritems IH]; intros cs H; simpl in H.
  - by injection H as <-.
  - destruct (DrawRenderItem st p h) as [c|] eqn:Hc; [|done]. cbn in H.
    destruct (DrawRenderItems st p ritems) as [cs'|] eqn:Hcs; [|done]. cbn in H.
    injection H as <-.
    destruct (draws_from_DrawRenderItem st p h c pso (cs' ++ rest) Hc) as (ri & Hri & Hd).
    destruct (IH cs' eq_refl) as [IH1 IH2].
    rewrite <- app_assoc, Hd, IH1. cbn. rewrite Hri. cbn. by rewrite IH2.
Qed.

Lemma layer_draws_pso st pso layer x :
  x ∈ layer_draws st pso layer -> x.1 = pso.
Proof.
  unfold layer_draws. intros H. apply list_elem_of_omap in H as (h & _ & H).
  destruct (mAllRitems st !! h); [|done]. by injection H as <-.
Qed.

(** What [Draw] submits: the list it records, then [Present], then the
    signal of the next fence point. *)
Lemma Draw_submits inp st st' :
  Draw inp st = Some st' ->
  exists cmds, Draw_commands st = Some cmds /\
    mCommandQueue st' = mCommandQueue st
      ++ [ExecuteCommandLists cmds; Present; Signal (mCurrentFence st + 1)].
Proof.
  unfold Draw. intros H.
  destruct (Draw_commands st) as [cmds|]; [|done]. cbn in H.
  simplify_option_eq. exists cmds. split; [done|].
  cbn. by rewrite <- !app_assoc.
Qed.

(** C4: in a well-formed state with a current frame resource [Draw]
    records and submits a command list, and the command list a frame
    submits issues the draw calls of the opaque layer, then those of
    the alpha-tested layer, then those of the tree-sprite layer, then
    those of the transparent layer, one call per item of the layer and
    in the order of the layer's list, whatever the lists hold; so every
    draw call under the transparent pipeline state comes after every
    draw call under another one. *)
Theorem Draw_layer_order inp st :
  (well_formed st -> is_Some (CurrFrameResource st) -> is_Some (Draw inp st))
  /\ forall st', Draw inp st = Some st' ->
  exists cmds,
    mCommandQueue st' = mCommandQueue st
      ++ [ExecuteCommandLists cmds; Present; Signal (mCurrentFence st + 1)]
    /\ draws cmds = layer_draws st "opaque" Opaque
                    ++ layer_draws st "alphaTested" AlphaTested
                    ++ layer_draws st "treeSprites" AlphaTestedTreeSprites
                    ++ layer_draws st "transparent" Transparent
    /\ (forall pso layer,
          length (layer_draws st pso layer) = length (mRitemLayer st layer))
    /\ (forall (i j : nat) pso c d,
          draws cmds !! i = Some (pso, c) -> pso <> "transparent" ->
          draws cmds !! j = Some ("transparent", d) -> (i < j)%nat).
Proof.
  split; [intros Hwf [[p fr] Hc]; by eapply Draw_is_Some|].
  intros st' HD. destruct (Draw_submits _ _ _ HD) as (cmds & Hcmds & Hq).
  exists cmds. split; [done|].
  unfold Draw_commands in Hcmds.
  destruct (CurrFrameResource st) as [[p fr]|]; [|done]. cbn in Hcmds.
  destruct (DrawRenderItems st p (mRitemLayer st Opaque)) as [c1|] eqn:H1; [|done].
  cbn in Hcmds.
  destruct (DrawRenderItems st p (mRitemLayer st AlphaTested)) as [c2|] eqn:H2; [|done].
  cbn in Hcmds.
  destruct (DrawRenderItems st p (mRitemLayer st AlphaTestedTreeSprites)) as [c3|] eqn:H3;
    [|done].
  cbn in Hcmds.
  destruct (DrawRenderItems st p (mRitemLayer st Transparent)) as [c4|] eqn:H4; [|done].
  cbn in Hcmds. injection Hcmds as <-.
  assert (Hdraws : draws
    (CmdReset "opaque" :: RSSetViewports :: RSSetScissorRects
     :: ResourceBarrier D3D12_RESOURCE_STATE_PRESENT D3D12_RESOURCE_STATE_RENDER_TARGET
     :: ClearRenderTargetView (FogColor (mMainPassCB st)) :: ClearDepthStencilView
     :: OMSetRenderTargets :: SetDescriptorHeaps :: SetGraphicsRootSignature
     :: SetGraphicsRootConstantBufferView 2 (PassCBAddress p)
     :: c1 ++ SetPipelineState "alphaTested" :: c2 ++ SetPipelineState "treeSprites"
     :: c3 ++ SetPipelineState "transparent" :: c4
     ++ [ResourceBarrier D3D12_RESOURCE_STATE_RENDER_TARGET D3D12_RESOURCE_STATE_PRESENT;
         CmdClose])
    = layer_draws st "opaque" Opaque ++ layer_draws st "alphaTested" AlphaTested
      ++ layer_draws st "treeSprites" AlphaTestedTreeSprites
      ++ layer_draws st "transparent" Transparent).
  { unfold draws, layer_draws. cbn [draws_from].
    rewrite (proj1 (draws_from_DrawRenderItems _ _ _ _ "opaque" _ H1)). cbn [draws_from].
    rewrite (proj1 (draws_from_DrawRenderItems _ _ _ _ "alphaTested" _ H2)). cbn [draws_from].
    rewrite (proj1 (draws_from_DrawRenderItems _ _ _ _ "treeSprites" _ H3)). cbn [draws_from].
    rewrite (proj1 (draws_from_DrawRenderItems _ _ _ _ "transparent" _ H4)). cbn [draws_from].
    by rewrite app_nil_r. }
  cbn [app]. split; [exact Hdraws|]. split.
  - intros pso layer. unfold layer_draws.
    destruct layer.
    + exact (proj2 (draws_from_DrawRenderItems _ _ _ _ pso [] H1)).
    + exact (proj2 (draws_from_DrawRenderItems _ _ _ _ pso [] H4)).
    + exact (proj2 (draws_from_DrawRenderItems _ _ _ _ pso [] H2)).
    + exact (proj2 (draws_from_DrawRenderItems _ _ _ _ pso [] H3)).
  - intros i j pso c d Hi Hpso Hj. rewrite Hdraws in Hi, Hj.
    rewrite !app_assoc in Hi, Hj.
    set (front := (layer_draws st "opaque" Opaque ++ layer_draws st "alphaTested" AlphaTested)
                  ++ layer_draws st "treeSprites" AlphaTestedTreeSprites) in *.
    assert (Hfront : forall x, x ∈ front -> x.1 <> "transparent").
    { intros x Hx. unfold front in Hx. rewrite !elem_of_app in Hx.
      destruct Hx as [[Hx|Hx]|Hx]; apply layer_draws_pso in Hx; rewrite Hx; done. }
    destruct (decide (i < length front)%nat) as [Hlt|Hge].
    + destruct (decide (j < length front)%nat) as [Hjlt|Hjge]; [|lia].
      rewrite lookup_app_l in Hj by done.
      apply list_elem_of_lookup_2 in Hj. by apply Hfront in Hj.
    + rewrite lookup_app_r in Hi by lia.
      apply list_elem_of_lookup_2, layer_draws_pso in Hi. done.
Qed.

(** The scenario's first frame: the land grid is drawn under the
    opaque state, then the water under the transparent state. *)
Lemma Draw_layer_order_witness :
  exists st', Draw (sample_input 0 0) scenario_updated = Some st' /\
    exists cmds,
      mCommandQueue st' = [ExecuteCommandLists cmds; Present; Signal 1]
      /\ draws cmds = [("opaque", {| dc_IndexCount := 600; dc_StartIndexLocation := 0;
                                     dc_BaseVertexLocation := 0 |});
                       ("transparent", {| dc_IndexCount := 384; dc_StartIndexLocation := 0;
                                          dc_BaseVertexLocation := 0 |})].
Proof.
  destruct (Draw (sample_input 0 0) scenario_updated) as [st'|] eqn:HD;
    [|vm_compute in HD; discriminate HD].
  exists st'. split; [reflexivity|].
  destruct (proj2 (Draw_layer_order _ _) _ HD) as (cmds & Hq & Hd & _).
  exists cmds. split; [exact Hq|]. rewrite Hd. vm_compute. reflexivity.
Defined.

End LayerOrder.
(* ================================================================== *)
(** ** The index buffer of the wave grid (C10) *)

Section WaveIndices.

Lemma vector_store_app (written rest : list Z) (c : nat) (k x : Z) :
  k = Z.of_nat (length written) + Z.of_nat c ->
  (c < length rest)%nat ->
  vector_store (written ++ rest) k x = Some (written ++ <[c := wrap_uint16 x]> rest).
Proof.
  intros -> Hc. unfold vector_store.
  rewrite decide_True by (rewrite length_app; lia).
  f_equal. rewrite insert_app_r_alt by lia. do 2 f_equal. lia.
Qed.

(** The values stored for a quad of an [m] x [n] grid are vertex numbers. *)
Lemma quad_indices_bounds m n i j :
  0 <= i < m - 1 -> 0 <= j < n - 1 ->
  Forall (fun v => 0 <= v < m * n) (quad_indices n i j).
Proof. intros Hi Hj. unfold quad_indices. repeat constructor; nia. Qed.

Lemma waves_quad_spec m n i j (written rest : list Z) (a0 a1 a2 a3 a4 a5 : Z) :
  0 <= i < m - 1 -> 0 <= j < n - 1 -> m * n < 2 ^ 31 ->
  Z.of_nat (length written) + 6 < 2 ^ 31 ->
  waves_quad n i (written ++ a0 :: a1 :: a2 :: a3 :: a4 :: a5 :: rest,
                  Z.of_nat (length written)) j
  = Some ((written ++ (wrap_uint16 <$> quad_indices n i j)) ++ rest,
          Z.of_nat (length written) + 6).
Proof.
  intros Hi Hj Hmn Hk.
  pose proof (quad_indices_bounds m n i j Hi Hj) as Hb.
  unfold quad_indices in Hb.
  rewrite !Forall_cons_iff in Hb. destruct Hb as (H0 & H1 & H2 & _ & _ & H5 & _).
  unfold waves_quad.
  rewrite !wrap_int_small by lia.
  rewrite (vector_store_app written _ 0) by (cbn; lia). cbn [mbind option_bind].
  rewrite (vector_store_app written _ 1) by (cbn; lia). cbn [mbind option_bind].
  rewrite (vector_store_app written _ 2) by (cbn; lia). cbn [mbind option_bind].
  rewrite (vector_store_app written _ 3) by (cbn; lia). cbn [mbind option_bind].
  rewrite (vector_store_app written _ 4) by (cbn; lia). cbn [mbind option_bind].
  rewrite (vector_store_app written _ 5) by (cbn; lia). cbn [mbind option_bind].
  cbn [list_insert insert]. unfold quad_indices. cbn [fmap list_fmap].
  by rewrite <- app_assoc.
Qed.

Lemma list_take_6 (l : list Z) :
  (6 <= length l)%nat ->
  exists a0 a1 a2 a3 a4 a5, l = a0 :: a1 :: a2 :: a3 :: a4 :: a5 :: drop 6 l.
Proof.
  intros H. do 6 (destruct l as [|? l]; [cbn in H; lia|]). by repeat eexists.
Qed.

Lemma quads_indices_length n i j0 count :
  length (quads_indices n i j0 count) = (6 * count)%nat.
Proof.
  unfold quads_indices. revert j0.
  induction count as [|count IH]; intros j0; [done|].
  cbn [int_range_from fmap list_fmap mjoin list_join]. rewrite length_app, IH. cbn. lia.
Qed.

(** A run of [count] quads of row [i], from column [j0] on. *)
Lemma waves_quads_spec m n i count : forall j0 (written rest : list Z),
  0 <= i < m - 1 -> 0 <= j0 -> j0 + Z.of_nat count <= n - 1 -> m * n < 2 ^ 31 ->
  Z.of_nat (length written) + 6 * Z.of_nat count < 2 ^ 31 ->
  (6 * count <= length rest)%nat ->
  foldlM (waves_quad n i) (written ++ rest, Z.of_nat (length written))
         (int_range_from j0 count)
  = Some ((written ++ (wrap_uint16 <$> quads_indices n i j0 count))
            ++ drop (6 * count) rest,
          Z.of_nat (length written) + 6 * Z.of_nat count).
Proof.
  induction count as [|count IH]; intros j0 written rest Hi Hj0 Hj Hmn Hk Hlen.
  - cbn. unfold quads_indices. cbn. rewrite app_nil_r. repeat f_equal. lia.
  - destruct (list_take_6 rest) as (a0 & a1 & a2 & a3 & a4 & a5 & Hrest); [lia|].
    cbn [int_range_from foldlM]. rewrite Hrest at 1.
    rewrite (waves_quad_spec m) by lia. cbn [mbind option_bind].
    replace (Z.of_nat (length written) + 6)
      with (Z.of_nat (length (written ++ (wrap_uint16 <$> quad_indices n i j0))))
      by (rewrite length_app; cbn; lia).
    rewrite IH; try lia.
    + f_equal. f_equal.
      * unfold quads_indices. cbn [int_range_from fmap list_fmap mjoin list_join].
        rewrite fmap_app, <- !app_assoc, drop_drop.
        by replace (6 * S count)%nat with (6 + 6 * count)%nat by lia.
      * rewrite length_app. cbn. lia.
    + rewrite length_app. cbn. lia.
    + rewrite length_drop. lia.
Qed.

Lemma rows_indices_length n i0 count :
  length (rows_indices n i0 count) = (6 * Z.to_nat (n - 1) * count)%nat.
Proof.
  unfold rows_indices. revert i0.
  induction count as [|count IH]; intros i0; [cbn; lia|].
  cbn [int_range_from fmap list_fmap mjoin list_join].
  rewrite length_app, IH, quads_indices_length. lia.
Qed.

(** A run of [count] rows of quads, from row [i0] on. *)
Lemma waves_rows_spec m n count : forall i0 (written rest : list Z),
  0 <= i0 -> i0 + Z.of_nat count <= m - 1 -> 2 <= n -> m * n < 2 ^ 31 ->
  Z.of_nat (length written) + 6 * (n - 1) * Z.of_nat count < 2 ^ 31 ->
  (6 * Z.to_nat (n - 1) * count <= length rest)%nat ->
  foldlM (waves_row m n) (written ++ rest, Z.of_nat (length written))
         (int_range_from i0 count)
  = Some ((written ++ (wrap_uint16 <$> rows_indices n i0 count))
            ++ drop (6 * Z.to_nat (n - 1) * count) rest,
          Z.of_nat (length written) + 6 * (n - 1) * Z.of_nat count).
Proof.
  induction count as [|count IH]; intros i0 written rest Hi0 Hi Hn Hmn Hk Hlen.
  - cbn. unfold rows_indices. cbn. rewrite app_nil_r, Nat.mul_0_r.
    repeat f_equal. lia.
  - assert (Hrow : waves_row m n (written ++ rest, Z.of_nat (length written)) i0
      = Some ((written ++ (wrap_uint16 <$> quads_indices n i0 0 (Z.to_nat (n - 1))))
                ++ drop (6 * Z.to_nat (n - 1)) rest,
              Z.of_nat (length (written
                 ++ (wrap_uint16 <$> quads_indices n i0 0 (Z.to_nat (n - 1))))))).
    { unfold waves_row, int_range. rewrite (waves_quads_spec m) by (lia || nia).
      do 2 f_equal. rewrite length_app, length_fmap, quads_indices_length. lia. }
    cbn [int_range_from foldlM]. rewrite Hrow. cbn [mbind option_bind].
    rewrite IH; try lia.
    + f_equal. f_equal.
      * unfold rows_indices. cbn [int_range_from fmap list_fmap mjoin list_join].
        rewrite fmap_app, <- !app_assoc, drop_drop.
        by replace (6 * Z.to_nat (n - 1) * S count)%nat
          with (6 * Z.to_nat (n - 1) + 6 * Z.to_nat (n - 1) * count)%nat by lia.
      * rewrite length_app, length_fmap, quads_indices_length. lia.
    + rewrite length_app, length_fmap, quads_indices_length. nia.
    + rewrite length_drop. nia.
Qed.

Lemma quads_indices_bounds m n i j0 count :
  0 <= i < m - 1 -> 0 <= j0 -> j0 + Z.of_nat count <= n - 1 ->
  Forall (fun v => 0 <= v < m * n) (quads_indices n i j0 count).
Proof.
  revert j0. induction count as [|count IH]; intros j0 Hi Hj0 Hj; [constructor|].
  unfold quads_indices. cbn [int_range_from fmap list_fmap mjoin list_join].
  apply Forall_app. split; [apply quad_indices_bounds; lia|].
  apply IH; lia.
Qed.

Lemma rows_indices_bounds m n i0 count :
  0 <= i0 -> i0 + Z.of_nat count <= m - 1 -> 1 <= n ->
  Forall (fun v => 0 <= v < m * n) (rows_indices n i0 count).
Proof.
  revert i0. induction count as [|count IH]; intros i0 Hi0 Hi Hn; [constructor|].
  unfold rows_indices. cbn [int_range_from fmap list_fmap mjoin list_join].
  apply Forall_app. split; [apply quads_indices_bounds; lia|].
  apply IH; lia.
Qed.

Lemma wrap_uint16_fits (l : list Z) :
  Forall (fun v => 0 <= v < 2 ^ 16) l -> wrap_uint16 <$> l = l.
Proof.
  induction 1 as [|v l Hv _ IH]; [done|]. cbn. by rewrite wrap_uint16_small, IH.
Qed.

(** C10: for an [m] x [n] grid with [m, n >= 2] (and sizes an [int]
    can count), the loops run without a store outside the vector of
    [3 * TriangleCount = 6 (m-1) (n-1)] slots and leave in it exactly
    the values of [grid_indices m n], converted to [uint16_t], whatever
    the vector held before: every slot is overwritten. Every value of
    [grid_indices m n] is a vertex number below [m * n]; so when
    [VertexCount < 0xffff], as the code asserts, every index fits 16 bits
    and is stored unchanged. [BuildWavesGeometry] makes the result the
    index buffer of "waterGeo". *)
Theorem waves_index_loop_fills (st : App) (m n : Z) :
  m = RowCount (mWaves st) -> n = ColumnCount (mWaves st) ->
  2 <= m -> 2 <= n -> 6 * (m - 1) * (n - 1) < 2 ^ 31 ->
  3 * TriangleCount (mWaves st) = 6 * (m - 1) * (n - 1)
  /\ (forall indices0 : list Z,
        length indices0 = Z.to_nat (3 * TriangleCount (mWaves st)) ->
        waves_index_loop m n indices0
        = Some (wrap_uint16 <$> grid_indices m n, 6 * (m - 1) * (n - 1)))
  /\ length (grid_indices m n) = Z.to_nat (6 * (m - 1) * (n - 1))
  /\ Forall (fun v => 0 <= v < m * n) (grid_indices m n)
  /\ (VertexCount (mWaves st) < 65535 ->
        Forall (fun v => 0 <= v < 2 ^ 16) (grid_indices m n) /\
        wrap_uint16 <$> grid_indices m n = grid_indices m n)
  /\ exists st' geo,
       BuildWavesGeometry st = Some st' /\
       mGeometries st' !! "waterGeo" = Some geo /\
       IndexBufferCPU geo = wrap_uint16 <$> grid_indices m n /\
       sub_IndexCount (DrawArgs_at geo "grid") = 6 * (m - 1) * (n - 1).
Proof.
  intros Hm Hn Hm2 Hn2 Hsz.
  assert (Hmn : m * n < 2 ^ 31) by nia.
  assert (Htri : 3 * TriangleCount (mWaves st) = 6 * (m - 1) * (n - 1)).
  { unfold TriangleCount. rewrite <- Hm, <- Hn. rewrite wrap_int_small; nia. }
  assert (Hlen : length (grid_indices m n) = Z.to_nat (6 * (m - 1) * (n - 1))).
  { unfold grid_indices. rewrite rows_indices_length. nia. }
  assert (Hloop : forall indices0 : list Z,
    length indices0 = Z.to_nat (3 * TriangleCount (mWaves st)) ->
    waves_index_loop m n indices0
    = Some (wrap_uint16 <$> grid_indices m n, 6 * (m - 1) * (n - 1))).
  { intros indices0 Hl. unfold waves_index_loop, int_range.
    pose proof (waves_rows_spec m n (Z.to_nat (m - 1)) 0 [] indices0) as H.
    change ([] ++ indices0) with indices0 in H.
    change (Z.of_nat (length [])) with 0 in H. rewrite H; try nia.
    f_equal. f_equal; [|nia].
    rewrite drop_ge by (rewrite Hl, Htri; nia). by rewrite app_nil_r. }
  pose proof (rows_indices_bounds m n 0 (Z.to_nat (m - 1))
                ltac:(lia) ltac:(lia) ltac:(lia)) as Hb.
  split; [exact Htri|]. split; [exact Hloop|]. split; [exact Hlen|].
  split; [exact Hb|]. split.
  - intros Hv. unfold VertexCount in Hv. rewrite <- Hm, <- Hn in Hv.
    rewrite wrap_int_small in Hv by nia.
    assert (Hfit : Forall (fun v => 0 <= v < 2 ^ 16) (grid_indices m n)).
    { eapply Forall_impl; [|exact Hb]. cbn beta. intros v Hv'. lia. }
    split; [exact Hfit|]. by apply wrap_uint16_fits.
  - unfold BuildWavesGeometry. rewrite <- Hm, <- Hn.
    rewrite Hloop by (rewrite length_replicate, wrap_int_small; [done|nia]).
    cbn [mbind option_bind]. eexists _, _. split; [reflexivity|].
    cbn. rewrite lookup_insert_eq. split; [reflexivity|]. cbn. split; [done|].
    unfold DrawArgs_at. cbn. rewrite lookup_singleton_eq. cbn.
    rewrite length_fmap, Hlen, wrap_UINT_small; nia.
Qed.

(** The 128 x 128 grid of the application: 96774 indices, each below
    16384. *)
Lemma waves_index_loop_fills_witness :
  3 * TriangleCount (mWaves new_App) = 96774 /\
  (forall indices0 : list Z, length indices0 = Z.to_nat 96774 ->
     waves_index_loop 128 128 indices0 = Some (grid_indices 128 128, 96774)) /\
  Forall (fun v => 0 <= v < 16384) (grid_indices 128 128).
Proof.
  destruct (waves_index_loop_fills new_App 128 128) as (H1 & H2 & _ & H4 & H5 & _);
    [reflexivity|reflexivity|lia|lia|lia|].
  destruct H5 as [_ H5]; [by vm_compute|].
  split; [exact H1|]. split; [|exact H4].
  intros indices0 Hl. rewrite <- H5. apply H2. rewrite Hl, H1. reflexivity.
Defined.

End WaveIndices.
(* ================================================================== *)
(** ** Rounding to single precision *)

Section Binary32.

Open Scope Q_scope.

Lemma pow2_pos (e : Z) : 0 < 2 ^ e.
Proof. apply Qpower_0_lt. reflexivity. Qed.

Lemma pow2_add (a b : Z) : 2 ^ (a + b) == 2 ^ a * 2 ^ b.
Proof. apply Qpower_plus. discriminate. Qed.

Lemma pow2_succ (a : Z) : 2 ^ (a + 1) == 2 * 2 ^ a.
Proof. rewrite pow2_add. change (2 ^ 1) with 2. ring. Qed.

Lemma pow2_le (a b : Z) : (a <= b)%Z -> 2 ^ a <= 2 ^ b.
Proof. intros H. apply Qpower_le_compat_l; [exact H|discriminate]. Qed.

Lemma pow2_lt (a b : Z) : (a < b)%Z -> 2 ^ a < 2 ^ b.
Proof. intros H. apply Qpower_lt_compat_l; [exact H|reflexivity]. Qed.

Lemma pow2_Z (n : Z) : (0 <= n)%Z -> 2 ^ n == inject_Z (2 ^ n).
Proof. intros H. rewrite Zpower_Qpower by exact H. reflexivity. Qed.

(** [x / 2 ^ q] is [x] in units of [2 ^ q]. *)
Lemma scaled_le (x y : Q) (q : Z) : x <= y * 2 ^ q <-> x / 2 ^ q <= y.
Proof.
  pose proof (pow2_pos q) as Hq. split; intros H.
  - apply Qle_shift_div_r; [exact Hq|exact H].
  - apply (Qmult_le_compat_r _ _ (2 ^ q)) in H; [|lra].
    unfold Qdiv in H. rewrite <- Qmult_assoc, (Qmult_comm (/ _)), Qmult_inv_r, Qmult_1_r in H;
      [exact H|lra].
Qed.

Lemma scaled_ge (x y : Q) (q : Z) : y * 2 ^ q <= x <-> y <= x / 2 ^ q.
Proof.
  pose proof (pow2_pos q) as Hq. split; intros H.
  - apply Qle_shift_div_l; [exact Hq|exact H].
  - apply (Qmult_le_compat_r _ _ (2 ^ q)) in H; [|lra].
    unfold Qdiv in H. rewrite <- Qmult_assoc, (Qmult_comm (/ _)), Qmult_inv_r, Qmult_1_r in H;
      [exact H|lra].
Qed.

Lemma scaled_back (x : Q) (q : Z) : x / 2 ^ q * 2 ^ q == x.
Proof. pose proof (pow2_pos q). field. lra. Qed.

(** *** Rounding to the nearest integer *)

Lemma Qfloor_bounds (x : Q) : inject_Z (Qfloor x) <= x < inject_Z (Qfloor x) + 1.
Proof.
  pose proof (Qfloor_le x). pose proof (Qlt_floor x) as Hu.
  rewrite inject_Z_plus in Hu. change (inject_Z 1) with 1 in Hu. lra.
Qed.

Lemma Qrne_cases (x : Q) :
  (Qrne x = Qfloor x /\ x - inject_Z (Qfloor x) <= 1 # 2) \/
  (Qrne x = (Qfloor x + 1)%Z /\ 1 # 2 <= x - inject_Z (Qfloor x)).
Proof.
  unfold Qrne. destruct (Qcompare_spec (x - inject_Z (Qfloor x)) (1 # 2)) as [E|E|E].
  - destruct (Z.even (Qfloor x)); [left|right]; (split; [reflexivity|lra]).
  - left. split; [reflexivity|lra].
  - right. split; [reflexivity|lra].
Qed.

Lemma Qrne_error (x : Q) : x - (1 # 2) <= inject_Z (Qrne x) <= x + (1 # 2).
Proof.
  pose proof (Qfloor_bounds x).
  destruct (Qrne_cases x) as [[-> H1]|[-> H1]];
    [|rewrite inject_Z_plus; change (inject_Z 1) with 1]; lra.
Qed.

Lemma Qrne_mono (x y : Q) : x <= y -> (Qrne x <= Qrne y)%Z.
Proof.
  intros Hxy. pose proof (Qfloor_resp_le _ _ Hxy) as Hf.
  pose proof (Qfloor_bounds x) as Hx. pose proof (Qfloor_bounds y) as Hy.
  destruct (Z.eq_dec (Qfloor x) (Qfloor y)) as [E|N].
  - unfold Qrne. rewrite <- E in *.
    destruct (Qcompare_spec (x - inject_Z (Qfloor x)) (1 # 2)) as [Ex|Ex|Ex];
      destruct (Qcompare_spec (y - inject_Z (Qfloor x)) (1 # 2)) as [Ey|Ey|Ey];
      try lia; try lra; destruct (Z.even (Qfloor x)); lia.
  - destruct (Qrne_cases x) as [[-> _]|[-> _]]; destruct (Qrne_cases y) as [[-> _]|[-> _]]; lia.
Qed.

Lemma Qrne_Z (n : Z) : Qrne (inject_Z n) = n.
Proof.
  unfold Qrne. rewrite Qfloor_Z.
  destruct (Qcompare_spec (inject_Z n - inject_Z n) (1 # 2)) as [E|E|E]; [lra|reflexivity|lra].
Qed.

Lemma Qrne_le (x : Q) (n : Z) : x <= inject_Z n -> (Qrne x <= n)%Z.
Proof. intros H. rewrite <- (Qrne_Z n). apply Qrne_mono, H. Qed.

Lemma Qrne_ge (x : Q) (n : Z) : inject_Z n <= x -> (n <= Qrne x)%Z.
Proof. intros H. rewrite <- (Qrne_Z n). apply Qrne_mono, H. Qed.

(** *** The binade of a positive number *)

Lemma Qlog2_spec (x : Q) : 0 < x -> 2 ^ Qlog2 x <= x < 2 ^ (Qlog2 x + 1).
Proof.
  intros Hx. destruct x as [n d]. unfold Qlog2. cbn [Qnum Qden].
  assert (Hn : (0 < n)%Z) by (unfold Qlt in Hx; cbn in Hx; lia).
  set (a := Z.log2 n). set (b := Z.log2 (Z.pos d)).
  destruct (Z.log2_spec n Hn) as [Ha1 Ha2]. fold a in Ha1, Ha2.
  destruct (Z.log2_spec (Z.pos d) eq_refl) as [Hb1 Hb2]. fold b in Hb1, Hb2.
  assert (Ha0 : (0 <= a)%Z) by apply Z.log2_nonneg.
  assert (Hb0 : (0 <= b)%Z) by apply Z.log2_nonneg.
  set (x := n # d) in *.
  assert (Hxd : x * inject_Z (Z.pos d) == inject_Z n).
  { unfold x. rewrite (Qmake_Qdiv n d). field. discriminate. }
  assert (Hd : 0 < inject_Z (Z.pos d)) by reflexivity.
  rewrite Zle_Qle in Ha1, Hb1. rewrite Zlt_Qlt in Ha2, Hb2.
  rewrite <- !pow2_Z in Ha1, Ha2, Hb1, Hb2 by lia.
  replace (Z.succ a) with (a + 1)%Z in Ha2 by lia.
  replace (Z.succ b) with (b + 1)%Z in Hb2 by lia.
  pose proof (pow2_pos (a - b)) as Hp.
  assert (Hab : 2 ^ a == 2 ^ (a - b) * 2 ^ b).
  { rewrite <- pow2_add. replace (a - b + b)%Z with a by lia. reflexivity. }
  rewrite pow2_succ in Ha2, Hb2.
  assert (Hup : x < 2 * 2 ^ (a - b)).
  { apply (Qmult_lt_r _ _ (inject_Z (Z.pos d))); [exact Hd|]. rewrite Hxd.
    apply (Qlt_le_trans _ (2 * 2 ^ a)); [exact Ha2|]. rewrite Hab.
    rewrite <- Qmult_assoc. apply Qmult_le_l; [reflexivity|].
    apply Qmult_le_l; [exact Hp|exact Hb1]. }
  assert (Hlo : 2 ^ (a - b) <= 2 * x).
  { apply (Qmult_le_r _ _ (inject_Z (Z.pos d))); [exact Hd|].
    rewrite <- Qmult_assoc, Hxd.
    apply (Qle_trans _ (2 ^ (a - b) * (2 * 2 ^ b))).
    - apply Qmult_le_l; [exact Hp|lra].
    - rewrite (Qmult_comm 2 (2 ^ b)), Qmult_assoc, <- Hab. lra. }
  destruct (Qle_bool (2 ^ (a - b)) x) eqn:E.
  - apply Qle_bool_iff in E. rewrite pow2_succ. split; [exact E|exact Hup].
  - assert (x < 2 ^ (a - b)) as Hlt.
    { apply Qnot_le_lt. intros H. apply Qle_bool_iff in H. congruence. }
    replace (a - b - 1 + 1)%Z with (a - b)%Z by lia.
    split; [|exact Hlt].
    assert (H2 : 2 ^ (a - b) == 2 * 2 ^ (a - b - 1)).
    { rewrite <- pow2_succ. replace (a - b - 1 + 1)%Z with (a - b)%Z by lia. reflexivity. }
    lra.
Qed.

Lemma Qlog2_unique (x : Q) (e : Z) : 2 ^ e <= x < 2 ^ (e + 1) -> Qlog2 x = e.
Proof.
  intros [H1 H2]. pose proof (pow2_pos e) as Hp.
  destruct (Qlog2_spec x) as [H3 H4]; [lra|].
  assert (Hlt1 : 2 ^ e < 2 ^ (Qlog2 x + 1)) by lra.
  assert (Hlt2 : 2 ^ Qlog2 x < 2 ^ (e + 1)) by lra.
  apply Qpower_lt_compat_l_inv in Hlt1; [|reflexivity].
  apply Qpower_lt_compat_l_inv in Hlt2; [|reflexivity]. lia.
Qed.

Lemma Qlog2_mono (x y : Q) : 0 < x -> x <= y -> (Qlog2 x <= Qlog2 y)%Z.
Proof.
  intros Hx Hxy. destruct (Qlog2_spec x Hx) as [H1 _].
  destruct (Qlog2_spec y) as [_ H2]; [lra|].
  assert (Hlt : 2 ^ Qlog2 x < 2 ^ (Qlog2 y + 1)) by lra.
  apply Qpower_lt_compat_l_inv in Hlt; [|reflexivity]. lia.
Qed.

(** *** Rounding to binary32 *)

Lemma fl32_zero (x : Q) : x == 0 -> fl32 x == 0.
Proof.
  intros H. unfold fl32. set (q := fl32_exponent x).
  assert (Hz : x / 2 ^ q == 0) by (rewrite H; pose proof (pow2_pos q); field; lra).
  assert (Hr : Qrne (x / 2 ^ q) = 0%Z).
  { apply Z.le_antisymm; [apply Qrne_le|apply Qrne_ge]; rewrite Hz; apply Qle_refl. }
  rewrite Hr. ring.
Qed.

Lemma fl32_nonneg (x : Q) : 0 <= x -> 0 <= fl32 x.
Proof.
  intros H. unfold fl32. set (q := fl32_exponent x). pose proof (pow2_pos q) as Hq.
  apply Qmult_le_0_compat; [|lra].
  change 0 with (inject_Z 0). rewrite <- Zle_Qle. apply Qrne_ge.
  apply scaled_ge. change (inject_Z 0) with 0. lra.
Qed.

(** The exponent of the last place of a positive number. *)
Lemma fl32_exponent_pos (x : Q) :
  0 < x ->
  exists L : Z, 2 ^ L <= x < 2 ^ (L + 1) /\ fl32_exponent x = Z.max (L - 23) (-149).
Proof.
  intros Hx. exists (Qlog2 (Qabs x)).
  assert (Ha : Qabs x == x) by (apply Qabs_pos; lra).
  destruct (Qlog2_spec (Qabs x)) as [H1 H2]; [lra|].
  split; [|reflexivity]. set (L := Qlog2 (Qabs x)) in *.
  split; [apply (Qle_trans _ _ _ H1)|apply (Qle_lt_trans _ (Qabs x))]; lra.
Qed.

Lemma fl32_le_pow2 (x : Q) (e : Z) :
  (-149 <= e)%Z -> 0 <= x -> x <= 2 ^ e -> fl32 x <= 2 ^ e.
Proof.
  intros He H0 Hx. pose proof (pow2_pos e) as Hpe.
  destruct (Qle_lt_or_eq _ _ H0) as [Hpos|Hz].
  2:{ rewrite fl32_zero; [lra|symmetry; exact Hz]. }
  destruct (fl32_exponent_pos x Hpos) as (L & [HL1 HL2] & Hq).
  unfold fl32. rewrite Hq. set (q := Z.max (L - 23) (-149)).
  assert (HLe : (L <= e)%Z).
  { assert (Hlt : 2 ^ L < 2 ^ (e + 1)).
    { apply (Qle_lt_trans _ (2 ^ e)); [lra|apply pow2_lt; lia]. }
    apply Qpower_lt_compat_l_inv in Hlt; [lia|reflexivity]. }
  assert (Hqe : (q <= e)%Z) by (unfold q; lia).
  assert (Hpow : 2 ^ e == inject_Z (2 ^ (e - q)) * 2 ^ q).
  { rewrite <- pow2_Z by lia. rewrite <- pow2_add.
    replace (e - q + q)%Z with e by lia. reflexivity. }
  rewrite Hpow. pose proof (pow2_pos q) as Hpq.
  apply Qmult_le_compat_r; [|lra]. rewrite <- Zle_Qle. apply Qrne_le.
  apply scaled_le. rewrite <- Hpow. exact Hx.
Qed.

Lemma fl32_ge_pow2 (x : Q) (e : Z) :
  (-149 <= e)%Z -> 2 ^ e <= x -> 2 ^ e <= fl32 x.
Proof.
  intros He Hx. pose proof (pow2_pos e) as Hpe.
  destruct (fl32_exponent_pos x) as (L & [HL1 HL2] & Hq); [lra|].
  unfold fl32. rewrite Hq. set (q := Z.max (L - 23) (-149)).
  assert (HLe : (e <= L)%Z).
  { assert (Hlt : 2 ^ e < 2 ^ (L + 1)) by lra.
    apply Qpower_lt_compat_l_inv in Hlt; [lia|reflexivity]. }
  assert (Hqe : (q <= L)%Z) by (unfold q; lia).
  assert (Hpow : 2 ^ L == inject_Z (2 ^ (L - q)) * 2 ^ q).
  { rewrite <- pow2_Z by lia. rewrite <- pow2_add.
    replace (L - q + q)%Z with L by lia. reflexivity. }
  apply (Qle_trans _ (2 ^ L)); [apply pow2_le; exact HLe|].
  rewrite Hpow. pose proof (pow2_pos q) as Hpq.
  apply Qmult_le_compat_r; [|lra]. rewrite <- Zle_Qle. apply Qrne_ge.
  apply scaled_ge. rewrite <- Hpow. exact HL1.
Qed.

(** Rounding is monotone. *)
Lemma fl32_mono (x y : Q) : 0 <= x -> x <= y -> fl32 x <= fl32 y.
Proof.
  intros H0 Hxy.
  destruct (Qle_lt_or_eq _ _ H0) as [Hpos|Hz].
  2:{ rewrite (fl32_zero x); [apply fl32_nonneg; lra|symmetry; exact Hz]. }
  destruct (fl32_exponent_pos x Hpos) as (Lx & [Hx1 Hx2] & Hqx).
  destruct (fl32_exponent_pos y) as (Ly & [Hy1 Hy2] & Hqy); [lra|].
  assert (HL : (Lx <= Ly)%Z).
  { assert (Hlt : 2 ^ Lx < 2 ^ (Ly + 1)) by lra.
    apply Qpower_lt_compat_l_inv in Hlt; [lia|reflexivity]. }
  destruct (Z.eq_dec (fl32_exponent x) (fl32_exponent y)) as [E|N].
  - unfold fl32. rewrite E. set (q := fl32_exponent y). pose proof (pow2_pos q) as Hq.
    apply Qmult_le_compat_r; [|lra]. rewrite <- Zle_Qle. apply Qrne_mono.
    apply scaled_le. rewrite scaled_back. exact Hxy.
  - assert (Hlt : (Lx + 1 <= Ly)%Z) by lia.
    assert (He : (-149 <= Ly)%Z) by lia.
    apply (Qle_trans _ (2 ^ Ly)).
    + apply fl32_le_pow2; [exact He|exact H0|].
      apply (Qle_trans _ (2 ^ (Lx + 1))); [lra|apply pow2_le; exact Hlt].
    + apply fl32_ge_pow2; [exact He|exact Hy1].
Qed.

Lemma fl32_comp (x y : Q) : 0 <= x -> x == y -> fl32 x == fl32 y.
Proof.
  intros H0 E. apply Qle_antisym; apply fl32_mono; lra.
Qed.

(** The rounding error below 2 is at most half of [2 ^ -23]. *)
Lemma fl32_error (x : Q) :
  0 <= x -> x < 2 -> - (1 # 16777216) <= fl32 x - x <= 1 # 16777216.
Proof.
  intros H0 H2.
  destruct (Qle_lt_or_eq _ _ H0) as [Hpos|Hz].
  2:{ rewrite (fl32_zero x); [lra|symmetry; exact Hz]. }
  destruct (fl32_exponent_pos x Hpos) as (L & [HL1 HL2] & Hq).
  assert (HL : (L <= 0)%Z).
  { assert (Hlt : 2 ^ L < 2 ^ 1) by (change (2 ^ 1) with 2; lra).
    apply Qpower_lt_compat_l_inv in Hlt; [lia|reflexivity]. }
  unfold fl32. rewrite Hq. set (q := Z.max (L - 23) (-149)).
  pose proof (pow2_pos q) as Hpq.
  assert (Hq23 : 2 ^ q <= 1 # 8388608).
  { change (1 # 8388608) with (2 ^ (-23)). apply pow2_le. unfold q. lia. }
  pose proof (Qrne_error (x / 2 ^ q)) as [He1 He2].
  pose proof (scaled_back x q) as Hb.
  set (z := x / 2 ^ q) in *. set (m := inject_Z (Qrne z)) in *.
  assert (E : m * 2 ^ q - x == (m - z) * 2 ^ q) by (rewrite <- Hb; ring).
  rewrite E. split.
  - apply (Qle_trans _ (- (1 # 2) * 2 ^ q)); [lra|].
    apply Qmult_le_compat_r; lra.
  - apply (Qle_trans _ ((1 # 2) * 2 ^ q)); [|lra].
    apply Qmult_le_compat_r; lra.
Qed.

(** The binary32 numbers below a number of the binade [[2 ^ e, 2 ^ (e + 1)]]
    are at least one unit of the last place below it. *)
Lemma fl32_below (x : Q) (e B : Z) :
  (-126 <= e)%Z -> (2 ^ 23 < B <= 2 ^ 24)%Z -> 0 <= x ->
  fl32 x < inject_Z B * 2 ^ (e - 23) ->
  fl32 x <= inject_Z (B - 1) * 2 ^ (e - 23).
Proof.
  intros He HB H0 Hlt. pose proof (pow2_pos (e - 23)) as Hp.
  assert (He0 : 2 ^ e == inject_Z (2 ^ 23) * 2 ^ (e - 23)).
  { rewrite <- pow2_Z by lia. rewrite <- pow2_add.
    replace (23 + (e - 23))%Z with e by lia. reflexivity. }
  assert (He1 : 2 ^ (e + 1) == inject_Z (2 ^ 24) * 2 ^ (e - 23)).
  { rewrite <- pow2_Z by lia. rewrite <- pow2_add.
    replace (24 + (e - 23))%Z with (e + 1)%Z by lia. reflexivity. }
  destruct (Qlt_le_dec x (2 ^ e)) as [Hlow|Hge].
  { apply (Qle_trans _ (2 ^ e)); [apply fl32_le_pow2; [lia|exact H0|lra]|].
    rewrite He0. apply Qmult_le_compat_r; [|lra]. rewrite <- Zle_Qle. lia. }
  destruct (Qlt_le_dec x (2 ^ (e + 1))) as [Hin|Hhigh].
  2:{ exfalso. pose proof (fl32_ge_pow2 x (e + 1) ltac:(lia) Hhigh) as Hg.
      assert (inject_Z B * 2 ^ (e - 23) <= 2 ^ (e + 1)).
      { rewrite He1. apply Qmult_le_compat_r; [|lra]. rewrite <- Zle_Qle. lia. }
      lra. }
  pose proof (pow2_pos e) as Hpe.
  destruct (fl32_exponent_pos x) as (L & [HL1 HL2] & Hq); [lra|].
  assert (HL : L = e).
  { assert (Hlt1 : 2 ^ e < 2 ^ (L + 1)) by lra.
    assert (Hlt2 : 2 ^ L < 2 ^ (e + 1)) by lra.
    apply Qpower_lt_compat_l_inv in Hlt1; [|reflexivity].
    apply Qpower_lt_compat_l_inv in Hlt2; [|reflexivity]. lia. }
  subst L. unfold fl32 in *. rewrite Hq in *.
  replace (Z.max (e - 23) (-149)) with (e - 23)%Z in * by lia.
  apply Qmult_lt_r in Hlt; [|exact Hp]. rewrite <- Zlt_Qlt in Hlt.
  apply Qmult_le_compat_r; [|lra]. rewrite <- Zle_Qle. lia.
Qed.

Lemma fl32_below_1 (x : Q) : 0 <= x -> fl32 x < 1 -> fl32 x <= 16777215 # 16777216.
Proof.
  intros H0 H1. pose proof (fl32_below x (-1) (2 ^ 24) ltac:(lia) ltac:(lia) H0) as H.
  assert (E1 : inject_Z (2 ^ 24) * 2 ^ ((-1) - 23) == 1) by (vm_compute; reflexivity).
  assert (E2 : inject_Z ((2 ^ 24) - 1) * 2 ^ ((-1) - 23) == 16777215 # 16777216) by (vm_compute; reflexivity).
  rewrite E1, E2 in H. exact (H H1).
Qed.

Lemma fl32_below_10 (x : Q) : 0 <= x -> fl32 x < 10 -> fl32 x <= 10485759 # 1048576.
Proof.
  intros H0 H1. pose proof (fl32_below x 3 10485760 ltac:(lia) ltac:(lia) H0) as H.
  assert (E1 : inject_Z 10485760 * 2 ^ (3 - 23) == 10) by (vm_compute; reflexivity).
  assert (E2 : inject_Z (10485760 - 1) * 2 ^ (3 - 23) == 10485759 # 1048576) by (vm_compute; reflexivity).
  rewrite E1, E2 in H. exact (H H1).
Qed.

Lemma fl32_below_50 (x : Q) : 0 <= x -> fl32 x < 50 -> fl32 x <= 13107199 # 262144.
Proof.
  intros H0 H1. pose proof (fl32_below x 5 13107200 ltac:(lia) ltac:(lia) H0) as H.
  assert (E1 : inject_Z 13107200 * 2 ^ (5 - 23) == 50) by (vm_compute; reflexivity).
  assert (E2 : inject_Z (13107200 - 1) * 2 ^ (5 - 23) == 13107199 # 262144) by (vm_compute; reflexivity).
  rewrite E1, E2 in H. exact (H H1).
Qed.

End Binary32.

(* ================================================================== *)
(** ** The scroll of the water texture (C5) *)

Section WaterScroll.

Open Scope Q_scope.

(** One step of the scroll whose increment, as computed, is below 1:
    the offset stays a number below 1 and moves by the increment, less
    one when it wraps, up to three roundings. *)
Lemma scroll_step (rate dt t : Q) :
  0 <= t <= 16777215 # 16777216 ->
  0 <= fl32 rate * dt <= 16777215 # 16777216 ->
  0 <= scroll rate dt t <= 16777215 # 16777216 /\
  exists n : Z,
    (0 <= n <= 1)%Z /\
    - (3 # 16777216) <= scroll rate dt t - (t + fl32 rate * dt - inject_Z n) <= 3 # 16777216.
Proof.
  intros Ht Hp. unfold scroll.
  set (p := fl32 rate * dt) in *. set (inc := fl32 p).
  assert (E1 : fl32 (16777215 # 16777216) == 16777215 # 16777216) by (vm_compute; reflexivity).
  assert (E2 : fl32 (16777215 # 8388608) == 16777215 # 8388608) by (vm_compute; reflexivity).
  assert (E3 : fl32 (8388607 # 8388608) == 8388607 # 8388608) by (vm_compute; reflexivity).
  assert (Hinc : 0 <= inc <= 16777215 # 16777216).
  { split; [apply fl32_nonneg; lra|]. rewrite <- E1. apply fl32_mono; lra. }
  pose proof (fl32_error p ltac:(lra) ltac:(lra)) as Hpe. fold inc in Hpe.
  set (s := t + inc).
  assert (Hs : 0 <= s <= 16777215 # 8388608) by (unfold s; lra).
  set (t1 := fl32 s).
  assert (Ht1 : 0 <= t1 <= 16777215 # 8388608).
  { split; [apply fl32_nonneg; lra|]. rewrite <- E2. apply fl32_mono; lra. }
  pose proof (fl32_error s ltac:(lra) ltac:(lra)) as Hse. fold t1 in Hse.
  destruct (Qle_bool 1 t1) eqn:E.
  - apply Qle_bool_iff in E.
    assert (Hr : 0 <= fl32 (t1 - 1) <= 8388607 # 8388608).
    { split; [apply fl32_nonneg; lra|]. rewrite <- E3. apply fl32_mono; lra. }
    pose proof (fl32_error (t1 - 1) ltac:(lra) ltac:(lra)) as Hre.
    split; [lra|]. exists 1%Z. split; [lia|]. change (inject_Z 1) with 1. unfold s in *. lra.
  - assert (Hlt : t1 < 1).
    { apply Qnot_le_lt. intros H. apply Qle_bool_iff in H. congruence. }
    pose proof (fl32_below_1 s ltac:(lra) Hlt) as Hb. fold t1 in Hb.
    split; [lra|]. exists 0%Z. split; [lia|]. change (inject_Z 0) with 0. unfold s in *. lra.
Qed.

(** The [u] offset: rate [0.1f], time steps below 10 s. *)
Lemma scroll_step_u (dt t : Q) :
  binary32 dt -> 0 <= dt -> (1 # 10) * dt < 1 ->
  0 <= t <= 16777215 # 16777216 ->
  0 <= scroll (1 # 10) dt t <= 16777215 # 16777216 /\
  exists n : Z, (0 <= n <= 1)%Z /\
    within_tolerance 1 (scroll (1 # 10) dt t) (t + (1 # 10) * dt - inject_Z n).
Proof.
  intros Hf H0 Hlt Ht.
  assert (Er : fl32 (1 # 10) == 13421773 # 134217728) by (vm_compute; reflexivity).
  assert (Hdt : dt <= 10485759 # 1048576).
  { unfold binary32 in Hf. rewrite <- Hf. apply fl32_below_10; [exact H0|]. rewrite Hf. lra. }
  destruct (scroll_step (1 # 10) dt t Ht) as [Hr [n [Hn01 Hn]]]; [rewrite Er; lra|].
  split; [exact Hr|]. exists n. split; [exact Hn01|]. unfold within_tolerance, scroll_tolerance.
  apply Qabs_Qle_condition. rewrite Er in Hn. change (inject_Z (Z.of_nat 1)) with 1. lra.
Qed.

(** The [v] offset: rate [0.02f], time steps below 50 s. *)
Lemma scroll_step_v (dt t : Q) :
  binary32 dt -> 0 <= dt -> (2 # 100) * dt < 1 ->
  0 <= t <= 16777215 # 16777216 ->
  0 <= scroll (2 # 100) dt t <= 16777215 # 16777216 /\
  exists n : Z, (0 <= n <= 1)%Z /\
    within_tolerance 1 (scroll (2 # 100) dt t) (t + (2 # 100) * dt - inject_Z n).
Proof.
  intros Hf H0 Hlt Ht.
  assert (Er : fl32 (2 # 100) == 10737418 # 536870912) by (vm_compute; reflexivity).
  assert (Hdt : dt <= 13107199 # 262144).
  { unfold binary32 in Hf. rewrite <- Hf. apply fl32_below_50; [exact H0|]. rewrite Hf. lra. }
  destruct (scroll_step (2 # 100) dt t Ht) as [Hr [n [Hn01 Hn]]]; [rewrite Er; lra|].
  split; [exact Hr|]. exists n. split; [exact Hn01|]. unfold within_tolerance, scroll_tolerance.
  apply Qabs_Qle_condition. rewrite Er in Hn. change (inject_Z (Z.of_nat 1)) with 1. lra.
Qed.

(** Steps that each keep the offset below 1 and within the tolerance
    of one step keep it within the tolerance of their number. *)
Lemma scroll_run_within (rate : Q) (P : Q -> Prop) :
  (forall dt t, P dt -> 0 <= t <= 16777215 # 16777216 ->
     0 <= scroll rate dt t <= 16777215 # 16777216 /\
     exists n : Z, (0 <= n <= 1)%Z /\
       within_tolerance 1 (scroll rate dt t) (t + rate * dt - inject_Z n)) ->
  forall inps t,
    Forall (fun inp => P (DeltaTime (gt inp))) inps ->
    0 <= t <= 16777215 # 16777216 ->
    0 <= scroll_run rate inps t <= 16777215 # 16777216 /\
    exists wraps : Z,
      (0 <= wraps <= Z.of_nat (length inps))%Z /\
      within_tolerance (length inps) (scroll_run rate inps t)
        (t + rate * elapsed inps - inject_Z wraps).
Proof.
  intros Hstep. induction inps as [|inp inps IH]; intros t Hall Ht.
  - split; [exact Ht|]. exists 0%Z. split; [cbn; lia|]. unfold within_tolerance.
    apply Qabs_Qle_condition. unfold scroll_run, elapsed. cbn [foldl foldr length].
    change (inject_Z (Z.of_nat 0)) with 0. change (inject_Z 0) with 0. lra.
  - apply Forall_cons_iff in Hall as [Hdt Hall].
    destruct (Hstep _ t Hdt Ht) as [Hr [n [Hn01 Hn]]].
    destruct (IH _ Hall Hr) as [Hr' [w [Hw0 Hw]]].
    split; [exact Hr'|]. exists (n + w)%Z. split; [cbn [length]; lia|].
    unfold within_tolerance in *. apply Qabs_Qle_condition in Hn, Hw.
    apply Qabs_Qle_condition.
    set (t1 := scroll rate (DeltaTime (gt inp)) t) in *.
    change (scroll_run rate (inp :: inps) t) with (scroll_run rate inps t1).
    change (elapsed (inp :: inps)) with (DeltaTime (gt inp) + elapsed inps).
    set (r := scroll_run rate inps t1) in *. cbn [length].
    rewrite Nat2Z.inj_succ. unfold Z.succ. rewrite !inject_Z_plus.
    change (inject_Z (Z.of_nat 1)) with 1 in Hn. change (inject_Z 1) with 1.
    set (N := inject_Z (Z.of_nat (length inps))) in *.
    unfold scroll_tolerance in *. lra.
Qed.

(** What one call does to the offsets. *)
Lemma AnimateMaterials_offset inp st u v :
  water_offset st = Some (u, v) ->
  exists st', AnimateMaterials inp st = Some st' /\
    water_offset st' = Some (scroll (1 # 10) (DeltaTime (gt inp)) u,
                             scroll (2 # 100) (DeltaTime (gt inp)) v).
Proof.
  unfold water_offset, AnimateMaterials. intros H.
  destruct (mMaterials st !! "water") as [waterMat|] eqn:Hw; [|done].
  cbn in H. injection H as <- <-. cbn [mbind option_bind].
  eexists. split; [reflexivity|]. cbn. rewrite lookup_insert_eq. cbn.
  reflexivity.
Qed.

(** The offsets after a run: each is scrolled at its own rate. *)
Lemma AnimateMaterials_run_offset inps : forall st u0 v0,
  water_offset st = Some (u0, v0) ->
  exists st',
    AnimateMaterials_run inps st = Some st' /\
    water_offset st' = Some (scroll_run (1 # 10) inps u0, scroll_run (2 # 100) inps v0).
Proof.
  induction inps as [|inp inps IH]; intros st u0 v0 Hoff.
  - exists st. split; [reflexivity|exact Hoff].
  - destruct (AnimateMaterials_offset inp st u0 v0 Hoff) as (st1 & Hrun1 & Hoff1).
    destruct (IH st1 _ _ Hoff1) as (st' & Hrun & Hoff').
    exists st'. split; [|exact Hoff'].
    unfold AnimateMaterials_run in *. cbn. rewrite Hrun1. exact Hrun.
Qed.

(** A [float] below 1 is at most [1 - 2 ^ -24]. *)
Lemma binary32_below_1 (t : Q) :
  binary32 t -> 0 <= t < 1 -> 0 <= t <= 16777215 # 16777216.
Proof.
  intros Hf [H0 H1]. split; [exact H0|]. unfold binary32 in Hf.
  rewrite <- Hf. apply fl32_below_1; [exact H0|]. rewrite Hf. exact H1.
Qed.

(** C5, as the code has it, in [float] arithmetic.  The offsets start
    as [float]s of [[0, 1)], the time steps are non-negative [float]s.
    After any number [k] of the calls of a sequence, [T] being the time
    elapsed over those calls:
    - if [0.1 * dt < 1] in each of them, [u] is in [[0, 1)] and is
      [initial + 0.1 * T] less a whole number of wraps, at most one
      per call, within [2 ^ -22] per call;
    - if [0.02 * dt < 1] in each of them, [v] is in [[0, 1)] and is
      [initial + 0.02 * T] less a whole number of wraps, at most one
      per call, within [2 ^ -22] per call.
    So each offset is congruent to [(initial + rate * T) mod 1] within
    the tolerance; it need not be near that number itself. *)
Theorem AnimateMaterials_scroll_mod1 (st : App) (inps : list FrameInput) (u0 v0 : Q) :
  water_offset st = Some (u0, v0) ->
  binary32 u0 -> binary32 v0 -> 0 <= u0 < 1 -> 0 <= v0 < 1 ->
  Forall (fun inp => binary32 (DeltaTime (gt inp)) /\ 0 <= DeltaTime (gt inp)) inps ->
  forall k : nat, exists st' u v,
    AnimateMaterials_run (take k inps) st = Some st' /\
    water_offset st' = Some (u, v) /\
    (Forall (fun inp => (1 # 10) * DeltaTime (gt inp) < 1) (take k inps) ->
     0 <= u < 1 /\
     exists wraps : Z,
       (0 <= wraps <= Z.of_nat (length (take k inps)))%Z /\
       within_tolerance (length (take k inps)) u
         (u0 + (1 # 10) * elapsed (take k inps) - inject_Z wraps)) /\
    (Forall (fun inp => (2 # 100) * DeltaTime (gt inp) < 1) (take k inps) ->
     0 <= v < 1 /\
     exists wraps : Z,
       (0 <= wraps <= Z.of_nat (length (take k inps)))%Z /\
       within_tolerance (length (take k inps)) v
         (v0 + (2 # 100) * elapsed (take k inps) - inject_Z wraps)).
Proof.
  intros Hoff Hfu Hfv Hu Hv Hall k.
  assert (Hsteps : Forall (fun inp => binary32 (DeltaTime (gt inp)) /\ 0 <= DeltaTime (gt inp))
                     (take k inps)) by (apply Forall_take; exact Hall).
  clear Hall. rename Hsteps into Hall. set (steps := take k inps) in *.
  destruct (AnimateMaterials_run_offset steps st u0 v0 Hoff) as (st' & Hrun & Hoff').
  exists st', (scroll_run (1 # 10) steps u0), (scroll_run (2 # 100) steps v0).
  split; [exact Hrun|]. split; [exact Hoff'|].
  apply binary32_below_1 in Hu; [|exact Hfu]. apply binary32_below_1 in Hv; [|exact Hfv].
  split; intros Hrate.
  - destruct (scroll_run_within (1 # 10)
                (fun dt => binary32 dt /\ 0 <= dt /\ (1 # 10) * dt < 1)) with (inps := steps) (t := u0)
      as [Hr Hw]; [|rewrite Forall_forall in *; intros inp Hin; split_and!;
                      [apply Hall, Hin|apply Hall, Hin|apply Hrate, Hin]|exact Hu|].
    + intros dt t (Hf & H0 & H1) Ht. by apply scroll_step_u.
    + split; [lra|exact Hw].
  - destruct (scroll_run_within (2 # 100)
                (fun dt => binary32 dt /\ 0 <= dt /\ (2 # 100) * dt < 1)) with (inps := steps) (t := v0)
      as [Hr Hw]; [|rewrite Forall_forall in *; intros inp Hin; split_and!;
                      [apply Hall, Hin|apply Hall, Hin|apply Hrate, Hin]|exact Hv|].
    + intros dt t (Hf & H0 & H1) Ht. by apply scroll_step_v.
    + split; [lra|exact Hw].
Qed.

(** Three steps of 4 s from offset 0: [u] passes 1 once. *)
Lemma AnimateMaterials_scroll_mod1_witness :
  exists st' u v,
    AnimateMaterials_run
      (take 3 [sample_frame 4 4 0; sample_frame 4 8 0; sample_frame 4 12 0]) scenario_app
      = Some st' /\
    water_offset st' = Some (u, v) /\
    (0 <= u < 1 /\
     exists wraps : Z,
       (0 <= wraps <= Z.of_nat (length (take 3 [sample_frame 4 4 0; sample_frame 4 8 0;
                                                sample_frame 4 12 0])))%Z /\
       within_tolerance
         (length (take 3 [sample_frame 4 4 0; sample_frame 4 8 0; sample_frame 4 12 0])) u
         (0 + (1 # 10) * elapsed (take 3 [sample_frame 4 4 0; sample_frame 4 8 0;
                                          sample_frame 4 12 0]) - inject_Z wraps)) /\
    (0 <= v < 1 /\
     exists wraps : Z,
       (0 <= wraps <= Z.of_nat (length (take 3 [sample_frame 4 4 0; sample_frame 4 8 0;
                                                sample_frame 4 12 0])))%Z /\
       within_tolerance
         (length (take 3 [sample_frame 4 4 0; sample_frame 4 8 0; sample_frame 4 12 0])) v
         (0 + (2 # 100) * elapsed (take 3 [sample_frame 4 4 0; sample_frame 4 8 0;
                                           sample_frame 4 12 0]) - inject_Z wraps)).
Proof.
  destruct (AnimateMaterials_scroll_mod1 scenario_app
              [sample_frame 4 4 0; sample_frame 4 8 0; sample_frame 4 12 0] 0 0)
    with (k := 3%nat) as (st' & u & v & Hrun & Hoff & Hu & Hv).
  - reflexivity.
  - vm_compute. reflexivity.
  - vm_compute. reflexivity.
  - lra.
  - lra.
  - repeat constructor; vm_compute; congruence.
  - exists st', u, v. split; [exact Hrun|]. split; [exact Hoff|]. split.
    + apply Hu. repeat constructor.
    + apply Hv. repeat constructor.
Defined.

(** C5 as stated fails: the offset need not be near
    [(initial + rate * T) mod 1].  Twenty-five steps of 4 s from offset
    0 meet every condition of the claim; [0.02 * 100 s] is 2, so
    [(0 + 0.02 * T) mod 1] is 0, but the rounded sums stay below 2 and
    wrap once only: [v] ends at [1 - 5 * 2 ^ -24]. *)
Theorem AnimateMaterials_scroll_far_from_mod1 :
  let inps := replicate 25 (sample_frame 4 0 0) in
  water_offset scenario_app = Some (0, 0) /\
  Forall (fun inp => binary32 (DeltaTime (gt inp)) /\ 0 <= DeltaTime (gt inp) /\
                     (1 # 10) * DeltaTime (gt inp) < 1 /\
                     (2 # 100) * DeltaTime (gt inp) < 1) inps /\
  exists st' u v,
    AnimateMaterials_run inps scenario_app = Some st' /\
    water_offset st' = Some (u, v) /\
    Qmod1 (0 + (2 # 100) * elapsed inps) == 0 /\
    v == 16777211 # 16777216 /\
    ~ within_tolerance 25 v (Qmod1 (0 + (2 # 100) * elapsed inps)).
Proof.
  intros inps. split; [reflexivity|]. split.
  { apply Forall_replicate. vm_compute. repeat split; congruence. }
  destruct (AnimateMaterials_run_offset inps scenario_app 0 0 eq_refl) as (st' & Hrun & Hoff).
  exists st', (scroll_run (1 # 10) inps 0), (scroll_run (2 # 100) inps 0).
  split; [exact Hrun|]. split; [exact Hoff|].
  assert (Ev : scroll_run (2 # 100) inps 0 == 16777211 # 16777216) by (vm_compute; reflexivity).
  assert (Em : Qmod1 (0 + (2 # 100) * elapsed inps) == 0) by (vm_compute; reflexivity).
  split; [exact Em|]. split; [exact Ev|].
  unfold within_tolerance. rewrite Ev, Em. vm_compute. intros H. apply H. reflexivity.
Qed.

End WaterScroll.
(* ================================================================== *)
(** ** Dirty counters (C3) *)

Section DirtyCounters.

Lemma ritem_set_set a v e :
  RenderItem.set_NumFramesDirty a (RenderItem.set_NumFramesDirty v e)
  = RenderItem.set_NumFramesDirty a e.
Proof. reflexivity. Qed.

Lemma material_set_set a v m :
  Material.set_NumFramesDirty a (Material.set_NumFramesDirty v m)
  = Material.set_NumFramesDirty a m.
Proof. reflexivity. Qed.

Lemma tick_ritem_iter (n : nat) (e : RenderItem.t) :
  0 <= RenderItem.NumFramesDirty e < 2 ^ 31 ->
  Nat.iter n tick_ritem e
  = RenderItem.set_NumFramesDirty
      (Z.max 0 (RenderItem.NumFramesDirty e - Z.of_nat n)) e.
Proof.
  intros He. induction n as [|n IH].
  - change (Nat.iter 0 tick_ritem e) with e.
    rewrite Z.max_r by lia. rewrite Z.sub_0_r. by destruct e.
  - rewrite Nat.iter_succ, IH. unfold tick_ritem. cbn.
    destruct (0 <? Z.max 0 (RenderItem.NumFramesDirty e - Z.of_nat n)) eqn:E.
    + apply Z.ltb_lt in E. rewrite wrap_int_small by lia.
      rewrite ritem_set_set. f_equal. lia.
    + apply Z.ltb_ge in E. f_equal. lia.
Qed.

Lemma tick_material_iter (n : nat) (m : Material.t) :
  0 <= Material.NumFramesDirty m < 2 ^ 31 ->
  Nat.iter n tick_material m
  = Material.set_NumFramesDirty
      (Z.max 0 (Material.NumFramesDirty m - Z.of_nat n)) m.
Proof.
  intros Hm. induction n as [|n IH].
  - change (Nat.iter 0 tick_material m) with m.
    rewrite Z.max_r by lia. rewrite Z.sub_0_r. by destruct m.
  - rewrite Nat.iter_succ, IH. unfold tick_material. cbn.
    destruct (0 <? Z.max 0 (Material.NumFramesDirty m - Z.of_nat n)) eqn:E.
    + apply Z.ltb_lt in E. rewrite wrap_int_small by lia.
      rewrite material_set_set. f_equal. lia.
    + apply Z.ltb_ge in E. f_equal. lia.
Qed.

Lemma UpdateObjectCBs_cycles_items cycles : forall st st',
  UpdateObjectCBs_cycles cycles st = Some st' ->
  mAllRitems st' = Nat.iter (length cycles) tick_ritem <$> mAllRitems st.
Proof.
  induction cycles as [|[inp p] cycles IH]; intros st st' H.
  - cbn in H. injection H as <-. cbn. by rewrite list_fmap_id.
  - cbn [UpdateObjectCBs_cycles] in H.
    destruct (UpdateObjectCBs inp _) as [s|] eqn:Hs; [|done]. cbn [mbind option_bind] in H.
    rewrite (IH _ _ H).
    apply UpdateObjectCBs_effect in Hs as (q & fr & cb & _ & _ & ->).
    cbn -[Nat.iter length]. rewrite <- list_fmap_compose.
    apply list_fmap_ext. intros _ e _. unfold compose. cbn [length].
    by rewrite Nat.iter_succ_r.
Qed.

Lemma UpdateMaterialCBs_cycles_mats cycles : forall st st',
  UpdateMaterialCBs_cycles cycles st = Some st' ->
  mMaterials st' = Nat.iter (length cycles) tick_material <$> mMaterials st.
Proof.
  induction cycles as [|[inp p] cycles IH]; intros st st' H.
  - cbn in H. injection H as <-. cbn. by rewrite map_fmap_id.
  - cbn [UpdateMaterialCBs_cycles] in H.
    destruct (UpdateMaterialCBs inp _) as [s|] eqn:Hs; [|done]. cbn [mbind option_bind] in H.
    rewrite (IH _ _ H).
    apply UpdateMaterialCBs_effect in Hs as (q & fr & cb & _ & _ & ->).
    cbn -[Nat.iter length]. rewrite <- map_fmap_compose.
    apply map_fmap_ext. intros _ m _. unfold compose. cbn [length].
    by rewrite Nat.iter_succ_r.
Qed.

(** What the writing steps of [Update] do to the items and to the
    materials. *)
Lemma Update_writes_records inp st st' :
  Update_writes inp st = Some st' ->
  mAllRitems st' = tick_ritem <$> mAllRitems st /\
  exists waterMat, mMaterials st !! "water" = Some waterMat /\
    mMaterials st' = tick_material
      <$> <["water" := animate_water (DeltaTime (gt inp)) waterMat]> (mMaterials st).
Proof.
  unfold Update_writes. intros H.
  destruct (AnimateMaterials inp st) as [s1|] eqn:H1; [|done]. cbn [mbind option_bind] in H.
  destruct (UpdateObjectCBs inp s1) as [s2|] eqn:H2; [|done]. cbn [mbind option_bind] in H.
  destruct (UpdateMaterialCBs inp s2) as [s3|] eqn:H3; [|done]. cbn [mbind option_bind] in H.
  destruct (UpdateMainPassCB inp s3) as [s4|] eqn:H4; [|done]. cbn [mbind option_bind] in H.
  apply AnimateMaterials_effect in H1 as (w & Hw & ->).
  apply UpdateObjectCBs_effect in H2 as (p2 & fr2 & cb2 & _ & _ & ->).
  apply UpdateMaterialCBs_effect in H3 as (p3 & fr3 & cb3 & _ & _ & ->).
  apply UpdateMainPassCB_effect in H4 as (p4 & fr4 & cb4 & pc & _ & _ & _ & ->).
  apply UpdateWaves_effect in H
    as (tb & waves & p & fr & vb & g & geo & w5 & ritem & _ & _ & _ & _ & _ & _ & _ & ->).
  cbn. split; [done|]. by exists w.
Qed.

Lemma tick_ritem_range e :
  0 <= RenderItem.NumFramesDirty e <= gNumFrameResources ->
  0 <= RenderItem.NumFramesDirty (tick_ritem e) <= gNumFrameResources.
Proof.
  unfold tick_ritem, gNumFrameResources. intros H.
  destruct (0 <? _) eqn:E; [|done]. apply Z.ltb_lt in E. cbn.
  rewrite wrap_int_small by lia. lia.
Qed.

Lemma tick_material_range m :
  0 <= Material.NumFramesDirty m <= gNumFrameResources ->
  0 <= Material.NumFramesDirty (tick_material m) <= gNumFrameResources.
Proof.
  unfold tick_material, gNumFrameResources. intros H.
  destruct (0 <? _) eqn:E; [|done]. apply Z.ltb_lt in E. cbn.
  rewrite wrap_int_small by lia. lia.
Qed.

Lemma frame_counters_in_range inp st st' :
  frame inp st = Some st' -> counters_in_range st -> counters_in_range st'.
Proof.
  unfold frame. intros H [Hi Hm].
  destruct (Update inp st) as [[s w]|] eqn:Hu; [|done]. cbn [mbind option_bind] in H.
  rewrite Update_unfold in Hu. case_decide; [|done].
  destruct (mFrameResources st !! _) as [fr|]; [|done]. cbn [mbind option_bind] in Hu.
  destruct (Update_writes inp _) as [s'|] eqn:Hw; [|done]. cbn in Hu.
  injection Hu as -> _.
  apply Update_writes_records in Hw as (Hitems & water & Hwater & Hmats).
  apply Draw_spec in H as (p & fr' & _ & _ & _ & Hi' & Hm').
  unfold counters_in_range. rewrite Hi', Hm', Hitems, Hmats. cbn. split.
  - rewrite Forall_fmap. eapply Forall_impl; [|exact Hi]. apply tick_ritem_range.
  - apply map_Forall_fmap. apply map_Forall_insert_2.
    + cbn. unfold gNumFrameResources. rewrite wrap_int_small by lia. lia.
    + intros k m Hk. cbn. apply tick_material_range. by apply (Hm k).
Qed.

Lemma well_formed_set_mCurrFrameResource p st :
  well_formed st -> well_formed (set_mCurrFrameResource p st).
Proof. by apply well_formed_views. Qed.

Lemma CurrFrameResource_set (p : nat) st :
  well_formed st -> (p < 3)%nat ->
  exists fr, CurrFrameResource (set_mCurrFrameResource (Some p) st) = Some (p, fr).
Proof.
  intros Hwf Hp. pose proof (well_formed_length st Hwf) as Hlen.
  destruct (lookup_lt_is_Some_2 (mFrameResources st) p) as [fr Hfr]; [lia|].
  exists fr. by apply CurrFrameResource_Some.
Qed.

(** In a well-formed state the passes run to their end, whichever of
    the three frame resources each pass writes. *)
Lemma UpdateObjectCBs_cycles_is_Some cycles : forall st,
  well_formed st -> Forall (fun c => (c.2 < 3)%nat) cycles ->
  is_Some (UpdateObjectCBs_cycles cycles st).
Proof.
  induction cycles as [|[inp p] cycles IH]; intros st Hwf Hall; [by eexists|].
  apply Forall_cons_iff in Hall as [Hp Hall]. cbn [UpdateObjectCBs_cycles].
  destruct (CurrFrameResource_set p st Hwf Hp) as [fr Hc].
  pose proof (well_formed_set_mCurrFrameResource (Some p) st Hwf) as Hwf1.
  destruct (UpdateObjectCBs_is_Some inp _ _ _ Hwf1 Hc) as [s Hs].
  rewrite Hs. cbn [mbind option_bind]. apply IH; [|exact Hall].
  apply UpdateObjectCBs_views in Hs as [Hr Hv]. by eapply well_formed_ring.
Qed.

Lemma UpdateMaterialCBs_cycles_is_Some cycles : forall st,
  well_formed st -> Forall (fun c => (c.2 < 3)%nat) cycles ->
  is_Some (UpdateMaterialCBs_cycles cycles st).
Proof.
  induction cycles as [|[inp p] cycles IH]; intros st Hwf Hall; [by eexists|].
  apply Forall_cons_iff in Hall as [Hp Hall]. cbn [UpdateMaterialCBs_cycles].
  destruct (CurrFrameResource_set p st Hwf Hp) as [fr Hc].
  pose proof (well_formed_set_mCurrFrameResource (Some p) st Hwf) as Hwf1.
  destruct (UpdateMaterialCBs_is_Some inp _ _ _ Hwf1 Hc) as [s Hs].
  rewrite Hs. cbn [mbind option_bind]. apply IH; [|exact Hall].
  apply UpdateMaterialCBs_views in Hs as [Hr Hv]. by eapply well_formed_ring.
Qed.

(** C3: in a well-formed state any number of consecutive passes of
    [UpdateObjectCBs] and of [UpdateMaterialCBs] run to their end,
    whichever of the three frame resources each pass writes. After [n]
    passes of [UpdateObjectCBs] an item whose counter was [c >= 0] has
    the counter [max 0 (c - n)] and is otherwise unchanged; the same
    holds for materials and [UpdateMaterialCBs]. So a counter is never
    negative, each pass takes one off it only while it is positive, and
    a counter set to 3 is [3 - n] after [n <= 3] passes: 0 after exactly
    3 passes, and 0 from then on. Whole frames ([Update], which also
    re-marks the water material, then [Draw]) keep every counter
    between 0 and 3. *)
Theorem NumFramesDirty_countdown (cycles : list (FrameInput * nat)) (st : App) :
  (well_formed st -> Forall (fun c => (c.2 < 3)%nat) cycles ->
     is_Some (UpdateObjectCBs_cycles cycles st) /\
     is_Some (UpdateMaterialCBs_cycles cycles st))
  /\ (forall st', UpdateObjectCBs_cycles cycles st = Some st' ->
     forall (i : nat) e, mAllRitems st !! i = Some e ->
       0 <= RenderItem.NumFramesDirty e < 2 ^ 31 ->
       mAllRitems st' !! i =
         Some (RenderItem.set_NumFramesDirty
                 (Z.max 0 (RenderItem.NumFramesDirty e - Z.of_nat (length cycles))) e))
  /\ (forall st', UpdateMaterialCBs_cycles cycles st = Some st' ->
     forall name m, mMaterials st !! name = Some m ->
       0 <= Material.NumFramesDirty m < 2 ^ 31 ->
       mMaterials st' !! name =
         Some (Material.set_NumFramesDirty
                 (Z.max 0 (Material.NumFramesDirty m - Z.of_nat (length cycles))) m))
  /\ (forall inps st' log, run_frames inps st = Some (st', log) ->
        counters_in_range st -> counters_in_range st').
Proof.
  split; [|split; [|split]].
  - intros Hwf Hall. split.
    + by apply UpdateObjectCBs_cycles_is_Some.
    + by apply UpdateMaterialCBs_cycles_is_Some.
  - intros st' H i e Hi He.
    rewrite (UpdateObjectCBs_cycles_items _ _ _ H), list_lookup_fmap, Hi. cbn.
    by rewrite tick_ritem_iter.
  - intros st' H name m Hm Hn.
    rewrite (UpdateMaterialCBs_cycles_mats _ _ _ H), lookup_fmap, Hm. cbn.
    by rewrite tick_material_iter.
  - intros inps. revert st. induction inps as [|inp inps IH]; intros st st' log H Hc.
    + cbn in H. by injection H as <- _.
    + cbn [run_frames] in H.
      destruct (frame inp st) as [s|] eqn:Hf; [|done]. cbn [mbind option_bind] in H.
      destruct (stamped_fence s) as [f|]; [|done]. cbn [mbind option_bind] in H.
      destruct (run_frames inps s) as [[s' log']|] eqn:Hr; [|done]. cbn in H.
      injection H as <- _. eapply IH; [exact Hr|]. by eapply frame_counters_in_range.
Qed.

(** Three passes over the scenario, one per frame resource: the
    counters of the water item and of the water material go from 3
    to 0. *)
Lemma NumFramesDirty_countdown_witness :
  exists st1 st2,
    UpdateObjectCBs_cycles
      [(sample_input 0 0, 1%nat); (sample_input 0 0, 2%nat); (sample_input 0 0, 0%nat)]
      scenario_app = Some st1 /\
    UpdateMaterialCBs_cycles
      [(sample_input 0 0, 1%nat); (sample_input 0 0, 2%nat); (sample_input 0 0, 0%nat)]
      scenario_app = Some st2 /\
    RenderItem.NumFramesDirty <$> mAllRitems st1 !! 0%nat = Some 0 /\
    Material.NumFramesDirty <$> mMaterials st2 !! "water" = Some 0.
Proof.
  destruct (UpdateObjectCBs_cycles _ scenario_app) as [st1|] eqn:H1;
    [|by vm_compute in H1].
  destruct (UpdateMaterialCBs_cycles _ scenario_app) as [st2|] eqn:H2;
    [|by vm_compute in H2].
  exists st1, st2. split; [done|]. split; [done|].
  destruct (NumFramesDirty_countdown
    [(sample_input 0 0, 1%nat); (sample_input 0 0, 2%nat); (sample_input 0 0, 0%nat)]
    scenario_app) as (_ & Hitems & Hmats & _).
  split.
  - assert (Hl : mAllRitems scenario_app !! 0%nat
                 = Some (RenderItem.mk (XMMatrixScaling 6 1 6) (XMMatrixScaling 30 30 1)
                           gNumFrameResources 0 (Some "water") (Some "waterGeo")
                           TRIANGLELIST 384 0 0))
      by (vm_compute; reflexivity).
    rewrite (Hitems st1 H1 0%nat _ Hl); [reflexivity|cbn; unfold gNumFrameResources; lia].
  - assert (Hl : mMaterials scenario_app !! "water" = Some scenario_water)
      by (vm_compute; reflexivity).
    rewrite (Hmats st2 H2 "water" _ Hl); [reflexivity|cbn; unfold gNumFrameResources; lia].
Defined.

End DirtyCounters.
(* ================================================================== *)
(** ** What AnimateMaterials touches (C9) *)

Section AnimateFrame.

(** C9: a call of [AnimateMaterials] runs to its end exactly when the
    store holds a material "water"; it changes the material store and
    nothing else of the application; in the store it changes the
    material "water" only; of that material it changes only the
    entries (3,0) and (3,1) of [MatTransform] and [NumFramesDirty].
    In particular every render item is as it was. *)
Theorem AnimateMaterials_frame (inp : FrameInput) (st : App) :
  (is_Some (AnimateMaterials inp st) <-> is_Some (mMaterials st !! "water"))
  /\ forall st', AnimateMaterials inp st = Some st' ->
  st' = set_mMaterials (mMaterials st') st
  /\ mAllRitems st' = mAllRitems st
  /\ (forall name, name <> "water" -> mMaterials st' !! name = mMaterials st !! name)
  /\ exists waterMat waterMat',
       mMaterials st !! "water" = Some waterMat /\
       mMaterials st' !! "water" = Some waterMat' /\
       (forall r c : nat, (r, c) <> (3, 0)%nat -> (r, c) <> (3, 1)%nat ->
          mat_get (Material.MatTransform waterMat') r c
          = mat_get (Material.MatTransform waterMat) r c) /\
       Material.Name waterMat' = Material.Name waterMat /\
       Material.MatCBIndex waterMat' = Material.MatCBIndex waterMat /\
       Material.DiffuseSrvHeapIndex waterMat' = Material.DiffuseSrvHeapIndex waterMat /\
       Material.DiffuseAlbedo waterMat' = Material.DiffuseAlbedo waterMat /\
       Material.FresnelR0 waterMat' = Material.FresnelR0 waterMat /\
       Material.Roughness waterMat' = Material.Roughness waterMat.
Proof.
  split.
  { unfold AnimateMaterials.
    destruct (mMaterials st !! "water") as [waterMat|]; cbn [mbind option_bind].
    - split; intros _; by eexists.
    - split; intros [x Hx]; discriminate Hx. }
  intros st' H. apply AnimateMaterials_effect in H as (waterMat & Hw & ->).
  split; [reflexivity|]. split; [reflexivity|]. split.
  - intros name Hne. cbn. by rewrite lookup_insert_ne.
  - exists waterMat, (animate_water (DeltaTime (gt inp)) waterMat).
    split; [done|]. split; [cbn; by rewrite lookup_insert_eq|].
    split; [|by repeat split].
    intros r c H0 H1. unfold animate_water. cbn [Material.MatTransform
      Material.set_NumFramesDirty Material.set_MatTransform].
    rewrite !mat_get_set_other by congruence. reflexivity.
Qed.

(** A frame of the scenario: the water material is scrolled, the two
    render items are untouched. *)
Lemma AnimateMaterials_frame_witness :
  exists st', AnimateMaterials (sample_input 0 0) scenario_app = Some st' /\
    mAllRitems st' = scenario_items /\
    forall name, name <> "water" -> mMaterials st' !! name = None.
Proof.
  destruct (AnimateMaterials (sample_input 0 0) scenario_app) as [st'|] eqn:H;
    [|by vm_compute in H].
  exists st'. split; [done|].
  destruct (proj2 (AnimateMaterials_frame _ _) _ H) as (_ & Hitems & Hothers & _).
  split; [exact Hitems|]. intros name Hne. rewrite (Hothers name Hne).
  cbn. by rewrite lookup_singleton_ne.
Defined.

End AnimateFrame.
(* ================================================================== *)
(** ** Wave disturbances (C6) *)

Section Disturbances.

Lemma MathHelper_Rand_range r a b v :
  MathHelper_Rand r a b = Some v ->
  0 <= r -> 0 <= a <= b -> b < 2 ^ 30 -> a <= v <= b.
Proof.
  unfold MathHelper_Rand. intros H Hr Hab Hb.
  rewrite !(wrap_int_small (b - a)) in H by lia.
  rewrite (wrap_int_small (b - a + 1)) in H by lia.
  destruct (b - a + 1 =? 0); [done|]. injection H as <-.
  pose proof (Z.rem_bound_pos r (b - a + 1)).
  rewrite wrap_int_small by lia. lia.
Qed.

Lemma disturbances_Update dt w :
  disturbances (waves_call (Waves_Update dt) w) = disturbances w.
Proof. unfold disturbances. cbn. rewrite omap_app. cbn. by rewrite app_nil_r. Qed.

Lemma disturbances_Disturb i j r w :
  disturbances (waves_call (Waves_Disturb i j r) w) = disturbances w ++ [(i, j, r)].
Proof. unfold disturbances. cbn. by rewrite omap_app. Qed.

(** The first part of [UpdateWaves], case by case. *)
Lemma UpdateWaves_disturb_spec inp st tb waves :
  UpdateWaves_disturb inp st = Some (tb, waves) ->
  9 <= RowCount (mWaves st) < 2 ^ 30 -> 9 <= ColumnCount (mWaves st) < 2 ^ 30 ->
  0 <= rand_row inp -> 0 <= rand_col inp ->
  (((1 # 4) <= TotalTime (gt inp) - t_base st)%Q ->
     tb = (t_base st + (1 # 4))%Q /\
     exists i j, disturbances waves
                 = disturbances (mWaves st) ++ [(i, j, rand_magnitude inp)] /\
                 within_margin (mWaves st) (i, j, rand_magnitude inp))
  /\ (~ ((1 # 4) <= TotalTime (gt inp) - t_base st)%Q ->
     tb = t_base st /\ disturbances waves = disturbances (mWaves st)).
Proof.
  unfold UpdateWaves_disturb. intros H Hrows Hcols Hr Hc.
  destruct (Qle_bool _ _) eqn:E.
  - apply Qle_bool_iff in E. split; [intros _|done].
    cbn zeta in H. rewrite !wrap_int_small in H by lia.
    destruct (MathHelper_Rand (rand_row inp) _ _) as [i|] eqn:Hi; cbn in H; [|done].
    destruct (MathHelper_Rand (rand_col inp) _ _) as [j|] eqn:Hj; cbn in H; [|done].
    injection H as <- <-. split; [done|]. exists i, j.
    split; [apply disturbances_Disturb|].
    apply MathHelper_Rand_range in Hi; [|lia..].
    apply MathHelper_Rand_range in Hj; [|lia..].
    unfold within_margin. cbn. lia.
  - injection H as <- <-. split; [|done].
    intros Hle. apply Qle_bool_iff in Hle. congruence.
Qed.

Lemma UpdateWaves_waves inp st st' :
  UpdateWaves inp st = Some st' ->
  exists tb waves,
    UpdateWaves_disturb inp st = Some (tb, waves) /\
    t_base st' = tb /\
    disturbances (mWaves st') = disturbances waves /\
    RowCount (mWaves st') = RowCount (mWaves st) /\
    ColumnCount (mWaves st') = ColumnCount (mWaves st).
Proof.
  intros H. apply UpdateWaves_effect in H
    as (tb & waves & p & fr & vb & g & geo & w & ritem & Hd & _ & _ & _ & _ & _ & _ & ->).
  exists tb, waves. split; [done|]. split; [done|]. cbn.
  split; [apply disturbances_Update|]. by apply UpdateWaves_disturb_grid in Hd.
Qed.

(** C6, as the code has it. In a well-formed state with a current
    frame resource a call of [UpdateWaves] runs to its end. A call
    disturbs the waves exactly when the total time exceeds [t_base] by
    0.25 s or more; it then makes one disturbance, at a cell that keeps
    the margin of four cells, and advances [t_base] by 0.25 s;
    otherwise it makes none and leaves [t_base]. Over any run of calls
    [t_base] so advances by 0.25 s per disturbance made, whatever time
    passed between the calls, and every disturbance made keeps the
    margin. *)
Theorem UpdateWaves_disturbance (st : App) :
  9 <= RowCount (mWaves st) < 2 ^ 30 -> 9 <= ColumnCount (mWaves st) < 2 ^ 30 ->
  (forall inp, well_formed st -> is_Some (CurrFrameResource st) ->
     is_Some (UpdateWaves inp st))
  /\ (forall inp st', UpdateWaves inp st = Some st' ->
     0 <= rand_row inp -> 0 <= rand_col inp ->
     (((1 # 4) <= TotalTime (gt inp) - t_base st)%Q ->
        t_base st' = (t_base st + (1 # 4))%Q /\
        exists i j, disturbances (mWaves st')
                    = disturbances (mWaves st) ++ [(i, j, rand_magnitude inp)] /\
                    within_margin (mWaves st) (i, j, rand_magnitude inp))
     /\ (~ ((1 # 4) <= TotalTime (gt inp) - t_base st)%Q ->
        t_base st' = t_base st /\
        disturbances (mWaves st') = disturbances (mWaves st)))
  /\ (forall inps st', UpdateWaves_run inps st = Some st' ->
     Forall (fun inp => 0 <= rand_row inp /\ 0 <= rand_col inp) inps ->
     exists made,
       disturbances (mWaves st') = disturbances (mWaves st) ++ made /\
       (t_base st' == t_base st + (1 # 4) * inject_Z (Z.of_nat (length made)))%Q /\
       Forall (within_margin (mWaves st)) made).
Proof.
  intros Hrows Hcols. split; [|split].
  - intros inp Hwf [[p fr] Hc]. by eapply UpdateWaves_is_Some.
  - intros inp st' H Hr Hc.
    apply UpdateWaves_waves in H as (tb & waves & Hd & <- & -> & _).
    by apply UpdateWaves_disturb_spec.
  - intros inps. revert st Hrows Hcols.
    induction inps as [|inp inps IH]; intros st Hrows Hcols st' H Hall.
    + cbn in H. injection H as <-. exists []. rewrite app_nil_r.
      split; [done|]. split; [|constructor].
      change (inject_Z (Z.of_nat (length (@nil (Z * Z * Q))))) with 0%Q. lra.
    + apply Forall_cons_iff in Hall as [[Hr Hc] Hall].
      unfold UpdateWaves_run in H. cbn [foldlM] in H.
      destruct (UpdateWaves inp st) as [s|] eqn:Hs; [|done]. cbn [mbind option_bind] in H.
      apply UpdateWaves_waves in Hs as (tb & waves & Hd & Htb & Hdw & HR & HC).
      destruct (IH s) with (st' := st') as (made & Hmade & Ht & Hin);
        [by rewrite HR|by rewrite HC|exact H|exact Hall|].
      assert (Hw : forall d, within_margin (mWaves s) d -> within_margin (mWaves st) d).
      { intros d. unfold within_margin. by rewrite HR, HC. }
      destruct (UpdateWaves_disturb_spec _ _ _ _ Hd Hrows Hcols Hr Hc) as [Hfire Hskip].
      destruct (Qlt_le_dec (TotalTime (gt inp) - t_base st) (1 # 4)) as [Hlt|Hle].
      * destruct Hskip as [Htb' Hd']; [by apply Qlt_not_le|].
        exists made. rewrite Hmade, Hdw, Hd', Ht, Htb, Htb'.
        split; [done|]. split; [reflexivity|]. eapply Forall_impl; [|exact Hin]. exact Hw.
      * destruct (Hfire Hle) as [Htb' (i & j & Hd' & Hm)].
        exists ((i, j, rand_magnitude inp) :: made).
        rewrite Hmade, Hdw, Hd', <- app_assoc. split; [done|]. split.
        -- rewrite Ht, Htb, Htb'. cbn [length]. rewrite Nat2Z.inj_succ.
           unfold Z.succ. rewrite inject_Z_plus. change (inject_Z 1) with 1%Q. lra.
        -- constructor; [exact Hm|]. eapply Forall_impl; [|exact Hin]. exact Hw.
Qed.

(** Two frames of the scenario, 0.6 s and 0.6 s + 1/60 s after the
    start: each makes a disturbance, [t_base] ends at 0.5 s. *)
Lemma UpdateWaves_disturbance_witness :
  exists st',
    UpdateWaves_run [sample_frame (6 # 10) (6 # 10) 0; sample_frame (1 # 60) (37 # 60) 0]
      scenario_updated = Some st' /\
    exists made,
      disturbances (mWaves st') = disturbances (mWaves scenario_updated) ++ made /\
      (t_base st' == t_base scenario_updated
                     + (1 # 4) * inject_Z (Z.of_nat (length made)))%Q /\
      Forall (within_margin (mWaves scenario_updated)) made.
Proof.
  destruct (UpdateWaves_run
              [sample_frame (6 # 10) (6 # 10) 0; sample_frame (1 # 60) (37 # 60) 0]
              scenario_updated) as [st'|] eqn:H; [|no_fault H].
  exists st'. split; [reflexivity|].
  apply (proj2 (proj2 (UpdateWaves_disturbance scenario_updated
                         ltac:(closed_arith) ltac:(closed_arith))) _ _ H).
  repeat constructor; closed_arith.
Defined.

(** C6 as stated fails: the two frames above are 1/60 s apart and
    each makes a disturbance, so the second disturbance comes less
    than 0.25 s after the first. *)
Lemma UpdateWaves_disturbs_in_consecutive_frames :
  disturbances_after [] scenario_updated = Some []
  /\ disturbances_after [sample_frame (6 # 10) (6 # 10) 0] scenario_updated
     = Some [(4, 4, (3 # 10)%Q)]
  /\ disturbances_after [sample_frame (6 # 10) (6 # 10) 0;
                         sample_frame (1 # 60) (37 # 60) 0] scenario_updated
     = Some [(4, 4, (3 # 10)%Q); (4, 4, (3 # 10)%Q)]
  /\ (TotalTime (gt (sample_frame (1 # 60) (37 # 60) 0))
      - TotalTime (gt (sample_frame (6 # 10) (6 # 10) 0)) < 1 # 4)%Q.
Proof. repeat split; vm_compute; reflexivity. Qed.

End Disturbances.
(* ================================================================== *)
(** ** Object-constant slots of the render items (C7) *)

Section ObjectSlots.

(** Take the next step of a computation in the fault monad. *)
Local Ltac step H s E :=
  match type of H with
  | (?m ≫= _) = Some _ =>
      destruct m as [s|] eqn:E; [cbn [mbind option_bind] in H | discriminate H]
  end.

Lemma new_RenderItem_index st world tex index mat geo submesh prim ritem :
  new_RenderItem st world tex (Some index) mat geo submesh prim = Some ritem ->
  RenderItem.ObjCBIndex ritem = wrap_UINT index.
Proof.
  unfold new_RenderItem. intros H.
  destruct (mGeometries st !! geo); [|done]. cbn in H. by injection H as <-.
Qed.

Lemma push_ritem_items layer ritem st :
  mAllRitems (push_ritem layer ritem st) = mAllRitems st ++ [ritem].
Proof. reflexivity. Qed.

Lemma numbered_push (n : nat) funcCBIndex st layer ritem :
  numbered n (funcCBIndex, st) -> (n < 1000)%nat ->
  RenderItem.ObjCBIndex ritem = wrap_UINT funcCBIndex ->
  numbered (S n) (wrap_int (funcCBIndex + 1), push_ritem layer ritem st).
Proof.
  unfold numbered. cbn [fst snd]. intros [-> Hitems] Hn Hidx. split.
  - rewrite wrap_int_small by lia. lia.
  - rewrite push_ritem_items, fmap_app, Hitems, seq_S, fmap_app. cbn.
    rewrite Hidx, wrap_UINT_small by lia. done.
Qed.

Lemma add_ritem_numbered (n : nat) world tex mat geo submesh prim layer s s' :
  add_ritem world tex mat geo submesh prim layer s = Some s' ->
  numbered n s -> (n < 1000)%nat -> numbered (S n) s'.
Proof.
  destruct s as [funcCBIndex st]. unfold add_ritem. intros H Hs Hn.
  destruct (new_RenderItem _ _ _ _ _ _ _ _) as [ritem|] eqn:E; [|done]. cbn in H.
  injection H as <-. apply numbered_push; [done|done|].
  by eapply new_RenderItem_index.
Qed.

Lemma maze_call_numbered (n : nat) s a s' :
  maze_call s a = Some s' -> numbered n s -> (n < 1000)%nat -> numbered (S n) s'.
Proof.
  destruct s as [funcCBIndex st], a as [[[sX sZ] pX] pZ]. unfold maze_call, BuildMazePart.
  intros H Hs Hn.
  destruct (new_RenderItem _ _ _ _ _ _ _ _) as [ritem|] eqn:E; [|done]. cbn in H.
  injection H as <-. apply numbered_push; [done|done|].
  by eapply new_RenderItem_index.
Qed.

(** A loop whose body stores [c] items stores [c] items per turn. *)
Lemma foldlM_numbered {B} (c : nat) (f : Z * App -> B -> option (Z * App)) l :
  (forall (n : nat) s b s', f s b = Some s' -> numbered n s -> (n + c <= 1000)%nat ->
                            numbered (n + c) s') ->
  forall (n : nat) s s', foldlM f s l = Some s' -> numbered n s ->
    (n + c * length l <= 1000)%nat -> numbered (n + c * length l) s'.
Proof.
  intros Hf. induction l as [|b l IH]; intros n s s' H Hs Hn.
  - cbn in H. injection H as <-. by rewrite Nat.mul_0_r, Nat.add_0_r.
  - cbn [foldlM] in H. cbn [length] in Hn |- *.
    destruct (f s b) as [s1|] eqn:E; [|done]. cbn [mbind option_bind] in H.
    replace (n + c * S (length l))%nat with ((n + c) + c * length l)%nat by lia.
    apply (IH _ s1); [done| |lia]. apply (Hf n s b); [done|done|lia].
Qed.

Lemma int_range_length bound : length (int_range bound) = Z.to_nat bound.
Proof. apply int_range_from_length. Qed.

(** [BuildRenderItems], run on an application without render items,
    stores 106 items and numbers them 0 to 105 in the order in which it
    stores them. *)
Lemma BuildRenderItems_numbered st st' :
  mAllRitems st = [] -> BuildRenderItems st = Some st' ->
  RenderItem.ObjCBIndex <$> mAllRitems st' = Z.of_nat <$> seq 0 106.
Proof.
  intros Hnil H. unfold BuildRenderItems in H. cbn zeta in H.
  assert (H0 : numbered 0 (0, st)) by (split; [done|]; cbn; by rewrite Hnil).
  step H s1 E1. eapply add_ritem_numbered in E1; [|exact H0|lia].
  assert (H1 : numbered 1 (s1.1, set_mWavesRitem (Some (length (mAllRitems st))) s1.2))
    by exact E1.
  step H s2 E2. eapply add_ritem_numbered in E2; [|exact H1|lia].
  step H box Ebox. clear Ebox box.
  step H s3 E3. eapply add_ritem_numbered in E3; [|exact E2|lia].
  step H s4 E4. eapply add_ritem_numbered in E4; [|exact E3|lia].
  step H s5 E5. eapply add_ritem_numbered in E5; [|exact E4|lia].
  step H s6 E6. eapply add_ritem_numbered in E6; [|exact E5|lia].
  step H s7 E7.
  eapply (foldlM_numbered 1) in E7; [|clear; intros n s b s' Hf Hs Hn|exact E6|vm_compute; lia].
  2:{ rewrite Nat.add_1_r. eapply add_ritem_numbered; [exact Hf|done|lia]. }
  step H s8 E8.
  eapply (foldlM_numbered 1) in E8; [|clear; intros n s b s' Hf Hs Hn|exact E7|vm_compute; lia].
  2:{ rewrite Nat.add_1_r. eapply add_ritem_numbered; [exact Hf|done|lia]. }
  step H s9 E9.
  eapply (foldlM_numbered 4) in E9; [|clear; intros n s b s' Hf Hs Hn|exact E8|vm_compute; lia].
  2:{ step Hf a1 A1. eapply add_ritem_numbered in A1; [|exact Hs|lia].
      step Hf a2 A2. eapply add_ritem_numbered in A2; [|exact A1|lia].
      step Hf a3 A3. eapply add_ritem_numbered in A3; [|exact A2|lia].
      eapply add_ritem_numbered in Hf; [|exact A3|lia].
      by replace (n + 4)%nat with (S (S (S (S n)))) by lia. }
  step H s10 E10.
  eapply (foldlM_numbered 1) in E10; [|clear; intros n s b s' Hf Hs Hn|exact E9|vm_compute; lia].
  2:{ rewrite Nat.add_1_r. eapply add_ritem_numbered; [exact Hf|done|lia]. }
  step H s11 E11.
  eapply (foldlM_numbered 1) in E11; [|clear; intros n s b s' Hf Hs Hn|exact E10|vm_compute; lia].
  2:{ rewrite Nat.add_1_r. eapply add_ritem_numbered; [exact Hf|done|lia]. }
  step H s12 E12.
  eapply (foldlM_numbered 1) in E12; [|clear; intros n s b s' Hf Hs Hn|exact E11|vm_compute; lia].
  2:{ rewrite Nat.add_1_r. eapply add_ritem_numbered; [exact Hf|done|lia]. }
  step H s13 E13. eapply add_ritem_numbered in E13; [|exact E12|vm_compute; lia].
  step H s14 E14.
  eapply (foldlM_numbered 1) in E14; [|clear; intros n s b s' Hf Hs Hn|exact E13|vm_compute; lia].
  2:{ rewrite Nat.add_1_r. eapply maze_call_numbered; [exact Hf|done|lia]. }
  injection H as <-. destruct E14 as [_ E14]. exact E14.
Qed.

(** [BuildRenderItems] leaves the frame resources alone. *)
Lemma add_ritem_frames world tex mat geo submesh prim layer s s' :
  add_ritem world tex mat geo submesh prim layer s = Some s' ->
  mFrameResources s'.2 = mFrameResources s.2.
Proof.
  destruct s as [funcCBIndex st]. unfold add_ritem. intros H.
  destruct (new_RenderItem _ _ _ _ _ _ _ _) as [ritem|]; [|done]. cbn in H.
  by injection H as <-.
Qed.

Lemma maze_call_frames s a s' :
  maze_call s a = Some s' -> mFrameResources s'.2 = mFrameResources s.2.
Proof.
  destruct s as [funcCBIndex st], a as [[[sX sZ] pX] pZ]. unfold maze_call, BuildMazePart.
  intros H. destruct (new_RenderItem _ _ _ _ _ _ _ _) as [ritem|]; [|done]. cbn in H.
  by injection H as <-.
Qed.

Lemma foldlM_frames {B} (f : Z * App -> B -> option (Z * App)) l s s' :
  (forall s b s', f s b = Some s' -> mFrameResources s'.2 = mFrameResources s.2) ->
  foldlM f s l = Some s' -> mFrameResources s'.2 = mFrameResources s.2.
Proof.
  intros Hf H.
  apply (foldlM_invariant (fun s0 => mFrameResources s0.2 = mFrameResources s.2) f l s s');
    [|reflexivity|exact H].
  intros a b a' _ Ha Hfa. rewrite <- Ha. by eapply Hf.
Qed.

Lemma BuildRenderItems_views_frames st st' :
  BuildRenderItems st = Some st' -> mFrameResources st = [] -> mFrameResources st' = [].
Proof.
  intros H Hnil. unfold BuildRenderItems in H. cbn zeta in H.
  step H s1 E1. apply add_ritem_frames in E1.
  step H s2 E2. apply add_ritem_frames in E2.
  step H box Ebox. clear Ebox box.
  step H s3 E3. apply add_ritem_frames in E3.
  step H s4 E4. apply add_ritem_frames in E4.
  step H s5 E5. apply add_ritem_frames in E5.
  step H s6 E6. apply add_ritem_frames in E6.
  step H s7 E7. apply foldlM_frames in E7; [|intros ???; apply add_ritem_frames].
  step H s8 E8. apply foldlM_frames in E8; [|intros ???; apply add_ritem_frames].
  step H s9 E9. apply foldlM_frames in E9.
  2:{ clear. intros s b s' Hf.
      step Hf a1 A1. apply add_ritem_frames in A1.
      step Hf a2 A2. apply add_ritem_frames in A2.
      step Hf a3 A3. apply add_ritem_frames in A3.
      apply add_ritem_frames in Hf. congruence. }
  step H s10 E10. apply foldlM_frames in E10; [|intros ???; apply add_ritem_frames].
  step H s11 E11. apply foldlM_frames in E11; [|intros ???; apply add_ritem_frames].
  step H s12 E12. apply foldlM_frames in E12; [|intros ???; apply add_ritem_frames].
  step H s13 E13. apply add_ritem_frames in E13.
  step H s14 E14. apply foldlM_frames in E14; [|intros ???; apply maze_call_frames].
  injection H as <-. cbn [fst snd mFrameResources set_mWavesRitem] in *. congruence.
Qed.

(** *** The construction does not fault when the geometries exist *)

Lemma new_RenderItem_is_Some st world tex index mat geo submesh prim :
  is_Some (mGeometries st !! geo) ->
  is_Some (new_RenderItem st world tex index mat geo submesh prim).
Proof. intros [g Hg]. unfold new_RenderItem. rewrite Hg. by eexists. Qed.

Lemma add_ritem_Some G world tex mat geo submesh prim layer s :
  mGeometries s.2 = G -> is_Some (G !! geo) ->
  exists s', add_ritem world tex mat geo submesh prim layer s = Some s' /\
             mGeometries s'.2 = G.
Proof.
  destruct s as [funcCBIndex st]. cbn [snd]. intros <- Hg. unfold add_ritem.
  destruct (new_RenderItem_is_Some st world tex (Some funcCBIndex) mat geo submesh prim Hg)
    as [ritem ->].
  cbn. by eexists.
Qed.

Lemma maze_call_Some G s a :
  mGeometries s.2 = G -> is_Some (G !! "wallGeo") ->
  exists s', maze_call s a = Some s' /\ mGeometries s'.2 = G.
Proof.
  destruct s as [funcCBIndex st], a as [[[sX sZ] pX] pZ]. cbn [snd]. intros <- Hg.
  unfold maze_call, BuildMazePart.
  match goal with |- context [new_RenderItem st ?w ?t ?i ?m ?g ?sub ?p] =>
    destruct (new_RenderItem_is_Some st w t i m g sub p Hg) as [ritem ->] end.
  cbn. by eexists.
Qed.

Local Ltac add_one G Hgeos :=
  match goal with
  | |- is_Some (add_ritem ?w ?t ?m ?g ?sub ?p ?l ?s ≫= _) =>
      let s' := fresh "s" in let E := fresh "E" in let G' := fresh "G" in
      destruct (add_ritem_Some _ w t m g sub p l s G) as (s' & E & G');
      [apply Hgeos; unfold scene_geometry_names; set_solver
      |rewrite E; cbn [mbind option_bind]; clear E]
  end.

Local Ltac add_loop G Hgeos :=
  match goal with
  | |- is_Some (foldlM ?f ?s ?l ≫= _) =>
      let s' := fresh "s" in let E := fresh "E" in let G' := fresh "G" in
      destruct (foldlM_is_Some (fun s0 : Z * App => mGeometries s0.2 = mGeometries s.2)
                  f l s) as (s' & E & G');
      [ | reflexivity | rewrite E; cbn [mbind option_bind]; clear E; rewrite G in G']
  end.

Lemma BuildRenderItems_is_Some st :
  (forall g, g ∈ scene_geometry_names -> is_Some (mGeometries st !! g)) ->
  is_Some (BuildRenderItems st).
Proof.
  intros Hgeos. unfold BuildRenderItems. cbn zeta.
  assert (G0 : mGeometries (0, st).2 = mGeometries st) by reflexivity.
  add_one G0 Hgeos.
  match goal with |- context [set_mWavesRitem ?w s.2] =>
    assert (G1 : mGeometries (s.1, set_mWavesRitem w s.2).2 = mGeometries st) by exact G
  end.
  add_one G1 Hgeos.
  match goal with |- context [new_RenderItem s0.2 ?w ?t ?i ?m ?g ?sub ?p] =>
    destruct (new_RenderItem_is_Some s0.2 w t i m g sub p) as [box ->];
      [rewrite G2; apply Hgeos; unfold scene_geometry_names; set_solver|]
  end.
  cbn [mbind option_bind].
  add_one G2 Hgeos. add_one G3 Hgeos. add_one G4 Hgeos. add_one G5 Hgeos.
  add_loop G6 Hgeos.
  { intros a b _ Ha. eapply add_ritem_Some; [exact Ha|].
    rewrite G6. apply Hgeos. unfold scene_geometry_names. set_solver. }
  add_loop G7 Hgeos.
  { intros a b _ Ha. eapply add_ritem_Some; [exact Ha|].
    rewrite G7. apply Hgeos. unfold scene_geometry_names. set_solver. }
  add_loop G8 Hgeos.
  { intros a b _ Ha.
    assert (Hwall : is_Some (mGeometries s6.2 !! "wallGeo")).
    { rewrite G8. apply Hgeos. unfold scene_geometry_names. set_solver. }
    match goal with |- context [add_ritem ?w ?t ?m ?g ?sub ?p ?l a] =>
      destruct (add_ritem_Some _ w t m g sub p l a Ha Hwall) as (a1 & -> & A1) end.
    cbn [mbind option_bind].
    match goal with |- context [add_ritem ?w ?t ?m ?g ?sub ?p ?l a1] =>
      destruct (add_ritem_Some _ w t m g sub p l a1 A1 Hwall) as (a2 & -> & A2) end.
    cbn [mbind option_bind].
    match goal with |- context [add_ritem ?w ?t ?m ?g ?sub ?p ?l a2] =>
      destruct (add_ritem_Some _ w t m g sub p l a2 A2 Hwall) as (a3 & -> & A3) end.
    cbn [mbind option_bind].
    by eapply add_ritem_Some. }
  add_loop G9 Hgeos.
  { intros a b _ Ha. eapply add_ritem_Some; [exact Ha|].
    rewrite G9. apply Hgeos. unfold scene_geometry_names. set_solver. }
  add_loop G10 Hgeos.
  { intros a b _ Ha. eapply add_ritem_Some; [exact Ha|].
    rewrite G10. apply Hgeos. unfold scene_geometry_names. set_solver. }
  add_loop G11 Hgeos.
  { intros a b _ Ha. eapply add_ritem_Some; [exact Ha|].
    rewrite G11. apply Hgeos. unfold scene_geometry_names. set_solver. }
  add_one G12 Hgeos.
  match goal with
  | |- is_Some (foldlM ?f ?s ?l ≫= _) =>
      destruct (foldlM_is_Some (fun s0 : Z * App => mGeometries s0.2 = mGeometries s.2)
                  f l s) as (sz & -> & _); [|reflexivity|by eexists]
  end.
  intros a b _ Ha. eapply maze_call_Some; [exact Ha|].
  rewrite G13. apply Hgeos. unfold scene_geometry_names. set_solver.
Qed.

(** C7: on a fresh application whose nine geometries exist,
    [BuildRenderItems] (with all its [BuildMazePart] calls) runs without
    a fault and stores 106 render items; after [BuildFrameResources]
    there are three frame resources whose object-constant buffers have
    one slot per stored item, and the items' [ObjCBIndex] values are
    pairwise distinct and each below that capacity. *)
Theorem ObjCBIndex_unique_and_in_range (st : App) :
  mAllRitems st = [] -> mFrameResources st = [] ->
  (forall g, g ∈ scene_geometry_names -> is_Some (mGeometries st !! g)) ->
  exists st1, BuildRenderItems st = Some st1 /\
    let st2 := BuildFrameResources st1 in
    length (mAllRitems st2) = 106%nat /\
    NoDup (RenderItem.ObjCBIndex <$> mAllRitems st2) /\
    length (mFrameResources st2) = 3%nat /\
    forall fr, fr ∈ mFrameResources st2 ->
      ElementCount (ObjectCB fr) = Z.of_nat (length (mAllRitems st2)) /\
      forall e, e ∈ mAllRitems st2 ->
        0 <= RenderItem.ObjCBIndex e < ElementCount (ObjectCB fr).
Proof.
  intros Hnil Hfr Hgeos.
  destruct (BuildRenderItems_is_Some st Hgeos) as [st1 Hst1].
  exists st1. split; [exact Hst1|]. cbn zeta.
  pose proof (BuildRenderItems_numbered st st1 Hnil Hst1) as Hnum.
  assert (Hlen : length (mAllRitems st1) = 106%nat).
  { rewrite <- (length_fmap RenderItem.ObjCBIndex), Hnum, length_fmap. apply length_seq. }
  assert (Hfrs : mFrameResources st1 = []).
  { clear Hnum Hlen Hgeos Hnil. revert Hst1 Hfr.
    generalize (BuildRenderItems_views_frames st st1). tauto. }
  change (mAllRitems (BuildFrameResources st1)) with (mAllRitems st1).
  split; [exact Hlen|]. split.
  - rewrite Hnum. apply NoDup_fmap_2; [intros x y; lia|apply NoDup_seq].
  - unfold BuildFrameResources. cbn [mFrameResources set_mFrameResources].
    rewrite Hfrs. cbn [app]. split; [reflexivity|].
    intros fr Hin. apply elem_of_replicate in Hin as [-> _].
    cbn [ObjectCB new_FrameResource new_UploadBuffer ElementCount].
    rewrite Hlen, wrap_UINT_small by lia. split; [reflexivity|].
    intros e He.
    assert (Hidx : RenderItem.ObjCBIndex e ∈ Z.of_nat <$> seq 0 106).
    { rewrite <- Hnum. apply list_elem_of_fmap. by exists e. }
    apply list_elem_of_fmap in Hidx as (k & -> & Hk). apply elem_of_seq in Hk. lia.
Qed.

(** The scene of the application, with stand-ins for the meshes. *)
Lemma ObjCBIndex_unique_and_in_range_witness :
  exists st1,
    BuildRenderItems (BuildMaterials (set_mGeometries sample_geometries new_App))
      = Some st1 /\
    length (mAllRitems (BuildFrameResources st1)) = 106%nat /\
    NoDup (RenderItem.ObjCBIndex <$> mAllRitems (BuildFrameResources st1)) /\
    length (mFrameResources (BuildFrameResources st1)) = 3%nat.
Proof.
  destruct (ObjCBIndex_unique_and_in_range
              (BuildMaterials (set_mGeometries sample_geometries new_App)))
    as (st1 & H & Hlen & Hnd & Hfr & _).
  - reflexivity.
  - reflexivity.
  - intros g Hg. unfold scene_geometry_names in Hg.
    repeat (apply elem_of_cons in Hg as [->|Hg]; [eexists; vm_compute; reflexivity|]).
    by apply elem_of_nil in Hg.
  - exists st1. split; [exact H|]. split; [exact Hlen|]. split; [exact Hnd|exact Hfr].
Defined.

End ObjectSlots.
(* ================================================================== *)
(** ** Fence values and ring index over consecutive frames (C2) *)

Section FenceAndRing.

(** C2, as the code has it: from a well-formed state with fence
    counter 0 and ring index 0, five frames of [Update] then [Draw] run
    without a fault; the fence value stamped into the current frame
    resource is 1, 2, 3, 4, 5, and the ring index, which [Update]
    advances before it writes anything, is 1, 2, 0, 1, 2 in those
    frames. *)
Theorem five_frames_fence_and_ring (st : App) (inps : list FrameInput) :
  well_formed st ->
  mCurrentFence st = 0 -> mCurrFrameResourceIndex st = 0 ->
  length inps = 5%nat ->
  exists st',
    run_frames inps st = Some (st', [(1, 1); (2, 2); (0, 3); (1, 4); (2, 5)]) /\
    mCurrentFence st' = 5.
Proof.
  intros Hwf Hfence Hidx Hlen.
  destruct (run_frames_spec inps st Hwf) as (st' & Hrun & _ & _ & Hf); [lia|].
  exists st'. rewrite Hrun, Hf, Hlen, Hfence, Hidx. split; reflexivity.
Qed.

(** The scenario of the specification, five frames at [dt = 1/60 s]. *)
Lemma five_frames_fence_and_ring_witness :
  exists st',
    run_frames [sample_input (1 # 60) 0; sample_input (2 # 60) 0; sample_input (3 # 60) 0;
                sample_input (4 # 60) 0; sample_input (5 # 60) 0] scenario_app
      = Some (st', [(1, 1); (2, 2); (0, 3); (1, 4); (2, 5)]) /\
    mCurrentFence st' = 5.
Proof.
  apply five_frames_fence_and_ring.
  - exact scenario_well_formed.
  - reflexivity.
  - reflexivity.
  - reflexivity.
Defined.

(** C2 as stated fails: in the scenario, with fence counter 0, ring
    index 0 and fence 0 in all three frame resources, the five frames
    log the ring indices 1, 2, 0, 1, 2, not 0, 1, 2, 0, 1. *)
Lemma five_frames_ring_index_not_0_1_2_0_1 :
  mCurrentFence scenario_app = 0 /\
  mCurrFrameResourceIndex scenario_app = 0 /\
  fences scenario_app = [0; 0; 0] /\
  snd <$> run_frames [sample_input (1 # 60) 0; sample_input (2 # 60) 0;
                      sample_input (3 # 60) 0; sample_input (4 # 60) 0;
                      sample_input (5 # 60) 0] scenario_app
    = Some [(1, 1); (2, 2); (0, 3); (1, 4); (2, 5)] /\
  snd <$> run_frames [sample_input (1 # 60) 0; sample_input (2 # 60) 0;
                      sample_input (3 # 60) 0; sample_input (4 # 60) 0;
                      sample_input (5 # 60) 0] scenario_app
    <> Some [(0, 1); (1, 2); (2, 3); (0, 4); (1, 5)].
Proof.
  assert (H : snd <$> run_frames [sample_input (1 # 60) 0; sample_input (2 # 60) 0;
                      sample_input (3 # 60) 0; sample_input (4 # 60) 0;
                      sample_input (5 # 60) 0] scenario_app
              = Some [(1, 1); (2, 2); (0, 3); (1, 4); (2, 5)])
    by (vm_compute; reflexivity).
  split; [reflexivity|]. split; [reflexivity|]. split; [reflexivity|].
  split; [exact H|]. rewrite H. intros E. discriminate E.
Qed.

End FenceAndRing.
(* ================================================================== *)
(** ** The frame scheduler (C1) *)

Section FrameScheduler.

Lemma must_wait_iff fr completed :
  must_wait fr completed = true <-> in_flight fr completed.
Proof.
  unfold must_wait, in_flight.
  rewrite andb_true_iff, negb_true_iff, Z.eqb_neq, Z.ltb_lt. tauto.
Qed.

(** The selection is the first part of [Update]. *)
Lemma Update_select_selected inp st a :
  Update_select inp st = Some a ->
  0 <= next_slot st < Z.of_nat (length (mFrameResources st)) /\
  a = Update_selected inp (Z.to_nat (next_slot st)) st.
Proof.
  unfold Update_select, frame_slot, Update_selected, next_slot. cbn zeta.
  cbn [mFrameResources set_mCurrFrameResourceIndex UpdateCamera OnKeyboardInput
       set_mCamera set_bNoClip mCurrFrameResourceIndex set_mCurrFrameResource].
  case_decide as Hslot; [|intros H; discriminate H]. cbn [mbind option_bind].
  intros [= <-]. split; [exact Hslot|reflexivity].
Qed.

Lemma Update_select_is_Some inp st :
  0 <= next_slot st < Z.of_nat (length (mFrameResources st)) ->
  Update_select inp st = Some (Update_selected inp (Z.to_nat (next_slot st)) st).
Proof.
  intros Hslot.
  unfold Update_select, frame_slot, Update_selected, next_slot in *. cbn zeta.
  cbn [mFrameResources set_mCurrFrameResourceIndex UpdateCamera OnKeyboardInput
       set_mCamera set_bNoClip mCurrFrameResourceIndex set_mCurrFrameResource].
  rewrite decide_True by exact Hslot. reflexivity.
Qed.

(** What the selection does to the ring. *)
Lemma Update_select_spec inp st a :
  Update_select inp st = Some a ->
  0 <= mCurrFrameResourceIndex st < 3 ->
  mCurrFrameResourceIndex a = (mCurrFrameResourceIndex st + 1) mod 3 /\
  0 <= mCurrFrameResourceIndex a < 3 /\
  mFrameResources a = mFrameResources st /\
  mCurrentFence a = mCurrentFence st /\
  exists fr, CurrFrameResource a = Some (Z.to_nat (mCurrFrameResourceIndex a), fr).
Proof.
  intros H Hidx. apply Update_select_selected in H as [Hslot ->].
  destruct (next_slot_mod st Hidx) as [Hnext Hrange].
  change (mCurrFrameResourceIndex (Update_selected inp (Z.to_nat (next_slot st)) st))
    with (next_slot st).
  split; [exact Hnext|]. split; [exact Hrange|]. split; [reflexivity|]. split; [reflexivity|].
  destruct (lookup_lt_is_Some_2 (mFrameResources st) (Z.to_nat (next_slot st)))
    as [fr Hfr]; [lia|].
  exists fr. apply CurrFrameResource_Some. split; [reflexivity|exact Hfr].
Qed.

(** Each of the five writing calls leaves the ring as it is, but for
    the buffers of the current frame resource. *)
Lemma store_FrameResource_other p fr st q :
  q <> p -> mFrameResources (store_FrameResource p fr st) !! q = mFrameResources st !! q.
Proof. intros Hq. cbn. apply list_lookup_insert_ne. congruence. Qed.

Lemma Update_stages_effect n stage inp st st' :
  Update_stages !! n = Some stage -> stage inp st = Some st' ->
  ring_view st' = ring_view st /\ scene_view st' = scene_view st /\
  forall p fr q, CurrFrameResource st = Some (p, fr) -> q <> p ->
    mFrameResources st' !! q = mFrameResources st !! q.
Proof.
  intros Hn H.
  destruct n as [|[|[|[|[|n]]]]]; cbn in Hn; try discriminate Hn; injection Hn as <-.
  - destruct (AnimateMaterials_views _ _ _ H) as [Hr Hs]. split; [exact Hr|]. split; [exact Hs|].
    apply AnimateMaterials_effect in H as (w & _ & ->). reflexivity.
  - destruct (UpdateObjectCBs_views _ _ _ H) as [Hr Hs]. split; [exact Hr|]. split; [exact Hs|].
    apply UpdateObjectCBs_effect in H as (p' & fr' & cb & Hc & _ & ->).
    intros p fr q Hc' Hq. rewrite Hc in Hc'. injection Hc' as -> ->.
    exact (store_FrameResource_other p _ st q Hq).
  - destruct (UpdateMaterialCBs_views _ _ _ H) as [Hr Hs]. split; [exact Hr|]. split; [exact Hs|].
    apply UpdateMaterialCBs_effect in H as (p' & fr' & cb & Hc & _ & ->).
    intros p fr q Hc' Hq. rewrite Hc in Hc'. injection Hc' as -> ->.
    exact (store_FrameResource_other p _ st q Hq).
  - destruct (UpdateMainPassCB_views _ _ _ H) as [Hr Hs]. split; [exact Hr|]. split; [exact Hs|].
    apply UpdateMainPassCB_effect in H as (p' & fr' & cb & pc & Hc & _ & _ & ->).
    intros p fr q Hc' Hq. rewrite Hc in Hc'. injection Hc' as -> ->.
    exact (store_FrameResource_other p _ _ q Hq).
  - destruct (UpdateWaves_views _ _ _ H) as [Hr Hs]. split; [exact Hr|]. split; [exact Hs|].
    apply UpdateWaves_effect in H
      as (tb & waves & p' & fr' & vb & g & geo & w & ritem & _ & Hc & _ & _ & _ & _ & _ & ->).
    intros p fr q Hc' Hq. rewrite Hc in Hc'. injection Hc' as -> ->.
    exact (store_FrameResource_other p _ _ q Hq).
Qed.

(** A state with the same ring has the same current slot, with the
    same fence value. *)
Lemma CurrFrameResource_ring_fence st st' p fr :
  ring_view st' = ring_view st -> CurrFrameResource st = Some (p, fr) ->
  exists fr', CurrFrameResource st' = Some (p, fr') /\ Fence fr' = Fence fr.
Proof.
  intros Hr Hc. destruct (CurrFrameResource_ring _ _ _ _ Hr Hc) as [fr' Hc'].
  exists fr'. split; [exact Hc'|].
  apply CurrFrameResource_Some in Hc as [_ Hfr]. apply CurrFrameResource_Some in Hc' as [_ Hfr'].
  injection Hr as _ _ _ Hf _. unfold fences in Hf.
  apply (f_equal (fun l => l !! p)) in Hf.
  rewrite !list_lookup_fmap, Hfr, Hfr' in Hf. cbn in Hf. congruence.
Qed.

Lemma ring_view_fields st st' :
  ring_view st' = ring_view st ->
  mCurrFrameResourceIndex st' = mCurrFrameResourceIndex st /\
  mCurrentFence st' = mCurrentFence st /\ fences st' = fences st.
Proof. intros Hr. injection Hr as H1 _ H3 H4 _. auto. Qed.

(** What [Draw] does to the frame resources: it stamps the current one. *)
Lemma Draw_other_slots inp st st' p fr q :
  Draw inp st = Some st' -> CurrFrameResource st = Some (p, fr) -> q <> p ->
  mFrameResources st' !! q = mFrameResources st !! q.
Proof.
  unfold Draw. intros H Hc Hq.
  destruct (Draw_commands st) as [cmds|]; [|discriminate H]. cbn [mbind option_bind] in H.
  cbn zeta in H.
  match type of H with context [CurrFrameResource ?s] =>
    change (CurrFrameResource s) with (CurrFrameResource st) in H end.
  rewrite Hc in H. cbn [mbind option_bind] in H. injection H as <-.
  cbn. apply list_lookup_insert_ne. congruence.
Qed.

(** *** The invariant *)

Lemma scheduler_invariant_initial s : initial s -> scheduler_invariant s.
Proof.
  intros (Hcpu & _ & Hidx & Hf & Hgpu). unfold scheduler_invariant.
  split; [lia|]. split; [lia|]. split.
  - unfold fences. rewrite Forall_fmap. eapply Forall_impl; [|exact Hf].
    cbn. intros fr ->. lia.
  - intros Hu. congruence.
Qed.

Lemma scheduler_invariant_gpu_step s s' :
  gpu_step s s' -> scheduler_invariant s -> scheduler_invariant s'.
Proof.
  intros Hstep (Hidx & Hgpu & Hfences & Hsel). destruct Hstep as [s c Hc].
  unfold scheduler_invariant; cbn [app gpuCompleted cpu].
  split; [exact Hidx|]. split; [lia|]. split; [exact Hfences|].
  intros Hb. destruct (Hsel Hb) as (p & fr & Hcur & Hp & Hfl).
  exists p, fr. split; [exact Hcur|]. split; [exact Hp|].
  intros Hw [Hnz Hlt]. apply (Hfl Hw). split; [exact Hnz|lia].
Qed.

Lemma scheduler_invariant_cpu_step s s' :
  cpu_step s s' -> scheduler_invariant s -> scheduler_invariant s'.
Proof.
  intros Hstep (Hidx & Hgpu & Hfences & Hsel).
  destruct Hstep as [s inp a Hcpu Hs | s inp p fr Hcpu Hc Hm | s inp p fr Hcpu Hc Hm
                    | s inp p fr Hcpu Hc Hf | s inp n stage a Hcpu Hn Hs | s inp Hcpu
                    | s inp a Hcpu Hd];
    unfold scheduler_invariant; cbn [app gpuCompleted cpu].
  - (* selection *)
    destruct (Update_select_spec _ _ _ Hs Hidx) as (_ & Hrange & Hfr & Hfence & fr & Hcur).
    split; [exact Hrange|]. split; [rewrite Hfence; exact Hgpu|]. split.
    { unfold fences. rewrite Hfr, Hfence. exact Hfences. }
    intros _. exists (Z.to_nat (mCurrFrameResourceIndex a)), fr.
    split; [exact Hcur|]. split; [lia|]. intros Hw. discriminate Hw.
  - (* the test fails *)
    split; [exact Hidx|]. split; [exact Hgpu|]. split; [exact Hfences|]. intros _.
    destruct Hsel as (p' & fr' & Hc' & Hp & _); [congruence|].
    rewrite Hc in Hc'. injection Hc' as <- <-.
    exists p, fr. split; [exact Hc|]. split; [exact Hp|]. intros _ Hin.
    apply must_wait_iff in Hin. congruence.
  - (* the test succeeds *)
    split; [exact Hidx|]. split; [exact Hgpu|]. split; [exact Hfences|]. intros _.
    destruct Hsel as (p' & fr' & Hc' & Hp & _); [congruence|].
    exists p', fr'. split; [exact Hc'|]. split; [exact Hp|]. intros Hw. discriminate Hw.
  - (* the wait ends *)
    split; [exact Hidx|]. split; [exact Hgpu|]. split; [exact Hfences|]. intros _.
    destruct Hsel as (p' & fr' & Hc' & Hp & _); [congruence|].
    rewrite Hc in Hc'. injection Hc' as <- <-.
    exists p, fr. split; [exact Hc|]. split; [exact Hp|]. intros _ [_ Hlt]. lia.
  - (* one of the writing calls *)
    destruct (Update_stages_effect _ _ _ _ _ Hn Hs) as (Hr & _ & _).
    destruct (ring_view_fields _ _ Hr) as (Hi & Hcf & Hfs).
    split; [rewrite Hi; exact Hidx|]. split; [rewrite Hcf; exact Hgpu|].
    split; [rewrite Hcf, Hfs; exact Hfences|]. intros _.
    destruct Hsel as (p & fr & Hc & Hp & Hfl); [congruence|].
    destruct (CurrFrameResource_ring_fence _ _ _ _ Hr Hc) as (fr' & Hc' & Hf).
    exists p, fr'. split; [exact Hc'|]. split; [rewrite Hi; exact Hp|].
    intros _. unfold in_flight. rewrite Hf. apply Hfl. rewrite Hcpu. reflexivity.
  - (* return *)
    split; [exact Hidx|]. split; [exact Hgpu|]. split; [exact Hfences|]. intros _.
    destruct Hsel as (p & fr & Hc & Hp & Hfl); [congruence|].
    exists p, fr. split; [exact Hc|]. split; [exact Hp|].
    intros _. apply Hfl. rewrite Hcpu. reflexivity.
  - (* Draw *)
    apply Draw_spec in Hd as (p & fr & Hcur & Hr & _).
    injection Hr as H1 H2 H3 H4 _.
    split; [rewrite H1; exact Hidx|]. split; [lia|]. split.
    + rewrite H3, H4. apply Forall_insert; [|lia].
      eapply Forall_impl; [|exact Hfences]. cbn. intros f Hf. lia.
    + intros Hu. congruence.
Qed.

Lemma scheduler_invariant_step s s' :
  step s s' -> scheduler_invariant s -> scheduler_invariant s'.
Proof.
  intros [H|H]; [apply scheduler_invariant_cpu_step|apply scheduler_invariant_gpu_step]; exact H.
Qed.

Lemma reachable_invariant s : reachable s -> scheduler_invariant s.
Proof.
  induction 1 as [s Hinit | s s' _ IH Hstep].
  - by apply scheduler_invariant_initial.
  - by eapply scheduler_invariant_step.
Qed.

Lemma reachable_rtc s s' : reachable s -> rtc step s s' -> reachable s'.
Proof.
  intros Hr Hs. induction Hs as [|s s1 s' Hstep _ IH]; [exact Hr|].
  apply IH. exact (reachable_step _ _ Hr Hstep).
Qed.

(** *** Safety of the steps *)

(** A frame resource that a step of the CPU changes is the current
    one, in a phase in which the CPU writes. *)
Lemma cpu_step_changes s s' q fr :
  cpu_step s s' ->
  mFrameResources (app s) !! q = Some fr -> mFrameResources (app s') !! q <> Some fr ->
  writing (cpu s) = true /\
  exists fr', CurrFrameResource (app s) = Some (q, fr').
Proof.
  intros Hstep Hq Hne.
  destruct Hstep as [s inp a Hcpu Hs | s inp p fr0 Hcpu Hc Hm | s inp p fr0 Hcpu Hc Hm
                    | s inp p fr0 Hcpu Hc Hf | s inp n stage a Hcpu Hn Hs | s inp Hcpu
                    | s inp a Hcpu Hd];
    cbn [app gpuCompleted cpu] in Hne; try (exfalso; apply Hne; exact Hq).
  - exfalso. apply Hne. apply Update_select_selected in Hs as [_ ->]. exact Hq.
  - split; [rewrite Hcpu; reflexivity|].
    destruct (Update_stages_effect _ _ _ _ _ Hn Hs) as (_ & _ & Ho).
    destruct (CurrFrameResource (app s)) as [[p fr0]|] eqn:Hc.
    + destruct (decide (q = p)) as [->|Hqp]; [by exists fr0|].
      exfalso. apply Hne. rewrite (Ho p fr0 q eq_refl Hqp). exact Hq.
    + exfalso.
      destruct n as [|[|[|[|[|n]]]]]; cbn in Hn; try discriminate Hn; injection Hn as <-.
      * apply AnimateMaterials_effect in Hs as (w & _ & ->). apply Hne. exact Hq.
      * apply UpdateObjectCBs_effect in Hs as (? & ? & ? & Hc' & _). congruence.
      * apply UpdateMaterialCBs_effect in Hs as (? & ? & ? & Hc' & _). congruence.
      * apply UpdateMainPassCB_effect in Hs as (? & ? & ? & ? & Hc' & _). congruence.
      * apply UpdateWaves_effect in Hs
          as (? & ? & ? & ? & ? & ? & ? & ? & ? & _ & Hc' & _). congruence.
  - split; [rewrite Hcpu; reflexivity|].
    destruct (Draw_spec _ _ _ Hd) as (p & fr0 & Hc & _).
    destruct (decide (q = p)) as [->|Hqp]; [by exists fr0|].
    exfalso. apply Hne. rewrite (Draw_other_slots _ _ _ _ _ _ Hd Hc Hqp). exact Hq.
Qed.

(** *** [Update] as a run of steps *)

Lemma Update_stages_run s inp st a c :
  cpu s = Writing inp 0 -> app s = st -> gpuCompleted s = c ->
  Update_writes inp st = Some a ->
  rtc step s {| app := a; gpuCompleted := c; cpu := Updated |}.
Proof.
  intros Hcpu <- <- H. unfold Update_writes in H.
  destruct (AnimateMaterials inp (app s)) as [s1|] eqn:H1; [|discriminate H].
  cbn [mbind option_bind] in H.
  destruct (UpdateObjectCBs inp s1) as [s2|] eqn:H2; [|discriminate H].
  cbn [mbind option_bind] in H.
  destruct (UpdateMaterialCBs inp s2) as [s3|] eqn:H3; [|discriminate H].
  cbn [mbind option_bind] in H.
  destruct (UpdateMainPassCB inp s3) as [s4|] eqn:H4; [|discriminate H].
  cbn [mbind option_bind] in H.
  eapply rtc_l; [left; exact (step_stage s inp 0 AnimateMaterials s1 Hcpu eq_refl H1)|].
  eapply rtc_l.
  { left. apply (step_stage _ inp 1 UpdateObjectCBs s2); [reflexivity|reflexivity|exact H2]. }
  eapply rtc_l.
  { left. apply (step_stage _ inp 2 UpdateMaterialCBs s3); [reflexivity|reflexivity|exact H3]. }
  eapply rtc_l.
  { left. apply (step_stage _ inp 3 UpdateMainPassCB s4); [reflexivity|reflexivity|exact H4]. }
  eapply rtc_l.
  { left. apply (step_stage _ inp 4 UpdateWaves a); [reflexivity|reflexivity|exact H]. }
  apply rtc_once. left.
  exact (step_return {| app := a; gpuCompleted := gpuCompleted s; cpu := Writing inp 5 |}
           inp eq_refl).
Qed.

(** A call of [Update] is a run of steps: selection, test, the wait
    when the test asks for it, which ends when the GPU reaches the
    fence point, then the five writing calls. *)
Lemma Update_run s inp a waited :
  scheduler_invariant s -> cpu s = BetweenFrames ->
  CompletedValue inp = gpuCompleted s ->
  Update inp (app s) = Some (a, waited) ->
  rtc step s {| app := a; gpuCompleted := default (gpuCompleted s) waited; cpu := Updated |}.
Proof.
  intros (Hidx & Hgpu & Hfences & _) Hcpu Hcv H. rewrite Update_unfold in H.
  case_decide as Hslot; [|discriminate H].
  destruct (mFrameResources (app s) !! _) as [fr|] eqn:Hfr; [|discriminate H].
  cbn [mbind option_bind] in H.
  set (p := Z.to_nat (next_slot (app s))) in *.
  set (sel := Update_selected inp p (app s)) in *.
  destruct (Update_writes inp sel) as [a'|] eqn:Hw; [|discriminate H].
  cbn [mbind option_bind] in H. injection H as <- <-.
  assert (Hc : CurrFrameResource sel = Some (p, fr)).
  { apply CurrFrameResource_Some. split; [reflexivity|exact Hfr]. }
  eapply rtc_l.
  { left. apply (step_select s inp sel Hcpu). apply Update_select_is_Some. exact Hslot. }
  rewrite Hcv. destruct (must_wait fr (gpuCompleted s)) eqn:Hm.
  - (* the call waits *)
    assert (Hin : in_flight fr (gpuCompleted s)) by (apply must_wait_iff; exact Hm).
    assert (Hle : Fence fr <= mCurrentFence (app s)).
    { rewrite Forall_lookup in Hfences. apply (Hfences p).
      unfold fences. rewrite list_lookup_fmap, Hfr. reflexivity. }
    eapply rtc_l; [left; apply (step_block _ inp p fr); [reflexivity|exact Hc|exact Hm]|].
    eapply rtc_l.
    { right. apply (step_gpu _ (Fence fr)). cbn. destruct Hin as [_ Hlt].
      change (mCurrentFence sel) with (mCurrentFence (app s)). lia. }
    eapply rtc_l.
    { left. apply (step_wake _ inp p fr); [reflexivity|exact Hc|cbn; lia]. }
    apply (Update_stages_run _ inp sel); [reflexivity|reflexivity|reflexivity|exact Hw].
  - (* the call does not wait *)
    eapply rtc_l; [left; apply (step_pass _ inp p fr); [reflexivity|exact Hc|exact Hm]|].
    apply (Update_stages_run _ inp sel); [reflexivity|reflexivity|reflexivity|exact Hw].
Qed.

(** A whole frame whose [Update] does not wait. *)
Lemma frame_reachable s inp a a' :
  reachable s -> cpu s = BetweenFrames ->
  CompletedValue inp = gpuCompleted s ->
  Update inp (app s) = Some (a, None) -> Draw inp a = Some a' ->
  reachable {| app := a'; gpuCompleted := gpuCompleted s; cpu := BetweenFrames |}.
Proof.
  intros Hr Hcpu Hcv Hu Hd.
  pose proof (Update_run s inp a None (reachable_invariant s Hr) Hcpu Hcv Hu) as Hrun.
  apply (reachable_rtc _ _ Hr) in Hrun.
  apply (reachable_step _ _ Hrun). left.
  exact (step_Draw {| app := a; gpuCompleted := gpuCompleted s; cpu := Updated |} inp a'
           eq_refl Hd).
Qed.

(** C1.  In every reachable state of the step relation of [Update],
    [Draw] and the GPU:
    - the first step of a frame selects the slot
      [(previous slot + 1) mod 3] and leaves the frame resources as
      they are;
    - the next step tests the fence of that slot and writes nothing:
      the CPU blocks if and only if the recorded fence value is
      non-zero and the completed value of the fence is less than it;
    - a blocked CPU waits for a fence point that has been signalled,
      so that the GPU can reach it, and takes no step before the
      completed value has reached the fence value; the step it then
      takes writes nothing;
    - while the CPU writes, from the end of the test or of the wait to
      the end of [Draw], the current frame resource is the slot of the
      ring index and has no commands in flight;
    - a frame resource that a step of the CPU changes is that slot, the
      CPU is in a phase in which it writes, and the frame resource has
      no commands in flight;
    - in a well-formed scene a call of [Update] runs to its end: there
      is a run of steps to the state it returns. *)
Theorem frame_scheduler_waits_for_slot (s : Sys) :
  reachable s ->
  (forall s', cpu s = BetweenFrames -> cpu_step s s' ->
     exists inp p fr,
       cpu s' = Selected inp /\
       mCurrFrameResourceIndex (app s') = (mCurrFrameResourceIndex (app s) + 1) mod 3 /\
       CurrFrameResource (app s') = Some (p, fr) /\
       Z.of_nat p = mCurrFrameResourceIndex (app s') /\
       mFrameResources (app s') = mFrameResources (app s))
  /\ (forall inp s', cpu s = Selected inp -> cpu_step s s' ->
     exists p fr,
       CurrFrameResource (app s) = Some (p, fr) /\
       app s' = app s /\
       (cpu s' = Waiting inp \/ cpu s' = Writing inp 0) /\
       (cpu s' = Waiting inp <-> Fence fr <> 0 /\ gpuCompleted s < Fence fr))
  /\ (forall inp, cpu s = Waiting inp ->
     exists p fr,
       CurrFrameResource (app s) = Some (p, fr) /\
       Fence fr <= mCurrentFence (app s) /\
       forall s', cpu_step s s' ->
         Fence fr <= gpuCompleted s /\ app s' = app s /\ cpu s' = Writing inp 0)
  /\ (writing (cpu s) = true ->
     exists p fr,
       CurrFrameResource (app s) = Some (p, fr) /\
       Z.of_nat p = mCurrFrameResourceIndex (app s) /\
       ~ in_flight fr (gpuCompleted s))
  /\ (forall s' q fr, cpu_step s s' ->
     mFrameResources (app s) !! q = Some fr ->
     mFrameResources (app s') !! q <> Some fr ->
     writing (cpu s) = true /\
     Z.of_nat q = mCurrFrameResourceIndex (app s) /\
     ~ in_flight fr (gpuCompleted s))
  /\ (forall inp, cpu s = BetweenFrames -> well_formed (app s) ->
     CompletedValue inp = gpuCompleted s ->
     exists a waited s',
       Update inp (app s) = Some (a, waited) /\
       rtc step s s' /\ app s' = a /\ cpu s' = Updated).
Proof.
  intros Hreach. pose proof (reachable_invariant s Hreach) as Hinv.
  destruct Hinv as (Hidx & Hgpu & Hfences & Hsel).
  split; [|split; [|split; [|split; [|split]]]].
  - (* selection *)
    intros s' Hcpu Hstep.
    destruct Hstep as [s inp a _ Hs | s inp p fr Hc' | s inp p fr Hc' | s inp p fr Hc'
                      | s inp n stage a Hc' | s inp Hc' | s inp a Hc']; try congruence.
    destruct (Update_select_spec _ _ _ Hs Hidx) as (Hnext & Hrange & Hfr & _ & fr & Hcur).
    exists inp, (Z.to_nat (mCurrFrameResourceIndex a)), fr. cbn [app cpu].
    split; [reflexivity|]. split; [exact Hnext|]. split; [exact Hcur|].
    split; [lia|exact Hfr].
  - (* the test *)
    intros inp s' Hcpu Hstep.
    destruct Hstep as [s inp' a Hc' | s inp' p fr Hc' Hc Hm | s inp' p fr Hc' Hc Hm
                      | s inp' p fr Hc' | s inp' n stage a Hc' | s inp' Hc' | s inp' a Hc'];
      try congruence.
    + assert (inp' = inp) as -> by congruence.
      exists p, fr. cbn [app cpu gpuCompleted]. split; [exact Hc|]. split; [reflexivity|].
      split; [right; reflexivity|]. split; [intros H; discriminate H|].
      intros Hin. apply must_wait_iff in Hin. congruence.
    + assert (inp' = inp) as -> by congruence.
      exists p, fr. cbn [app cpu gpuCompleted]. split; [exact Hc|]. split; [reflexivity|].
      split; [left; reflexivity|]. split; [|reflexivity].
      intros _. apply must_wait_iff. exact Hm.
  - (* the wait *)
    intros inp Hcpu. destruct Hsel as (p & fr & Hc & _); [congruence|].
    exists p, fr. split; [exact Hc|]. split.
    { apply CurrFrameResource_Some in Hc as [_ Hfr].
      rewrite Forall_lookup in Hfences. apply (Hfences p).
      unfold fences. rewrite list_lookup_fmap, Hfr. reflexivity. }
    intros s' Hstep.
    destruct Hstep as [s inp' a Hc' | s inp' p' fr' Hc' | s inp' p' fr' Hc'
                      | s inp' p' fr' Hc' Hcur Hle | s inp' n stage a Hc' | s inp' Hc'
                      | s inp' a Hc']; try congruence.
    assert (inp' = inp) as -> by congruence.
    rewrite Hc in Hcur. injection Hcur as <- <-. cbn [app cpu].
    split; [exact Hle|]. split; reflexivity.
  - (* while the CPU writes *)
    intros Hw. destruct Hsel as (p & fr & Hc & Hp & Hfl).
    { intros Hb. rewrite Hb in Hw. discriminate Hw. }
    exists p, fr. split; [exact Hc|]. split; [exact Hp|]. exact (Hfl Hw).
  - (* the frame resources a step changes *)
    intros s' q fr Hstep Hq Hne.
    destruct (cpu_step_changes _ _ _ _ Hstep Hq Hne) as (Hw & fr' & Hc).
    split; [exact Hw|].
    destruct Hsel as (p & fr0 & Hc0 & Hp & Hfl).
    { intros Hb. rewrite Hb in Hw. discriminate Hw. }
    rewrite Hc in Hc0. injection Hc0 as <- <-.
    apply CurrFrameResource_Some in Hc as [_ Hfr].
    assert (fr' = fr) as -> by congruence.
    split; [exact Hp|exact (Hfl Hw)].
  - (* progress *)
    intros inp Hcpu Hwf Hcv.
    destruct (Update_is_Some inp (app s) Hwf Hidx) as (a & waited & Hu).
    exists a, waited, {| app := a; gpuCompleted := default (gpuCompleted s) waited;
                         cpu := Updated |}.
    split; [exact Hu|]. split; [|split; reflexivity].
    apply (Update_run s inp a waited); [|exact Hcpu|exact Hcv|exact Hu].
    split; [exact Hidx|]. split; [exact Hgpu|]. split; [exact Hfences|exact Hsel].
Qed.

(** Entering the wait, from a state between two frames. *)
Lemma waiting_reachable s inp a p fr :
  reachable s -> cpu s = BetweenFrames ->
  Update_select inp (app s) = Some a ->
  CurrFrameResource a = Some (p, fr) -> must_wait fr (gpuCompleted s) = true ->
  reachable {| app := a; gpuCompleted := gpuCompleted s; cpu := Waiting inp |}.
Proof.
  intros Hr Hcpu Hsel Hc Hm.
  pose proof (reachable_step _ _ Hr (or_introl (step_select s inp a Hcpu Hsel))) as H1.
  apply (reachable_step _ _ H1). left.
  exact (step_block {| app := a; gpuCompleted := gpuCompleted s; cpu := Selected inp |}
           inp p fr eq_refl Hc Hm).
Qed.

(** *** The scenario up to its first wait *)

Lemma scenario_initial :
  initial {| app := scenario_app; gpuCompleted := 0; cpu := BetweenFrames |}.
Proof.
  vm_compute. repeat split; try reflexivity; try (intro X; discriminate X).
  repeat constructor.
Qed.

(** The first three frames do not wait: their slots carry no fence
    point yet. *)
Lemma scenario_frame_1 :
  Update (sample_input 0 0) scenario_app
  = Some (default scenario_app (fst <$> Update (sample_input 0 0) scenario_app), None) /\
  Draw (sample_input 0 0)
    (default scenario_app (fst <$> Update (sample_input 0 0) scenario_app))
  = Some (scenario_after [sample_input 0 0]).
Proof. split; vm_compute; reflexivity. Qed.

Lemma scenario_frame_2 :
  Update (sample_input (1 # 60) 0) (scenario_after [sample_input 0 0])
  = Some (default scenario_app
            (fst <$> Update (sample_input (1 # 60) 0) (scenario_after [sample_input 0 0])),
          None) /\
  Draw (sample_input (1 # 60) 0)
    (default scenario_app
       (fst <$> Update (sample_input (1 # 60) 0) (scenario_after [sample_input 0 0])))
  = Some (scenario_after [sample_input 0 0; sample_input (1 # 60) 0]).
Proof. split; vm_compute; reflexivity. Qed.

Lemma scenario_frame_3 :
  Update (sample_input (2 # 60) 0)
    (scenario_after [sample_input 0 0; sample_input (1 # 60) 0])
  = Some (default scenario_app
            (fst <$> Update (sample_input (2 # 60) 0)
                       (scenario_after [sample_input 0 0; sample_input (1 # 60) 0])),
          None) /\
  Draw (sample_input (2 # 60) 0)
    (default scenario_app
       (fst <$> Update (sample_input (2 # 60) 0)
                  (scenario_after [sample_input 0 0; sample_input (1 # 60) 0])))
  = Some (scenario_after scenario_frames).
Proof. split; vm_compute; reflexivity. Qed.

(** The fourth frame selects slot 1 again, which carries the fence
    point of the first frame. *)
Lemma scenario_frame_4 :
  Update_select (sample_input (3 # 60) 0) (scenario_after scenario_frames)
  = Some scenario_waiting /\
  match CurrFrameResource scenario_waiting with
  | Some (p, fr) => (p, Fence fr)
  | None => (0%nat, 0)
  end = (1%nat, 1).
Proof. split; vm_compute; reflexivity. Qed.

(** The scenario in its fourth frame, the GPU having completed
    nothing: [Update] has selected slot 1 again, whose commands of the
    first frame carry the fence point 1, and the CPU is blocked. *)
Lemma frame_scheduler_waits_for_slot_witness :
  reachable scenario_sys_waiting /\
  exists p fr,
    CurrFrameResource scenario_waiting = Some (p, fr) /\
    p = 1%nat /\ Fence fr = 1 /\
    Fence fr <= mCurrentFence scenario_waiting /\
    forall s', ~ cpu_step scenario_sys_waiting s'.
Proof.
  unfold scenario_sys_waiting.
  pose proof scenario_initial as Hinit.
  destruct scenario_frame_1 as [HU1 HD1]. destruct scenario_frame_2 as [HU2 HD2].
  destruct scenario_frame_3 as [HU3 HD3]. destruct scenario_frame_4 as [Hsel Hcur].
  revert Hinit HU1 HD1 HU2 HD2 HU3 HD3 Hsel Hcur.
  generalize scenario_waiting. intros A4.
  generalize (scenario_after scenario_frames). intros A3.
  generalize (default scenario_app
                (fst <$> Update (sample_input (2 # 60) 0)
                           (scenario_after [sample_input 0 0; sample_input (1 # 60) 0]))).
  intros U3.
  generalize (scenario_after [sample_input 0 0; sample_input (1 # 60) 0]). intros A2.
  generalize (default scenario_app
                (fst <$> Update (sample_input (1 # 60) 0) (scenario_after [sample_input 0 0]))).
  intros U2.
  generalize (scenario_after [sample_input 0 0]). intros A1.
  generalize (default scenario_app (fst <$> Update (sample_input 0 0) scenario_app)).
  intros U1.
  generalize scenario_app. intros A0.
  set (i1 := sample_input 0 0). set (i2 := sample_input (1 # 60) 0).
  set (i3 := sample_input (2 # 60) 0). set (i4 := sample_input (3 # 60) 0).
  intros Hinit HU1 HD1 HU2 HD2 HU3 HD3 Hsel Hcur.
  destruct (CurrFrameResource A4) as [[p fr]|] eqn:Hc; [|discriminate Hcur].
  injection Hcur as Hp Hf.
  assert (Hm : must_wait fr 0 = true) by (unfold must_wait; rewrite Hf; reflexivity).
  pose proof (reachable_initial _ Hinit) as H0.
  pose proof (frame_reachable _ i1 U1 A1 H0 eq_refl eq_refl HU1 HD1) as H1.
  pose proof (frame_reachable _ i2 U2 A2 H1 eq_refl eq_refl HU2 HD2) as H2.
  pose proof (frame_reachable _ i3 U3 A3 H2 eq_refl eq_refl HU3 HD3) as H3.
  pose proof (waiting_reachable _ i4 A4 p fr H3 eq_refl Hsel Hc Hm) as Hr.
  cbn [gpuCompleted] in Hr.
  split; [exact Hr|].
  destruct (frame_scheduler_waits_for_slot _ Hr) as (_ & _ & Hwait & _).
  destruct (Hwait i4 eq_refl) as (p' & fr' & Hc' & Hle & Hblocked).
  cbn [app gpuCompleted] in Hc', Hle, Hblocked.
  rewrite Hc in Hc'. injection Hc' as <- <-.
  exists p, fr. split; [reflexivity|]. split; [exact Hp|]. split; [exact Hf|].
  split; [exact Hle|].
  intros s' Hstep. destruct (Hblocked s' Hstep) as [Hge _]. lia.
Defined.

End FrameScheduler.
(* ================================================================== *)
(** ** Facts about the scenario *)

Section Scenario.

Lemma scenario_counters_in_range : counters_in_range scenario_app.
Proof.
  split.
  - repeat constructor; vm_compute; intros X; discriminate X.
  - intros name mat H. change (mMaterials scenario_app) with
      ({[ "water" := scenario_water ]} : gmap string Material.t) in H.
    apply lookup_singleton_Some in H as [_ <-]. vm_compute.
    split; intros X; discriminate X.
Qed.

Lemma scenario_slots_distinct : slots_distinct (mMaterials scenario_app).
Proof.
  intros n1 n2 m1 m2 H1 H2 _.
  change (mMaterials scenario_app) with
    ({[ "water" := scenario_water ]} : gmap string Material.t) in H1, H2.
  apply lookup_singleton_Some in H1 as [<- _].
  by apply lookup_singleton_Some in H2 as [<- _].
Qed.

Lemma scenario_NoDup : NoDup (RenderItem.ObjCBIndex <$> mAllRitems scenario_app).
Proof.
  change (NoDup [0; 1]). apply NoDup_cons_2.
  - intros H. apply list_elem_of_singleton in H. discriminate H.
  - apply NoDup_singleton.
Qed.

(** Nothing is asked of a scene just built: every counter is 3. *)
Lemma scenario_objects_synced : objects_synced scenario_app.
Proof.
  intros e k cb He Hk _. exfalso.
  change (mAllRitems scenario_app) with scenario_items in He.
  unfold scenario_items in He.
  apply elem_of_cons in He as [->|He]; [cbn in Hk; lia|].
  apply list_elem_of_singleton in He as ->. cbn in Hk. lia.
Qed.

Lemma scenario_materials_synced : materials_synced scenario_app.
Proof.
  intros name mat k cb H Hk _. exfalso.
  change (mMaterials scenario_app) with
    ({[ "water" := scenario_water ]} : gmap string Material.t) in H.
  apply lookup_singleton_Some in H as [_ <-]. cbn in Hk. lia.
Qed.

Lemma scenario_three_frames :
  exists st', run_frames three_frames scenario_app = Some (st', [(1, 1); (2, 2); (0, 3)]).
Proof.
  destruct (run_frames_spec three_frames scenario_app scenario_well_formed)
    as (st' & Hrun & _); [cbn; lia|].
  exists st'. exact Hrun.
Qed.

Lemma scenario_updated_Update :
  Update (sample_input 0 0) scenario_app = Some (scenario_updated, None).
Proof. vm_compute. reflexivity. Qed.

Lemma scenario_updated_views :
  ring_view scenario_updated
  = (1, Some 1%nat, 0, [0; 0; 0], capacities <$> mFrameResources scenario_app) /\
  scene_view scenario_updated = scene_view scenario_app.
Proof.
  destruct (Update_spec _ _ _ _ scenario_updated_Update) as (_ & _ & Hr & Hs).
  split; [exact Hr|exact Hs].
Qed.

(** The slots of the items and of the materials are part of the
    scene view. *)
Lemma scene_view_indices st st' b :
  scene_view st' = scene_view st ->
  Forall (fun e => 0 <= RenderItem.ObjCBIndex e < b) (mAllRitems st) ->
  map_Forall (fun _ m => 0 <= Material.MatCBIndex m < b) (mMaterials st) ->
  Forall (fun e => 0 <= RenderItem.ObjCBIndex e < b) (mAllRitems st') /\
  map_Forall (fun _ m => 0 <= Material.MatCBIndex m < b) (mMaterials st').
Proof.
  unfold scene_view. intros Hs Hitems Hmats. injection Hs as Hrefs _ _ Hslots _ _ _. split.
  - apply list.Forall_forall. intros e He.
    assert (Hi : ritem_refs e ∈ ritem_refs <$> mAllRitems st).
    { rewrite <- Hrefs. apply list_elem_of_fmap. by exists e. }
    apply list_elem_of_fmap in Hi as (e0 & Heq & He0).
    rewrite list.Forall_forall in Hitems. specialize (Hitems e0 He0). cbn in Hitems.
    unfold ritem_refs in Heq. injection Heq as -> _ _. exact Hitems.
  - intros name mat Hm.
    assert (Hi : (Material.MatCBIndex <$> mMaterials st') !! name
                 = Some (Material.MatCBIndex mat)) by (by rewrite lookup_fmap, Hm).
    rewrite Hslots, lookup_fmap in Hi.
    destruct (mMaterials st !! name) as [m0|] eqn:Hm0; [|done].
    cbn in Hi. injection Hi as <-. exact (Hmats name m0 Hm0).
Qed.

Lemma ring_view_current st i p f fs caps :
  ring_view st = (i, Some p, f, fs, caps) -> (p < length caps)%nat ->
  exists fr, CurrFrameResource st = Some (p, fr).
Proof.
  unfold ring_view. intros Hr Hp. injection Hr as _ Hcur _ _ Hcap.
  destruct (lookup_lt_is_Some_2 (mFrameResources st) p) as [fr Hfr].
  { by rewrite <- (length_fmap capacities), Hcap. }
  exists fr. by apply CurrFrameResource_Some.
Qed.

Lemma scenario_indices :
  Forall (fun e => 0 <= RenderItem.ObjCBIndex e < 2 ^ 24) (mAllRitems scenario_app) /\
  map_Forall (fun _ m => 0 <= Material.MatCBIndex m < 2 ^ 24) (mMaterials scenario_app).
Proof.
  split.
  - repeat constructor; vm_compute; intros X; discriminate X.
  - intros name mat H. change (mMaterials scenario_app) with
      ({[ "water" := scenario_water ]} : gmap string Material.t) in H.
    apply lookup_singleton_Some in H as [_ <-]. vm_compute.
    split; [intros X; discriminate X|reflexivity].
Qed.

Lemma scenario_updated_indices :
  Forall (fun e => 0 <= RenderItem.ObjCBIndex e < 2 ^ 24) (mAllRitems scenario_updated) /\
  map_Forall (fun _ m => 0 <= Material.MatCBIndex m < 2 ^ 24) (mMaterials scenario_updated).
Proof.
  destruct scenario_updated_views as [_ Hs]. destruct scenario_indices as [Hi Hm].
  exact (scene_view_indices _ _ _ Hs Hi Hm).
Qed.

Lemma scenario_updated_current :
  exists fr, CurrFrameResource scenario_updated = Some (1%nat, fr).
Proof.
  destruct scenario_updated_views as [Hr _].
  apply (ring_view_current _ _ _ _ _ _ Hr). rewrite length_fmap.
  change (length (mFrameResources scenario_app)) with 3%nat. lia.
Qed.

End Scenario.
(* ================================================================== *)
(** ** The keyboard *)

Section Input.

(** X2: the keys of one frame. [OnKeyboardInput] sets [bNoClip] when
    key 1 is down and clears it when key 2 is down, key 2 winning when
    both are; it asks the camera to walk by 50 units per second forward
    for W and backward for S, to strafe likewise right for D and left
    for A, so that opposite keys cancel; it ends with a single
    [UpdateViewMatrix] and never turns the camera. A mouse move with the
    left button held that follows pitches the camera exactly when the
    flag is then set. *)
Theorem OnKeyboardInput_keys (inp : FrameInput) (st : App) :
  let st' := OnKeyboardInput inp st in
  bNoClip st' = ((bNoClip st || key1 inp) && negb (key2 inp)) /\
  (exists moves,
     mCamera st' = mCamera st ++ moves ++ [UpdateViewMatrix] /\
     (UpdateViewMatrix ∉ moves) /\
     (total walk_of moves
        == 50 * DeltaTime (gt inp) * (pressed (keyW inp) - pressed (keyS inp)))%Q /\
     (total strafe_of moves
        == 50 * DeltaTime (gt inp) * (pressed (keyD inp) - pressed (keyA inp)))%Q /\
     (total yaw_of moves == 0)%Q /\ (total pitch_of moves == 0)%Q) /\
  mLastMousePos st' = mLastMousePos st /\
  forall btnState x y, Z.land btnState MK_LBUTTON <> 0 ->
    mCamera (OnMouseMove btnState x y st')
    = mCamera st'
      ++ (if (bNoClip st || key1 inp) && negb (key2 inp) then [Pitch (mouse_dy st y)] else [])
      ++ [RotateY (mouse_dx st x)].
Proof.
  cbn zeta. unfold OnKeyboardInput.
  cbn [bNoClip mCamera mLastMousePos set_mCamera set_bNoClip].
  split; [|split; [|split]].
  - destruct (bNoClip st), (key1 inp), (key2 inp); reflexivity.
  - exists ((if keyW inp then [Walk (50 * DeltaTime (gt inp))%Q] else [])
            ++ (if keyS inp then [Walk (- (50) * DeltaTime (gt inp))%Q] else [])
            ++ (if keyA inp then [Strafe (- (50) * DeltaTime (gt inp))%Q] else [])
            ++ (if keyD inp then [Strafe (50 * DeltaTime (gt inp))%Q] else [])).
    split; [|split].
    + destruct (keyW inp), (keyS inp), (keyA inp), (keyD inp); cbn;
        rewrite <- ?app_assoc; cbn; rewrite ?app_nil_r; reflexivity.
    + destruct (keyW inp), (keyS inp), (keyA inp), (keyD inp); cbn;
        intros H; repeat (apply elem_of_cons in H as [H|H]; [discriminate H|]);
        by apply elem_of_nil in H.
    + destruct (keyW inp), (keyS inp), (keyA inp), (keyD inp); cbn;
        repeat split; ring.
  - reflexivity.
  - intros btnState x y Hbtn. unfold OnMouseMove, mouse_dx, mouse_dy.
    destruct (Z.land btnState MK_LBUTTON =? 0) eqn:E; [apply Z.eqb_eq in E; done|].
    cbn [negb mCamera set_mCamera set_mLastMousePos bNoClip set_bNoClip mLastMousePos].
    destruct (bNoClip st), (key1 inp), (key2 inp); cbn [orb andb negb];
      rewrite <- ?app_assoc; reflexivity.
Qed.

(** Key 1 enables the pitch, key 2 wins over it. *)
Lemma OnKeyboardInput_keys_witness :
  Z.land 1 MK_LBUTTON <> 0 /\
  mCamera (OnMouseMove 1 10 20
             (OnKeyboardInput
                {| gt := {| DeltaTime := 1 # 60; TotalTime := 0 |};
                   keyW := true; keyS := true; keyA := false; keyD := false;
                   key1 := true; key2 := false;
                   CompletedValue := 0; rand_row := 0; rand_col := 0;
                   rand_magnitude := 0;
                   WavesPosition := fun _ => (0, 0, 0)%Q;
                   WavesNormal := fun _ => (0, 1, 0)%Q |} new_App))
  = [Walk (50 * (1 # 60)); Walk (- (50) * (1 # 60)); UpdateViewMatrix;
     Pitch (mouse_dy new_App 20); RotateY (mouse_dx new_App 10)].
Proof.
  split; [vm_compute; intros X; discriminate X|].
  rewrite (proj2 (proj2 (proj2 (OnKeyboardInput_keys _ new_App))) 1 10 20)
    by (vm_compute; intros X; discriminate X).
  reflexivity.
Defined.

End Input.
(* ================================================================== *)
(** ** What the update stage stores in the constant buffers *)

Section ConstantBuffers.

Lemma CopyData_Elements {T} i (x : T) b b' :
  CopyData i x b = Some b' -> Elements b' = <[i := x]> (Elements b).
Proof. unfold CopyData. case_decide; [|done]. by intros [= <-]. Qed.

Lemma object_writes_cons e items m :
  object_writes (e :: items) m
  = object_writes items
      (if 0 <? RenderItem.NumFramesDirty e
       then <[RenderItem.ObjCBIndex e := object_constants e]> m else m).
Proof. reflexivity. Qed.

Lemma UpdateObjectCBs_loop_elements items : forall cb cb' items',
  UpdateObjectCBs_loop cb items = Some (cb', items') ->
  Elements cb' = object_writes items (Elements cb).
Proof.
  induction items as [|e items IH]; intros cb cb' items' H.
  - cbn in H. by injection H as <- <-.
  - cbn [UpdateObjectCBs_loop] in H.
    destruct (UpdateObjectCB_item cb e) as [[cb1 e1]|] eqn:He; [|done]. cbn in H.
    destruct (UpdateObjectCBs_loop cb1 items) as [[cb2 rest]|] eqn:Hl; [|done]. cbn in H.
    injection H as <- <-. rewrite (IH _ _ _ Hl), object_writes_cons.
    f_equal. unfold UpdateObjectCB_item in He.
    destruct (0 <? RenderItem.NumFramesDirty e).
    + cbn zeta in He. destruct (CopyData _ _ cb) as [c|] eqn:Hc; cbn in He; [|done].
      injection He as <- _. by apply CopyData_Elements in Hc.
    + by injection He as <- _.
Qed.

(** A slot no dirty item owns keeps its content. *)
Lemma object_writes_lookup_clean items : forall m i,
  (forall e, e ∈ items -> 0 < RenderItem.NumFramesDirty e -> RenderItem.ObjCBIndex e <> i) ->
  object_writes items m !! i = m !! i.
Proof.
  induction items as [|e items IH]; intros m i H; [done|].
  rewrite object_writes_cons.
  rewrite IH by (intros e' He'; apply H; by right).
  destruct (0 <? RenderItem.NumFramesDirty e) eqn:E; [|done].
  apply Z.ltb_lt in E. rewrite lookup_insert_ne; [done|]. apply H; [by left|done].
Qed.

(** The slot of a dirty item holds its constants, when no other item
    shares the slot. *)
Lemma object_writes_lookup_dirty items : forall m e,
  NoDup (RenderItem.ObjCBIndex <$> items) ->
  e ∈ items -> 0 < RenderItem.NumFramesDirty e ->
  object_writes items m !! RenderItem.ObjCBIndex e = Some (object_constants e).
Proof.
  induction items as [|e0 items IH]; intros m e Hnd He Hdirty.
  - by apply elem_of_nil in He.
  - cbn in Hnd. pose proof (NoDup_cons_1_1 _ _ Hnd) as Hfresh.
    apply NoDup_cons_1_2 in Hnd.
    rewrite object_writes_cons.
    apply elem_of_cons in He as [->|He].
    + rewrite object_writes_lookup_clean.
      * apply Z.ltb_lt in Hdirty. rewrite Hdirty. apply lookup_insert_eq.
      * intros e' He' _ Heq. apply Hfresh. rewrite <- Heq.
        apply list_elem_of_fmap. by exists e'.
    + by apply IH.
Qed.

(** [UpdateObjectCBs], exactly. *)
Lemma UpdateObjectCBs_exact inp st st' :
  UpdateObjectCBs inp st = Some st' ->
  exists p fr cb,
    CurrFrameResource st = Some (p, fr) /\
    Elements cb = object_writes (mAllRitems st) (Elements (ObjectCB fr)) /\
    ElementCount cb = ElementCount (ObjectCB fr) /\
    st' = set_mAllRitems (tick_ritem <$> mAllRitems st)
            (store_FrameResource p (set_ObjectCB cb fr) st).
Proof.
  unfold UpdateObjectCBs. intros H.
  destruct (CurrFrameResource st) as [[p fr]|] eqn:Hc; [|done]. cbn in H.
  destruct (UpdateObjectCBs_loop _ _) as [[cb items]|] eqn:Hl; [|done]. cbn in H.
  injection H as <-. exists p, fr, cb. split; [done|].
  split; [by eapply UpdateObjectCBs_loop_elements|].
  apply UpdateObjectCBs_loop_items in Hl as [-> Hcount]. done.
Qed.

(** X3: one call of [UpdateObjectCBs] writes into the object-constant
    buffer of the current frame resource and into no other buffer.
    When the items have distinct slots, the slot of every item with a
    positive counter then holds the transposed [World] and
    [TexTransform] of the item, and every slot that belongs to no such
    item keeps its content: a clean item is skipped. *)
Theorem UpdateObjectCBs_writes (inp : FrameInput) (st st' : App) :
  UpdateObjectCBs inp st = Some st' ->
  NoDup (RenderItem.ObjCBIndex <$> mAllRitems st) ->
  exists p fr fr',
    CurrFrameResource st = Some (p, fr) /\
    mFrameResources st' = <[p := fr']> (mFrameResources st) /\
    PassCB fr' = PassCB fr /\ MaterialCB fr' = MaterialCB fr /\
    WavesVB fr' = WavesVB fr /\ Fence fr' = Fence fr /\
    ElementCount (ObjectCB fr') = ElementCount (ObjectCB fr) /\
    (forall e, e ∈ mAllRitems st -> 0 < RenderItem.NumFramesDirty e ->
       Elements (ObjectCB fr') !! RenderItem.ObjCBIndex e
       = Some {| oc_World := XMMatrixTranspose (RenderItem.World e);
                 oc_TexTransform := XMMatrixTranspose (RenderItem.TexTransform e) |}) /\
    (forall i,
       (forall e, e ∈ mAllRitems st -> 0 < RenderItem.NumFramesDirty e ->
          RenderItem.ObjCBIndex e <> i) ->
       Elements (ObjectCB fr') !! i = Elements (ObjectCB fr) !! i).
Proof.
  intros H Hnd. apply UpdateObjectCBs_exact in H as (p & fr & cb & Hc & He & Hn & ->).
  exists p, fr, (set_ObjectCB cb fr). split; [done|]. split; [reflexivity|].
  cbn [PassCB MaterialCB WavesVB Fence ObjectCB set_ObjectCB].
  repeat (split; [done|]). rewrite He. split.
  - intros e Hin Hdirty. by apply object_writes_lookup_dirty.
  - intros i Hi. by apply object_writes_lookup_clean.
Qed.

(** The first pass over the scenario: the water item, whose [World]
    is the scaling by (6, 1, 6), gets the diagonal (6, 1, 6, 1) into
    slot 0 of the buffer of frame resource 1. *)
Lemma UpdateObjectCBs_writes_witness :
  exists st' fr',
    UpdateObjectCBs (sample_input 0 0) (set_mCurrFrameResource (Some 1%nat) scenario_app)
      = Some st' /\
    mFrameResources st' !! 1%nat = Some fr' /\
    oc_World <$> Elements (ObjectCB fr') !! 0 = Some (XMMatrixScaling 6 1 6).
Proof.
  destruct (UpdateObjectCBs (sample_input 0 0)
              (set_mCurrFrameResource (Some 1%nat) scenario_app)) as [st'|] eqn:H;
    [|no_fault H].
  destruct (UpdateObjectCBs_writes _ _ _ H)
    as (p & fr & fr' & Hc & Hfrs & _ & _ & _ & _ & _ & Hdirty & _).
  { change (NoDup [0; 1]). apply NoDup_cons_2.
    - intros X. apply list_elem_of_singleton in X. discriminate X.
    - apply NoDup_singleton. }
  exists st', fr'. split; [reflexivity|].
  apply CurrFrameResource_Some in Hc as [Hp Hfr]. cbn in Hp. injection Hp as <-.
  split.
  - rewrite Hfrs. apply list_lookup_insert_eq. by eapply lookup_lt_Some.
  - pose proof (Hdirty (RenderItem.mk (XMMatrixScaling 6 1 6) (XMMatrixScaling 30 30 1)
                          gNumFrameResources 0 (Some "water") (Some "waterGeo")
                          TRIANGLELIST 384 0 0)) as Hw.
    cbn [RenderItem.ObjCBIndex RenderItem.NumFramesDirty RenderItem.World] in Hw.
    rewrite Hw; [reflexivity| |reflexivity].
    change (mAllRitems (set_mCurrFrameResource (Some 1%nat) scenario_app))
      with scenario_items. unfold scenario_items, TRIANGLELIST. by left.
Defined.

End ConstantBuffers.
(* ================================================================== *)
(** ** The buffers of the ring after a frame *)

Section FrameBuffers.

Lemma CurrFrameResource_store p fr fr' st :
  CurrFrameResource st = Some (p, fr) ->
  CurrFrameResource (store_FrameResource p fr' st) = Some (p, fr').
Proof.
  intros H. apply CurrFrameResource_Some in H as [Hp Hfr].
  apply CurrFrameResource_Some. split; [exact Hp|].
  cbn. apply list_lookup_insert_eq. by eapply lookup_lt_Some.
Qed.

Lemma material_writes_snoc l mat m :
  material_writes (l ++ [mat]) m
  = (if 0 <? Material.NumFramesDirty mat
     then <[Material.MatCBIndex mat := material_constants mat]> (material_writes l m)
     else material_writes l m).
Proof. unfold material_writes. by rewrite foldl_app. Qed.

(** The fold of [UpdateMaterialCBs], on the buffer. *)
Lemma UpdateMaterialCB_entries_elements l : forall cb mats cb' mats',
  foldlM UpdateMaterialCB_entry (cb, mats) l = Some (cb', mats') ->
  Elements cb' = material_writes l.*2 (Elements cb).
Proof.
  induction l as [|[k mat] l IH]; intros cb mats cb' mats' H.
  - cbn in H. by injection H as <- <-.
  - cbn [foldlM] in H.
    destruct (UpdateMaterialCB_entry (cb, mats) (k, mat)) as [[cb1 mats1]|] eqn:He; [|done].
    cbn in H. rewrite (IH _ _ _ _ H). cbn [fmap list_fmap snd].
    unfold material_writes. cbn [foldl]. f_equal.
    unfold UpdateMaterialCB_entry in He. cbn [fst snd] in He.
    destruct (0 <? Material.NumFramesDirty mat).
    + cbn zeta in He. destruct (CopyData _ _ cb) as [c|] eqn:Hc; cbn in He; [|done].
      injection He as <- _. by apply CopyData_Elements in Hc.
    + by injection He as <- _.
Qed.

Lemma UpdateMaterialCBs_exact inp st st' :
  UpdateMaterialCBs inp st = Some st' ->
  exists p fr cb,
    CurrFrameResource st = Some (p, fr) /\
    Elements cb = material_writes (map_to_list (mMaterials st)).*2 (Elements (MaterialCB fr)) /\
    ElementCount cb = ElementCount (MaterialCB fr) /\
    st' = set_mMaterials (tick_material <$> mMaterials st)
            (store_FrameResource p (set_MaterialCB cb fr) st).
Proof.
  unfold UpdateMaterialCBs. intros H.
  destruct (CurrFrameResource st) as [[p fr]|] eqn:Hc; [|done]. cbn in H.
  destruct (UpdateMaterialCBs_loop _ _) as [[cb mats]|] eqn:Hl; [|done]. cbn in H.
  injection H as <-. exists p, fr, cb. split; [done|].
  split; [by eapply UpdateMaterialCB_entries_elements|].
  apply UpdateMaterialCBs_loop_mats in Hl as [-> Hcount]. done.
Qed.

Lemma UpdateMainPassCB_exact inp st st' :
  UpdateMainPassCB inp st = Some st' ->
  exists p fr cb,
    CurrFrameResource st = Some (p, fr) /\
    Elements cb = <[0 := pass_constants inp st]> (Elements (PassCB fr)) /\
    ElementCount cb = ElementCount (PassCB fr) /\
    st' = store_FrameResource p (set_PassCB cb fr) (set_mMainPassCB (pass_constants inp st) st).
Proof.
  unfold UpdateMainPassCB. cbn zeta. fold (pass_constants inp st). intros H.
  change (CurrFrameResource (set_mMainPassCB (pass_constants inp st) st))
    with (CurrFrameResource st) in H.
  destruct (CurrFrameResource st) as [[p fr]|]; [|done]. cbn in H.
  destruct (CopyData 0 _ (PassCB fr)) as [cb|] eqn:Hcb; [|done]. cbn in H.
  injection H as <-. exists p, fr, cb.
  split; [done|]. split; [by eapply CopyData_Elements|].
  split; [by eapply CopyData_ElementCount|done].
Qed.

Lemma wave_vertices_elements inp waves l : forall vb vb',
  foldlM (fun vb i => CopyData i (wave_vertex inp waves i) vb) vb l = Some vb' ->
  Elements vb' = foldl (fun m i => <[i := wave_vertex inp waves i]> m) (Elements vb) l.
Proof.
  induction l as [|i l IH]; intros vb vb' H; cbn in H; [by injection H as <-|].
  destruct (CopyData i _ vb) as [vb1|] eqn:E; [|done]. cbn in H.
  rewrite (IH _ _ H). cbn [foldl]. by rewrite (CopyData_Elements _ _ _ _ E).
Qed.

Lemma UpdateWaves_exact inp st st' :
  UpdateWaves inp st = Some st' ->
  exists waves p fr vb g geo w ritem,
    waves_after inp st = Some waves /\
    CurrFrameResource st = Some (p, fr) /\
    Elements vb = wave_writes inp waves (Elements (WavesVB fr)) /\
    ElementCount vb = ElementCount (WavesVB fr) /\
    mWavesRitem st = Some w /\ mAllRitems st !! w = Some ritem /\
    RenderItem.Geo ritem = Some g /\ mGeometries st !! g = Some geo /\
    mFrameResources st' = <[p := set_WavesVB vb fr]> (mFrameResources st) /\
    mGeometries st' = <[g := set_VertexBufferGPU (WavesVBResource p) geo]> (mGeometries st) /\
    mWaves st' = waves /\
    mAllRitems st' = mAllRitems st /\ mMaterials st' = mMaterials st /\
    mCurrFrameResource st' = mCurrFrameResource st /\
    mCurrFrameResourceIndex st' = mCurrFrameResourceIndex st /\
    mCurrentFence st' = mCurrentFence st /\
    mRitemLayer st' = mRitemLayer st /\ mWavesRitem st' = mWavesRitem st /\
    mMainPassCB st' = mMainPassCB st /\ mCommandQueue st' = mCommandQueue st /\
    mCamera st' = mCamera st /\ bNoClip st' = bNoClip st /\
    mCurrBackBuffer st' = mCurrBackBuffer st /\ mLastMousePos st' = mLastMousePos st.
Proof.
  unfold UpdateWaves, waves_after. intros H.
  destruct (UpdateWaves_disturb inp st) as [[tb waves]|]; [|done]. cbn [mbind option_bind] in H.
  cbn zeta in H.
  match type of H with context [CurrFrameResource ?s] =>
    change (CurrFrameResource s) with (CurrFrameResource st) in H end.
  destruct (CurrFrameResource st) as [[p fr]|]; [|done]. cbn [mbind option_bind] in H.
  match type of H with context [foldlM ?f ?a ?l] =>
    destruct (foldlM f a l) as [vb|] eqn:Hvb; [|done] end.
  cbn [mbind option_bind] in H. cbn in H.
  destruct (mWavesRitem st) as [w|] eqn:Hwr; [|done]. cbn in H.
  destruct (mAllRitems st !! w) as [ritem|] eqn:Hw; [|done]. cbn in H.
  destruct (RenderItem.Geo ritem) as [g|] eqn:Hg; [|done]. cbn in H.
  destruct (mGeometries st !! g) as [geo|] eqn:Hgeo; [|done]. cbn in H.
  injection H as <-.
  exists (waves_call (Waves_Update (DeltaTime (gt inp))) waves), p, fr, vb, g, geo, w, ritem.
  split; [reflexivity|]. split; [reflexivity|].
  split; [exact (wave_vertices_elements _ _ _ _ _ Hvb)|].
  split; [by eapply wave_vertices_ElementCount|].
  repeat (split; [first [exact Hw | exact Hg | exact Hgeo | exact Hwr | reflexivity]|]).
  reflexivity.
Qed.

Lemma animated_water inp (mats : gmap string Material.t) waterMat :
  mats !! "water" = Some waterMat ->
  animated inp mats = <["water" := animate_water (DeltaTime (gt inp)) waterMat]> mats.
Proof. intros H. unfold animated. by rewrite H. Qed.

Lemma Geo_tick e : RenderItem.Geo (tick_ritem e) = RenderItem.Geo e.
Proof. unfold tick_ritem. by destruct (0 <? _). Qed.

(** The five writing steps of [Update] together: what they leave in
    the current frame resource and in the application. *)
Lemma Update_writes_exact inp st st' p fr :
  Update_writes inp st = Some st' ->
  CurrFrameResource st = Some (p, fr) ->
  exists fr' waves w ritem g geo,
    mFrameResources st' = <[p := fr']> (mFrameResources st) /\
    Elements (ObjectCB fr') = object_writes (mAllRitems st) (Elements (ObjectCB fr)) /\
    Elements (MaterialCB fr')
      = material_writes (map_to_list (animated inp (mMaterials st))).*2
          (Elements (MaterialCB fr)) /\
    Elements (PassCB fr') = <[0 := pass_constants inp st]> (Elements (PassCB fr)) /\
    Elements (WavesVB fr') = wave_writes inp waves (Elements (WavesVB fr)) /\
    Fence fr' = Fence fr /\ capacities fr' = capacities fr /\
    waves_after inp st = Some waves /\ mWaves st' = waves /\
    mAllRitems st' = tick_ritem <$> mAllRitems st /\
    mMaterials st' = tick_material <$> animated inp (mMaterials st) /\
    mMainPassCB st' = pass_constants inp st /\
    mWavesRitem st = Some w /\ mAllRitems st !! w = Some ritem /\
    RenderItem.Geo ritem = Some g /\ mGeometries st !! g = Some geo /\
    mGeometries st' = <[g := set_VertexBufferGPU (WavesVBResource p) geo]> (mGeometries st) /\
    mCurrFrameResource st' = mCurrFrameResource st /\
    mCurrFrameResourceIndex st' = mCurrFrameResourceIndex st /\
    mCurrentFence st' = mCurrentFence st /\
    mCurrBackBuffer st' = mCurrBackBuffer st /\
    mRitemLayer st' = mRitemLayer st /\ mWavesRitem st' = mWavesRitem st /\
    mCommandQueue st' = mCommandQueue st /\
    mCamera st' = mCamera st /\ bNoClip st' = bNoClip st /\
    mLastMousePos st' = mLastMousePos st.
Proof.
  unfold Update_writes. intros H Hc.
  destruct (AnimateMaterials inp st) as [s1|] eqn:H1; [|done]. cbn [mbind option_bind] in H.
  destruct (UpdateObjectCBs inp s1) as [s2|] eqn:H2; [|done]. cbn [mbind option_bind] in H.
  destruct (UpdateMaterialCBs inp s2) as [s3|] eqn:H3; [|done]. cbn [mbind option_bind] in H.
  destruct (UpdateMainPassCB inp s3) as [s4|] eqn:H4; [|done]. cbn [mbind option_bind] in H.
  apply AnimateMaterials_effect in H1 as (water & Hwater & ->).
  rewrite <- (animated_water inp _ _ Hwater) in *.
  (* the object constants *)
  apply UpdateObjectCBs_exact in H2 as (p2 & fr2 & cb2 & Hc2 & He2 & Hn2 & ->).
  assert (Hc2' : CurrFrameResource st = Some (p2, fr2)) by exact Hc2.
  rewrite Hc in Hc2'. injection Hc2' as <- <-. clear Hc2.
  pose proof (CurrFrameResource_store p fr (set_ObjectCB cb2 fr) st Hc) as Hcur2.
  (* the material constants *)
  apply UpdateMaterialCBs_exact in H3 as (p3 & fr3 & cb3 & Hc3 & He3 & Hn3 & ->).
  assert (Hc3' : CurrFrameResource (store_FrameResource p (set_ObjectCB cb2 fr) st)
                 = Some (p3, fr3)) by exact Hc3.
  rewrite Hcur2 in Hc3'. injection Hc3' as <- <-. clear Hc3.
  pose proof (CurrFrameResource_store p _ (set_MaterialCB cb3 (set_ObjectCB cb2 fr)) _ Hcur2)
    as Hcur3.
  (* the pass constants *)
  apply UpdateMainPassCB_exact in H4 as (p4 & fr4 & cb4 & Hc4 & He4 & Hn4 & ->).
  assert (Hc4' : CurrFrameResource
                   (store_FrameResource p (set_MaterialCB cb3 (set_ObjectCB cb2 fr))
                      (store_FrameResource p (set_ObjectCB cb2 fr) st))
                 = Some (p4, fr4)) by exact Hc4.
  rewrite Hcur3 in Hc4'. injection Hc4' as <- <-. clear Hc4.
  pose proof (CurrFrameResource_store p _
                (set_PassCB cb4 (set_MaterialCB cb3 (set_ObjectCB cb2 fr))) _ Hcur3) as Hcur4.
  (* the waves *)
  apply UpdateWaves_exact in H
    as (waves & p5 & fr5 & vb & g & geo & w & ritem & Hwaves & Hc5 & He5 & Hn5
        & Hwr & Hw & Hg & Hgeo & Hfrs & Hgeos & Hmw & Hitems & Hmats & Hcur & Hidx & Hfence
        & Hlayer & Hwr' & Hpass & Hqueue & Hcam & Hclip & Hback & Hmouse).
  assert (Hc5' : CurrFrameResource
                   (store_FrameResource p (set_PassCB cb4 (set_MaterialCB cb3 (set_ObjectCB cb2 fr)))
                      (store_FrameResource p (set_MaterialCB cb3 (set_ObjectCB cb2 fr))
                         (store_FrameResource p (set_ObjectCB cb2 fr) st)))
                 = Some (p5, fr5)) by exact Hc5.
  rewrite Hcur4 in Hc5'. injection Hc5' as <- <-. clear Hc5.
  cbn [mAllRitems set_mAllRitems store_FrameResource set_mFrameResources set_mMaterials
       set_mMainPassCB] in Hw.
  rewrite list_lookup_fmap in Hw.
  destruct (mAllRitems st !! w) as [ritem0|] eqn:Hw0; [|done]. cbn in Hw.
  injection Hw as <-. rewrite Geo_tick in Hg.
  exists (set_WavesVB vb (set_PassCB cb4 (set_MaterialCB cb3 (set_ObjectCB cb2 fr)))),
    waves, w, ritem0, g, geo.
  split.
  { rewrite Hfrs. cbn [mFrameResources set_mAllRitems store_FrameResource set_mFrameResources
      set_mMaterials set_mMainPassCB]. by rewrite !list_insert_insert_eq. }
  cbn [ObjectCB MaterialCB PassCB WavesVB Fence set_WavesVB set_PassCB set_MaterialCB
       set_ObjectCB].
  split; [exact He2|]. split; [exact He3|]. split; [exact He4|]. split; [exact He5|].
  split; [reflexivity|].
  split; [unfold capacities; cbn; by rewrite Hn2, Hn3, Hn4, Hn5|].
  split; [exact Hwaves|]. split; [exact Hmw|].
  split; [by rewrite Hitems|]. split; [by rewrite Hmats|]. split; [by rewrite Hpass|].
  split; [exact Hwr|]. split; [exact Hw0|]. split; [exact Hg|]. split; [exact Hgeo|].
  split; [by rewrite Hgeos|].
  split; [by rewrite Hcur|]. split; [by rewrite Hidx|]. split; [by rewrite Hfence|].
  split; [by rewrite Hback|]. split; [by rewrite Hlayer|]. split; [by rewrite Hwr'|].
  split; [by rewrite Hqueue|]. split; [by rewrite Hcam|]. split; [by rewrite Hclip|].
  by rewrite Hmouse.
Qed.

(** [Draw], exactly: the command list goes to the queue, the back
    buffer index and the fence counter advance, the new fence value is
    stamped into the current frame resource and signalled. *)
Lemma Draw_exact inp st st' :
  Draw inp st = Some st' ->
  exists p fr cmds,
    CurrFrameResource st = Some (p, fr) /\
    Draw_commands st = Some cmds /\
    st' = set_mCommandQueue
            (mCommandQueue st
             ++ [ExecuteCommandLists cmds; Present; Signal (mCurrentFence st + 1)])
            (store_FrameResource p (set_Fence (mCurrentFence st + 1) fr)
               (set_mCurrentFence (mCurrentFence st + 1)
                  (set_mCurrBackBuffer
                     (Z.rem (wrap_int (mCurrBackBuffer st + 1)) SwapChainBufferCount) st))).
Proof.
  unfold Draw. intros H.
  destruct (Draw_commands st) as [cmds|]; [|done]. cbn [mbind option_bind] in H.
  cbn zeta in H.
  match type of H with context [CurrFrameResource ?s] =>
    change (CurrFrameResource s) with (CurrFrameResource st) in H end.
  destruct (CurrFrameResource st) as [[p fr]|] eqn:Hc; [|done]. cbn [mbind option_bind] in H.
  injection H as <-. exists p, fr, cmds. split; [done|]. split; [done|].
  cbn. by rewrite <- !app_assoc.
Qed.

(** The constant buffers of the ring after one frame: the frame
    resource of the next slot has received the writes of [Update], the
    others are as they were. *)
Lemma frame_buffers inp st st' :
  frame inp st = Some st' ->
  exists p fr fr',
    Z.of_nat p = next_slot st /\
    mFrameResources st !! p = Some fr /\
    mFrameResources st' = <[p := fr']> (mFrameResources st) /\
    Elements (ObjectCB fr') = object_writes (mAllRitems st) (Elements (ObjectCB fr)) /\
    Elements (MaterialCB fr')
      = material_writes (map_to_list (animated inp (mMaterials st))).*2
          (Elements (MaterialCB fr)) /\
    Elements (PassCB fr') = <[0 := pass_constants inp st]> (Elements (PassCB fr)) /\
    Fence fr' = mCurrentFence st + 1 /\
    mAllRitems st' = tick_ritem <$> mAllRitems st /\
    mMaterials st' = tick_material <$> animated inp (mMaterials st) /\
    mCurrFrameResourceIndex st' = next_slot st /\
    mCurrFrameResource st' = Some p /\
    mCurrentFence st' = mCurrentFence st + 1.
Proof.
  unfold frame. intros H.
  destruct (Update inp st) as [[s waited]|] eqn:Hu; [|done]. cbn [mbind option_bind] in H.
  rewrite Update_unfold in Hu. case_decide as Hslot; [|done].
  destruct (mFrameResources st !! Z.to_nat (next_slot st)) as [fr|] eqn:Hfr; [|done].
  cbn [mbind option_bind] in Hu.
  destruct (Update_writes inp _) as [s'|] eqn:Hw; [|done]. cbn in Hu.
  injection Hu as -> _.
  assert (Hc : CurrFrameResource (Update_selected inp (Z.to_nat (next_slot st)) st)
               = Some (Z.to_nat (next_slot st), fr)).
  { apply CurrFrameResource_Some. split; [reflexivity|exact Hfr]. }
  destruct (Update_writes_exact _ _ _ _ _ Hw Hc)
    as (fr1 & waves & w & ritem & g & geo & Hfrs & Hobj & Hmat & Hpass & _ & Hfence & _
        & _ & _ & Hitems & Hmats & _ & _ & _ & _ & _ & _ & Hcur & Hidx & Hcf & _).
  apply Draw_exact in H as (p & fr2 & cmds & Hc2 & _ & ->).
  apply CurrFrameResource_Some in Hc2 as [Hp2 Hfr2].
  rewrite Hcur in Hp2. cbn in Hp2. injection Hp2 as <-.
  cbn [mFrameResources Update_selected set_mCurrFrameResource set_mCurrFrameResourceIndex
       UpdateCamera OnKeyboardInput set_mCamera set_bNoClip] in Hfrs.
  rewrite Hfrs in Hfr2. rewrite list_lookup_insert_eq in Hfr2 by (by eapply lookup_lt_Some).
  injection Hfr2 as <-.
  exists (Z.to_nat (next_slot st)), fr, (set_Fence (mCurrentFence s + 1) fr1).
  split; [lia|]. split; [exact Hfr|].
  cbn [mFrameResources set_mCommandQueue store_FrameResource set_mFrameResources
       set_mCurrentFence set_mCurrBackBuffer mAllRitems mMaterials mCurrFrameResourceIndex
       mCurrFrameResource mCurrentFence ObjectCB MaterialCB PassCB Fence set_Fence].
  split; [by rewrite Hfrs, list_insert_insert_eq|].
  split; [exact Hobj|]. split; [exact Hmat|]. split; [exact Hpass|].
  split; [by rewrite Hcf|]. split; [exact Hitems|]. split; [exact Hmats|].
  split; [exact Hidx|]. split; [exact Hcur|]. by rewrite Hcf.
Qed.

End FrameBuffers.
(* ================================================================== *)
(** ** The dirty counters and the ring *)

Section RingSync.

Lemma object_constants_tick e : object_constants (tick_ritem e) = object_constants e.
Proof. unfold tick_ritem. by destruct (0 <? _). Qed.

Lemma ObjCBIndex_tick e : RenderItem.ObjCBIndex (tick_ritem e) = RenderItem.ObjCBIndex e.
Proof. unfold tick_ritem. by destruct (0 <? _). Qed.

Lemma NumFramesDirty_tick e :
  0 <= RenderItem.NumFramesDirty e <= gNumFrameResources ->
  RenderItem.NumFramesDirty (tick_ritem e) = Z.max 0 (RenderItem.NumFramesDirty e - 1).
Proof.
  unfold tick_ritem, gNumFrameResources. intros H.
  destruct (0 <? _) eqn:E.
  - apply Z.ltb_lt in E. cbn. rewrite wrap_int_small by lia. lia.
  - apply Z.ltb_ge in E. lia.
Qed.

Lemma NoDup_fmap_inj_on {A B} (f : A -> B) (l : list A) x y :
  NoDup (f <$> l) -> x ∈ l -> y ∈ l -> f x = f y -> x = y.
Proof.
  intros Hnd Hx Hy Hf.
  apply list_elem_of_lookup in Hx as [i Hi]. apply list_elem_of_lookup in Hy as [j Hj].
  assert (i = j) as ->.
  { eapply NoDup_lookup; [exact Hnd|..].
    - by rewrite list_lookup_fmap, Hi.
    - rewrite list_lookup_fmap, Hj. cbn. by rewrite Hf. }
  congruence.
Qed.

Lemma slot_ahead_cases (i k : Z) :
  0 <= i < 3 -> 1 <= k <= 3 ->
  Z.to_nat ((i + k) mod 3) = Z.to_nat ((i + 1) mod 3) /\ k = 1
  \/ Z.to_nat ((i + k) mod 3) <> Z.to_nat ((i + 1) mod 3) /\ 2 <= k.
Proof.
  intros Hi Hk.
  assert (i = 0 \/ i = 1 \/ i = 2) as [-> | [-> | ->]] by lia;
    assert (k = 1 \/ k = 2 \/ k = 3) as [-> | [-> | ->]] by lia;
    vm_compute; (left; split; [reflexivity|reflexivity]) || (right; split; [discriminate|discriminate]).
Qed.

Lemma slot_ahead_succ (i k : Z) :
  0 <= i < 3 -> ((i + 1) mod 3 + k) mod 3 = (i + (k + 1)) mod 3.
Proof. intros Hi. rewrite Zplus_mod_idemp_l. f_equal. lia. Qed.

(** One frame keeps the account of the object constants. *)
Lemma frame_objects_synced inp st st' :
  frame inp st = Some st' ->
  0 <= mCurrFrameResourceIndex st < 3 ->
  counters_in_range st ->
  NoDup (RenderItem.ObjCBIndex <$> mAllRitems st) ->
  objects_synced st -> objects_synced st'.
Proof.
  intros Hf Hidx [Hrange _] Hnd Hsync.
  destruct (frame_buffers _ _ _ Hf)
    as (p & fr & fr' & Hp & Hfr & Hfrs & Hobj & _ & _ & _ & Hitems & _ & Hidx' & _).
  destruct (next_slot_mod st Hidx) as [Hnext Hnr].
  assert (Hcbs : ObjectCBs st' = <[p := object_writes (mAllRitems st) (Elements (ObjectCB fr))]>
                                   (ObjectCBs st)).
  { unfold ObjectCBs. rewrite Hfrs, list_fmap_insert. by rewrite Hobj. }
  assert (Hold : ObjectCBs st !! p = Some (Elements (ObjectCB fr))).
  { unfold ObjectCBs. by rewrite list_lookup_fmap, Hfr. }
  assert (Hpslot : p = slot_ahead st 1).
  { unfold slot_ahead. rewrite <- Hnext. lia. }
  intros e' k cb He' Hk Hcb.
  rewrite Hitems in He'. apply list_elem_of_fmap in He' as (e & -> & He).
  rewrite list.Forall_forall in Hrange. pose proof (Hrange e He) as Hc.
  rewrite NumFramesDirty_tick in Hk by exact Hc.
  rewrite object_constants_tick, ObjCBIndex_tick.
  unfold slot_ahead in Hcb. rewrite Hidx', Hnext in Hcb. unfold gNumFrameResources in *.
  rewrite slot_ahead_succ in Hcb by exact Hidx.
  destruct (decide (k = 3)) as [->|Hk3].
  - (* the slot just written *)
    replace (Z.to_nat ((mCurrFrameResourceIndex st + (3 + 1)) mod 3)) with p in Hcb.
    2:{ rewrite Hpslot. unfold slot_ahead, gNumFrameResources.
        replace (mCurrFrameResourceIndex st + (3 + 1))
          with (mCurrFrameResourceIndex st + 1 + 1 * 3) by lia.
        by rewrite Z_mod_plus_full. }
    rewrite Hcbs in Hcb.
    rewrite list_lookup_insert_eq in Hcb by (by eapply lookup_lt_Some).
    injection Hcb as <-.
    destruct (decide (0 < RenderItem.NumFramesDirty e)) as [Hdirty|Hclean].
    + by apply object_writes_lookup_dirty.
    + rewrite object_writes_lookup_clean.
      * apply (Hsync e 1 _ He); [unfold gNumFrameResources; lia|by rewrite <- Hpslot].
      * intros e2 He2 Hd2 Heq. apply Hclean.
        by rewrite <- (NoDup_fmap_inj_on _ _ _ _ Hnd He2 He Heq).
  - (* another slot *)
    assert (Hne : Z.to_nat ((mCurrFrameResourceIndex st + (k + 1)) mod 3) <> p).
    { rewrite Hpslot. unfold slot_ahead, gNumFrameResources.
      assert (mCurrFrameResourceIndex st = 0 \/ mCurrFrameResourceIndex st = 1
              \/ mCurrFrameResourceIndex st = 2) as [-> | [-> | ->]] by lia;
        assert (k = 1 \/ k = 2) as [-> | ->] by lia; vm_compute; discriminate. }
    rewrite Hcbs, list_lookup_insert_ne in Hcb by done.
    apply (Hsync e (k + 1) _ He); [unfold gNumFrameResources; lia|exact Hcb].
Qed.

Lemma NoDup_ObjCBIndex_tick (items : list RenderItem.t) :
  RenderItem.ObjCBIndex <$> (tick_ritem <$> items) = RenderItem.ObjCBIndex <$> items.
Proof.
  rewrite <- list_fmap_compose. apply list_fmap_ext. intros _ e _. apply ObjCBIndex_tick.
Qed.

(** X4: the dirty counter of a render item accounts for the ring. If,
    before a run of frames, the constants of every item are in its
    slot of every frame resource except possibly those of the next
    [NumFramesDirty] frames (which asks nothing of an item whose
    counter is 3, as for a scene just built), the same holds after the
    run, whatever its length; and after three frames or more every
    counter is 0 and each of the three frame resources holds the
    transposed matrices of every item in the item's slot. *)
Theorem dirty_counters_account_for_ring (inps : list FrameInput) (st st' : App)
    (log : list (Z * Z)) :
  run_frames inps st = Some (st', log) ->
  length (mFrameResources st) = 3%nat ->
  0 <= mCurrFrameResourceIndex st < 3 ->
  counters_in_range st ->
  NoDup (RenderItem.ObjCBIndex <$> mAllRitems st) ->
  objects_synced st ->
  objects_synced st' /\
  ((3 <= length inps)%nat ->
   forall e fr, e ∈ mAllRitems st' -> fr ∈ mFrameResources st' ->
     RenderItem.NumFramesDirty e = 0 /\
     Elements (ObjectCB fr) !! RenderItem.ObjCBIndex e
     = Some {| oc_World := XMMatrixTranspose (RenderItem.World e);
               oc_TexTransform := XMMatrixTranspose (RenderItem.TexTransform e) |}).
Proof.
  revert st st' log.
  assert (Hrun : forall inps st st' log b,
    run_frames inps st = Some (st', log) ->
    length (mFrameResources st) = 3%nat ->
    0 <= mCurrFrameResourceIndex st < 3 ->
    counters_in_range st ->
    Forall (fun e => RenderItem.NumFramesDirty e <= b) (mAllRitems st) ->
    NoDup (RenderItem.ObjCBIndex <$> mAllRitems st) ->
    objects_synced st ->
    objects_synced st' /\ length (mFrameResources st') = 3%nat /\
    Forall (fun e => 0 <= RenderItem.NumFramesDirty e
                     <= Z.max 0 (b - Z.of_nat (length inps))) (mAllRitems st')).
  { clear. induction inps as [|inp inps IH]; intros st st' log b H Hlen Hidx Hc Hb Hnd Hsync.
    - cbn in H. injection H as <- _. split; [done|]. split; [done|].
      destruct Hc as [Hc _]. rewrite list.Forall_forall in Hc, Hb.
      apply list.Forall_forall. intros e He. specialize (Hc e He). specialize (Hb e He).
      cbn in *. lia.
    - cbn [run_frames] in H.
      destruct (frame inp st) as [s|] eqn:Hf; [|done]. cbn [mbind option_bind] in H.
      destruct (stamped_fence s) as [f|]; [|done]. cbn [mbind option_bind] in H.
      destruct (run_frames inps s) as [[s' log']|] eqn:Hr; [|done]. cbn in H.
      injection H as <- _.
      pose proof (frame_objects_synced _ _ _ Hf Hidx Hc Hnd Hsync) as Hsync1.
      pose proof (frame_counters_in_range _ _ _ Hf Hc) as Hc1.
      destruct (frame_buffers _ _ _ Hf)
        as (p & fr & fr' & Hp & Hfr & Hfrs & _ & _ & _ & _ & Hitems & _ & Hidx' & _).
      destruct (next_slot_mod st Hidx) as [_ Hnr].
      assert (Hlen1 : length (mFrameResources s) = 3%nat)
        by (by rewrite Hfrs, length_insert).
      assert (Hnd1 : NoDup (RenderItem.ObjCBIndex <$> mAllRitems s))
        by (by rewrite Hitems, NoDup_ObjCBIndex_tick).
      assert (Hb1 : Forall (fun e => RenderItem.NumFramesDirty e <= Z.max 0 (b - 1))
                           (mAllRitems s)).
      { rewrite Hitems. apply Forall_fmap. destruct Hc as [Hc _].
        rewrite list.Forall_forall in Hc, Hb. apply list.Forall_forall. intros e He.
        cbn. rewrite NumFramesDirty_tick by (by apply Hc). specialize (Hb e He). lia. }
      destruct (IH s s' log' _ Hr Hlen1 ltac:(by rewrite Hidx') Hc1 Hb1 Hnd1 Hsync1)
        as (Hs & Hl & Hn).
      split; [exact Hs|]. split; [exact Hl|].
      rewrite list.Forall_forall in Hn. apply list.Forall_forall. intros e He.
      specialize (Hn e He). cbn [length]. lia. }
  intros st st' log H Hlen Hidx Hc Hnd Hsync.
  assert (Hb : Forall (fun e => RenderItem.NumFramesDirty e <= 3) (mAllRitems st)).
  { destruct Hc as [Hc _]. rewrite list.Forall_forall in Hc. apply list.Forall_forall.
    intros e He. specialize (Hc e He). unfold gNumFrameResources in Hc. cbn. lia. }
  destruct (Hrun inps st st' log 3 H Hlen Hidx Hc Hb Hnd Hsync) as (Hs & Hl & Hn).
  split; [exact Hs|]. intros H3 e fr He Hfr.
  rewrite list.Forall_forall in Hn. pose proof (Hn e He) as Hz. cbn in Hz.
  assert (Hzero : RenderItem.NumFramesDirty e = 0) by lia.
  split; [exact Hzero|].
  apply list_elem_of_lookup in Hfr as [q Hq].
  assert (Hq3 : (q < 3)%nat) by (rewrite <- Hl; by eapply lookup_lt_Some).
  assert (exists k, 1 <= k <= 3 /\ slot_ahead st' k = q) as (k & Hk & Hslot).
  { unfold slot_ahead, gNumFrameResources.
    exists ((Z.of_nat q - mCurrFrameResourceIndex st' - 1) mod 3 + 1).
    pose proof (Z.mod_pos_bound (Z.of_nat q - mCurrFrameResourceIndex st' - 1) 3 ltac:(lia)).
    split; [lia|].
    rewrite Z.add_assoc, (Z.add_comm (mCurrFrameResourceIndex st')), <- Z.add_assoc.
    rewrite Zplus_mod_idemp_l.
    replace (Z.of_nat q - mCurrFrameResourceIndex st' - 1 + (mCurrFrameResourceIndex st' + 1))
      with (Z.of_nat q) by lia.
    rewrite Z.mod_small by lia. lia. }
  apply (Hs e k (Elements (ObjectCB fr)) He); [unfold gNumFrameResources; lia|].
  unfold ObjectCBs. by rewrite Hslot, list_lookup_fmap, Hq.
Qed.

(** Three frames of the scenario: both items are then in all three
    frame resources and their counters are 0. *)
Lemma dirty_counters_account_for_ring_witness :
  exists st',
    run_frames three_frames scenario_app = Some (st', [(1, 1); (2, 2); (0, 3)]) /\
    forall e fr, e ∈ mAllRitems st' -> fr ∈ mFrameResources st' ->
      RenderItem.NumFramesDirty e = 0 /\
      Elements (ObjectCB fr) !! RenderItem.ObjCBIndex e
      = Some {| oc_World := XMMatrixTranspose (RenderItem.World e);
                oc_TexTransform := XMMatrixTranspose (RenderItem.TexTransform e) |}.
Proof.
  destruct scenario_three_frames as [st' Hrun]. exists st'. split; [exact Hrun|].
  apply (dirty_counters_account_for_ring _ _ _ _ Hrun).
  - reflexivity.
  - cbn. lia.
  - exact scenario_counters_in_range.
  - exact scenario_NoDup.
  - exact scenario_objects_synced.
  - cbn. lia.
Defined.

End RingSync.
(* ================================================================== *)
(** ** The material constants and the ring *)

Section MaterialSync.

Lemma material_writes_lookup_clean l : forall m i,
  (forall mat, mat ∈ l -> 0 < Material.NumFramesDirty mat -> Material.MatCBIndex mat <> i) ->
  material_writes l m !! i = m !! i.
Proof.
  induction l as [|x l IH] using rev_ind; intros m i H; [done|].
  rewrite material_writes_snoc.
  assert (Hl : material_writes l m !! i = m !! i).
  { apply IH. intros mat Hmat. apply H. apply elem_of_app. by left. }
  destruct (0 <? Material.NumFramesDirty x) eqn:E; [|exact Hl].
  apply Z.ltb_lt in E. rewrite lookup_insert_ne; [exact Hl|].
  apply H; [|exact E]. apply elem_of_app. right. by left.
Qed.

(** The last write to a slot wins; when all dirty materials of a slot
    have the same constants, the slot holds them. *)
Lemma material_writes_lookup_dirty l : forall m mat,
  mat ∈ l -> 0 < Material.NumFramesDirty mat ->
  (forall m2, m2 ∈ l -> Material.MatCBIndex m2 = Material.MatCBIndex mat ->
     0 < Material.NumFramesDirty m2 -> material_constants m2 = material_constants mat) ->
  material_writes l m !! Material.MatCBIndex mat = Some (material_constants mat).
Proof.
  induction l as [|x l IH] using rev_ind; intros m mat Hin Hdirty Hsame.
  - by apply elem_of_nil in Hin.
  - rewrite material_writes_snoc.
    assert (Hx : x ∈ l ++ [x]) by (apply elem_of_app; right; by left).
    destruct (0 <? Material.NumFramesDirty x) eqn:E.
    + apply Z.ltb_lt in E.
      destruct (decide (Material.MatCBIndex x = Material.MatCBIndex mat)) as [Heq|Hne].
      * rewrite Heq, lookup_insert_eq. f_equal. by apply Hsame.
      * rewrite lookup_insert_ne by done.
        apply elem_of_app in Hin as [Hin|Hin].
        -- apply IH; [done|done|]. intros m2 H2. apply Hsame. apply elem_of_app. by left.
        -- apply list_elem_of_singleton in Hin as ->. done.
    + apply Z.ltb_ge in E.
      apply elem_of_app in Hin as [Hin|Hin].
      * apply IH; [done|done|]. intros m2 H2. apply Hsame. apply elem_of_app. by left.
      * apply list_elem_of_singleton in Hin as ->. lia.
Qed.

Lemma material_constants_tick mat :
  material_constants (tick_material mat) = material_constants mat.
Proof. unfold tick_material. by destruct (0 <? _). Qed.

Lemma MatCBIndex_tick_material mat :
  Material.MatCBIndex (tick_material mat) = Material.MatCBIndex mat.
Proof. unfold tick_material. by destruct (0 <? _). Qed.

Lemma NumFramesDirty_tick_material mat :
  0 <= Material.NumFramesDirty mat <= gNumFrameResources ->
  Material.NumFramesDirty (tick_material mat) = Z.max 0 (Material.NumFramesDirty mat - 1).
Proof.
  unfold tick_material, gNumFrameResources. intros H.
  destruct (0 <? _) eqn:E.
  - apply Z.ltb_lt in E. cbn. rewrite wrap_int_small by lia. lia.
  - apply Z.ltb_ge in E. lia.
Qed.

(** The materials after [AnimateMaterials], name by name. *)
Lemma animated_lookup inp (mats : gmap string Material.t) name a :
  animated inp mats !! name = Some a ->
  exists mat, mats !! name = Some mat /\
    Material.MatCBIndex a = Material.MatCBIndex mat /\
    (name = "water" /\ a = animate_water (DeltaTime (gt inp)) mat
     \/ name <> "water" /\ a = mat).
Proof.
  unfold animated. destruct (mats !! "water") as [w|] eqn:Hw.
  - destruct (decide (name = "water")) as [->|Hne].
    + rewrite lookup_insert_eq. intros [= <-]. exists w. split; [done|]. split; [done|].
      by left.
    + rewrite lookup_insert_ne by done. intros H. exists a. split; [done|].
      split; [done|]. by right.
  - intros H. exists a. split; [done|]. split; [done|]. right. split; [|done].
    intros ->. congruence.
Qed.


Lemma slots_distinct_animated inp mats :
  slots_distinct mats -> slots_distinct (animated inp mats).
Proof.
  intros Hd n1 n2 a1 a2 H1 H2 Heq.
  apply animated_lookup in H1 as (m1 & H1 & E1 & _).
  apply animated_lookup in H2 as (m2 & H2 & E2 & _).
  apply (Hd n1 n2 m1 m2 H1 H2). congruence.
Qed.

Lemma slots_distinct_tick mats :
  slots_distinct mats -> slots_distinct (tick_material <$> mats).
Proof.
  intros Hd n1 n2 a1 a2 H1 H2 Heq.
  rewrite lookup_fmap in H1, H2.
  destruct (mats !! n1) as [m1|] eqn:E1; [|done].
  destruct (mats !! n2) as [m2|] eqn:E2; [|done].
  cbn in H1, H2. injection H1 as <-. injection H2 as <-.
  rewrite !MatCBIndex_tick_material in Heq. by apply (Hd n1 n2 m1 m2).
Qed.

Lemma animate_water_NumFramesDirty dt w :
  Material.NumFramesDirty (animate_water dt w) = gNumFrameResources.
Proof. reflexivity. Qed.

(** One frame keeps the account of the material constants. *)
Lemma frame_materials_synced inp st st' :
  frame inp st = Some st' ->
  0 <= mCurrFrameResourceIndex st < 3 ->
  counters_in_range st ->
  slots_distinct (mMaterials st) ->
  materials_synced st -> materials_synced st'.
Proof.
  intros Hf Hidx [_ Hrange] Hdist Hsync.
  destruct (frame_buffers _ _ _ Hf)
    as (p & fr & fr' & Hp & Hfr & Hfrs & _ & Hmat & _ & _ & _ & Hmats & Hidx' & _).
  destruct (next_slot_mod st Hidx) as [Hnext Hnr].
  set (A := animated inp (mMaterials st)) in *.
  set (l := (map_to_list A).*2) in *.
  assert (Hcbs : MaterialCBs st' = <[p := material_writes l (Elements (MaterialCB fr))]>
                                     (MaterialCBs st)).
  { unfold MaterialCBs. rewrite Hfrs, list_fmap_insert. by rewrite Hmat. }
  assert (Hpslot : p = slot_ahead st 1).
  { unfold slot_ahead. rewrite <- Hnext. lia. }
  assert (HdistA : slots_distinct A) by (by apply slots_distinct_animated).
  assert (Hl : forall m2, m2 ∈ l -> exists n2, A !! n2 = Some m2).
  { intros m2 H2. apply list_elem_of_fmap in H2 as ([n2 m2'] & -> & H2).
    apply elem_of_map_to_list in H2. by exists n2. }
  intros name mat' k cb Hname Hk Hcb.
  rewrite Hmats, lookup_fmap in Hname.
  destruct (A !! name) as [a|] eqn:Ha; [|done]. cbn in Hname. injection Hname as <-.
  assert (Hal : a ∈ l).
  { apply list_elem_of_fmap. exists (name, a). split; [done|]. by apply elem_of_map_to_list. }
  destruct (animated_lookup _ _ _ _ Ha) as (mat & Hmat0 & Hi0 & Hcase).
  assert (Hca : 0 <= Material.NumFramesDirty a <= gNumFrameResources).
  { destruct Hcase as [[_ ->]|[_ ->]].
    - rewrite animate_water_NumFramesDirty. unfold gNumFrameResources. lia.
    - exact (Hrange name mat Hmat0). }
  rewrite NumFramesDirty_tick_material in Hk by exact Hca.
  rewrite material_constants_tick, MatCBIndex_tick_material.
  unfold slot_ahead in Hcb. rewrite Hidx', Hnext in Hcb. unfold gNumFrameResources in *.
  rewrite slot_ahead_succ in Hcb by exact Hidx.
  destruct (decide (k = 3)) as [->|Hk3].
  - replace (Z.to_nat ((mCurrFrameResourceIndex st + (3 + 1)) mod 3)) with p in Hcb.
    2:{ rewrite Hpslot. unfold slot_ahead, gNumFrameResources.
        replace (mCurrFrameResourceIndex st + (3 + 1))
          with (mCurrFrameResourceIndex st + 1 + 1 * 3) by lia.
        by rewrite Z_mod_plus_full. }
    rewrite Hcbs in Hcb.
    rewrite list_lookup_insert_eq in Hcb
      by (unfold MaterialCBs; rewrite length_fmap; by eapply lookup_lt_Some).
    injection Hcb as <-.
    destruct (decide (0 < Material.NumFramesDirty a)) as [Hdirty|Hclean].
    + apply material_writes_lookup_dirty; [done|done|].
      intros m2 H2 Heq _. destruct (Hl m2 H2) as [n2 Hn2].
      assert (n2 = name) as -> by (by apply (HdistA n2 name m2 a)). congruence.
    + destruct Hcase as [[_ ->]|[Hnw ->]].
      { rewrite animate_water_NumFramesDirty in Hclean. unfold gNumFrameResources in Hclean. lia. }
      rewrite material_writes_lookup_clean.
      * apply (Hsync name mat 1 _ Hmat0); [unfold gNumFrameResources; lia|].
        rewrite <- Hpslot. unfold MaterialCBs. by rewrite list_lookup_fmap, Hfr.
      * intros m2 H2 Hd2 Heq. destruct (Hl m2 H2) as [n2 Hn2].
        assert (n2 = name) as -> by (by apply (HdistA n2 name m2 mat)).
        apply Hclean. congruence.
  - assert (Hne : Z.to_nat ((mCurrFrameResourceIndex st + (k + 1)) mod 3) <> p).
    { rewrite Hpslot. unfold slot_ahead, gNumFrameResources.
      assert (mCurrFrameResourceIndex st = 0 \/ mCurrFrameResourceIndex st = 1
              \/ mCurrFrameResourceIndex st = 2) as [-> | [-> | ->]] by lia;
        assert (k = 1 \/ k = 2) as [-> | ->] by lia; vm_compute; discriminate. }
    rewrite Hcbs, list_lookup_insert_ne in Hcb by done.
    destruct Hcase as [[_ ->]|[Hnw ->]].
    { rewrite animate_water_NumFramesDirty in Hk. unfold gNumFrameResources in Hk. lia. }
    apply (Hsync name mat (k + 1) _ Hmat0); [unfold gNumFrameResources; lia|exact Hcb].
Qed.

Lemma run_frames_materials inps : forall st st' log b,
  run_frames inps st = Some (st', log) ->
  length (mFrameResources st) = 3%nat ->
  0 <= mCurrFrameResourceIndex st < 3 ->
  counters_in_range st ->
  map_Forall (fun name mat => name <> "water" -> Material.NumFramesDirty mat <= b)
             (mMaterials st) ->
  slots_distinct (mMaterials st) ->
  materials_synced st ->
  materials_synced st' /\ length (mFrameResources st') = 3%nat /\
  0 <= mCurrFrameResourceIndex st' < 3 /\
  map_Forall (fun name mat => name <> "water" ->
                0 <= Material.NumFramesDirty mat <= Z.max 0 (b - Z.of_nat (length inps)))
             (mMaterials st') /\
  (inps <> [] ->
   mCurrFrameResource st' = Some (Z.to_nat (mCurrFrameResourceIndex st')) /\
   forall w, mMaterials st' !! "water" = Some w -> Material.NumFramesDirty w = 2).
Proof.
  induction inps as [|inp inps IH]; intros st st' log b H Hlen Hidx Hc Hb Hdist Hsync.
  - cbn in H. injection H as <- _. split; [done|]. split; [done|]. split; [done|].
    split; [|done]. intros name mat Hm Hnw. destruct Hc as [_ Hc].
    specialize (Hc name mat Hm). specialize (Hb name mat Hm Hnw). cbn in *. lia.
  - cbn [run_frames] in H.
    destruct (frame inp st) as [s|] eqn:Hf; [|done]. cbn [mbind option_bind] in H.
    destruct (stamped_fence s) as [f|]; [|done]. cbn [mbind option_bind] in H.
    destruct (run_frames inps s) as [[s' log']|] eqn:Hr; [|done]. cbn in H.
    injection H as <- _.
    pose proof (frame_materials_synced _ _ _ Hf Hidx Hc Hdist Hsync) as Hsync1.
    pose proof (frame_counters_in_range _ _ _ Hf Hc) as Hc1.
    destruct (frame_buffers _ _ _ Hf)
      as (p & fr & fr' & Hp & Hfr & Hfrs & _ & _ & _ & _ & _ & Hmats & Hidx' & Hcur & _).
    destruct (next_slot_mod st Hidx) as [_ Hnr].
    assert (Hlen1 : length (mFrameResources s) = 3%nat)
      by (by rewrite Hfrs, length_insert).
    assert (Hdist1 : slots_distinct (mMaterials s)).
    { rewrite Hmats. by apply slots_distinct_tick, slots_distinct_animated. }
    assert (Hb1 : map_Forall (fun name mat => name <> "water" ->
                                Material.NumFramesDirty mat <= Z.max 0 (b - 1))
                             (mMaterials s)).
    { intros name mat' Hm Hnw. rewrite Hmats, lookup_fmap in Hm.
      destruct (animated inp (mMaterials st) !! name) as [a|] eqn:Ha; [|done].
      cbn in Hm. injection Hm as <-.
      destruct (animated_lookup _ _ _ _ Ha) as (mat & Hmat0 & _ & [[-> _]|[_ ->]]); [done|].
      destruct Hc as [_ Hc]. rewrite NumFramesDirty_tick_material by exact (Hc name mat Hmat0).
      specialize (Hb name mat Hmat0 Hnw). cbn in Hb. lia. }
    assert (Hwater1 : forall w, mMaterials s !! "water" = Some w ->
                                Material.NumFramesDirty w = 2).
    { intros w Hw. rewrite Hmats, lookup_fmap in Hw.
      destruct (animated inp (mMaterials st) !! "water") as [a|] eqn:Ha; [|done].
      cbn in Hw. injection Hw as <-.
      destruct (animated_lookup _ _ _ _ Ha) as (mat & _ & _ & [[_ ->]|[Hne _]]); [|done].
      reflexivity. }
    destruct (IH s s' log' _ Hr Hlen1 ltac:(by rewrite Hidx') Hc1 Hb1 Hdist1 Hsync1)
      as (Hs & Hl & Hi & Hn & Hlast).
    split; [exact Hs|]. split; [exact Hl|]. split; [exact Hi|]. split.
    + intros name mat Hm Hnw. specialize (Hn name mat Hm Hnw). cbn in Hn.
      cbn [length]. lia.
    + intros _. destruct inps as [|inp2 inps].
      * cbn in Hr. injection Hr as <- _. split; [|exact Hwater1].
        rewrite Hcur, Hidx'. f_equal. lia.
      * by apply Hlast.
Qed.

(** X5: the material constants and the ring. The account of the dirty
    counters holds for materials as for render items, over any run of
    frames, when distinct materials have distinct slots. The water
    material is scrolled and marked dirty in every frame, and so after
    every frame the frame resource of that frame holds the constants of
    the water material as they then are, scroll included; after three
    frames or more every frame resource holds the constants of every
    other material. *)
Theorem material_counters_account_for_ring (inps : list FrameInput) (st st' : App)
    (log : list (Z * Z)) :
  run_frames inps st = Some (st', log) ->
  length (mFrameResources st) = 3%nat ->
  0 <= mCurrFrameResourceIndex st < 3 ->
  counters_in_range st ->
  slots_distinct (mMaterials st) ->
  materials_synced st ->
  materials_synced st' /\
  (inps <> [] ->
   forall water p fr,
     mMaterials st' !! "water" = Some water ->
     CurrFrameResource st' = Some (p, fr) ->
     Elements (MaterialCB fr) !! Material.MatCBIndex water
     = Some {| mc_DiffuseAlbedo := Material.DiffuseAlbedo water;
               mc_FresnelR0 := Material.FresnelR0 water;
               mc_Roughness := Material.Roughness water;
               mc_MatTransform := XMMatrixTranspose (Material.MatTransform water) |}) /\
  ((3 <= length inps)%nat ->
   forall name mat fr,
     name <> "water" -> mMaterials st' !! name = Some mat -> fr ∈ mFrameResources st' ->
     Material.NumFramesDirty mat = 0 /\
     Elements (MaterialCB fr) !! Material.MatCBIndex mat = Some (material_constants mat)).
Proof.
  intros H Hlen Hidx Hc Hdist Hsync.
  assert (Hb : map_Forall (fun name mat => name <> "water" -> Material.NumFramesDirty mat <= 3)
                          (mMaterials st)).
  { intros name mat Hm _. destruct Hc as [_ Hc]. specialize (Hc name mat Hm).
    unfold gNumFrameResources in Hc. cbn in *. lia. }
  destruct (run_frames_materials inps st st' log 3 H Hlen Hidx Hc Hb Hdist Hsync)
    as (Hs & Hl & Hi & Hn & Hlast).
  split; [exact Hs|]. split.
  - intros Hne water p fr Hw Hcur. destruct (Hlast Hne) as [Hp Hw2].
    apply CurrFrameResource_Some in Hcur as [Hp' Hfr]. rewrite Hp in Hp'.
    injection Hp' as <-.
    apply (Hs "water" water 3 _ Hw).
    + rewrite (Hw2 water Hw). unfold gNumFrameResources. lia.
    + unfold slot_ahead, gNumFrameResources.
      replace (mCurrFrameResourceIndex st' + 3) with (mCurrFrameResourceIndex st' + 1 * 3) by lia.
      rewrite Z_mod_plus_full, Z.mod_small by lia.
      unfold MaterialCBs. by rewrite list_lookup_fmap, Hfr.
  - intros H3 name mat fr Hnw Hm Hfr.
    pose proof (Hn name mat Hm Hnw) as Hz. cbn in Hz.
    assert (Hzero : Material.NumFramesDirty mat = 0) by lia.
    split; [exact Hzero|].
    apply list_elem_of_lookup in Hfr as [q Hq].
    assert (Hq3 : (q < 3)%nat) by (rewrite <- Hl; by eapply lookup_lt_Some).
    assert (exists k, 1 <= k <= 3 /\ slot_ahead st' k = q) as (k & Hk & Hslot).
    { unfold slot_ahead, gNumFrameResources.
      exists ((Z.of_nat q - mCurrFrameResourceIndex st' - 1) mod 3 + 1).
      pose proof (Z.mod_pos_bound (Z.of_nat q - mCurrFrameResourceIndex st' - 1) 3 ltac:(lia)).
      split; [lia|].
      rewrite Z.add_assoc, (Z.add_comm (mCurrFrameResourceIndex st')), <- Z.add_assoc.
      rewrite Zplus_mod_idemp_l.
      replace (Z.of_nat q - mCurrFrameResourceIndex st' - 1 + (mCurrFrameResourceIndex st' + 1))
        with (Z.of_nat q) by lia.
      rewrite Z.mod_small by lia. lia. }
    apply (Hs name mat k (Elements (MaterialCB fr)) Hm); [unfold gNumFrameResources; lia|].
    unfold MaterialCBs. by rewrite Hslot, list_lookup_fmap, Hq.
Qed.

(** Three frames of the scenario: the frame resource of the third
    frame holds the water constants with the scroll of that frame. *)
Lemma material_counters_account_for_ring_witness :
  exists st',
    run_frames three_frames scenario_app = Some (st', [(1, 1); (2, 2); (0, 3)]) /\
    forall water p fr,
      mMaterials st' !! "water" = Some water ->
      CurrFrameResource st' = Some (p, fr) ->
      Elements (MaterialCB fr) !! Material.MatCBIndex water
      = Some {| mc_DiffuseAlbedo := Material.DiffuseAlbedo water;
                mc_FresnelR0 := Material.FresnelR0 water;
                mc_Roughness := Material.Roughness water;
                mc_MatTransform := XMMatrixTranspose (Material.MatTransform water) |}.
Proof.
  destruct scenario_three_frames as [st' Hrun]. exists st'. split; [exact Hrun|].
  apply (material_counters_account_for_ring _ _ _ _ Hrun).
  - reflexivity.
  - cbn. lia.
  - exact scenario_counters_in_range.
  - exact scenario_slots_distinct.
  - exact scenario_materials_synced.
  - intros X. discriminate X.
Defined.

End MaterialSync.
(* ================================================================== *)
(** ** The command list and the queue *)

Section Recording.

(** The commands of the items of a layer keep the back buffer a
    render target. *)
Lemma replay_DrawRenderItems st p ritems : forall cs rest,
  DrawRenderItems st p ritems = Some cs ->
  replay D3D12_RESOURCE_STATE_RENDER_TARGET (cs ++ rest)
  = replay D3D12_RESOURCE_STATE_RENDER_TARGET rest.
Proof.
  induction ritems as [|h ritems IH]; intros cs rest H; cbn [DrawRenderItems] in H.
  - by injection H as <-.
  - destruct (DrawRenderItem st p h) as [c|] eqn:Hc; [|done]. cbn in H.
    destruct (DrawRenderItems st p ritems) as [cs'|] eqn:Hcs; [|done]. cbn in H.
    injection H as <-. unfold DrawRenderItem in Hc.
    destruct (mAllRitems st !! h) as [ri|]; [|done]. cbn in Hc.
    destruct (RenderItem.Geo ri) as [g|]; [|done]. cbn in Hc.
    destruct (mGeometries st !! g) as [geo|]; [|done]. cbn in Hc.
    destruct (RenderItem.Mat ri) as [m|]; [|done]. cbn in Hc.
    destruct (mMaterials st !! m) as [mat|]; [|done]. cbn in Hc.
    injection Hc as <-. rewrite <- app_assoc. cbn. by apply IH.
Qed.

Lemma last_two {A} (l : list A) x y : list.last (l ++ [x; y]) = Some y.
Proof. change [x; y] with ([x] ++ [y]). rewrite app_assoc. apply last_snoc. Qed.

(** X6: the command list [Draw] records respects the state of the
    back buffer. It starts by resetting the list with the opaque
    pipeline state and ends by closing it; the back buffer, in the
    present state before, is made a render target before it is cleared
    and before anything is drawn, stays one for every draw call of the
    four layers, and is back in the present state at the end, as
    [Present] needs it; this for any layer lists. *)
Theorem Draw_commands_back_buffer (st : App) (cmds : list Cmd) :
  Draw_commands st = Some cmds ->
  replay D3D12_RESOURCE_STATE_PRESENT cmds = Some D3D12_RESOURCE_STATE_PRESENT /\
  head cmds = Some (CmdReset "opaque") /\
  list.last cmds = Some CmdClose /\
  replay D3D12_RESOURCE_STATE_RENDER_TARGET cmds = None.
Proof.
  unfold Draw_commands. intros H.
  destruct (CurrFrameResource st) as [[p fr]|]; [|done]. cbn in H.
  destruct (DrawRenderItems st p (mRitemLayer st Opaque)) as [c1|] eqn:H1; [|done].
  cbn in H.
  destruct (DrawRenderItems st p (mRitemLayer st AlphaTested)) as [c2|] eqn:H2; [|done].
  cbn in H.
  destruct (DrawRenderItems st p (mRitemLayer st AlphaTestedTreeSprites)) as [c3|] eqn:H3;
    [|done].
  cbn in H.
  destruct (DrawRenderItems st p (mRitemLayer st Transparent)) as [c4|] eqn:H4; [|done].
  cbn in H. injection H as <-.
  split; [|split; [reflexivity|split]].
  - cbn [replay]. rewrite decide_True by reflexivity. cbn [replay].
    rewrite decide_True by reflexivity.
    rewrite (replay_DrawRenderItems _ _ _ _ _ H1). cbn [replay].
    rewrite (replay_DrawRenderItems _ _ _ _ _ H2). cbn [replay].
    rewrite (replay_DrawRenderItems _ _ _ _ _ H3). cbn [replay].
    rewrite (replay_DrawRenderItems _ _ _ _ _ H4). cbn [replay].
    by rewrite decide_True by reflexivity.
  - rewrite !app_comm_cons, !app_assoc. apply last_two.
  - reflexivity.
Qed.

(** The scenario's first frame. *)
Lemma Draw_commands_back_buffer_witness :
  exists cmds,
    Draw_commands scenario_updated = Some cmds /\
    replay D3D12_RESOURCE_STATE_PRESENT cmds = Some D3D12_RESOURCE_STATE_PRESENT /\
    length cmds = 29%nat.
Proof.
  destruct (Draw_commands scenario_updated) as [cmds|] eqn:H; [|no_fault H].
  exists cmds. split; [reflexivity|].
  split; [exact (proj1 (Draw_commands_back_buffer _ _ H))|].
  vm_compute in H. injection H as <-. reflexivity.
Defined.

(** *** What is bound at each draw call *)

Lemma objCBByteSize_256 : objCBByteSize = 256.
Proof. reflexivity. Qed.

Lemma matCBByteSize_256 : matCBByteSize = 256.
Proof. reflexivity. Qed.

Lemma bound_draws_DrawRenderItem st p h c b rest :
  DrawRenderItem st p h = Some c ->
  Forall (fun e => 0 <= RenderItem.ObjCBIndex e < 2 ^ 24) (mAllRitems st) ->
  map_Forall (fun _ m => 0 <= Material.MatCBIndex m < 2 ^ 24) (mMaterials st) ->
  b_PassCB b = Some (PassCBAddress p) ->
  exists bi, item_bindings st p h = Some bi /\
    b_PassCB bi = Some (PassCBAddress p) /\
    bound_draws b (c ++ rest) = bi :: bound_draws bi rest.
Proof.
  unfold DrawRenderItem, item_bindings. intros H Hitems Hmats Hb.
  destruct (mAllRitems st !! h) as [ri|] eqn:Hri; [|done]. cbn in H |- *.
  destruct (RenderItem.Geo ri) as [g|]; [|done]. cbn in H |- *.
  destruct (mGeometries st !! g) as [geo|]; [|done]. cbn in H |- *.
  destruct (RenderItem.Mat ri) as [m|]; [|done]. cbn in H |- *.
  destruct (mMaterials st !! m) as [mat|] eqn:Hmat; [|done]. cbn in H |- *.
  injection H as <-. eexists. split; [reflexivity|]. split; [reflexivity|].
  rewrite objCBByteSize_256, matCBByteSize_256.
  rewrite list.Forall_forall in Hitems.
  pose proof (Hitems ri (list_elem_of_lookup_2 _ _ _ Hri)) as Hi. cbn in Hi.
  pose proof (Hmats m mat Hmat) as Hm. cbn in Hm.
  rewrite !wrap_UINT_small by lia.
  simpl. rewrite Hb, !(Z.mul_comm _ 256). reflexivity.
Qed.

Lemma bound_draws_DrawRenderItems st p ritems : forall cs b rest,
  DrawRenderItems st p ritems = Some cs ->
  Forall (fun e => 0 <= RenderItem.ObjCBIndex e < 2 ^ 24) (mAllRitems st) ->
  map_Forall (fun _ m => 0 <= Material.MatCBIndex m < 2 ^ 24) (mMaterials st) ->
  b_PassCB b = Some (PassCBAddress p) ->
  exists bs b', mapM (item_bindings st p) ritems = Some bs /\
    b_PassCB b' = Some (PassCBAddress p) /\
    bound_draws b (cs ++ rest) = bs ++ bound_draws b' rest.
Proof.
  induction ritems as [|h ritems IH]; intros cs b rest H Hitems Hmats Hb;
    cbn [DrawRenderItems] in H.
  - injection H as <-. by exists [], b.
  - destruct (DrawRenderItem st p h) as [c|] eqn:Hc; [|done]. cbn in H.
    destruct (DrawRenderItems st p ritems) as [cs'|] eqn:Hcs; [|done]. cbn in H.
    injection H as <-.
    destruct (bound_draws_DrawRenderItem _ _ _ _ b (cs' ++ rest) Hc Hitems Hmats Hb)
      as (bi & Hbi & Hpass & Hd).
    destruct (IH cs' bi rest eq_refl Hitems Hmats Hpass) as (bs & b' & Hbs & Hb' & Hd').
    exists (bi :: bs), b'. split; [|split; [exact Hb'|]].
    + cbn [mapM]. rewrite Hbi. cbn. rewrite Hbs. reflexivity.
    + rewrite <- app_assoc, Hd, Hd'. reflexivity.
Qed.

Lemma mapM_app_Some {A B} (f : A -> option B) l1 l2 r1 r2 :
  mapM f l1 = Some r1 -> mapM f l2 = Some r2 -> mapM f (l1 ++ l2) = Some (r1 ++ r2).
Proof.
  intros H1 H2. apply mapM_Some. apply Forall2_app; by apply mapM_Some.
Qed.

(** X7: what is bound at the draw calls of a frame. The command list
    [Draw] records issues one draw call per item of the four layers, in
    the order opaque, alpha-tested, tree sprites, transparent, and at
    the draw call of an item the vertex and index buffer are those of
    the item's mesh, the topology is the item's, the descriptor table
    points to the texture slot of the item's material, the object
    constants are those at byte offset [256 * ObjCBIndex] and the
    material constants those at byte offset [256 * MatCBIndex] of the
    buffers of the current frame resource, whose pass constants are
    bound as well; nothing bound for an earlier item is left in force. *)
Theorem Draw_commands_bindings (st : App) (cmds : list Cmd) (p : nat) (fr : FrameResource) :
  Draw_commands st = Some cmds ->
  CurrFrameResource st = Some (p, fr) ->
  Forall (fun e => 0 <= RenderItem.ObjCBIndex e < 2 ^ 24) (mAllRitems st) ->
  map_Forall (fun _ m => 0 <= Material.MatCBIndex m < 2 ^ 24) (mMaterials st) ->
  mapM (item_bindings st p) (drawn_items st) = Some (bound_draws no_Bindings cmds).
Proof.
  unfold Draw_commands. intros H Hc Hitems Hmats. rewrite Hc in H. cbn in H.
  destruct (DrawRenderItems st p (mRitemLayer st Opaque)) as [c1|] eqn:H1; [|done].
  cbn in H.
  destruct (DrawRenderItems st p (mRitemLayer st AlphaTested)) as [c2|] eqn:H2; [|done].
  cbn in H.
  destruct (DrawRenderItems st p (mRitemLayer st AlphaTestedTreeSprites)) as [c3|] eqn:H3;
    [|done].
  cbn in H.
  destruct (DrawRenderItems st p (mRitemLayer st Transparent)) as [c4|] eqn:H4; [|done].
  cbn in H. injection H as <-.
  cbn [bound_draws bind].
  match goal with |- context [bound_draws ?b (c1 ++ ?rest)] =>
    destruct (bound_draws_DrawRenderItems _ _ _ _ b rest H1 Hitems Hmats eq_refl)
      as (bs1 & b1 & M1 & P1 & ->) end.
  cbn [bound_draws bind].
  destruct (bound_draws_DrawRenderItems _ _ _ _ b1
              (SetPipelineState "treeSprites" :: c3 ++ SetPipelineState "transparent" :: c4
               ++ [ResourceBarrier D3D12_RESOURCE_STATE_RENDER_TARGET
                     D3D12_RESOURCE_STATE_PRESENT; CmdClose]) H2 Hitems Hmats P1)
    as (bs2 & b2 & M2 & P2 & ->).
  cbn [bound_draws bind].
  destruct (bound_draws_DrawRenderItems _ _ _ _ b2
              (SetPipelineState "transparent" :: c4
               ++ [ResourceBarrier D3D12_RESOURCE_STATE_RENDER_TARGET
                     D3D12_RESOURCE_STATE_PRESENT; CmdClose]) H3 Hitems Hmats P2)
    as (bs3 & b3 & M3 & P3 & ->).
  cbn [bound_draws bind].
  destruct (bound_draws_DrawRenderItems _ _ _ _ b3
              [ResourceBarrier D3D12_RESOURCE_STATE_RENDER_TARGET
                 D3D12_RESOURCE_STATE_PRESENT; CmdClose] H4 Hitems Hmats P3)
    as (bs4 & b4 & M4 & P4 & ->).
  cbn [bound_draws bind]. rewrite app_nil_r. unfold drawn_items.
  repeat (apply mapM_app_Some; [assumption|]). assumption.
Qed.

(** The scenario's first frame: the land item, then the water item,
    each with its own slot of the object-constant buffer of frame
    resource 1. *)
Lemma Draw_commands_bindings_witness :
  exists cmds,
    Draw_commands scenario_updated = Some cmds /\
    mapM (item_bindings scenario_updated 1) [1%nat; 0%nat]
    = Some (bound_draws no_Bindings cmds) /\
    b_ObjectCB <$> bound_draws no_Bindings cmds
    = [Some (ObjectCBAddress 1 256); Some (ObjectCBAddress 1 0)].
Proof.
  destruct scenario_updated_current as [fr Hc].
  destruct scenario_updated_indices as [Hitems Hmats].
  destruct (Draw_commands scenario_updated) as [cmds|] eqn:H; [|no_fault H].
  exists cmds. split; [reflexivity|]. split.
  - exact (Draw_commands_bindings _ _ _ _ H Hc Hitems Hmats).
  - clear Hc Hitems Hmats. vm_compute in H. injection H as <-. reflexivity.
Defined.

End Recording.
(* ================================================================== *)
(** ** The command queue over a run of frames *)

Section Queue.

Lemma signals_app q1 q2 : signals (q1 ++ q2) = signals q1 ++ signals q2.
Proof. unfold signals. apply omap_app. Qed.

Lemma presents_app q1 q2 : presents (q1 ++ q2) = (presents q1 + presents q2)%nat.
Proof. unfold presents. by rewrite omap_app, length_app. Qed.

(** What one frame does to the queue, to the fence counter and to the
    back buffer index. *)
Lemma frame_queue inp st st' :
  frame inp st = Some st' ->
  exists cmds,
    mCommandQueue st'
    = mCommandQueue st ++ [ExecuteCommandLists cmds; Present; Signal (mCurrentFence st + 1)] /\
    mCurrentFence st' = mCurrentFence st + 1 /\
    stamped_fence st' = Some (mCurrentFence st + 1) /\
    mCurrBackBuffer st' = Z.rem (wrap_int (mCurrBackBuffer st + 1)) SwapChainBufferCount.
Proof.
  unfold frame. intros H.
  destruct (Update inp st) as [[s waited]|] eqn:Hu; [|done]. cbn [mbind option_bind] in H.
  rewrite Update_unfold in Hu. case_decide as Hslot; [|done].
  destruct (mFrameResources st !! Z.to_nat (next_slot st)) as [fr|] eqn:Hfr; [|done].
  cbn [mbind option_bind] in Hu.
  destruct (Update_writes inp _) as [s'|] eqn:Hw; [|done]. cbn in Hu.
  injection Hu as -> _.
  assert (Hc : CurrFrameResource (Update_selected inp (Z.to_nat (next_slot st)) st)
               = Some (Z.to_nat (next_slot st), fr)).
  { apply CurrFrameResource_Some. split; [reflexivity|exact Hfr]. }
  destruct (Update_writes_exact _ _ _ _ _ Hw Hc)
    as (fr1 & waves & w & ritem & g & geo & Hfrs & _ & _ & _ & _ & _ & _
        & _ & _ & _ & _ & _ & _ & _ & _ & _ & _ & Hcur & _ & Hcf & Hback & _ & _ & Hq & _).
  change (mCommandQueue s = mCommandQueue st) in Hq.
  change (mCurrentFence s = mCurrentFence st) in Hcf.
  change (mCurrBackBuffer s = mCurrBackBuffer st) in Hback.
  apply Draw_exact in H as (p & fr2 & cmds & Hc2 & _ & ->).
  exists cmds.
  assert (Hst : stamped_fence
                  (store_FrameResource p (set_Fence (mCurrentFence s + 1) fr2) s)
                = Some (mCurrentFence s + 1)).
  { unfold stamped_fence. rewrite (CurrFrameResource_store p fr2 _ _ Hc2). reflexivity. }
  split; [|split; [|split]].
  - cbn [mCommandQueue set_mCommandQueue]. by rewrite Hq, Hcf.
  - cbn [mCurrentFence set_mCommandQueue store_FrameResource set_mFrameResources
         set_mCurrentFence]. by rewrite Hcf.
  - rewrite <- Hcf. exact Hst.
  - cbn [mCurrBackBuffer set_mCommandQueue store_FrameResource set_mFrameResources
         set_mCurrentFence set_mCurrBackBuffer]. by rewrite Hback.
Qed.

(** X8: the queue over a run of frames. Every frame submits one
    command list, presents once and then asks for one signal, of the
    fence value it stamps into its frame resource; over [n] frames from
    fence counter [f] the values signalled are [f + 1], .., [f + n] in
    that order, after whatever was signalled before, and the counter
    ends at [f + n]; the back buffer index alternates between 0 and 1. *)
Theorem run_frames_queue (inps : list FrameInput) (st st' : App) (log : list (Z * Z)) :
  run_frames inps st = Some (st', log) ->
  0 <= mCurrBackBuffer st < 2 ->
  signals (mCommandQueue st') = signals (mCommandQueue st) ++ log.*2 /\
  log.*2 = (fun k => mCurrentFence st + Z.of_nat k) <$> seq 1 (length inps) /\
  presents (mCommandQueue st') = (presents (mCommandQueue st) + length inps)%nat /\
  length (mCommandQueue st') = (length (mCommandQueue st) + 3 * length inps)%nat /\
  mCurrentFence st' = mCurrentFence st + Z.of_nat (length inps) /\
  mCurrBackBuffer st' = (mCurrBackBuffer st + Z.of_nat (length inps)) mod 2.
Proof.
  revert st st' log. induction inps as [|inp inps IH]; intros st st' log H Hback.
  - cbn in H. injection H as <- <-. cbn. rewrite app_nil_r, !Nat.add_0_r, !Z.add_0_r.
    rewrite Z.mod_small by lia. done.
  - cbn [run_frames] in H.
    destruct (frame inp st) as [s|] eqn:Hf; [|done]. cbn [mbind option_bind] in H.
    destruct (stamped_fence s) as [f|] eqn:Hst; [|done]. cbn [mbind option_bind] in H.
    destruct (run_frames inps s) as [[s' log']|] eqn:Hr; [|done]. cbn in H.
    injection H as <- <-.
    destruct (frame_queue _ _ _ Hf) as (cmds & Hq & Hcf & Hstamp & Hb).
    rewrite Hstamp in Hst. injection Hst as <-.
    assert (Hb1 : mCurrBackBuffer s = (mCurrBackBuffer st + 1) mod 2).
    { rewrite Hb. unfold SwapChainBufferCount. rewrite wrap_int_small by lia.
      apply Z.rem_mod_nonneg; lia. }
    destruct (IH s s' log' Hr) as (Hsig & Hlog & Hpres & Hlen & Hfence & Hbb).
    { rewrite Hb1. apply Z.mod_pos_bound. lia. }
    cbn [fmap list_fmap snd length]. rewrite Hsig, Hlog, Hpres, Hlen, Hfence, Hbb, Hq, Hcf, Hb1.
    rewrite signals_app, presents_app, length_app.
    change (signals [ExecuteCommandLists cmds; Present; Signal (mCurrentFence st + 1)])
      with [mCurrentFence st + 1].
    change (presents [ExecuteCommandLists cmds; Present; Signal (mCurrentFence st + 1)])
      with 1%nat.
    cbn [length].
    split; [by rewrite <- app_assoc|]. split.
    + cbn [seq fmap list_fmap]. f_equal; try lia.
      rewrite <- (fmap_S_seq 1), <- list_fmap_compose. apply list_fmap_ext.
      intros _ k _. cbn. lia.
    + split; [lia|]. split; [lia|]. split; [lia|].
      rewrite Zplus_mod_idemp_l. f_equal. lia.
Qed.

(** Five frames of the scenario. *)
Lemma run_frames_queue_witness :
  exists st',
    run_frames [sample_input (1 # 60) 0; sample_input (2 # 60) 0; sample_input (3 # 60) 0;
                sample_input (4 # 60) 0; sample_input (5 # 60) 0] scenario_app
      = Some (st', [(1, 1); (2, 2); (0, 3); (1, 4); (2, 5)]) /\
    signals (mCommandQueue st') = [1; 2; 3; 4; 5] /\
    mCurrBackBuffer st' = 1.
Proof.
  destruct (run_frames_spec
              [sample_input (1 # 60) 0; sample_input (2 # 60) 0; sample_input (3 # 60) 0;
               sample_input (4 # 60) 0; sample_input (5 # 60) 0]
              scenario_app scenario_well_formed) as (st' & Hrun & _); [cbn; lia|].
  exists st'. split; [exact Hrun|].
  destruct (run_frames_queue _ _ _ _ Hrun) as (Hsig & _ & _ & _ & _ & Hb); [cbn; lia|].
  split; [exact Hsig|exact Hb].
Defined.

End Queue.
(* ================================================================== *)
(** ** The wave vertex buffer *)

Section WaveVertices.

Lemma wave_fold_lookup (f : Z -> Vertex) count : forall x (m : gmap Z Vertex) i,
  foldl (fun m i => <[i := f i]> m) m (int_range_from x count) !! i
  = if decide (x <= i < x + Z.of_nat count) then Some (f i) else m !! i.
Proof.
  induction count as [|count IH]; intros x m i.
  - cbn. rewrite decide_False by lia. done.
  - cbn [int_range_from foldl]. rewrite IH.
    destruct (decide (x + 1 <= i < x + 1 + Z.of_nat count)) as [Hin|Hout].
    + rewrite decide_True by lia. done.
    + destruct (decide (i = x)) as [->|Hne].
      * rewrite decide_True by lia. apply lookup_insert_eq.
      * rewrite decide_False by lia. by apply lookup_insert_ne.
Qed.

Lemma wave_writes_lookup inp waves m i :
  wave_writes inp waves m !! i
  = if decide (0 <= i < VertexCount waves) then Some (wave_vertex inp waves i) else m !! i.
Proof.
  unfold wave_writes, int_range. rewrite wave_fold_lookup.
  destruct (decide (0 <= i < VertexCount waves)) as [Hin|Hout].
  - rewrite decide_True by lia. done.
  - rewrite decide_False by lia. done.
Qed.

Lemma waves_after_calls inp st waves :
  waves_after inp st = Some waves ->
  list.last (waves_calls waves) = Some (Waves_Update (DeltaTime (gt inp))) /\
  RowCount waves = RowCount (mWaves st) /\ ColumnCount waves = ColumnCount (mWaves st) /\
  SpatialStep waves = SpatialStep (mWaves st).
Proof.
  unfold waves_after. destruct (UpdateWaves_disturb inp st) as [[tb w]|] eqn:Hd; [|done].
  cbn. intros [= <-]. cbn. split; [apply last_snoc|].
  unfold UpdateWaves_disturb in Hd. destruct (Qle_bool _ _); [|by injection Hd as _ <-].
  cbn zeta in Hd. destruct (MathHelper_Rand (rand_row inp) _ _) as [i|]; cbn in Hd; [|done].
  destruct (MathHelper_Rand (rand_col inp) _ _) as [j|]; cbn in Hd; [|done].
  by injection Hd as _ <-.
Qed.

(** X9: the copy loop of [UpdateWaves]. After a call the wave
    simulator has received its [Update(dt)] as the last call; the wave
    vertex buffer of the current frame resource holds, at every index
    below the vertex count, the position and the normal the simulator
    then reports for that vertex, with the texture coordinates derived
    from the position; what the buffer holds at other indices, the
    other buffers of the frame resource and the other frame resources
    are untouched; and the mesh of the wave render item, and no other
    mesh, is repointed to the wave vertex buffer of the current frame
    resource. *)
Theorem UpdateWaves_vertex_buffer (inp : FrameInput) (st st' : App) :
  UpdateWaves inp st = Some st' ->
  exists waves p fr fr' w ritem g geo,
    waves_after inp st = Some waves /\ mWaves st' = waves /\
    list.last (waves_calls waves) = Some (Waves_Update (DeltaTime (gt inp))) /\
    CurrFrameResource st = Some (p, fr) /\
    mFrameResources st' = <[p := fr']> (mFrameResources st) /\
    (forall i, 0 <= i < VertexCount waves ->
       Elements (WavesVB fr') !! i
       = Some {| Pos := WavesPosition inp i; Normal := WavesNormal inp i;
                 TexC := ((1 # 2) + (WavesPosition inp i).1.1 / Width waves,
                          (1 # 2) - (WavesPosition inp i).2 / Depth waves)%Q |}) /\
    (forall i, ~ 0 <= i < VertexCount waves ->
       Elements (WavesVB fr') !! i = Elements (WavesVB fr) !! i) /\
    PassCB fr' = PassCB fr /\ ObjectCB fr' = ObjectCB fr /\
    MaterialCB fr' = MaterialCB fr /\ Fence fr' = Fence fr /\
    mWavesRitem st = Some w /\ mAllRitems st !! w = Some ritem /\
    RenderItem.Geo ritem = Some g /\ mGeometries st !! g = Some geo /\
    mGeometries st' = <[g := set_VertexBufferGPU (WavesVBResource p) geo]> (mGeometries st).
Proof.
  intros H. apply UpdateWaves_exact in H
    as (waves & p & fr & vb & g & geo & w & ritem & Hwaves & Hc & He & Hn
        & Hwr & Hw & Hg & Hgeo & Hfrs & Hgeos & Hmw & _).
  exists waves, p, fr, (set_WavesVB vb fr), w, ritem, g, geo.
  split; [exact Hwaves|]. split; [exact Hmw|].
  split; [exact (proj1 (waves_after_calls _ _ _ Hwaves))|].
  split; [exact Hc|]. split; [exact Hfrs|].
  cbn [WavesVB set_WavesVB PassCB ObjectCB MaterialCB Fence]. rewrite He. split.
  - intros i Hi. rewrite wave_writes_lookup, decide_True by exact Hi. f_equal.
    unfold wave_vertex. by destruct (WavesPosition inp i) as [[x y] z].
  - split.
    + intros i Hi. by rewrite wave_writes_lookup, decide_False by exact Hi.
    + repeat (split; [done|]). exact Hgeos.
Qed.

(** The first [UpdateWaves] of the scenario writes the 81 vertices of
    the 9 x 9 grid. *)
Lemma UpdateWaves_vertex_buffer_witness :
  exists st' fr',
    UpdateWaves (sample_input 0 0) (set_mCurrFrameResource (Some 1%nat) scenario_app)
      = Some st' /\
    mFrameResources st' !! 1%nat = Some fr' /\
    Pos <$> Elements (WavesVB fr') !! 80 = Some (80 # 1, 0, 0)%Q.
Proof.
  destruct (UpdateWaves (sample_input 0 0)
              (set_mCurrFrameResource (Some 1%nat) scenario_app)) as [st'|] eqn:H;
    [|no_fault H].
  destruct (UpdateWaves_vertex_buffer _ _ _ H)
    as (waves & p & fr & fr' & w & ritem & g & geo & Hwaves & _ & _ & Hc & Hfrs & Hin & _).
  clear H. exists st', fr'. split; [reflexivity|].
  apply CurrFrameResource_Some in Hc as [Hp Hfr]. cbn in Hp. injection Hp as <-.
  split.
  - rewrite Hfrs. apply list_lookup_insert_eq. eapply lookup_lt_Some. exact Hfr.
  - vm_compute in Hwaves. injection Hwaves as <-. rewrite Hin; [reflexivity|].
    vm_compute. split; [intros X; discriminate X|reflexivity].
Defined.

Lemma Qdiv_le_pos (a b c : Q) : (0 < c -> a <= b -> a / c <= b / c)%Q.
Proof.
  intros Hc Hab. unfold Qdiv. apply Qmult_le_compat_r; [exact Hab|].
  apply Qlt_le_weak, Qinv_lt_0_compat, Hc.
Qed.

(** X10: the texture coordinates of a wave vertex.  A vertex within
    the extent of the grid, [-w/2, w/2] in x and [-d/2, d/2] in z, gets
    coordinates within [0, 1]; a vertex on the centre line gets 1/2;
    and of two vertices the one further in x has the larger [u], the
    one further in z the smaller [v]. *)
Theorem wave_vertex_TexC (inp : FrameInput) (w : Waves) (i : Z) (x y z : Q) :
  WavesPosition inp i = (x, y, z) ->
  (0 < Width w)%Q -> (0 < Depth w)%Q ->
  let '(u, v) := TexC (wave_vertex inp w i) in
  ((- ((1 # 2) * Width w) <= x <= (1 # 2) * Width w -> 0 <= u <= 1) /\
   (- ((1 # 2) * Depth w) <= z <= (1 # 2) * Depth w -> 0 <= v <= 1) /\
   (x == 0 -> u == 1 # 2) /\ (z == 0 -> v == 1 # 2))%Q /\
  forall (j : Z) (x' y' z' : Q),
    WavesPosition inp j = (x', y', z') ->
    let '(u', v') := TexC (wave_vertex inp w j) in
    ((x <= x' -> u <= u') /\ (z <= z' -> v' <= v))%Q.
Proof.
  intros Hpos Hw Hd. unfold wave_vertex. rewrite Hpos. cbn [TexC].
  assert (Hhalf : forall c, (0 < c -> (1 # 2) * c / c == 1 # 2)%Q).
  { intros c Hc. field. intros E. lra. }
  assert (Hnhalf : forall c, (0 < c -> - ((1 # 2) * c) / c == - (1 # 2))%Q).
  { intros c Hc. field. intros E. lra. }
  split; [split; [|split; [|split]]|].
  - intros [H1 H2]. pose proof (Qdiv_le_pos _ _ _ Hw H1) as Ha.
    pose proof (Qdiv_le_pos _ _ _ Hw H2) as Hb.
    rewrite Hnhalf in Ha by exact Hw. rewrite Hhalf in Hb by exact Hw. lra.
  - intros [H1 H2]. pose proof (Qdiv_le_pos _ _ _ Hd H1) as Ha.
    pose proof (Qdiv_le_pos _ _ _ Hd H2) as Hb.
    rewrite Hnhalf in Ha by exact Hd. rewrite Hhalf in Hb by exact Hd. lra.
  - intros E. rewrite E. unfold Qdiv. ring.
  - intros E. rewrite E. unfold Qdiv. ring.
  - intros j x' y' z' Hpos'. rewrite Hpos'. cbn [TexC]. split.
    + intros Hle. pose proof (Qdiv_le_pos _ _ _ Hw Hle). lra.
    + intros Hle. pose proof (Qdiv_le_pos _ _ _ Hd Hle). lra.
Qed.

(** Two corners of a 9 x 9 grid of step 1. *)
Lemma wave_vertex_TexC_witness :
  let inp := {| gt := {| DeltaTime := 0; TotalTime := 0 |};
                keyW := false; keyS := false; keyA := false; keyD := false;
                key1 := false; key2 := false; CompletedValue := 0;
                rand_row := 0; rand_col := 0; rand_magnitude := 0;
                WavesPosition := fun i => if i =? 0 then ((-9 # 2), 0, (9 # 2))%Q
                                          else ((9 # 2), 0, (-9 # 2))%Q;
                WavesNormal := fun _ => (0, 1, 0)%Q |} in
  (0 <= (TexC (wave_vertex inp scenario_Waves 0)).1 <= 1)%Q /\
  ((TexC (wave_vertex inp scenario_Waves 0)).1 <= (TexC (wave_vertex inp scenario_Waves 80)).1)%Q.
Proof.
  intros inp.
  pose proof (wave_vertex_TexC inp scenario_Waves 0 (-9 # 2) 0 (9 # 2) eq_refl) as H.
  destruct (TexC (wave_vertex inp scenario_Waves 0)) as [u v] eqn:E.
  destruct H as [(Hu & _) Hmono]; [reflexivity|reflexivity|].
  specialize (Hmono 80 (9 # 2)%Q 0%Q (-9 # 2)%Q eq_refl).
  destruct (TexC (wave_vertex inp scenario_Waves 80)) as [u' v'] eqn:E'.
  destruct Hmono as [Hm _]. cbn [fst]. split.
  - apply Hu. vm_compute. split; intros X; discriminate X.
  - apply Hm. vm_compute. intros X; discriminate X.
Defined.

End WaveVertices.
(* ================================================================== *)
(** ** The waves are drawn from the buffer of the frame *)

Section WaveDraw.

(** X11: [Update] and the draw of the waves. After [Update] the
    current frame resource is the one of the next slot of the ring, and
    the mesh of the wave render item points to the wave vertex buffer
    of that frame resource; so the draw call [Draw] then records for
    the wave item binds the vertex buffer [Update] has just filled, and
    not the one a frame in flight still reads. The other meshes are
    untouched. *)
Theorem Update_repoints_wave_mesh (inp : FrameInput) (st st1 : App) (waited : option Z) :
  Update inp st = Some (st1, waited) ->
  exists p w g geo,
    Z.of_nat p = next_slot st /\
    mCurrFrameResource st1 = Some p /\
    mWavesRitem st1 = Some w /\
    RenderItem.Geo <$> mAllRitems st1 !! w = Some (Some g) /\
    mGeometries st1 !! g = Some geo /\
    VertexBufferGPU geo = WavesVBResource p /\
    (forall b, item_bindings st1 p w = Some b ->
       b_VertexBuffer b = Some (WavesVBResource p)) /\
    (forall g2, g2 <> g -> mGeometries st1 !! g2 = mGeometries st !! g2).
Proof.
  rewrite Update_unfold. intros H. case_decide as Hslot; [|done].
  destruct (mFrameResources st !! Z.to_nat (next_slot st)) as [fr|] eqn:Hfr; [|done].
  cbn [mbind option_bind] in H.
  destruct (Update_writes inp _) as [s'|] eqn:Hw; [|done]. cbn in H.
  injection H as -> _.
  assert (Hc : CurrFrameResource (Update_selected inp (Z.to_nat (next_slot st)) st)
               = Some (Z.to_nat (next_slot st), fr)).
  { apply CurrFrameResource_Some. split; [reflexivity|exact Hfr]. }
  destruct (Update_writes_exact _ _ _ _ _ Hw Hc)
    as (fr1 & waves & w & ritem & g & geo & _ & _ & _ & _ & _ & _ & _
        & _ & _ & Hitems & _ & _ & Hwr & Hri & Hg & Hgeo & Hgeos & Hcur & _ & _ & _ & _
        & Hwr' & _).
  change (mAllRitems (Update_selected inp (Z.to_nat (next_slot st)) st))
    with (mAllRitems st) in Hitems, Hri.
  change (mGeometries (Update_selected inp (Z.to_nat (next_slot st)) st))
    with (mGeometries st) in Hgeos, Hgeo.
  exists (Z.to_nat (next_slot st)), w, g,
    (set_VertexBufferGPU (WavesVBResource (Z.to_nat (next_slot st))) geo).
  assert (Hri1 : mAllRitems st1 !! w = Some (tick_ritem ritem)).
  { by rewrite Hitems, list_lookup_fmap, Hri. }
  assert (Hgeo1 : mGeometries st1 !! g
                  = Some (set_VertexBufferGPU (WavesVBResource (Z.to_nat (next_slot st))) geo)).
  { rewrite Hgeos. apply lookup_insert_eq. }
  split; [lia|]. split; [exact Hcur|]. split; [by rewrite Hwr'|].
  split; [by rewrite Hri1; cbn; rewrite Geo_tick, Hg|].
  split; [exact Hgeo1|]. split; [reflexivity|]. split.
  - intros b Hb. unfold item_bindings in Hb. rewrite Hri1 in Hb. cbn in Hb.
    rewrite Geo_tick, Hg in Hb. cbn in Hb. rewrite Hgeo1 in Hb. cbn in Hb.
    destruct (RenderItem.Mat (tick_ritem ritem)) as [m|]; [|done]. cbn in Hb.
    destruct (mMaterials st1 !! m) as [mat|]; [|done]. cbn in Hb.
    by injection Hb as <-.
  - intros g2 Hne. rewrite Hgeos. by apply lookup_insert_ne.
Qed.

(** The scenario: after the first [Update] the current frame resource
    is the one of slot 1, and the mesh of the wave item points to its
    wave vertex buffer. *)
Lemma Update_repoints_wave_mesh_witness :
  exists p w g geo,
    Z.of_nat p = 1 /\
    mCurrFrameResource scenario_updated = Some p /\
    mWavesRitem scenario_updated = Some w /\
    mGeometries scenario_updated !! g = Some geo /\
    VertexBufferGPU geo = WavesVBResource p.
Proof.
  destruct (Update_repoints_wave_mesh _ _ _ _ scenario_updated_Update)
    as (p & w & g & geo & Hp & Hc & Hw & _ & Hgeo & Hvb & _).
  exists p, w, g, geo.
  split; [exact Hp|]. split; [exact Hc|]. split; [exact Hw|].
  split; [exact Hgeo|exact Hvb].
Defined.

End WaveDraw.
(* ================================================================== *)
(** ** The scene [Initialize] builds *)

Section Scene.

(** Take the next step of a computation in the fault monad. *)
Local Ltac next H s E :=
  match type of H with
  | (?m ≫= _) = Some _ =>
      destruct m as [s|] eqn:E; [cbn [mbind option_bind] in H | discriminate H]
  end.

(** Membership in a list that is written out. *)
Local Ltac kind :=
  unfold scene_kinds; repeat first [apply list_elem_of_here | apply list_elem_of_further].

(** A call of [BuildMazePart] with [funcCBIndex++] is one more block. *)
Lemma maze_call_add_ritem s a :
  maze_call s a
  = add_ritem (XMMatrixMultiply (XMMatrixScaling a.1.1.1 30 a.1.1.2)
                 (XMMatrixTranslation a.1.2 25 a.2))
      (XMMatrixScaling 6 4 4) "grass" "wallGeo" "wall" TRIANGLELIST AlphaTested s.
Proof.
  destruct s as [c st], a as [[[sX sZ] pX] pZ].
  unfold maze_call, BuildMazePart, add_ritem. cbn [fst snd].
  by destruct (new_RenderItem _ _ _ _ _ _ _ _).
Qed.

(** An invariant of the blocks of [BuildRenderItems] holds at its end. *)
Lemma BuildRenderItems_inv (P : Z * App -> Prop) st st' :
  BuildRenderItems st = Some st' ->
  (forall s1,
     add_ritem (XMMatrixScaling 6 1 6) (XMMatrixScaling 30 30 1)
       "water" "waterGeo" "grid" TRIANGLELIST Transparent (0, st) = Some s1 ->
     P (s1.1, set_mWavesRitem (Some (length (mAllRitems st))) s1.2)) ->
  (forall world tex mat geo sub prim layer s s',
     (mat, geo, sub, prim, layer) ∈ scene_kinds ->
     add_ritem world tex mat geo sub prim layer s = Some s' -> P s -> P s') ->
  exists c, P (c, st').
Proof.
  intros H Hwater Hadd. unfold BuildRenderItems in H. cbn zeta in H.
  assert (Hloop : forall (f : Z * App -> Z -> option (Z * App)) l s s',
            (forall s b s', f s b = Some s' -> P s -> P s') ->
            foldlM f s l = Some s' -> P s -> P s').
  { intros f l s s' Hf Hrun Hs.
    apply (foldlM_invariant P f l s s'); [|exact Hs|exact Hrun].
    intros a b a' _ Ha Hfa. by eapply Hf. }
  next H s1 E1. specialize (Hwater s1 eq_refl). clear E1. rename Hwater into E1.
  next H s2 E2. eapply Hadd in E2; [|kind|exact E1].
  next H box Ebox. clear Ebox box.
  next H s3 E3. eapply Hadd in E3; [|kind|exact E2].
  next H s4 E4. eapply Hadd in E4; [|kind|exact E3].
  next H s5 E5. eapply Hadd in E5; [|kind|exact E4].
  next H s6 E6. eapply Hadd in E6; [|kind|exact E5].
  next H s7 E7. eapply Hloop in E7; [| |exact E6].
  2:{ intros s b s' Hf Hs. eapply Hadd; [|exact Hf|exact Hs].
      kind. }
  next H s8 E8. eapply Hloop in E8; [| |exact E7].
  2:{ intros s b s' Hf Hs. eapply Hadd; [|exact Hf|exact Hs].
      kind. }
  next H s9 E9. eapply Hloop in E9; [| |exact E8].
  2:{ intros s b s' Hf Hs.
      next Hf a1 A1. eapply Hadd in A1; [|kind|exact Hs].
      next Hf a2 A2. eapply Hadd in A2; [|kind|exact A1].
      next Hf a3 A3. eapply Hadd in A3; [|kind|exact A2].
      eapply Hadd; [|exact Hf|exact A3]. kind. }
  next H s10 E10. eapply Hloop in E10; [| |exact E9].
  2:{ intros s b s' Hf Hs. eapply Hadd; [|exact Hf|exact Hs].
      kind. }
  next H s11 E11. eapply Hloop in E11; [| |exact E10].
  2:{ intros s b s' Hf Hs. eapply Hadd; [|exact Hf|exact Hs].
      kind. }
  next H s12 E12. eapply Hloop in E12; [| |exact E11].
  2:{ intros s b s' Hf Hs. eapply Hadd; [|exact Hf|exact Hs].
      kind. }
  next H s13 E13. eapply Hadd in E13; [|kind|exact E12].
  next H s14 E14.
  assert (P s14).
  { apply (foldlM_invariant P maze_call maze_parts s13 s14); [|exact E13|exact E14].
    intros a b a' _ Ha Hfa. rewrite maze_call_add_ritem in Hfa.
    eapply Hadd; [|exact Hfa|exact Ha]. kind. }
  injection H as <-. exists s14.1. by destruct s14.
Qed.

(** What a block stores. *)
Lemma add_ritem_exact world tex mat geo sub prim layer c st s' :
  add_ritem world tex mat geo sub prim layer (c, st) = Some s' ->
  exists ritem,
    s' = (wrap_int (c + 1), push_ritem layer ritem st) /\
    made_as st mat geo sub prim ritem.
Proof.
  unfold add_ritem, new_RenderItem. intros H.
  destruct (mGeometries st !! geo) as [mesh|] eqn:Hg; [|discriminate H].
  cbn [mbind option_bind] in H. injection H as <-.
  eexists. split; [reflexivity|]. exists mesh. split; [exact Hg|]. cbn.
  repeat split; reflexivity.
Qed.

Lemma made_as_frame st st0 mat geo sub prim e :
  mGeometries st = mGeometries st0 -> mMaterials st = mMaterials st0 ->
  made_as st mat geo sub prim e -> made_as st0 mat geo sub prim e.
Proof.
  intros HG HM (mesh & Hg & Hm & H). exists mesh.
  split; [by rewrite <- HG|]. split; [|exact H].
  rewrite Hm. unfold material_ptr. by rewrite HM.
Qed.

Lemma scene_kinds_not_Transparent mat geo sub prim :
  (mat, geo, sub, prim, Transparent) ∉ scene_kinds.
Proof.
  unfold scene_kinds. intros H.
  repeat (apply elem_of_cons in H as [H|H]; [discriminate H|]).
  by apply elem_of_nil in H.
Qed.

Lemma drawn_items_push layer ritem st :
  layer <> Transparent ->
  drawn_items (push_ritem layer ritem st) ≡ₚ drawn_items st ++ [length (mAllRitems st)].
Proof.
  intros Hl. unfold drawn_items, push_ritem. cbn [mRitemLayer set_mRitemLayer set_mAllRitems].
  destruct layer; [| done | |]; repeat (case_decide; try congruence);
    solve_Permutation.
Qed.

(** The first block: the wave item. *)
Lemma built_scene_first st s1 :
  mAllRitems st = [] -> (forall l, mRitemLayer st l = []) ->
  add_ritem (XMMatrixScaling 6 1 6) (XMMatrixScaling 30 30 1)
    "water" "waterGeo" "grid" TRIANGLELIST Transparent (0, st) = Some s1 ->
  built_scene st (s1.1, set_mWavesRitem (Some (length (mAllRitems st))) s1.2).
Proof.
  intros Hnil Hlayers H. apply add_ritem_exact in H as (ritem & -> & Hmade).
  unfold built_scene. cbn [fst snd]. rewrite Hnil.
  split; [reflexivity|]. split; [reflexivity|]. split; [reflexivity|].
  split; [reflexivity|]. split; [reflexivity|]. split; [reflexivity|].
  assert (HT : mRitemLayer (set_mWavesRitem (Some (length (@nil RenderItem.t)))
                 (push_ritem Transparent ritem st)) Transparent = [0%nat]).
  { cbn. rewrite Hlayers, Hnil. reflexivity. }
  assert (Hother : forall l, l <> Transparent ->
            mRitemLayer (set_mWavesRitem (Some (length (@nil RenderItem.t)))
                 (push_ritem Transparent ritem st)) l = []).
  { intros l Hl. cbn. case_decide; [done|]. apply Hlayers. }
  split; [exact HT|]. split.
  - unfold drawn_items. rewrite HT, !Hother by discriminate. cbn. by rewrite Hnil.
  - intros layer h Hh. destruct (decide (layer = Transparent)) as [->|Hne].
    + rewrite HT in Hh. apply list_elem_of_singleton in Hh as ->.
      exists ritem, "water", "waterGeo", "grid", TRIANGLELIST.
      split; [cbn; by rewrite Hnil|]. split; [apply list_elem_of_here|exact Hmade].
    + rewrite Hother in Hh by exact Hne. by apply elem_of_nil in Hh.
Qed.

(** Every later block. *)
Lemma built_scene_add st0 world tex mat geo sub prim layer s s' :
  (mat, geo, sub, prim, layer) ∈ scene_kinds ->
  add_ritem world tex mat geo sub prim layer s = Some s' ->
  built_scene st0 s -> built_scene st0 s'.
Proof.
  intros Hk H (HG & HM & HF & HW & HI & Hw & HT & Hperm & Hitems).
  destruct s as [c st]. cbn [fst snd] in *.
  apply add_ritem_exact in H as (ritem & -> & Hmade).
  apply (made_as_frame st st0) in Hmade; [|exact HG|exact HM].
  assert (Hl : layer <> Transparent).
  { intros ->. by apply scene_kinds_not_Transparent in Hk. }
  unfold built_scene. cbn [fst snd].
  split; [exact HG|]. split; [exact HM|]. split; [exact HF|].
  split; [exact HW|]. split; [exact HI|]. split; [exact Hw|].
  split; [cbn; by case_decide|]. split.
  - rewrite drawn_items_push by exact Hl. rewrite Hperm.
    cbn [push_ritem mAllRitems set_mRitemLayer set_mAllRitems].
    rewrite length_app. cbn [length]. by rewrite Nat.add_1_r, seq_S.
  - intros l h Hh. cbn [push_ritem mAllRitems mRitemLayer set_mRitemLayer set_mAllRitems] in Hh |- *.
    assert (Hold : h ∈ mRitemLayer st l ->
              exists e mat geo submesh primitiveType,
                (mAllRitems st ++ [ritem]) !! h = Some e /\
                (mat, geo, submesh, primitiveType, l) ∈ water_kind :: scene_kinds /\
                made_as st0 mat geo submesh primitiveType e).
    { intros Hin. destruct (Hitems l h Hin) as (e & m & g & sm & p & He & Hin' & Hm).
      exists e, m, g, sm, p. split; [|by split].
      by apply lookup_app_l_Some. }
    case_decide as Hdec; [|by apply Hold].
    subst l. apply elem_of_app in Hh as [Hh|Hh]; [by apply Hold|].
    apply list_elem_of_singleton in Hh as ->.
    exists ritem, mat, geo, sub, prim. split.
    + rewrite lookup_app_r by lia. by rewrite Nat.sub_diag.
    + split; [by apply list_elem_of_further|exact Hmade].
Qed.

(** [BuildRenderItems], run on an application without render items. *)
Lemma BuildRenderItems_built st st' :
  mAllRitems st = [] -> (forall l, mRitemLayer st l = []) ->
  BuildRenderItems st = Some st' -> exists c, built_scene st (c, st').
Proof.
  intros Hnil Hlayers H.
  apply (BuildRenderItems_inv (built_scene st) st st' H).
  - intros s1. by apply built_scene_first.
  - intros world tex mat geo sub prim layer s s'. apply built_scene_add.
Qed.

(** Every stored item is in a layer list. *)
Lemma built_scene_items st0 c st' h e :
  built_scene st0 (c, st') -> mAllRitems st' !! h = Some e ->
  exists layer mat geo sub prim,
    h ∈ mRitemLayer st' layer /\
    (mat, geo, sub, prim, layer) ∈ water_kind :: scene_kinds /\
    made_as st0 mat geo sub prim e.
Proof.
  intros (_ & _ & _ & _ & _ & _ & _ & Hperm & Hitems) He. cbn [fst snd] in *.
  assert (Hh : h ∈ drawn_items st').
  { rewrite Hperm. apply elem_of_seq. apply lookup_lt_Some in He. lia. }
  assert (exists layer, h ∈ mRitemLayer st' layer) as [layer Hl].
  { unfold drawn_items in Hh.
    apply elem_of_app in Hh as [Hh|Hh]; [by eexists|].
    apply elem_of_app in Hh as [Hh|Hh]; [by eexists|].
    apply elem_of_app in Hh as [Hh|Hh]; by eexists. }
  destruct (Hitems layer h Hl) as (e' & mat & geo & sub & prim & He' & Hk & Hm).
  rewrite He in He'. injection He' as <-.
  by exists layer, mat, geo, sub, prim.
Qed.

(** The kinds, one by one. *)
Lemma kinds_cases mat geo sub prim layer :
  (mat, geo, sub, prim, layer) ∈ water_kind :: scene_kinds ->
  geo <> "boxGeo" /\
  (prim = D3D_PRIMITIVE_TOPOLOGY_POINTLIST <-> layer = AlphaTestedTreeSprites) /\
  (geo = "treeSpritesGeo" <-> layer = AlphaTestedTreeSprites) /\
  (geo = "waterGeo" <-> layer = Transparent) /\
  geo ∈ scene_geometry_names /\
  mat ∈ ["grass"; "water"; "brick"; "marble"; "wood"; "crystal"; "treeSprites"].
Proof.
  unfold water_kind, scene_kinds, scene_geometry_names. intros H.
  repeat (apply elem_of_cons in H as [H|H];
          [injection H as -> -> -> -> ->;
           split; [discriminate|]; split; [split; discriminate || reflexivity|];
           split; [split; discriminate || reflexivity|];
           split; [split; discriminate || reflexivity|];
           split; repeat first [apply list_elem_of_here | apply list_elem_of_further]|]).
  by apply elem_of_nil in H.
Qed.

(** X12: the layers of the scene. [BuildRenderItems], run on an
    application without render items, puts every item it stores into
    exactly one layer list, once: the four lists together are a
    rearrangement of the positions 0 to 105. The wave item is item 0,
    alone in the transparent layer, and [mWavesRitem] points to it.
    Every listed item has a mesh that exists and is never the box mesh;
    the mesh is the wave mesh exactly in the transparent layer and the
    tree-sprite mesh exactly in the tree-sprite layer, where alone the
    topology is a point list; its material pointer is null or refers to
    an existing material; and it is dirty for all three frame
    resources. *)
Theorem BuildRenderItems_layers (st st' : App) :
  mAllRitems st = [] -> (forall l, mRitemLayer st l = []) ->
  BuildRenderItems st = Some st' ->
  drawn_items st' ≡ₚ seq 0 106 /\
  mWavesRitem st' = Some 0%nat /\
  mRitemLayer st' Transparent = [0%nat] /\
  forall layer h, h ∈ mRitemLayer st' layer ->
    exists e g,
      mAllRitems st' !! h = Some e /\
      RenderItem.Geo e = Some g /\
      is_Some (mGeometries st' !! g) /\ g <> "boxGeo" /\
      (g = "waterGeo" <-> layer = Transparent) /\
      (g = "treeSpritesGeo" <-> layer = AlphaTestedTreeSprites) /\
      (RenderItem.PrimitiveType e = D3D_PRIMITIVE_TOPOLOGY_POINTLIST
       <-> layer = AlphaTestedTreeSprites) /\
      (forall m, RenderItem.Mat e = Some m -> is_Some (mMaterials st' !! m)) /\
      RenderItem.NumFramesDirty e = gNumFrameResources.
Proof.
  intros Hnil Hlayers H.
  destruct (BuildRenderItems_built st st' Hnil Hlayers H)
    as (c & HG & HM & _ & _ & _ & Hw & HT & Hperm & Hitems).
  cbn [fst snd] in *.
  assert (Hlen : length (mAllRitems st') = 106%nat).
  { rewrite <- (length_fmap RenderItem.ObjCBIndex),
      (BuildRenderItems_numbered st st' Hnil H), length_fmap.
    apply length_seq. }
  split; [by rewrite Hperm, Hlen|]. split; [exact Hw|]. split; [exact HT|].
  intros layer h Hh.
  destruct (Hitems layer h Hh) as (e & mat & geo & sub & prim & He & Hk & Hmade).
  destruct Hmade as (mesh & Hmesh & Hmat & Hgeo & Hprim & Hdirty & _).
  destruct (kinds_cases _ _ _ _ _ Hk) as (Hbox & Hpoint & Htree & Hwater & _).
  exists e, geo. split; [exact He|]. split; [exact Hgeo|].
  split; [rewrite HG, Hmesh; by eexists|]. split; [exact Hbox|].
  split; [exact Hwater|]. split; [exact Htree|].
  split; [by rewrite Hprim|]. split; [|exact Hdirty].
  intros m Hm. rewrite Hmat in Hm. unfold material_ptr in Hm.
  rewrite HM. destruct (mMaterials st !! mat) as [x|] eqn:Hx; [|discriminate Hm].
  cbn in Hm. injection Hm as <-. rewrite Hx. by eexists.
Qed.

(** The sample scene. *)
Lemma BuildRenderItems_layers_witness :
  exists st',
    BuildRenderItems (BuildMaterials (set_mGeometries sample_geometries new_App))
    = Some st' /\
    drawn_items st' ≡ₚ seq 0 106 /\
    mWavesRitem st' = Some 0%nat /\
    mRitemLayer st' Transparent = [0%nat].
Proof.
  destruct (BuildRenderItems_is_Some
              (BuildMaterials (set_mGeometries sample_geometries new_App)))
    as [st' H].
  { intros g Hg. unfold scene_geometry_names in Hg.
    repeat (apply elem_of_cons in Hg as [->|Hg]; [eexists; vm_compute; reflexivity|]).
    by apply elem_of_nil in Hg. }
  exists st'. split; [exact H|].
  destruct (BuildRenderItems_layers
              (BuildMaterials (set_mGeometries sample_geometries new_App)) st')
    as (H1 & H2 & H3 & _); [reflexivity|reflexivity|exact H|].
  split; [exact H1|]. split; [exact H2|exact H3].
Defined.

End Scene.
(* ================================================================== *)
(** ** [Initialize]: from the meshes to the first frame *)

Section Initialize.

(** The index loops of [BuildWavesGeometry] do not fault on a grid of
    at least 2 x 2 cells. *)
Lemma BuildWavesGeometry_built st :
  2 <= RowCount (mWaves st) -> 2 <= ColumnCount (mWaves st) ->
  6 * (RowCount (mWaves st) - 1) * (ColumnCount (mWaves st) - 1) < 2 ^ 31 ->
  exists indices,
    BuildWavesGeometry st
    = Some (set_mGeometries
              (<["waterGeo" :=
                   {| geo_Name := "waterGeo"; IndexBufferCPU := indices;
                      VertexBufferGPU := NullResource;
                      DrawArgs := {[ "grid" :=
                        {| sub_IndexCount := wrap_UINT (Z.of_nat (length indices));
                           sub_StartIndexLocation := 0;
                           sub_BaseVertexLocation := 0 |} ]} |}]> (mGeometries st)) st).
Proof.
  set (m := RowCount (mWaves st)). set (n := ColumnCount (mWaves st)).
  intros Hm Hn Hsz.
  assert (Hmn : m * n < 2 ^ 31) by nia.
  assert (Htri : 3 * TriangleCount (mWaves st) = 6 * (m - 1) * (n - 1)).
  { unfold TriangleCount. fold m n. rewrite wrap_int_small; nia. }
  unfold BuildWavesGeometry. fold m n.
  unfold waves_index_loop, int_range.
  set (indices0 := replicate (Z.to_nat (wrap_int (3 * TriangleCount (mWaves st)))) 0).
  pose proof (waves_rows_spec m n (Z.to_nat (m - 1)) 0 [] indices0) as H.
  change ([] ++ indices0) with indices0 in H.
  change (Z.of_nat (length [])) with 0 in H.
  rewrite H; [|lia|lia|lia|lia|nia|].
  - cbn [mbind option_bind]. eexists. reflexivity.
  - unfold indices0. rewrite length_replicate, Htri, wrap_int_small by nia. nia.
Qed.

(** What the mesh builders and [BuildMaterials] leave alone. *)
Lemma store_mesh_lookup name sub key indices st :
  mGeometries (store_mesh name sub key indices st) !! key
  = Some {| geo_Name := name; IndexBufferCPU := indices;
            VertexBufferGPU := DefaultBuffer key;
            DrawArgs := {[ sub :=
              {| sub_IndexCount := wrap_UINT (Z.of_nat (length indices));
                 sub_StartIndexLocation := 0; sub_BaseVertexLocation := 0 |} ]} |}.
Proof. apply lookup_insert_eq. Qed.

Lemma store_mesh_lookup_ne name sub key indices st g :
  key <> g ->
  mGeometries (store_mesh name sub key indices st) !! g = mGeometries st !! g.
Proof. intros Hne. unfold store_mesh. cbn. by apply lookup_insert_ne. Qed.

Lemma store_mesh_fields name sub key indices st :
  mMaterials (store_mesh name sub key indices st) = mMaterials st /\
  mAllRitems (store_mesh name sub key indices st) = mAllRitems st /\
  mRitemLayer (store_mesh name sub key indices st) = mRitemLayer st /\
  mFrameResources (store_mesh name sub key indices st) = mFrameResources st /\
  mWaves (store_mesh name sub key indices st) = mWaves st /\
  mCurrFrameResourceIndex (store_mesh name sub key indices st) = mCurrFrameResourceIndex st.
Proof. repeat split; reflexivity. Qed.

Lemma BuildMaterials_fields st :
  mGeometries (BuildMaterials st) = mGeometries st /\
  mAllRitems (BuildMaterials st) = mAllRitems st /\
  mRitemLayer (BuildMaterials st) = mRitemLayer st /\
  mFrameResources (BuildMaterials st) = mFrameResources st /\
  mWaves (BuildMaterials st) = mWaves st /\
  mCurrFrameResourceIndex (BuildMaterials st) = mCurrFrameResourceIndex st.
Proof. repeat split; reflexivity. Qed.

Lemma set_mGeometries_lookup G st g : mGeometries (set_mGeometries G st) !! g = G !! g.
Proof. reflexivity. Qed.

Local Ltac member :=
  unfold water_kind, scene_kinds;
  repeat first [apply list_elem_of_here | apply list_elem_of_further].

Local Ltac find_mesh :=
  unfold BuildTreeSpritesGeometry, BuildBoxGeometry, BuildLandGeometry,
    BuildCastleGeometry, BuildDiamond, BuildPyramid, BuildCone, BuildCastleCorners,
    BuildCastleWalls;
  repeat first
    [ apply store_mesh_lookup
    | rewrite store_mesh_lookup_ne by discriminate
    | rewrite set_mGeometries_lookup
    | apply lookup_insert_eq
    | rewrite lookup_insert_ne by discriminate ].

(** The state in which [Initialize] calls [BuildMaterials]: the nine
    meshes are there, each with a submesh that is its whole index
    buffer; the wave simulator has its 128 x 128 grid; nothing else has
    changed. *)
Lemma Initialize_scene_meshes gen st :
  exists st0,
    Initialize_scene gen st
    = (st ← BuildRenderItems (BuildMaterials st0); Some (BuildFrameResources st)) /\
    (mMaterials st0 = mMaterials st /\ mAllRitems st0 = mAllRitems st /\
     mRitemLayer st0 = mRitemLayer st /\ mFrameResources st0 = mFrameResources st /\
     mWaves st0 = initial_Waves /\
     mCurrFrameResourceIndex st0 = mCurrFrameResourceIndex st) /\
    (forall mat geo sub prim layer,
       (mat, geo, sub, prim, layer) ∈ water_kind :: scene_kinds ->
       exists mesh, mGeometries st0 !! geo = Some mesh /\ whole_mesh mesh sub) /\
    is_Some (mGeometries st0 !! "boxGeo").
Proof.
  unfold Initialize_scene. cbn zeta.
  destruct (BuildWavesGeometry_built
              (BuildLandGeometry gen (BuildCastleGeometry gen
                 (set_mWaves initial_Waves st))))
    as [indices ->]; [by vm_compute|by vm_compute|by vm_compute|].
  cbn [mbind option_bind]. eexists. split; [reflexivity|].
  split; [repeat split; reflexivity|].
  split.
  - intros mat geo sub prim layer Hk. unfold water_kind, scene_kinds in Hk.
    repeat (apply elem_of_cons in Hk as [Hk|Hk];
            [injection Hk as -> -> -> -> ->; eexists;
             split; [find_mesh|unfold whole_mesh; apply lookup_singleton_eq]|]).
    by apply elem_of_nil in Hk.
  - eexists. find_mesh.
Qed.

(** *** The materials *)

Lemma BuildMaterials_fresh st :
  mMaterials st = ∅ ->
  mMaterials (BuildMaterials st) = mMaterials (BuildMaterials new_App).
Proof.
  intros H. unfold BuildMaterials. cbn [mMaterials set_mMaterials new_App]. by rewrite H.
Qed.

(** The seven materials: name, slot of the material constants,
    texture slot, dirty counter. *)
Lemma scene_materials_cases name mat :
  mMaterials (BuildMaterials new_App) !! name = Some mat ->
  (name, Material.MatCBIndex mat, Material.DiffuseSrvHeapIndex mat,
   Material.NumFramesDirty mat)
  ∈ [ ("wood", 4, 4, 3); ("water", 1, 1, 3); ("grass", 0, 0, 3); ("crystal", 5, 5, 3);
      ("marble", 3, 3, 3); ("brick", 2, 2, 3); ("treeSprites", 6, 6, 3) ].
Proof.
  intros H. apply elem_of_map_to_list in H.
  apply (list_elem_of_fmap_2
           (fun p : string * Material.t =>
              (p.1, Material.MatCBIndex p.2, Material.DiffuseSrvHeapIndex p.2,
               Material.NumFramesDirty p.2))) in H.
  cbn [fst snd] in H.
  replace ((fun p : string * Material.t =>
              (p.1, Material.MatCBIndex p.2, Material.DiffuseSrvHeapIndex p.2,
               Material.NumFramesDirty p.2))
           <$> map_to_list (mMaterials (BuildMaterials new_App)))
    with [ ("wood", 4, 4, 3); ("water", 1, 1, 3); ("grass", 0, 0, 3); ("crystal", 5, 5, 3);
           ("marble", 3, 3, 3); ("brick", 2, 2, 3); ("treeSprites", 6, 6, 3) ] in H
    by (vm_compute; reflexivity).
  exact H.
Qed.

Lemma scene_materials_exist mat :
  mat ∈ ["grass"; "water"; "brick"; "marble"; "wood"; "crystal"; "treeSprites"] ->
  is_Some (mMaterials (BuildMaterials new_App) !! mat).
Proof.
  intros H.
  repeat (apply elem_of_cons in H as [->|H]; [eexists; vm_compute; reflexivity|]).
  by apply elem_of_nil in H.
Qed.

Lemma scene_materials_size : size (mMaterials (BuildMaterials new_App)) = 7%nat.
Proof. vm_compute. reflexivity. Qed.

Lemma scene_materials_distinct : slots_distinct (mMaterials (BuildMaterials new_App)).
Proof.
  intros n1 n2 m1 m2 H1 H2 Heq.
  apply scene_materials_cases in H1, H2. rewrite Heq in H1.
  repeat (apply elem_of_cons in H1 as [H1|H1];
          [injection H1 as -> E1 _ _;
           repeat (apply elem_of_cons in H2 as [H2|H2];
                   [injection H2 as -> E2 _ _; first [reflexivity | congruence]|]);
           by apply elem_of_nil in H2|]).
  by apply elem_of_nil in H1.
Qed.

Lemma scene_materials_range name mat :
  mMaterials (BuildMaterials new_App) !! name = Some mat ->
  0 <= Material.MatCBIndex mat < 7 /\
  Material.DiffuseSrvHeapIndex mat = Material.MatCBIndex mat /\
  Material.NumFramesDirty mat = 3.
Proof.
  intros H. apply scene_materials_cases in H.
  repeat (apply elem_of_cons in H as [H|H];
          [injection H as _ -> -> ->; split; [lia|split; reflexivity]|]).
  by apply elem_of_nil in H.
Qed.

(** *** The whole construction *)

(** The state in which [Initialize] calls [BuildRenderItems] and the one
    in which [BuildRenderItems] leaves it. *)
Lemma Initialize_scene_built gen st :
  mMaterials st = ∅ -> mAllRitems st = [] -> (forall l, mRitemLayer st l = []) ->
  mFrameResources st = [] ->
  exists st1 st2 c,
    Initialize_scene gen st = Some (BuildFrameResources st2) /\
    BuildRenderItems st1 = Some st2 /\
    built_scene st1 (c, st2) /\
    mMaterials st1 = mMaterials (BuildMaterials new_App) /\
    mAllRitems st1 = [] /\ mFrameResources st1 = [] /\
    mWaves st1 = initial_Waves /\
    mCurrFrameResourceIndex st1 = mCurrFrameResourceIndex st /\
    (forall mat geo sub prim layer,
       (mat, geo, sub, prim, layer) ∈ water_kind :: scene_kinds ->
       exists mesh, mGeometries st1 !! geo = Some mesh /\ whole_mesh mesh sub) /\
    is_Some (mGeometries st1 !! "boxGeo").
Proof.
  intros HM Hitems Hlayers Hfrs.
  destruct (Initialize_scene_meshes gen st)
    as (st0 & Hinit & (HM0 & Hit0 & Hl0 & Hfr0 & Hw0 & Hi0) & Hmesh & Hbox).
  destruct (BuildMaterials_fields st0) as (HG1 & Hit1 & Hl1 & Hfr1 & Hw1 & Hi1).
  assert (Hkind : forall mat geo sub prim layer,
            (mat, geo, sub, prim, layer) ∈ water_kind :: scene_kinds ->
            is_Some (mGeometries (BuildMaterials st0) !! geo)).
  { intros mat geo sub prim layer Hk. rewrite HG1.
    destruct (Hmesh mat geo sub prim layer Hk) as (mesh & Hm & _).
    rewrite Hm. eexists. reflexivity. }
  assert (Hgeos : forall g, g ∈ scene_geometry_names ->
                    is_Some (mGeometries (BuildMaterials st0) !! g)).
  { intros g Hg. unfold scene_geometry_names in Hg.
    apply elem_of_cons in Hg as [->|Hg];
      [apply (Hkind "brick" _ "wall" TRIANGLELIST AlphaTested); member|].
    apply elem_of_cons in Hg as [->|Hg];
      [apply (Hkind "marble" _ "corner" TRIANGLELIST AlphaTested); member|].
    apply elem_of_cons in Hg as [->|Hg];
      [apply (Hkind "marble" _ "cone" TRIANGLELIST AlphaTested); member|].
    apply elem_of_cons in Hg as [->|Hg];
      [apply (Hkind "crystal" _ "pyramid" TRIANGLELIST AlphaTested); member|].
    apply elem_of_cons in Hg as [->|Hg];
      [apply (Hkind "crystal" _ "diamond" TRIANGLELIST AlphaTested); member|].
    apply elem_of_cons in Hg as [->|Hg];
      [apply (Hkind "grass" _ "grid" TRIANGLELIST Opaque); member|].
    apply elem_of_cons in Hg as [->|Hg];
      [apply (Hkind "water" _ "grid" TRIANGLELIST Transparent); member|].
    apply elem_of_cons in Hg as [->|Hg]; [rewrite HG1; exact Hbox|].
    apply elem_of_cons in Hg as [->|Hg];
      [apply (Hkind "treeSprites" _ "points" D3D_PRIMITIVE_TOPOLOGY_POINTLIST
                AlphaTestedTreeSprites); member|].
    apply elem_of_nil in Hg. destruct Hg. }
  destruct (BuildRenderItems_is_Some (BuildMaterials st0) Hgeos) as [st2 Hst2].
  destruct (BuildRenderItems_built (BuildMaterials st0) st2) as [c Hc];
    [rewrite Hit1, Hit0; exact Hitems|intros l; rewrite Hl1, Hl0; apply Hlayers|exact Hst2|].
  exists (BuildMaterials st0), st2, c.
  split; [rewrite Hinit, Hst2; reflexivity|]. split; [exact Hst2|]. split; [exact Hc|].
  split; [apply BuildMaterials_fresh; rewrite HM0; exact HM|].
  split; [rewrite Hit1, Hit0; exact Hitems|]. split; [rewrite Hfr1, Hfr0; exact Hfrs|].
  split; [rewrite Hw1; exact Hw0|]. split; [rewrite Hi1; exact Hi0|].
  split; [|rewrite HG1; exact Hbox].
  intros mat geo sub prim layer Hk. rewrite HG1. apply (Hmesh mat geo sub prim layer Hk).
Qed.

(** A render item of the built scene: its material and its mesh. *)
Lemma built_scene_item st1 c st2 h e :
  built_scene st1 (c, st2) ->
  mMaterials st1 = mMaterials (BuildMaterials new_App) ->
  mAllRitems st2 !! h = Some e ->
  exists mat geo sub mesh material,
    RenderItem.Mat e = Some mat /\ RenderItem.Geo e = Some geo /\
    mGeometries st2 !! geo = Some mesh /\ mMaterials st2 !! mat = Some material /\
    geo <> "boxGeo" /\
    RenderItem.NumFramesDirty e = 3 /\
    RenderItem.IndexCount e = sub_IndexCount (DrawArgs_at mesh sub) /\
    RenderItem.StartIndexLocation e = sub_StartIndexLocation (DrawArgs_at mesh sub) /\
    RenderItem.BaseVertexLocation e
    = wrap_int (sub_BaseVertexLocation (DrawArgs_at mesh sub)) /\
    exists prim layer, (mat, geo, sub, prim, layer) ∈ water_kind :: scene_kinds.
Proof.
  intros Hc HM He.
  destruct (built_scene_items st1 c st2 h e Hc He)
    as (layer & mat & geo & sub & prim & _ & Hk & Hmade).
  destruct Hc as (HG & HM2 & _). cbn [fst snd] in *.
  destruct Hmade as (mesh & Hmesh & Hmat & Hgeo & _ & Hdirty & Hic & Hsl & Hbv).
  destruct (kinds_cases _ _ _ _ _ Hk) as (Hbox & _ & _ & _ & _ & Hnames).
  destruct (scene_materials_exist mat Hnames) as [material Hmaterial].
  exists mat, geo, sub, mesh, material.
  split; [rewrite Hmat; unfold material_ptr; by rewrite HM, Hmaterial|].
  split; [exact Hgeo|]. split; [by rewrite HG|].
  split; [by rewrite HM2, HM|]. split; [exact Hbox|].
  split; [exact Hdirty|]. split; [exact Hic|]. split; [exact Hsl|]. split; [exact Hbv|].
  by exists prim, layer.
Qed.

(** The scene [Initialize] builds is well-formed. *)
Lemma Initialize_scene_well_formed gen st :
  mMaterials st = ∅ -> mAllRitems st = [] -> (forall l, mRitemLayer st l = []) ->
  mFrameResources st = [] ->
  exists st1 st2 c,
    Initialize_scene gen st = Some (BuildFrameResources st2) /\
    BuildRenderItems st1 = Some st2 /\ built_scene st1 (c, st2) /\
    mMaterials st1 = mMaterials (BuildMaterials new_App) /\ mAllRitems st1 = [] /\
    mCurrFrameResourceIndex (BuildFrameResources st2) = mCurrFrameResourceIndex st /\
    mFrameResources (BuildFrameResources st2)
    = replicate 3 (new_FrameResource 1 106 7 16384) /\
    well_formed (BuildFrameResources st2).
Proof.
  intros HM Hnil Hlayers Hfrs.
  destruct (Initialize_scene_built gen st HM Hnil Hlayers Hfrs)
    as (st1 & st2 & c & Hinit & Hst2 & Hc & HM1 & Hit1 & Hfr1 & Hw1 & Hi1 & Hmesh & _).
  exists st1, st2, c. split; [exact Hinit|]. split; [exact Hst2|]. split; [exact Hc|].
  split; [exact HM1|]. split; [exact Hit1|].
  pose proof (BuildRenderItems_numbered st1 st2 Hit1 Hst2) as Hnum.
  assert (Hlen : length (mAllRitems st2) = 106%nat).
  { rewrite <- (length_fmap RenderItem.ObjCBIndex), Hnum, length_fmap. apply length_seq. }
  pose proof Hc as (HG & HM2 & HF2 & HW2 & HI2 & Hwr & HT & Hperm & Hlay).
  cbn [fst snd] in HG, HM2, HF2, HW2, HI2, Hwr, HT, Hperm, Hlay.
  assert (HMs : mMaterials st2 = mMaterials (BuildMaterials new_App)).
  { rewrite HM2. exact HM1. }
  assert (Hfrs2 : mFrameResources (BuildFrameResources st2)
                  = replicate 3 (new_FrameResource 1 106 7 16384)).
  { unfold BuildFrameResources. cbn [mFrameResources set_mFrameResources].
    rewrite HF2, Hfr1, Hlen, HMs, scene_materials_size, HW2, Hw1. reflexivity. }
  assert (Hcaps : capacities <$> mFrameResources (BuildFrameResources st2)
                  = replicate 3 (1, 106, 7, 16384)).
  { rewrite Hfrs2. reflexivity. }
  split.
  { change (mCurrFrameResourceIndex (BuildFrameResources st2))
      with (mCurrFrameResourceIndex st2). rewrite HI2, Hi1. reflexivity. }
  split; [exact Hfrs2|].
  unfold well_formed, scene_view. rewrite Hcaps, Hfrs2.
  change (mAllRitems (BuildFrameResources st2)) with (mAllRitems st2).
  change (mRitemLayer (BuildFrameResources st2)) with (mRitemLayer st2).
  change (mWavesRitem (BuildFrameResources st2)) with (mWavesRitem st2).
  change (mMaterials (BuildFrameResources st2)) with (mMaterials st2).
  change (mGeometries (BuildFrameResources st2)) with (mGeometries st2).
  change (mWaves (BuildFrameResources st2)) with (mWaves st2).
  rewrite HW2, Hw1, Hwr.
  split; [reflexivity|]. split.
    - apply Forall_replicate. unfold slot_fits. split; [lia|]. split; [|split].
      + apply Forall_fmap. apply list.Forall_forall. intros e He. cbn.
        assert (Hin : RenderItem.ObjCBIndex e ∈ Z.of_nat <$> seq 0 106).
        { rewrite <- Hnum. apply list_elem_of_fmap. exists e. split; [reflexivity|exact He]. }
        apply list_elem_of_fmap in Hin as (k & -> & Hk). apply elem_of_seq in Hk. lia.
      + apply map_Forall_lookup. intros name i Hi.
        apply lookup_fmap_Some in Hi as (mat & <- & Hmat). rewrite HMs in Hmat.
        apply scene_materials_range in Hmat. tauto.
      + cbn. lia.
    - split.
      { rewrite lookup_fmap, HMs.
        destruct (scene_materials_exist "water") as [w ->]; [member|].
        eexists. reflexivity. }
      split.
      { destruct (Hlay Transparent 0%nat) as (e & mat & geo & sub & prim & He & _ & Hmade).
        { rewrite HT. apply list_elem_of_here. }
        destruct Hmade as (mesh & Hmesh' & _ & Hgeo & _).
        exists 0%nat, (RenderItem.ObjCBIndex e), (RenderItem.Mat e), geo.
        split; [reflexivity|]. split.
        - rewrite list_lookup_fmap, He. cbn. unfold ritem_refs. rewrite Hgeo. reflexivity.
        - apply elem_of_dom. rewrite HG, Hmesh'. eexists. reflexivity. }
      split; [|cbn; lia].
      intros layer h Hh.
      destruct (Hlay layer h Hh) as (e & mat0 & geo0 & sub0 & prim0 & He & _ & _).
      destruct (built_scene_item st1 c st2 h e Hc HM1 He)
        as (mat & geo & sub & mesh & material & Hmat & Hgeo & Hmesh' & Hmaterial & _).
      exists (RenderItem.ObjCBIndex e), mat, geo. split; [|split].
      + rewrite list_lookup_fmap, He. cbn. unfold ritem_refs. rewrite Hmat, Hgeo. reflexivity.
      + rewrite lookup_fmap, Hmaterial. eexists. reflexivity.
      + apply elem_of_dom. rewrite Hmesh'. eexists. reflexivity.
Qed.

(** X13: [Initialize] sets up what the frames need. Whatever the
    meshes of the geometry generator are, the builders that
    [Initialize] calls on a fresh application run without a fault and
    leave a scene on which every run of frames runs without a fault:
    three frame resources with room for one pass, 106 objects, 7
    materials and the 16384 wave vertices; render items with pairwise
    distinct slots and materials with pairwise distinct slots; dirty
    counters between 0 and 3, with which the accounts of X4 and X5
    between the counters and the buffers hold at the start. *)
Theorem Initialize_scene_runs (gen : GeneratedIndices) (st : App) :
  mMaterials st = ∅ -> mAllRitems st = [] -> (forall l, mRitemLayer st l = []) ->
  mFrameResources st = [] -> 0 <= mCurrFrameResourceIndex st < 3 ->
  exists st',
    Initialize_scene gen st = Some st' /\
    well_formed st' /\
    capacities <$> mFrameResources st' = replicate 3 (1, 106, 7, 16384) /\
    counters_in_range st' /\
    NoDup (RenderItem.ObjCBIndex <$> mAllRitems st') /\
    slots_distinct (mMaterials st') /\
    objects_synced st' /\ materials_synced st' /\
    forall inps, is_Some (run_frames inps st').
Proof.
  intros HM Hnil Hlayers Hfrs Hidx.
  destruct (Initialize_scene_well_formed gen st HM Hnil Hlayers Hfrs)
    as (st1 & st2 & c & Hinit & Hst2 & Hc & HM1 & Hit1 & Hi & Hfrs2 & Hwf).
  exists (BuildFrameResources st2). split; [exact Hinit|].
  pose proof (BuildRenderItems_numbered st1 st2 Hit1 Hst2) as Hnum.
  pose proof Hc as (_ & HM2 & _). cbn [fst snd] in HM2.
  assert (HMs : mMaterials st2 = mMaterials (BuildMaterials new_App)).
  { rewrite HM2. exact HM1. }
  assert (Hdirty : forall e, e ∈ mAllRitems st2 -> RenderItem.NumFramesDirty e = 3).
  { intros e He. apply list_elem_of_lookup in He as [h He].
    destruct (built_scene_item st1 c st2 h e Hc HM1 He)
      as (mat & geo & sub & mesh & material & _ & _ & _ & _ & _ & Hd & _).
    exact Hd. }
  assert (Hidx' : 0 <= mCurrFrameResourceIndex (BuildFrameResources st2) < 3).
  { rewrite Hi. exact Hidx. }
  split; [exact Hwf|]. split; [rewrite Hfrs2; reflexivity|]. split.
  { split.
    - apply list.Forall_forall. intros e He. rewrite (Hdirty e He).
      unfold gNumFrameResources. lia.
    - apply map_Forall_lookup. intros name mat Hmat.
      change (mMaterials (BuildFrameResources st2)) with (mMaterials st2) in Hmat.
      rewrite HMs in Hmat. apply scene_materials_range in Hmat as (_ & _ & ->).
      unfold gNumFrameResources. lia. }
  split.
  { change (mAllRitems (BuildFrameResources st2)) with (mAllRitems st2).
    rewrite Hnum. apply NoDup_fmap_2; [intros x y; lia|apply NoDup_seq]. }
  split.
  { change (mMaterials (BuildFrameResources st2)) with (mMaterials st2).
    rewrite HMs. exact scene_materials_distinct. }
  split.
  { intros e k cb He Hk. exfalso. rewrite (Hdirty e He) in Hk.
    unfold gNumFrameResources in Hk. lia. }
  split.
  { intros name mat k cb Hmat Hk. exfalso.
    change (mMaterials (BuildFrameResources st2)) with (mMaterials st2) in Hmat.
    rewrite HMs in Hmat. apply scene_materials_range in Hmat as (_ & _ & Hd).
    rewrite Hd in Hk. unfold gNumFrameResources in Hk. lia. }
  intros inps.
  destruct (run_frames_spec inps (BuildFrameResources st2) Hwf Hidx') as (st' & -> & _).
  eexists. reflexivity.
Qed.

(** The application as its constructor leaves it. *)
Lemma Initialize_scene_runs_witness :
  exists st',
    Initialize_scene sample_indices new_App = Some st' /\ well_formed st' /\
    forall inps, is_Some (run_frames inps st').
Proof.
  destruct (Initialize_scene_runs sample_indices new_App)
    as (st' & H & Hwf & _ & _ & _ & _ & _ & _ & Hrun).
  - reflexivity.
  - reflexivity.
  - reflexivity.
  - reflexivity.
  - change (0 <= 0 < 3). lia.
  - exists st'. split; [exact H|]. split; [exact Hwf|exact Hrun].
Defined.

(** X14: the names line up. In the scene [Initialize] builds, every
    stored render item refers to a mesh and to a material that exist;
    its draw arguments are the whole index buffer of its mesh, from
    index 0 and with base vertex 0, the submesh it names being the one
    the mesh builder has stored; the material's texture slot is its
    constant-buffer slot, one of 0 to 6. The box mesh is built, and no
    item draws it. *)
Theorem Initialize_scene_draw_ranges (gen : GeneratedIndices) (st : App) :
  mMaterials st = ∅ -> mAllRitems st = [] -> (forall l, mRitemLayer st l = []) ->
  mFrameResources st = [] ->
  exists st',
    Initialize_scene gen st = Some st' /\
    length (mAllRitems st') = 106%nat /\
    is_Some (mGeometries st' !! "boxGeo") /\
    forall e, e ∈ mAllRitems st' ->
      exists g mesh m mat,
        RenderItem.Geo e = Some g /\ mGeometries st' !! g = Some mesh /\
        g <> "boxGeo" /\
        RenderItem.Mat e = Some m /\ mMaterials st' !! m = Some mat /\
        RenderItem.IndexCount e = wrap_UINT (Z.of_nat (length (IndexBufferCPU mesh))) /\
        RenderItem.StartIndexLocation e = 0 /\
        RenderItem.BaseVertexLocation e = 0 /\
        Material.DiffuseSrvHeapIndex mat = Material.MatCBIndex mat /\
        0 <= Material.MatCBIndex mat < 7.
Proof.
  intros HM Hnil Hlayers Hfrs.
  destruct (Initialize_scene_built gen st HM Hnil Hlayers Hfrs)
    as (st1 & st2 & c & Hinit & Hst2 & Hc & HM1 & Hit1 & _ & _ & _ & Hmesh & Hbox1).
  exists (BuildFrameResources st2). split; [exact Hinit|].
  change (mAllRitems (BuildFrameResources st2)) with (mAllRitems st2).
  change (mGeometries (BuildFrameResources st2)) with (mGeometries st2).
  change (mMaterials (BuildFrameResources st2)) with (mMaterials st2).
  pose proof Hc as (HG & HM2 & _). cbn [fst snd] in HG, HM2.
  split.
  { rewrite <- (length_fmap RenderItem.ObjCBIndex),
      (BuildRenderItems_numbered st1 st2 Hit1 Hst2), length_fmap.
    apply length_seq. }
  split.
  { rewrite HG. exact Hbox1. }
  intros e He. apply list_elem_of_lookup in He as [h He].
  destruct (built_scene_item st1 c st2 h e Hc HM1 He)
    as (mat & geo & sub & mesh & material & Hmat & Hgeo & Hmesh' & Hmaterial & Hbox
        & _ & Hic & Hsl & Hbv & prim & layer & Hk).
  destruct (Hmesh mat geo sub prim layer Hk) as (mesh1 & Hmesh1 & Hwhole).
  rewrite HG, Hmesh1 in Hmesh'. injection Hmesh' as <-.
  unfold DrawArgs_at, whole_mesh in *. rewrite Hwhole in Hic, Hsl, Hbv. cbn in Hic, Hsl, Hbv.
  rewrite HM2, HM1 in Hmaterial.
  destruct (scene_materials_range mat material Hmaterial) as (Hr & Hsrv & _).
  exists geo, mesh1, mat, material.
  split; [exact Hgeo|]. split; [rewrite HG; exact Hmesh1|]. split; [exact Hbox|].
  split; [exact Hmat|]. split; [rewrite HM2, HM1; exact Hmaterial|].
  split; [exact Hic|]. split; [exact Hsl|]. split; [exact Hbv|].
  split; [exact Hsrv|exact Hr].
Qed.

(** The application as its constructor leaves it. *)
Lemma Initialize_scene_draw_ranges_witness :
  exists st',
    Initialize_scene sample_indices new_App = Some st' /\
    length (mAllRitems st') = 106%nat.
Proof.
  destruct (Initialize_scene_draw_ranges sample_indices new_App)
    as (st' & H & Hlen & _); [reflexivity|reflexivity|reflexivity|reflexivity|].
  exists st'. split; [exact H|exact Hlen].
Defined.

End Initialize.
(* ================================================================== *)
(** ** The draw calls and the pipeline objects *)

Section Pipeline.

(** [BuildPSOs] finds every shader it reads. *)
Lemma BuildPSOs_built :
  exists standardVS opaquePS alphaTestedPS treeSpriteVS treeSpriteGS treeSpritePS,
    BuildPSOs BuildShadersAndInputLayouts
    = Some (<["treeSprites" :=
                {| pso_InputLayout := mTreeSpriteInputLayout; pso_VS := treeSpriteVS;
                   pso_GS := Some treeSpriteGS; pso_PS := treeSpritePS;
                   pso_CullNone := true; pso_Transparency := false;
                   pso_PrimitiveTopologyType := D3D12_PRIMITIVE_TOPOLOGY_TYPE_POINT |}]>
           (<["alphaTested" :=
                {| pso_InputLayout := mStdInputLayout; pso_VS := standardVS;
                   pso_GS := None; pso_PS := alphaTestedPS;
                   pso_CullNone := true; pso_Transparency := false;
                   pso_PrimitiveTopologyType := D3D12_PRIMITIVE_TOPOLOGY_TYPE_TRIANGLE |}]>
           (<["transparent" :=
                {| pso_InputLayout := mStdInputLayout; pso_VS := standardVS;
                   pso_GS := None; pso_PS := opaquePS;
                   pso_CullNone := false; pso_Transparency := true;
                   pso_PrimitiveTopologyType := D3D12_PRIMITIVE_TOPOLOGY_TYPE_TRIANGLE |}]>
           (<["opaque" :=
                {| pso_InputLayout := mStdInputLayout; pso_VS := standardVS;
                   pso_GS := None; pso_PS := opaquePS;
                   pso_CullNone := false; pso_Transparency := false;
                   pso_PrimitiveTopologyType := D3D12_PRIMITIVE_TOPOLOGY_TYPE_TRIANGLE |}]>
              ∅)))).
Proof.
  unfold BuildPSOs.
  assert (is_Some (BuildShadersAndInputLayouts !! "standardVS")) as [s1 ->]
    by (eexists; reflexivity).
  assert (is_Some (BuildShadersAndInputLayouts !! "opaquePS")) as [s2 ->]
    by (eexists; reflexivity).
  assert (is_Some (BuildShadersAndInputLayouts !! "alphaTestedPS")) as [s3 ->]
    by (eexists; reflexivity).
  assert (is_Some (BuildShadersAndInputLayouts !! "treeSpriteVS")) as [s4 ->]
    by (eexists; reflexivity).
  assert (is_Some (BuildShadersAndInputLayouts !! "treeSpriteGS")) as [s5 ->]
    by (eexists; reflexivity).
  assert (is_Some (BuildShadersAndInputLayouts !! "treeSpritePS")) as [s6 ->]
    by (eexists; reflexivity).
  exists s1, s2, s3, s4, s5, s6. reflexivity.
Qed.

(** [BuildDescriptorHeaps] finds every texture it reads, and fills the
    first seven of the eight descriptors. *)
Lemma BuildDescriptorHeaps_built :
  BuildDescriptorHeaps LoadTextures
  = Some [ Some (Build_ShaderResourceView "grassTex" D3D12_SRV_DIMENSION_TEXTURE2D);
           Some (Build_ShaderResourceView "waterTex" D3D12_SRV_DIMENSION_TEXTURE2D);
           Some (Build_ShaderResourceView "brickTex" D3D12_SRV_DIMENSION_TEXTURE2D);
           Some (Build_ShaderResourceView "marbleTex" D3D12_SRV_DIMENSION_TEXTURE2D);
           Some (Build_ShaderResourceView "woodTex" D3D12_SRV_DIMENSION_TEXTURE2D);
           Some (Build_ShaderResourceView "crystalTex" D3D12_SRV_DIMENSION_TEXTURE2D);
           Some (Build_ShaderResourceView "treeArrayTex"
                   D3D12_SRV_DIMENSION_TEXTURE2DARRAY);
           None ].
Proof.
  unfold BuildDescriptorHeaps.
  replace (LoadTextures !! "grassTex")
    with (Some (Build_Texture "grassTex" "../../Textures/greengrass.dds")) by reflexivity.
  replace (LoadTextures !! "waterTex")
    with (Some (Build_Texture "waterTex" "../../Textures/water.dds")) by reflexivity.
  replace (LoadTextures !! "brickTex")
    with (Some (Build_Texture "brickTex" "../../Textures/brick.dds")) by reflexivity.
  replace (LoadTextures !! "marbleTex")
    with (Some (Build_Texture "marbleTex" "../../Textures/marble.dds")) by reflexivity.
  replace (LoadTextures !! "woodTex")
    with (Some (Build_Texture "woodTex" "../../Textures/wood.dds")) by reflexivity.
  replace (LoadTextures !! "crystalTex")
    with (Some (Build_Texture "crystalTex" "../../Textures/crystal.dds")) by reflexivity.
  replace (LoadTextures !! "treeArrayTex")
    with (Some (Build_Texture "treeArrayTex" "../../Textures/treeArray.dds")) by reflexivity.
  reflexivity.
Qed.

(** The pipeline states and the descriptors [Initialize] creates. *)
Lemma pipeline_objects :
  exists psos heap,
    BuildPSOs BuildShadersAndInputLayouts = Some psos /\
    BuildDescriptorHeaps LoadTextures = Some heap /\
    (forall layer, exists desc,
       psos !! layer_pso layer = Some desc /\
       (pso_PrimitiveTopologyType desc = D3D12_PRIMITIVE_TOPOLOGY_TYPE_POINT
        <-> layer = AlphaTestedTreeSprites) /\
       (pso_InputLayout desc = mTreeSpriteInputLayout <-> layer = AlphaTestedTreeSprites)) /\
    (forall i, 0 <= i < 7 -> exists srv,
       heap !! Z.to_nat i = Some (Some srv) /\
       (srv_ViewDimension srv = D3D12_SRV_DIMENSION_TEXTURE2DARRAY <-> i = 6)) /\
    heap !! 7%nat = Some None /\ length heap = 8%nat.
Proof.
  destruct BuildPSOs_built as (s1 & s2 & s3 & s4 & s5 & s6 & Hpsos).
  eexists _, _. split; [exact Hpsos|]. split; [exact BuildDescriptorHeaps_built|].
  split; [|split; [|split; reflexivity]].
  - intros layer. destruct layer; eexists;
      (split; [cbn [layer_pso]; repeat (rewrite lookup_insert_ne by discriminate);
               apply lookup_insert_eq|]);
      cbn; split; split; intros H; first [discriminate H | reflexivity].
  - intros i Hi.
    assert (i = 0 \/ i = 1 \/ i = 2 \/ i = 3 \/ i = 4 \/ i = 5 \/ i = 6) as Hcases by lia.
    destruct Hcases as [-> | [-> | [-> | [-> | [-> | [-> | ->]]]]]];
      eexists; (split; [reflexivity|]); cbn; split; intros H;
      first [discriminate H | reflexivity].
Qed.

(** The draw call of one item, under the pipeline state bound when its
    commands start. *)
Lemma pso_draws_DrawRenderItem st p h c pso b rest :
  DrawRenderItem st p h = Some c -> is_Some (b_PassCB b) ->
  exists e g m mat bi,
    mAllRitems st !! h = Some e /\ RenderItem.Geo e = Some g /\
    RenderItem.Mat e = Some m /\ mMaterials st !! m = Some mat /\
    pso_draws pso b (c ++ rest) = (pso, bi) :: pso_draws pso bi rest /\
    b_Topology bi = Some (RenderItem.PrimitiveType e) /\
    b_IndexBuffer bi = Some g /\
    b_Table0 bi = Some (Material.DiffuseSrvHeapIndex mat) /\
    is_Some (b_ObjectCB bi) /\ is_Some (b_PassCB bi) /\ is_Some (b_MaterialCB bi).
Proof.
  unfold DrawRenderItem. intros H Hb.
  destruct (mAllRitems st !! h) as [e|] eqn:He; [|discriminate H]. cbn in H.
  destruct (RenderItem.Geo e) as [g|] eqn:Hg; [|discriminate H]. cbn in H.
  destruct (mGeometries st !! g) as [geo|]; [|discriminate H]. cbn in H.
  destruct (RenderItem.Mat e) as [m|] eqn:Hm; [|discriminate H]. cbn in H.
  destruct (mMaterials st !! m) as [mat|] eqn:Hmat; [|discriminate H]. cbn in H.
  injection H as <-. exists e, g, m, mat. eexists.
  split; [reflexivity|]. split; [exact Hg|]. split; [exact Hm|].
  split; [exact Hmat|]. split; [simpl; reflexivity|]. cbn.
  split; [reflexivity|]. split; [reflexivity|]. split; [reflexivity|].
  split; [eexists; reflexivity|]. split; [exact Hb|]. eexists; reflexivity.
Qed.

(** The draw calls of the items of a layer. *)
Lemma pso_draws_DrawRenderItems st p layer pso ritems : forall cs b rest,
  DrawRenderItems st p ritems = Some cs -> is_Some (b_PassCB b) ->
  (forall h, h ∈ ritems -> h ∈ mRitemLayer st layer) ->
  pso = layer_pso layer ->
  layers_agree st ->
  forall psos heap,
    (forall layer, exists desc,
       psos !! layer_pso layer = Some desc /\
       (pso_PrimitiveTopologyType desc = D3D12_PRIMITIVE_TOPOLOGY_TYPE_POINT
        <-> layer = AlphaTestedTreeSprites) /\
       (pso_InputLayout desc = mTreeSpriteInputLayout <-> layer = AlphaTestedTreeSprites)) ->
    (forall i, 0 <= i < 7 -> exists srv,
       heap !! Z.to_nat i = Some (Some srv) /\
       (srv_ViewDimension srv = D3D12_SRV_DIMENSION_TEXTURE2DARRAY <-> i = 6)) ->
    exists ds b',
      pso_draws pso b (cs ++ rest) = ds ++ pso_draws pso b' rest /\
      is_Some (b_PassCB b') /\ length ds = length ritems /\
      Forall (draw_agrees BuildRootSignature psos heap) ds.
Proof.
  induction ritems as [|h ritems IH]; intros cs b rest H Hb Hin Hpso Hagree psos heap Hpsos Hheap;
    cbn [DrawRenderItems] in H.
  - injection H as <-. exists [], b. split; [reflexivity|]. split; [exact Hb|].
    split; [reflexivity|]. apply List.Forall_nil.
  - destruct (DrawRenderItem st p h) as [c|] eqn:Hc; [|discriminate H]. cbn in H.
    destruct (DrawRenderItems st p ritems) as [cs'|] eqn:Hcs; [|discriminate H]. cbn in H.
    injection H as <-.
    destruct (pso_draws_DrawRenderItem st p h c pso b (cs' ++ rest) Hc Hb)
      as (e & g & m & mat & bi & He & Hg & Hm & Hmat & Hd & Ht & Hi & Htab & Ho & Hp & Hmc).
    destruct (IH cs' bi rest eq_refl Hp) with (psos := psos) (heap := heap)
      as (ds & b' & Hd' & Hb' & Hlen & Hall);
      [intros h' Hh'; apply Hin; by right|exact Hpso|exact Hagree|exact Hpsos|exact Hheap|].
    exists ((pso, bi) :: ds), b'.
    split; [rewrite <- app_assoc, Hd, Hd'; reflexivity|]. split; [exact Hb'|].
    split; [cbn; by rewrite Hlen|]. apply List.Forall_cons; [|exact Hall].
    destruct (Hagree layer h) as (e' & g' & m' & mat' & He' & Hg' & Hm' & Hmat' & Htree
                                  & Hpoint & Hrange & Hsix);
      [apply Hin; by left|].
    rewrite He in He'. injection He' as <-.
    rewrite Hg in Hg'. injection Hg' as <-.
    rewrite Hm in Hm'. injection Hm' as <-.
    rewrite Hmat in Hmat'. injection Hmat' as <-.
    destruct (Hpsos layer) as (desc & Hdesc & Htopo & Hlayout).
    destruct (Hheap (Material.DiffuseSrvHeapIndex mat) Hrange) as (srv & Hsrv & Harray).
    exists desc, (RenderItem.PrimitiveType e), g, (Material.DiffuseSrvHeapIndex mat), srv.
    cbn [fst snd]. subst pso.
    split; [exact Hdesc|]. split; [exact Ht|]. split.
    { destruct (RenderItem.PrimitiveType e); cbn.
      - destruct (pso_PrimitiveTopologyType desc); [reflexivity|].
        destruct Htopo as [Htopo _]. specialize (Htopo eq_refl).
        apply Hpoint in Htopo. discriminate Htopo.
      - destruct Hpoint as [Hpoint _]. specialize (Hpoint eq_refl).
        apply Htopo in Hpoint. exact Hpoint. }
    split; [exact Hi|]. split; [rewrite Hlayout, Htree; reflexivity|].
    split; [exists 1, 0; reflexivity|]. split; [exact Htab|].
    split; [lia|]. split; [exact Hsrv|]. split.
    { rewrite Harray, Hsix. destruct layer; cbn; split; intros H;
        first [discriminate H | reflexivity]. }
    split; [exists 0; reflexivity|]. split; [exact Ho|].
    split; [exists 1; reflexivity|]. split; [exact Hp|].
    split; [exists 2; reflexivity|]. exact Hmc.
Qed.

(** The command list of a frame, for layers that agree with the
    pipeline states. *)
Lemma Draw_commands_agree st cmds psos heap :
  Draw_commands st = Some cmds -> layers_agree st ->
  (forall layer, exists desc,
     psos !! layer_pso layer = Some desc /\
     (pso_PrimitiveTopologyType desc = D3D12_PRIMITIVE_TOPOLOGY_TYPE_POINT
      <-> layer = AlphaTestedTreeSprites) /\
     (pso_InputLayout desc = mTreeSpriteInputLayout <-> layer = AlphaTestedTreeSprites)) ->
  (forall i, 0 <= i < 7 -> exists srv,
     heap !! Z.to_nat i = Some (Some srv) /\
     (srv_ViewDimension srv = D3D12_SRV_DIMENSION_TEXTURE2DARRAY <-> i = 6)) ->
  Forall (draw_agrees BuildRootSignature psos heap) (pso_draws "" no_Bindings cmds) /\
  length (pso_draws "" no_Bindings cmds) = length (drawn_items st).
Proof.
  unfold Draw_commands. intros H Hagree Hpsos Hheap.
  destruct (CurrFrameResource st) as [[p fr]|]; [|discriminate H]. cbn in H.
  destruct (DrawRenderItems st p (mRitemLayer st Opaque)) as [c1|] eqn:H1;
    [|discriminate H].
  cbn in H.
  destruct (DrawRenderItems st p (mRitemLayer st AlphaTested)) as [c2|] eqn:H2;
    [|discriminate H].
  cbn in H.
  destruct (DrawRenderItems st p (mRitemLayer st AlphaTestedTreeSprites)) as [c3|] eqn:H3;
    [|discriminate H].
  cbn in H.
  destruct (DrawRenderItems st p (mRitemLayer st Transparent)) as [c4|] eqn:H4;
    [|discriminate H].
  cbn in H. injection H as <-.
  cbn [pso_draws bind app].
  match goal with |- context [pso_draws "opaque" ?b (c1 ++ ?rest)] =>
    destruct (pso_draws_DrawRenderItems st p Opaque "opaque" _ c1 b rest H1)
      with (psos := psos) (heap := heap) as (d1 & b1 & -> & P1 & L1 & F1);
      [eexists; reflexivity|intros h Hh; exact Hh|reflexivity|exact Hagree
      |exact Hpsos|exact Hheap|] end.
  cbn [pso_draws bind app].
  match goal with |- context [pso_draws "alphaTested" b1 (c2 ++ ?rest)] =>
    destruct (pso_draws_DrawRenderItems st p AlphaTested "alphaTested" _ c2 b1 rest H2)
      with (psos := psos) (heap := heap) as (d2 & b2 & -> & P2 & L2 & F2);
      [exact P1|intros h Hh; exact Hh|reflexivity|exact Hagree|exact Hpsos|exact Hheap|] end.
  cbn [pso_draws bind app].
  match goal with |- context [pso_draws "treeSprites" b2 (c3 ++ ?rest)] =>
    destruct (pso_draws_DrawRenderItems st p AlphaTestedTreeSprites "treeSprites" _ c3 b2
                rest H3)
      with (psos := psos) (heap := heap) as (d3 & b3 & -> & P3 & L3 & F3);
      [exact P2|intros h Hh; exact Hh|reflexivity|exact Hagree|exact Hpsos|exact Hheap|] end.
  cbn [pso_draws bind app].
  match goal with |- context [pso_draws "transparent" b3 (c4 ++ ?rest)] =>
    destruct (pso_draws_DrawRenderItems st p Transparent "transparent" _ c4 b3 rest H4)
      with (psos := psos) (heap := heap) as (d4 & b4 & -> & P4 & L4 & F4);
      [exact P3|intros h Hh; exact Hh|reflexivity|exact Hagree|exact Hpsos|exact Hheap|] end.
  cbn [pso_draws bind app]. rewrite app_nil_r. split.
  - repeat (apply Forall_app; split; [assumption|]). assumption.
  - unfold drawn_items. rewrite !length_app. lia.
Qed.

(** *** The layers keep agreeing *)

Lemma kinds_material mat geo sub prim layer :
  (mat, geo, sub, prim, layer) ∈ water_kind :: scene_kinds ->
  (mat = "treeSprites" <-> layer = AlphaTestedTreeSprites).
Proof.
  unfold water_kind, scene_kinds. intros H.
  repeat (apply elem_of_cons in H as [H|H];
          [injection H as -> -> -> -> ->; split; discriminate || reflexivity|]).
  apply elem_of_nil in H. destruct H.
Qed.

Lemma scene_materials_tree name mat :
  mMaterials (BuildMaterials new_App) !! name = Some mat ->
  (Material.DiffuseSrvHeapIndex mat = 6 <-> name = "treeSprites").
Proof.
  intros H. apply scene_materials_cases in H.
  repeat (apply elem_of_cons in H as [H|H];
          [injection H as -> _ -> _; split; discriminate || reflexivity|]).
  apply elem_of_nil in H. destruct H.
Qed.

(** The scene [BuildRenderItems] builds agrees. *)
Lemma layers_agree_built st1 c st2 :
  built_scene st1 (c, st2) ->
  mMaterials st1 = mMaterials (BuildMaterials new_App) ->
  layers_agree (BuildFrameResources st2).
Proof.
  intros Hc HM layer h Hh.
  change (mRitemLayer (BuildFrameResources st2)) with (mRitemLayer st2) in Hh.
  change (mAllRitems (BuildFrameResources st2)) with (mAllRitems st2).
  change (mMaterials (BuildFrameResources st2)) with (mMaterials st2).
  pose proof Hc as (_ & HM2 & _ & _ & _ & _ & _ & _ & Hlay). cbn [fst snd] in HM2, Hlay.
  destruct (Hlay layer h Hh) as (e & mat & geo & sub & prim & He & Hk & Hmade).
  destruct Hmade as (mesh & _ & Hmat & Hgeo & Hprim & _).
  destruct (kinds_cases _ _ _ _ _ Hk) as (_ & Hpoint & Htree & _ & _ & Hnames).
  pose proof (kinds_material _ _ _ _ _ Hk) as Hkm.
  destruct (scene_materials_exist mat Hnames) as [material Hmaterial].
  pose proof (scene_materials_range mat material Hmaterial) as (Hr & Hsrv & _).
  pose proof (scene_materials_tree mat material Hmaterial) as Hsix.
  exists e, geo, mat, material.
  split; [exact He|]. split; [exact Hgeo|].
  split; [rewrite Hmat; unfold material_ptr; rewrite HM, Hmaterial; reflexivity|].
  split; [rewrite HM2, HM; exact Hmaterial|]. split; [exact Htree|].
  split; [rewrite Hprim; exact Hpoint|]. split; [rewrite Hsrv; exact Hr|].
  rewrite Hsix. exact Hkm.
Qed.

(** Agreement depends on the layer lists, on the mesh, the material and
    the topology of the items, and on the texture slots only. *)
Lemma layers_agree_transfer st st' :
  mRitemLayer st' = mRitemLayer st ->
  (forall h e, mAllRitems st !! h = Some e ->
     exists e', mAllRitems st' !! h = Some e' /\
       RenderItem.Geo e' = RenderItem.Geo e /\ RenderItem.Mat e' = RenderItem.Mat e /\
       RenderItem.PrimitiveType e' = RenderItem.PrimitiveType e) ->
  (forall m mat, mMaterials st !! m = Some mat ->
     exists mat', mMaterials st' !! m = Some mat' /\
       Material.DiffuseSrvHeapIndex mat' = Material.DiffuseSrvHeapIndex mat) ->
  layers_agree st -> layers_agree st'.
Proof.
  intros Hl Hitems Hmats Hagree layer h Hh. rewrite Hl in Hh.
  destruct (Hagree layer h Hh) as (e & g & m & mat & He & Hg & Hm & Hmat & H1 & H2 & H3 & H4).
  destruct (Hitems h e He) as (e' & He' & Hg' & Hm' & Hp').
  destruct (Hmats m mat Hmat) as (mat' & Hmat' & Hsrv).
  exists e', g, m, mat'.
  split; [exact He'|]. split; [rewrite Hg'; exact Hg|]. split; [rewrite Hm'; exact Hm|].
  split; [exact Hmat'|]. split; [exact H1|]. split; [rewrite Hp'; exact H2|].
  rewrite Hsrv. split; [exact H3|exact H4].
Qed.

Lemma tick_ritem_kind e :
  RenderItem.Geo (tick_ritem e) = RenderItem.Geo e /\
  RenderItem.Mat (tick_ritem e) = RenderItem.Mat e /\
  RenderItem.PrimitiveType (tick_ritem e) = RenderItem.PrimitiveType e.
Proof. unfold tick_ritem. destruct (0 <? _); repeat split; reflexivity. Qed.

Lemma tick_animated_slot inp (mats : gmap string Material.t) m mat :
  mats !! m = Some mat ->
  exists mat', (tick_material <$> animated inp mats) !! m = Some mat' /\
    Material.DiffuseSrvHeapIndex mat' = Material.DiffuseSrvHeapIndex mat.
Proof.
  intros Hm. rewrite lookup_fmap. unfold animated.
  assert (Htick : forall a, Material.DiffuseSrvHeapIndex (tick_material a)
                            = Material.DiffuseSrvHeapIndex a).
  { intros a. unfold tick_material. destruct (0 <? _); reflexivity. }
  destruct (mats !! "water") as [w|] eqn:Hw.
  - destruct (decide (m = "water")) as [->|Hne].
    + rewrite lookup_insert_eq. eexists. split; [reflexivity|].
      rewrite Htick. rewrite Hw in Hm. injection Hm as <-. reflexivity.
    + rewrite lookup_insert_ne by congruence. rewrite Hm. eexists.
      split; [reflexivity|apply Htick].
  - rewrite Hm. eexists. split; [reflexivity|apply Htick].
Qed.

Lemma Update_layers_agree inp st st' waited :
  Update inp st = Some (st', waited) ->
  (layers_agree st -> layers_agree st') /\ mRitemLayer st' = mRitemLayer st.
Proof.
  rewrite Update_unfold. intros H. case_decide as Hslot; [|discriminate H].
  destruct (mFrameResources st !! Z.to_nat (next_slot st)) as [fr|] eqn:Hfr;
    [|discriminate H].
  cbn [mbind option_bind] in H.
  destruct (Update_writes inp _) as [s'|] eqn:Hw; [|discriminate H].
  cbn [mbind option_bind] in H. injection H as -> _.
  assert (Hc : CurrFrameResource (Update_selected inp (Z.to_nat (next_slot st)) st)
               = Some (Z.to_nat (next_slot st), fr)).
  { apply CurrFrameResource_Some. split; [reflexivity|exact Hfr]. }
  destruct (Update_writes_exact _ _ _ _ _ Hw Hc)
    as (fr1 & waves & w & ritem & g & geo & _ & _ & _ & _ & _ & _ & _
        & _ & _ & Hitems & Hmats & _ & _ & _ & _ & _ & _ & _ & _ & _ & _ & Hlay & _).
  change (mAllRitems (Update_selected inp (Z.to_nat (next_slot st)) st))
    with (mAllRitems st) in Hitems.
  change (mMaterials (Update_selected inp (Z.to_nat (next_slot st)) st))
    with (mMaterials st) in Hmats.
  change (mRitemLayer (Update_selected inp (Z.to_nat (next_slot st)) st))
    with (mRitemLayer st) in Hlay.
  split; [|exact Hlay].
  apply layers_agree_transfer; [exact Hlay| |].
  - intros h e He. exists (tick_ritem e).
    split; [rewrite Hitems, list_lookup_fmap, He; reflexivity|apply tick_ritem_kind].
  - intros m mat Hm. rewrite Hmats. apply tick_animated_slot. exact Hm.
Qed.

Lemma Draw_layers_agree inp st st' :
  Draw inp st = Some st' ->
  (layers_agree st -> layers_agree st') /\ mRitemLayer st' = mRitemLayer st.
Proof.
  intros H. apply Draw_spec in H as (p & fr & _ & _ & Hs & Hitems & Hmats).
  assert (Hlay : mRitemLayer st' = mRitemLayer st).
  { exact (f_equal (fun v => v.1.1.1.1.2) Hs). }
  split; [|exact Hlay].
  apply layers_agree_transfer; [exact Hlay| |].
  - intros h e He. exists e. rewrite Hitems. split; [exact He|]. repeat split; reflexivity.
  - intros m mat Hm. exists mat. rewrite Hmats. split; [exact Hm|reflexivity].
Qed.

Lemma run_frames_layers_agree inps : forall st st' log,
  run_frames inps st = Some (st', log) ->
  (layers_agree st -> layers_agree st') /\ mRitemLayer st' = mRitemLayer st.
Proof.
  induction inps as [|inp inps IH]; intros st st' log H; cbn [run_frames] in H.
  - injection H as <- _. split; [exact id|reflexivity].
  - destruct (frame inp st) as [s1|] eqn:Hf; [|discriminate H].
    cbn [mbind option_bind] in H.
    destruct (stamped_fence s1) as [f|]; [|discriminate H]. cbn [mbind option_bind] in H.
    destruct (run_frames inps s1) as [[s2 log']|] eqn:Hr; [|discriminate H].
    cbn [mbind option_bind] in H. injection H as <- _.
    unfold frame in Hf.
    destruct (Update inp st) as [[s0 waited]|] eqn:Hu; [|discriminate Hf].
    cbn [mbind option_bind] in Hf.
    destruct (Update_layers_agree _ _ _ _ Hu) as [A1 L1].
    destruct (Draw_layers_agree _ _ _ Hf) as [A2 L2].
    destruct (IH _ _ _ Hr) as [A3 L3].
    split; [intros A; apply A3, A2, A1, A|]. rewrite L3, L2, L1. reflexivity.
Qed.

(** X15: every draw call agrees with the pipeline objects. [BuildPSOs]
    finds the shaders it reads and [BuildDescriptorHeaps] the textures;
    and in every frame after [Initialize], at each of the 106 draw
    calls of the command list, the pipeline state is one [BuildPSOs]
    has created, of point topology type under a point list and of
    triangle type under a triangle list, with the tree-sprite input
    layout exactly when the tree-sprite mesh is bound; root parameter 0
    is the descriptor table and points to one of the seven descriptors
    [BuildDescriptorHeaps] has filled, the texture array exactly under
    the tree-sprite pipeline state; and root parameters 1, 2 and 3 are
    constant buffer views and are set. *)
Theorem frames_agree_with_pipeline (gen : GeneratedIndices) (st st1 st2 st3 : App)
    (inps : list FrameInput) (log : list (Z * Z)) (inp : FrameInput)
    (waited : option Z) (cmds : list Cmd) :
  mMaterials st = ∅ -> mAllRitems st = [] -> (forall l, mRitemLayer st l = []) ->
  mFrameResources st = [] ->
  Initialize_scene gen st = Some st1 ->
  run_frames inps st1 = Some (st2, log) ->
  Update inp st2 = Some (st3, waited) ->
  Draw_commands st3 = Some cmds ->
  exists psos heap,
    BuildPSOs BuildShadersAndInputLayouts = Some psos /\
    BuildDescriptorHeaps LoadTextures = Some heap /\
    Forall (draw_agrees BuildRootSignature psos heap) (pso_draws "" no_Bindings cmds) /\
    length (pso_draws "" no_Bindings cmds) = 106%nat.
Proof.
  intros HM Hnil Hlayers Hfrs Hinit Hrun Hupd Hcmds.
  destruct (Initialize_scene_built gen st HM Hnil Hlayers Hfrs)
    as (s1 & s2 & c & Hinit' & Hs2 & Hc & HM1 & Hit1 & _).
  rewrite Hinit' in Hinit. injection Hinit as <-.
  pose proof (layers_agree_built s1 c s2 Hc HM1) as A0.
  destruct (run_frames_layers_agree _ _ _ _ Hrun) as [A1 L1].
  destruct (Update_layers_agree _ _ _ _ Hupd) as [A2 L2].
  destruct pipeline_objects as (psos & heap & Hpsos & Hheap & Hp & Hh & _).
  exists psos, heap. split; [exact Hpsos|]. split; [exact Hheap|].
  destruct (Draw_commands_agree st3 cmds psos heap Hcmds (A2 (A1 A0)) Hp Hh) as [F L].
  split; [exact F|]. rewrite L. unfold drawn_items. rewrite L2, L1.
  change (mRitemLayer (BuildFrameResources s2)) with (mRitemLayer s2).
  destruct Hc as (_ & _ & _ & _ & _ & _ & _ & Hperm & _). cbn [fst snd] in Hperm.
  unfold drawn_items in Hperm. rewrite Hperm, length_seq.
  rewrite <- (length_fmap RenderItem.ObjCBIndex),
    (BuildRenderItems_numbered s1 s2 Hit1 Hs2), length_fmap.
  apply length_seq.
Qed.

(** The first frame of the application as its constructor leaves it. *)
Lemma frames_agree_with_pipeline_witness :
  exists st1 st3 waited cmds psos heap,
    Initialize_scene sample_indices new_App = Some st1 /\
    Update (sample_input 0 0) st1 = Some (st3, waited) /\
    Draw_commands st3 = Some cmds /\
    Forall (draw_agrees BuildRootSignature psos heap) (pso_draws "" no_Bindings cmds) /\
    length (pso_draws "" no_Bindings cmds) = 106%nat.
Proof.
  destruct (Initialize_scene_well_formed sample_indices new_App)
    as (s1 & s2 & c & Hinit & _ & _ & _ & _ & Hi & _ & Hwf);
    [reflexivity|reflexivity|reflexivity|reflexivity|].
  assert (Hidx : 0 <= mCurrFrameResourceIndex (BuildFrameResources s2) < 3).
  { rewrite Hi. change (0 <= 0 < 3). lia. }
  destruct (Update_is_Some (sample_input 0 0) _ Hwf Hidx) as (st3 & waited & Hu).
  destruct (next_slot_mod _ Hidx) as [_ Hnext].
  pose proof (Update_spec _ _ _ _ Hu) as (_ & _ & Hr & Hs).
  assert (Hwf3 : well_formed st3).
  { apply (well_formed_views (BuildFrameResources s2)); [|exact Hs|exact Hwf].
    exact (f_equal snd Hr). }
  assert (Hcur : mCurrFrameResource st3
                 = Some (Z.to_nat (next_slot (BuildFrameResources s2)))).
  { exact (f_equal (fun v => v.1.1.1.2) Hr). }
  assert (is_Some (mFrameResources st3 !! Z.to_nat (next_slot (BuildFrameResources s2))))
    as [fr Hfr].
  { apply lookup_lt_is_Some. rewrite (well_formed_length st3 Hwf3). lia. }
  assert (Hc : CurrFrameResource st3
               = Some (Z.to_nat (next_slot (BuildFrameResources s2)), fr)).
  { apply CurrFrameResource_Some. split; [exact Hcur|exact Hfr]. }
  destruct (Draw_is_Some (sample_input 0 0) st3 _ _ Hwf3 Hc) as [st4 Hd].
  destruct (Draw_submits _ _ _ Hd) as (cmds & Hcmds & _).
  destruct (frames_agree_with_pipeline sample_indices new_App (BuildFrameResources s2)
              (BuildFrameResources s2) st3 [] [] (sample_input 0 0) waited cmds)
    as (psos & heap & _ & _ & HF & HL);
    [reflexivity|reflexivity|reflexivity|reflexivity|exact Hinit|reflexivity
    |exact Hu|exact Hcmds|].
  exists (BuildFrameResources s2), st3, waited, cmds, psos, heap.
  split; [exact Hinit|]. split; [exact Hu|]. split; [exact Hcmds|].
  split; [exact HF|exact HL].
Defined.

End Pipeline.
(* ================================================================== *)
(** ** The pass constants and the clear colour *)

Section PassConstants.

(** The commands of the render items clear nothing. *)
Lemma DrawRenderItems_no_clear st p ritems : forall cs c,
  DrawRenderItems st p ritems = Some cs -> ClearRenderTargetView c ∉ cs.
Proof.
  induction ritems as [|h ritems IH]; intros cs c H; cbn [DrawRenderItems] in H.
  - injection H as <-. apply not_elem_of_nil.
  - destruct (DrawRenderItem st p h) as [c1|] eqn:Hc; [|discriminate H]. cbn in H.
    destruct (DrawRenderItems st p ritems) as [cs'|] eqn:Hcs; [|discriminate H]. cbn in H.
    injection H as <-. unfold DrawRenderItem in Hc.
    destruct (mAllRitems st !! h) as [ri|]; [|discriminate Hc]. cbn in Hc.
    destruct (RenderItem.Geo ri) as [g|]; [|discriminate Hc]. cbn in Hc.
    destruct (mGeometries st !! g) as [geo|]; [|discriminate Hc]. cbn in Hc.
    destruct (RenderItem.Mat ri) as [m|]; [|discriminate Hc]. cbn in Hc.
    destruct (mMaterials st !! m) as [mat|]; [|discriminate Hc]. cbn in Hc.
    injection Hc as <-. intros Hin.
    apply elem_of_app in Hin as [Hin|Hin]; [|by apply (IH cs' c)].
    repeat (apply elem_of_cons in Hin as [Hin|Hin]; [discriminate Hin|]).
    by apply elem_of_nil in Hin.
Qed.

(** The command list of a frame clears the back buffer once, with the
    fog colour of the pass constants, and binds the pass constants of
    the current frame resource. *)
Lemma Draw_commands_clear st cmds :
  Draw_commands st = Some cmds ->
  (forall c, ClearRenderTargetView c ∈ cmds <-> c = FogColor (mMainPassCB st)) /\
  exists p fr, CurrFrameResource st = Some (p, fr) /\
    SetGraphicsRootConstantBufferView 2 (PassCBAddress p) ∈ cmds.
Proof.
  unfold Draw_commands. intros H.
  destruct (CurrFrameResource st) as [[p fr]|]; [|discriminate H]. cbn in H.
  destruct (DrawRenderItems st p (mRitemLayer st Opaque)) as [c1|] eqn:H1;
    [|discriminate H].
  cbn in H.
  destruct (DrawRenderItems st p (mRitemLayer st AlphaTested)) as [c2|] eqn:H2;
    [|discriminate H].
  cbn in H.
  destruct (DrawRenderItems st p (mRitemLayer st AlphaTestedTreeSprites)) as [c3|] eqn:H3;
    [|discriminate H].
  cbn in H.
  destruct (DrawRenderItems st p (mRitemLayer st Transparent)) as [c4|] eqn:H4;
    [|discriminate H].
  cbn in H. injection H as <-. split.
  - intros c. split.
    + intros Hin.
      do 4 (apply elem_of_cons in Hin as [Hin|Hin]; [discriminate Hin|]).
      apply elem_of_cons in Hin as [Hin|Hin]; [by injection Hin as ->|].
      do 5 (apply elem_of_cons in Hin as [Hin|Hin]; [discriminate Hin|]).
      apply elem_of_app in Hin as [Hin|Hin];
        [by apply (DrawRenderItems_no_clear _ _ _ _ c H1) in Hin|].
      apply elem_of_cons in Hin as [Hin|Hin]; [discriminate Hin|].
      apply elem_of_app in Hin as [Hin|Hin];
        [by apply (DrawRenderItems_no_clear _ _ _ _ c H2) in Hin|].
      apply elem_of_cons in Hin as [Hin|Hin]; [discriminate Hin|].
      apply elem_of_app in Hin as [Hin|Hin];
        [by apply (DrawRenderItems_no_clear _ _ _ _ c H3) in Hin|].
      apply elem_of_cons in Hin as [Hin|Hin]; [discriminate Hin|].
      apply elem_of_app in Hin as [Hin|Hin];
        [by apply (DrawRenderItems_no_clear _ _ _ _ c H4) in Hin|].
      repeat (apply elem_of_cons in Hin as [Hin|Hin]; [discriminate Hin|]).
      by apply elem_of_nil in Hin.
    + intros ->. do 4 apply list_elem_of_further. apply list_elem_of_here.
  - exists p, fr. split; [reflexivity|].
    do 9 apply list_elem_of_further. apply list_elem_of_here.
Qed.

(** One frame. *)
Lemma frame_pass_constants inp st st' :
  frame inp st = Some st' ->
  exists p fr cmds,
    CurrFrameResource st' = Some (p, fr) /\
    Elements (PassCB fr) !! 0 = Some (pass_constants inp st) /\
    mMainPassCB st' = pass_constants inp st /\
    mCommandQueue st'
    = mCommandQueue st ++ [ExecuteCommandLists cmds; Present; Signal (mCurrentFence st + 1)] /\
    (forall c, ClearRenderTargetView c ∈ cmds <-> c = FogColor (mMainPassCB st)) /\
    SetGraphicsRootConstantBufferView 2 (PassCBAddress p) ∈ cmds.
Proof.
  unfold frame. intros H.
  destruct (Update inp st) as [[s waited]|] eqn:Hu; [|discriminate H].
  cbn [mbind option_bind] in H.
  rewrite Update_unfold in Hu. case_decide as Hslot; [|discriminate Hu].
  destruct (mFrameResources st !! Z.to_nat (next_slot st)) as [fr|] eqn:Hfr;
    [|discriminate Hu].
  cbn [mbind option_bind] in Hu.
  destruct (Update_writes inp _) as [s'|] eqn:Hw; [|discriminate Hu]. cbn in Hu.
  injection Hu as -> _.
  assert (Hc : CurrFrameResource (Update_selected inp (Z.to_nat (next_slot st)) st)
               = Some (Z.to_nat (next_slot st), fr)).
  { apply CurrFrameResource_Some. split; [reflexivity|exact Hfr]. }
  destruct (Update_writes_exact _ _ _ _ _ Hw Hc)
    as (fr1 & waves & w & ritem & g & geo & Hfrs & _ & _ & Hpass & _ & _ & _
        & _ & _ & _ & _ & Hmain & _ & _ & _ & _ & _ & Hcur & _ & Hcf & _ & _ & _ & Hq & _).
  change (pass_constants inp (Update_selected inp (Z.to_nat (next_slot st)) st))
    with (pass_constants inp st) in Hpass, Hmain.
  change (mCommandQueue s = mCommandQueue st) in Hq.
  change (mCurrentFence s = mCurrentFence st) in Hcf.
  pose proof H as Hd. apply Draw_exact in Hd as (p & fr2 & cmds & Hc2 & Hcmds & ->).
  destruct (Draw_commands_clear s cmds Hcmds) as (Hclear & p' & fr' & Hc' & Hbind).
  rewrite Hc2 in Hc'. injection Hc' as <- <-.
  pose proof Hc2 as Hc3. apply CurrFrameResource_Some in Hc3 as [Hp2 Hfr2].
  exists p, (set_Fence (mCurrentFence s + 1) fr2), cmds.
  split; [apply (CurrFrameResource_store p fr2 _ _ Hc2)|].
  split.
  { cbn [PassCB set_Fence].
    rewrite Hcur in Hp2. cbn in Hp2. injection Hp2 as <-.
    change (mFrameResources (Update_selected inp (Z.to_nat (next_slot st)) st))
      with (mFrameResources st) in Hfrs.
    rewrite Hfrs in Hfr2.
    rewrite list_lookup_insert_eq in Hfr2 by (eapply lookup_lt_Some; exact Hfr).
    injection Hfr2 as <-. rewrite Hpass. apply lookup_insert_eq. }
  split; [exact Hmain|].
  split; [cbn [mCommandQueue set_mCommandQueue]; rewrite Hq, Hcf; reflexivity|].
  split; [|exact Hbind].
  intros c. rewrite (Hclear c), Hmain. reflexivity.
Qed.

(** X16: the clear colour is the fog colour. No frame changes the fog
    colour of [mMainPassCB]; every command list a run of frames submits
    clears the back buffer with that colour and with no other; and
    after the run the pass constants in element 0 of the pass buffer of
    the current frame resource are those of the last frame: near and
    far plane 1 and 1000, the times of that frame's timer, the ambient
    light, and the same fog colour. *)
Theorem run_frames_fog_colour (inps : list FrameInput) : forall (st st' : App)
    (log : list (Z * Z)),
  run_frames inps st = Some (st', log) ->
  FogColor (mMainPassCB st') = FogColor (mMainPassCB st) /\
  (exists q, mCommandQueue st' = mCommandQueue st ++ q /\
     forall cmds, ExecuteCommandLists cmds ∈ q ->
       forall c, ClearRenderTargetView c ∈ cmds <-> c = FogColor (mMainPassCB st)) /\
  forall inp, list.last inps = Some inp ->
    exists p fr,
      CurrFrameResource st' = Some (p, fr) /\
      Elements (PassCB fr) !! 0
      = Some {| NearZ := 1; FarZ := 1000;
                pc_TotalTime := TotalTime (gt inp); pc_DeltaTime := DeltaTime (gt inp);
                AmbientLight := (125 # 100, 1 # 2, 35 # 100, 1)%Q;
                FogColor := FogColor (mMainPassCB st) |}.
Proof.
  induction inps as [|inp0 inps IH]; intros st st' log H; cbn [run_frames] in H.
  - injection H as <- _. split; [reflexivity|]. split.
    + exists []. split; [by rewrite app_nil_r|]. intros cmds Hin.
      by apply elem_of_nil in Hin.
    + intros inp Hl. discriminate Hl.
  - destruct (frame inp0 st) as [s1|] eqn:Hf; [|discriminate H].
    cbn [mbind option_bind] in H.
    destruct (stamped_fence s1) as [f|]; [|discriminate H]. cbn [mbind option_bind] in H.
    destruct (run_frames inps s1) as [[s2 log']|] eqn:Hr; [|discriminate H].
    cbn [mbind option_bind] in H. injection H as <- _.
    destruct (frame_pass_constants _ _ _ Hf)
      as (p & fr & cmds & Hc & Hpass & Hmain & Hq & Hclear & _).
    assert (Hfog : FogColor (mMainPassCB s1) = FogColor (mMainPassCB st)).
    { rewrite Hmain. reflexivity. }
    destruct (IH _ _ _ Hr) as (Hfog' & (q & Hq' & Hclear') & Hlast).
    split; [rewrite Hfog'; exact Hfog|]. split.
    + exists ([ExecuteCommandLists cmds; Present; Signal (mCurrentFence st + 1)] ++ q).
      split; [rewrite Hq', Hq, <- app_assoc; reflexivity|].
      intros cmds' Hin c. apply elem_of_app in Hin as [Hin|Hin].
      * apply elem_of_cons in Hin as [Hin|Hin]; [injection Hin as ->; apply Hclear|].
        apply elem_of_cons in Hin as [Hin|Hin]; [discriminate Hin|].
        apply elem_of_cons in Hin as [Hin|Hin]; [discriminate Hin|].
        by apply elem_of_nil in Hin.
      * rewrite <- Hfog. by apply Hclear'.
    + intros inp Hl. destruct inps as [|inp1 inps].
      * cbn in Hl. injection Hl as <-. cbn [run_frames] in Hr. injection Hr as <- _.
        exists p, fr. split; [exact Hc|exact Hpass].
      * rewrite <- Hfog. apply Hlast. exact Hl.
Qed.

(** Three frames of the scenario. *)
Lemma run_frames_fog_colour_witness :
  exists st',
    run_frames three_frames scenario_app = Some (st', [(1, 1); (2, 2); (0, 3)]) /\
    FogColor (mMainPassCB st') = (7 # 10, 7 # 10, 7 # 10, 1)%Q.
Proof.
  destruct scenario_three_frames as (st' & Hrun).
  exists st'. split; [exact Hrun|].
  destruct (run_frames_fog_colour _ _ _ _ Hrun) as (Hfog & _).
  rewrite Hfog. reflexivity.
Defined.

End PassConstants.
